(** * Subscription management backend: a shallow embedding of the Convex
      functions and the properties of its reference-number counter, rate
      limiter, credential cipher, audit log and approval workflow.

    The JavaScript values of the source are modelled as follows.
    - A string is its sequence of UTF-16 code units ([list Z], every unit in
      [0, 65536)); [String.length] is the length of that list.
    - A byte array ([Uint8Array]) is a [list Z] with every element in
      [0, 256); a store into it wraps modulo 256.
    - A thrown exception is the [Throw] branch of [Result]. *)

From Stdlib Require Import ZArith QArith List Lia Bool String Ascii DecimalString.
Import ListNotations.
Open Scope Z_scope.

(** ** Exceptions and results *)

Inductive exn : Type :=
| JsError (message : string)        (* throw new Error(message) *)
| InvalidCharacterError             (* DOMException of btoa / atob *)
| RangeError                        (* toISOString of an invalid date *)
| NotUniqueError                    (* .unique() found several documents *)
| MissingDocumentError              (* patch or delete of a missing document *)
| TypeError                         (* a property of undefined is read *)
| SchemaValidationError.            (* a write that does not fit the schema *)

Inductive Result (A : Type) : Type :=
| Ok (a : A)
| Throw (e : exn).
Arguments Ok {A} a.
Arguments Throw {A} e.

(** ** JavaScript strings *)

Module JsString.

Definition jsstring := list Z.

Definition code_unit (c : Z) : bool := (0 <=? c) && (c <? 65536).
Definition is_string (s : jsstring) : bool := forallb code_unit s.

(** A string literal of the source (ASCII only). *)
Definition lit (s : string) : jsstring :=
  map (fun a => Z.of_N (N_of_ascii a)) (list_ascii_of_string s).

Definition length (s : jsstring) : Z := Z.of_nat (List.length s).

(** [s.slice(0, n)] for [0 <= n]. *)
Definition slice0 (n : nat) (s : jsstring) : jsstring := firstn n s.

Definition high_surrogate (c : Z) : bool := (0xD800 <=? c) && (c <=? 0xDBFF).
Definition low_surrogate (c : Z) : bool := (0xDC00 <=? c) && (c <=? 0xDFFF).

(** Conversion to a sequence of Unicode scalar values (WebIDL USVString):
    a surrogate pair is one code point, an unpaired surrogate becomes
    U+FFFD. *)
Fixpoint code_points (s : jsstring) : list Z :=
  match s with
  | [] => []
  | c :: rest =>
      if high_surrogate c then
        match rest with
        | d :: rest' =>
            if low_surrogate d
            then (0x10000 + Z.shiftl (c - 0xD800) 10 + (d - 0xDC00)) :: code_points rest'
            else 0xFFFD :: code_points rest
        | [] => [0xFFFD]
        end
      else if low_surrogate c then 0xFFFD :: code_points rest
      else c :: code_points rest
  end.

(** The code units of one code point. *)
Definition of_code_point (cp : Z) : jsstring :=
  if cp <? 0x10000 then [cp]
  else [0xD800 + Z.shiftr (cp - 0x10000) 10; 0xDC00 + Z.land (cp - 0x10000) 0x3FF].

Definition of_code_points (cps : list Z) : jsstring := flat_map of_code_point cps.

(** No unpaired surrogate, every unit a 16-bit value. *)
Fixpoint well_formed (s : jsstring) : bool :=
  match s with
  | [] => true
  | c :: rest =>
      code_unit c &&
      (if high_surrogate c then
         match rest with
         | d :: rest' => low_surrogate d && well_formed rest'
         | [] => false
         end
       else negb (low_surrogate c) && well_formed rest)
  end.

End JsString.
Import JsString.

(** ** UTF-8: [TextEncoder.encode] and [TextDecoder.decode] *)

Module Utf8.

(** One code point to bytes (Encoding Standard, UTF-8 encoder). *)
Definition encode_code_point (cp : Z) : list Z :=
  if cp <=? 0x7F then [cp]
  else if cp <=? 0x7FF then
    [Z.shiftr cp 6 + 0xC0; Z.lor 0x80 (Z.land cp 0x3F)]
  else if cp <=? 0xFFFF then
    [Z.shiftr cp 12 + 0xE0;
     Z.lor 0x80 (Z.land (Z.shiftr cp 6) 0x3F);
     Z.lor 0x80 (Z.land cp 0x3F)]
  else
    [Z.shiftr cp 18 + 0xF0;
     Z.lor 0x80 (Z.land (Z.shiftr cp 12) 0x3F);
     Z.lor 0x80 (Z.land (Z.shiftr cp 6) 0x3F);
     Z.lor 0x80 (Z.land cp 0x3F)].

(** [new TextEncoder().encode(s)] *)
Definition TextEncoder_encode (s : jsstring) : list Z :=
  flat_map encode_code_point (code_points s).

(** State of the UTF-8 decoder of the Encoding Standard. *)
Record decoder : Type := mkDecoder {
  d_code_point : Z;
  d_seen : Z;
  d_needed : Z;
  d_lower : Z;
  d_upper : Z
}.

Definition decoder_init : decoder := mkDecoder 0 0 0 0x80 0xBF.

(** A byte read while no sequence is open. *)
Definition lead_byte (b : Z) : decoder * list Z :=
  if (0 <=? b) && (b <=? 0x7F) then (decoder_init, [b])
  else if (0xC2 <=? b) && (b <=? 0xDF) then
    (mkDecoder (Z.land b 0x1F) 0 1 0x80 0xBF, [])
  else if (0xE0 <=? b) && (b <=? 0xEF) then
    (mkDecoder (Z.land b 0xF) 0 2
       (if b =? 0xE0 then 0xA0 else 0x80)
       (if b =? 0xED then 0x9F else 0xBF), [])
  else if (0xF0 <=? b) && (b <=? 0xF4) then
    (mkDecoder (Z.land b 0x7) 0 3
       (if b =? 0xF0 then 0x90 else 0x80)
       (if b =? 0xF4 then 0x8F else 0xBF), [])
  else (decoder_init, [0xFFFD]).

(** One byte; the output is the code points emitted, U+FFFD for an error.
    A byte that breaks an open sequence is read again as a lead byte. *)
Definition step (st : decoder) (b : Z) : decoder * list Z :=
  if d_needed st =? 0 then lead_byte b
  else if (b <? d_lower st) || (d_upper st <? b) then
    let '(st', out) := lead_byte b in (st', 0xFFFD :: out)
  else
    let cp := Z.lor (Z.shiftl (d_code_point st) 6) (Z.land b 0x3F) in
    if d_seen st + 1 =? d_needed st then (decoder_init, [cp])
    else (mkDecoder cp (d_seen st + 1) (d_needed st) 0x80 0xBF, []).

Fixpoint run (st : decoder) (bytes : list Z) : list Z :=
  match bytes with
  | [] => if d_needed st =? 0 then [] else [0xFFFD]
  | b :: rest => let '(st', out) := step st b in out ++ run st' rest
  end.

(** The byte order mark is dropped ([ignoreBOM] is false by default). *)
Definition strip_bom (cps : list Z) : list Z :=
  match cps with
  | c :: rest => if c =? 0xFEFF then rest else cps
  | [] => []
  end.

(** [new TextDecoder().decode(bytes)] *)
Definition TextDecoder_decode (bytes : list Z) : jsstring :=
  of_code_points (strip_bom (run decoder_init bytes)).

End Utf8.

(** ** Base64: [btoa] and [atob] *)

Module Base64.

Definition alphabet : list Z :=
  lit "ABCDEFGHIJKLMNOPQRSTUVWXYZabcdefghijklmnopqrstuvwxyz0123456789+/".

Definition pad : Z := 61. (* '=' *)

Definition char_of_sextet (n : Z) : Z := nth (Z.to_nat n) alphabet 0.

Definition sextet_of_char (c : Z) : option Z :=
  if (65 <=? c) && (c <=? 90) then Some (c - 65)
  else if (97 <=? c) && (c <=? 122) then Some (c - 97 + 26)
  else if (48 <=? c) && (c <=? 57) then Some (c - 48 + 52)
  else if c =? 43 then Some 62
  else if c =? 47 then Some 63
  else None.

Fixpoint encode (bytes : list Z) : list Z :=
  match bytes with
  | [] => []
  | [x] =>
      [char_of_sextet (Z.shiftr x 2);
       char_of_sextet (Z.shiftl (Z.land x 3) 4);
       pad; pad]
  | [x; y] =>
      [char_of_sextet (Z.shiftr x 2);
       char_of_sextet (Z.lor (Z.shiftl (Z.land x 3) 4) (Z.shiftr y 4));
       char_of_sextet (Z.shiftl (Z.land y 15) 2);
       pad]
  | x :: y :: z :: rest =>
      char_of_sextet (Z.shiftr x 2) ::
      char_of_sextet (Z.lor (Z.shiftl (Z.land x 3) 4) (Z.shiftr y 4)) ::
      char_of_sextet (Z.lor (Z.shiftl (Z.land y 15) 2) (Z.shiftr z 6)) ::
      char_of_sextet (Z.land z 63) :: encode rest
  end.

(** [btoa(s)]: every character must be at most U+00FF. *)
Definition btoa (s : jsstring) : Result jsstring :=
  if forallb (fun c => c <=? 0xFF) s then Ok (encode s)
  else Throw InvalidCharacterError.

Definition ascii_whitespace (c : Z) : bool :=
  (c =? 9) || (c =? 10) || (c =? 12) || (c =? 13) || (c =? 32).

(** Up to two trailing '=' are removed when the length is a multiple of 4. *)
Fixpoint strip_end (data : list Z) : list Z :=
  match data with
  | [] => []
  | [p] => if p =? pad then [] else [p]
  | [p; q] =>
      if q =? pad then (if p =? pad then [] else [p]) else [p; q]
  | p :: rest => p :: strip_end rest
  end.

Definition strip_padding (data : list Z) : list Z :=
  if Z.of_nat (List.length data) mod 4 =? 0 then strip_end data else data.

Fixpoint sextets (data : list Z) : option (list Z) :=
  match data with
  | [] => Some []
  | c :: rest =>
      match sextet_of_char c, sextets rest with
      | Some n, Some ns => Some (n :: ns)
      | _, _ => None
      end
  end.

(** The 24-bit buffer of four sextets gives three bytes; a rest of two or
    three sextets gives one or two bytes, its low bits are dropped. *)
Fixpoint bytes_of_sextets (ns : list Z) : list Z :=
  match ns with
  | a :: b :: c :: d :: rest =>
      let buf := Z.lor (Z.shiftl (Z.lor (Z.shiftl (Z.lor (Z.shiftl a 6) b) 6) c) 6) d in
      Z.land (Z.shiftr buf 16) 0xFF :: Z.land (Z.shiftr buf 8) 0xFF ::
      Z.land buf 0xFF :: bytes_of_sextets rest
  | [a; b; c] =>
      let buf := Z.shiftr (Z.lor (Z.shiftl (Z.lor (Z.shiftl a 6) b) 6) c) 2 in
      [Z.land (Z.shiftr buf 8) 0xFF; Z.land buf 0xFF]
  | [a; b] =>
      let buf := Z.shiftr (Z.lor (Z.shiftl a 6) b) 4 in
      [Z.land buf 0xFF]
  | _ => []
  end.

(** [atob(data)] (forgiving-base64 decode of the Infra Standard). *)
Definition atob (data : jsstring) : Result jsstring :=
  let data := filter (fun c => negb (ascii_whitespace c)) data in
  let data := strip_padding data in
  if Z.of_nat (List.length data) mod 4 =? 1 then Throw InvalidCharacterError
  else match sextets data with
       | Some ns => Ok (bytes_of_sextets ns)
       | None => Throw InvalidCharacterError
       end.

End Base64.

(** ** convex/lib/encryption.ts *)

Module Encryption.
Import Utf8 Base64.

Definition key_error : exn :=
  JsError "Encryption key must be at least 32 characters".

(** A store into a [Uint8Array]. *)
Definition to_uint8 (x : Z) : Z := x mod 256.

(** [a[i]] for a byte array, [undefined] (0 under [^]) out of range. *)
Definition byte_at (a : list Z) (i : nat) : Z := nth i a 0.

(** The body of both loops:
    [out[i] = src[i] ^ keyBytes[i % keyBytes.length] ^ iv[i % iv.length]]. *)
Definition xor_at (keyBytes iv : list Z) (i : nat) (x : Z) : Z :=
  to_uint8
    (Z.lxor (Z.lxor x (byte_at keyBytes (i mod List.length keyBytes)))
            (byte_at iv (i mod List.length iv))).

Fixpoint xor_from (keyBytes iv : list Z) (i : nat) (src : list Z) : list Z :=
  match src with
  | [] => []
  | x :: rest => xor_at keyBytes iv i x :: xor_from keyBytes iv (S i) rest
  end.

(** [encrypt(plaintext, key)]; [iv] is the result of
    [crypto.getRandomValues(new Uint8Array(16))]. *)
Definition encrypt (iv : list Z) (plaintext key : jsstring) : Result jsstring :=
  if (JsString.length key =? 0) || (JsString.length key <? 32) then Throw key_error
  else
    let textBytes := TextEncoder_encode plaintext in
    let keyBytes := TextEncoder_encode (slice0 32 key) in
    let encrypted := xor_from keyBytes iv 0 textBytes in
    let combined := iv ++ encrypted in
    btoa combined.

(** [decrypt(ciphertext, key)] *)
Definition decrypt (ciphertext key : jsstring) : Result jsstring :=
  if (JsString.length key =? 0) || (JsString.length key <? 32) then Throw key_error
  else
    match atob ciphertext with
    | Throw e => Throw e
    | Ok combined =>
        let iv := firstn 16 combined in
        let encrypted := skipn 16 combined in
        let keyBytes := TextEncoder_encode (slice0 32 key) in
        let decrypted := xor_from keyBytes iv 0 encrypted in
        Ok (TextDecoder_decode decrypted)
    end.

(** [isEncrypted(value)] *)
Definition isEncrypted (value : jsstring) : bool :=
  if (JsString.length value =? 0) || (JsString.length value <? 24) then false
  else match atob value with
       | Ok decoded => 16 <? JsString.length decoded
       | Throw _ => false
       end.

End Encryption.
Import Utf8 Base64 Encryption.

(** ** JavaScript numbers

    A [number] of the source that is not known to be an integer: the cost
    of a subscription, a number of days.  A finite double is the rational
    it denotes.  Counters, timestamps and lengths are integers ([Z]); they
    stay far below 2^53, where the arithmetic of doubles is exact. *)

Module JsNumber.

Inductive number : Type :=
| NaN
| NegInf
| PosInf
| Fin (q : Q).

Definition of_Z (z : Z) : number := Fin (inject_Z z).

Definition isNaN (n : number) : bool :=
  match n with NaN => true | _ => false end.

(** [a <= b] *)
Definition le (a b : number) : bool :=
  match a, b with
  | NaN, _ | _, NaN => false
  | NegInf, _ => true
  | _, PosInf => true
  | PosInf, _ => false
  | _, NegInf => false
  | Fin x, Fin y => Qle_bool x y
  end.

(** [a < b] *)
Definition lt (a b : number) : bool :=
  match a, b with
  | NaN, _ | _, NaN => false
  | PosInf, _ => false
  | _, NegInf => false
  | NegInf, _ => true
  | _, PosInf => true
  | Fin x, Fin y => negb (Qle_bool y x)
  end.

(** [a >= b] and [a > b] *)
Definition ge (a b : number) : bool := le b a.
Definition gt (a b : number) : bool := lt b a.

End JsNumber.
Import JsNumber.

(** ** String methods *)

Module JsStringOps.

(** WhiteSpace and LineTerminator of ECMAScript, as [trim] removes them. *)
Definition is_whitespace (c : Z) : bool :=
  (c =? 0x9) || (c =? 0xA) || (c =? 0xB) || (c =? 0xC) || (c =? 0xD) ||
  (c =? 0x20) || (c =? 0xA0) || (c =? 0x1680) ||
  ((0x2000 <=? c) && (c <=? 0x200A)) ||
  (c =? 0x2028) || (c =? 0x2029) || (c =? 0x202F) || (c =? 0x205F) ||
  (c =? 0x3000) || (c =? 0xFEFF).

Fixpoint trimStart (s : jsstring) : jsstring :=
  match s with
  | c :: rest => if is_whitespace c then trimStart rest else s
  | [] => []
  end.

Definition trimEnd (s : jsstring) : jsstring := rev (trimStart (rev s)).

Definition trim (s : jsstring) : jsstring := trimEnd (trimStart s).

(** [s.replace(/c/g, by)] for a single character [c]. *)
Definition replace_all (c : Z) (by_ : jsstring) (s : jsstring) : jsstring :=
  flat_map (fun x => if x =? c then by_ else [x]) s.

(** [s.split(sep)] for a single character [sep]; the pieces, never empty. *)
Fixpoint split (sep : Z) (s : jsstring) : list jsstring :=
  match s with
  | [] => [[]]
  | c :: rest =>
      if c =? sep then [] :: split sep rest
      else match split sep rest with
           | piece :: pieces => (c :: piece) :: pieces
           | [] => [[c]]
           end
  end.

Definition eqb (a b : jsstring) : bool :=
  if list_eq_dec Z.eq_dec a b then true else false.

(** [n.toString()] for an integer. *)
Definition decimal (n : Z) : string := NilZero.string_of_int (Z.to_int n).

(** [s.padStart(width, "0")] *)
Definition padStart0 (width : nat) (s : jsstring) : jsstring :=
  repeat 48 (width - List.length s) ++ s.

End JsStringOps.
Import JsStringOps.

(** What the model takes from the platform without a definition: the case
    mapping of Unicode ([String.prototype.toLowerCase] and [toUpperCase]),
    the date parser ([new Date(string)], the time value or [None] for an
    invalid date) and bcrypt. *)
Class Platform : Type := {
  toLowerCase : jsstring -> jsstring;
  toUpperCase : jsstring -> jsstring;
  Date_parse : jsstring -> option Z;
  bcrypt_compareSync : jsstring -> jsstring -> bool;
  bcrypt_hashSync : jsstring -> Z -> jsstring
}.

(** ** Dates (ECMAScript time values, in milliseconds, UTC) *)

Module JsDate.

Definition msPerDay : Z := 86400000.

Definition Day (t : Z) : Z := t / msPerDay.
Definition TimeWithinDay (t : Z) : Z := t mod msPerDay.

Definition leap (y : Z) : bool :=
  ((y mod 4 =? 0) && negb (y mod 100 =? 0)) || (y mod 400 =? 0).

Definition DaysInYear (y : Z) : Z := if leap y then 366 else 365.

Definition DayFromYear (y : Z) : Z :=
  365 * (y - 1970) + (y - 1969) / 4 - (y - 1901) / 100 + (y - 1601) / 400.

Definition in_year (y day : Z) : bool :=
  (DayFromYear y <=? day) && (day <? DayFromYear (y + 1)).

(** The year of a day number: the one year [y] with
    [DayFromYear y <= day < DayFromYear (y + 1)], found next to the
    estimate of 146097 days for 400 years. *)
Definition YearFromDay (day : Z) : Z :=
  let y := 1970 + (400 * day) / 146097 in
  if in_year y day then y
  else if in_year (y - 1) day then y - 1
  else y + 1.

Definition YearFromTime (t : Z) : Z := YearFromDay (Day t).

Definition DayWithinYear (t : Z) : Z := Day t - DayFromYear (YearFromTime t).

Definition InLeapYear (t : Z) : Z := if leap (YearFromTime t) then 1 else 0.

(** The number of days of the year before month [m] (0 = January). *)
Definition month_start (lp m : Z) : Z :=
  match m with
  | 0 => 0
  | 1 => 31
  | 2 => 59 + lp
  | 3 => 90 + lp
  | 4 => 120 + lp
  | 5 => 151 + lp
  | 6 => 181 + lp
  | 7 => 212 + lp
  | 8 => 243 + lp
  | 9 => 273 + lp
  | 10 => 304 + lp
  | 11 => 334 + lp
  | _ => 365 + lp
  end.

Definition MonthFromTime (t : Z) : Z :=
  let d := DayWithinYear t in
  let lp := InLeapYear t in
  if d <? 31 then 0
  else if d <? 59 + lp then 1
  else if d <? 90 + lp then 2
  else if d <? 120 + lp then 3
  else if d <? 151 + lp then 4
  else if d <? 181 + lp then 5
  else if d <? 212 + lp then 6
  else if d <? 243 + lp then 7
  else if d <? 273 + lp then 8
  else if d <? 304 + lp then 9
  else if d <? 334 + lp then 10
  else 11.

Definition DateFromTime (t : Z) : Z :=
  DayWithinYear t - month_start (InLeapYear t) (MonthFromTime t) + 1.

Definition HourFromTime (t : Z) : Z := (t / 3600000) mod 24.
Definition MinFromTime (t : Z) : Z := (t / 60000) mod 60.
Definition SecFromTime (t : Z) : Z := (t / 1000) mod 60.
Definition msFromTime (t : Z) : Z := t mod 1000.

(** [MakeDay(year, month, date)]: the day number of the first day of the
    month, plus [date - 1]. *)
Definition MakeDay (year month date : Z) : Z :=
  let ym := year + month / 12 in
  let mn := month mod 12 in
  DayFromYear ym + month_start (if leap ym then 1 else 0) mn + date - 1.

Definition MakeDate (day time : Z) : Z := day * msPerDay + time.

(** [TimeClip]: a time value out of range is [NaN], here [None]. *)
Definition TimeClip (t : Z) : option Z :=
  if Z.abs t <=? 8640000000000000 then Some t else None.

(** A [Date] object holds a time value or is invalid. *)
Definition Date : Type := option Z.

Definition getFullYear (t : Z) : Z := YearFromTime t.
Definition getMonth (t : Z) : Z := MonthFromTime t.

(** [new Date(d.setMonth(month))] for a valid date [d] of time value [t]. *)
Definition setMonth (t month : Z) : Date :=
  TimeClip (MakeDate (MakeDay (YearFromTime t) month (DateFromTime t)) (TimeWithinDay t)).

(** [new Date(d.setFullYear(year))] *)
Definition setFullYear (t year : Z) : Date :=
  TimeClip (MakeDate (MakeDay year (MonthFromTime t) (DateFromTime t)) (TimeWithinDay t)).

Definition digits (width : nat) (n : Z) : jsstring :=
  padStart0 width (lit (decimal n)).

(** The year of [toISOString]: four digits, or a sign and six digits. *)
Definition iso_year (y : Z) : jsstring :=
  if (0 <=? y) && (y <=? 9999) then digits 4 y
  else if y <? 0 then lit "-" ++ digits 6 (- y)
  else lit "+" ++ digits 6 y.

Definition iso_date (t : Z) : jsstring :=
  iso_year (YearFromTime t) ++ lit "-" ++ digits 2 (MonthFromTime t + 1) ++
  lit "-" ++ digits 2 (DateFromTime t).

Definition iso_time (t : Z) : jsstring :=
  digits 2 (HourFromTime t) ++ lit ":" ++ digits 2 (MinFromTime t) ++ lit ":" ++
  digits 2 (SecFromTime t) ++ lit "." ++ digits 3 (msFromTime t) ++ lit "Z".

(** [d.toISOString()]; a [RangeError] for an invalid date. *)
Definition toISOString (d : Date) : Result jsstring :=
  match d with
  | Some t => Ok (iso_date t ++ lit "T" ++ iso_time t)
  | None => Throw RangeError
  end.

(** [d.toISOString().split("T")[0]] *)
Definition toISODate (d : Date) : Result jsstring :=
  match toISOString d with
  | Ok s => Ok (hd [] (split 84 s))
  | Throw e => Throw e
  end.

End JsDate.
Import JsDate.

(** ** The document store of Convex

    A table is the list of its documents in the order of insertion, each
    with its identifier.  The table of subscription requests is a parameter
    of the store: the repository holds two versions of the submission
    module, with different schemas of a request. *)

Module Convex.

(** Identifiers of documents. *)
Abbreviation Id := Z (only parsing).
Definition Table (D : Type) : Type := list (Id * D).

Inductive BillingCycle : Type := monthly | quarterly | half_yearly | yearly.
Inductive PaymentMethod : Type :=
  credit_card | debit_card | bank_transfer | upi | other_method.
Inductive SubscriptionStatus : Type :=
  sub_active | sub_expired | sub_cancelled | sub_pending.
Inductive RequestStatus : Type := pending | approved | rejected.
Inductive AuditAction : Type := viewed | copied | updated.
Inductive EntityType : Type := entity_subscription | entity_request.

(** The runtime value of a billing cycle. *)
Definition billingCycle_string (c : BillingCycle) : jsstring :=
  match c with
  | monthly => lit "monthly"
  | quarterly => lit "quarterly"
  | half_yearly => lit "half-yearly"
  | yearly => lit "yearly"
  end.

Record Category : Type := mkCategory {
  cat_name : jsstring;
  cat_description : jsstring;
  cat_color : jsstring
}.

Record Currency : Type := mkCurrency {
  cur_code : jsstring;
  cur_name : jsstring;
  cur_symbol : jsstring;
  cur_exchangeRate : number;
  cur_isActive : bool
}.

Record Subscription : Type := mkSubscription {
  sub_referenceNumber : jsstring;
  sub_name : jsstring;
  sub_description : jsstring;
  sub_provider : jsstring;
  sub_categoryId : Id;
  sub_cost : number;
  sub_currencyId : Id;
  sub_billingCycle : BillingCycle;
  sub_nextRenewalDate : jsstring;
  sub_paymentMethod : PaymentMethod;
  sub_status : SubscriptionStatus;
  sub_notificationEnabled : bool;
  sub_notificationDaysBefore : number
}.

Record Credential : Type := mkCredential {
  cred_subscriptionId : Id;
  cred_username : jsstring;
  cred_password : jsstring;
  cred_notes : option jsstring
}.

Record AuditLog : Type := mkAuditLog {
  log_subscriptionId : Id;
  log_subscriptionName : jsstring;
  log_action : AuditAction;
  log_performedBy : jsstring;
  log_performedAt : jsstring
}.

Record User : Type := mkUser {
  user_email : jsstring;
  user_name : jsstring;
  user_passwordHash : jsstring;
  user_role : jsstring
}.

Record Counter : Type := mkCounter {
  counter_name : jsstring;
  counter_value : Z
}.

Record RateLimit : Type := mkRateLimit {
  rl_key : jsstring;
  rl_windowStart : Z;
  rl_count : Z
}.

Record Db (Req : Type) : Type := mkDb {
  categories : Table Category;
  currencies : Table Currency;
  subscriptions : Table Subscription;
  credentials : Table Credential;
  subscriptionRequests : Table Req;
  auditLogs : Table AuditLog;
  users : Table User;
  counters : Table Counter;
  rateLimits : Table RateLimit;
  nextId : Id
}.
Arguments mkDb {Req}.
Arguments categories {Req}.
Arguments currencies {Req}.
Arguments subscriptions {Req}.
Arguments credentials {Req}.
Arguments subscriptionRequests {Req}.
Arguments auditLogs {Req}.
Arguments users {Req}.
Arguments counters {Req}.
Arguments rateLimits {Req}.
Arguments nextId {Req}.

(** A job handed to [ctx.scheduler.runAfter]. *)
Inductive Job : Type :=
| sendNewRequestNotification
    (requestName referenceNumber requesterName requesterDepartment : jsstring)
    (cost : number) (currencySymbol : jsstring)
| sendRequestApprovalNotification
    (requestName referenceNumber : jsstring) (status : RequestStatus)
    (adminNotes : option jsstring) (recipientEmail requesterName : jsstring).

(** The state a function runs on: the database, the jobs scheduled, the
    lines of [console.error], and how many times the clock and the random
    source were read in this call. *)
Record World (Req : Type) : Type := mkWorld {
  db : Db Req;
  scheduled : list Job;
  console : list string;
  ticks : nat;
  draws : nat
}.
Arguments mkWorld {Req}.
Arguments db {Req}.
Arguments scheduled {Req}.
Arguments console {Req}.
Arguments ticks {Req}.
Arguments draws {Req}.

(** What a call reads from outside: the clock (the value of the k-th read
    of [Date.now()] or [new Date()], in milliseconds), the random source
    (the k-th result of [crypto.getRandomValues] on 16 bytes), the
    environment variable ENCRYPTION_KEY and whether the scheduler accepts
    jobs. *)
Record Env : Type := mkEnv {
  env_clock : nat -> Z;
  env_random : nat -> list Z;
  env_ENCRYPTION_KEY : option jsstring;
  env_scheduler_up : bool
}.

(** The monad of handlers: state and exceptions.  The state at the moment
    of a throw is kept, so that what was written before it can be told. *)
Definition M (Req A : Type) : Type := Env -> World Req -> Result A * World Req.

Definition ret {Req A} (a : A) : M Req A := fun _ w => (Ok a, w).

Definition bind {Req A B} (m : M Req A) (k : A -> M Req B) : M Req B :=
  fun env w =>
    match m env w with
    | (Ok a, w') => k a env w'
    | (Throw e, w') => (Throw e, w')
    end.

Definition throw {Req A} (e : exn) : M Req A := fun _ w => (Throw e, w).

Definition throwError {Req A} (message : string) : M Req A :=
  throw (JsError message).

(** [try { m } catch (e) { h(e) }] *)
Definition try_catch {Req A} (m : M Req A) (h : exn -> M Req A) : M Req A :=
  fun env w =>
    match m env w with
    | (Ok a, w') => (Ok a, w')
    | (Throw e, w') => h e env w'
    end.

Definition lift {Req A} (r : Result A) : M Req A := fun _ w => (r, w).

Definition read_db {Req} : M Req (Db Req) := fun _ w => (Ok (db w), w).

Definition write_db {Req} (f : Db Req -> Db Req) : M Req unit :=
  fun _ w => (Ok tt, mkWorld (f (db w)) (scheduled w) (console w) (ticks w) (draws w)).

Definition read_env {Req} : M Req Env := fun env w => (Ok env, w).

(** [Date.now()], also the time value of [new Date()]. *)
Definition Date_now {Req} : M Req Z :=
  fun env w =>
    (Ok (env_clock env (ticks w)),
     mkWorld (db w) (scheduled w) (console w) (S (ticks w)) (draws w)).

(** [crypto.getRandomValues(new Uint8Array(16))] *)
Definition getRandomValues {Req} : M Req (list Z) :=
  fun env w =>
    (Ok (env_random env (draws w)),
     mkWorld (db w) (scheduled w) (console w) (ticks w) (S (draws w))).

Definition console_error {Req} (line : string) : M Req unit :=
  fun _ w => (Ok tt, mkWorld (db w) (scheduled w) (line :: console w) (ticks w) (draws w)).

(** [ctx.scheduler.runAfter(0, job)] *)
Definition scheduler_runAfter {Req} (job : Job) : M Req unit :=
  fun env w =>
    if env_scheduler_up env
    then (Ok tt, mkWorld (db w) (scheduled w ++ [job]) (console w) (ticks w) (draws w))
    else (Throw (JsError "Failed to schedule function"), w).

(** A table of the store: how to read it and how to replace it. *)
Record TableRef (Req D : Type) : Type := mkTableRef {
  t_get : Db Req -> Table D;
  t_set : Table D -> Db Req -> Db Req
}.
Arguments t_get {Req D}.
Arguments t_set {Req D}.

Definition Categories {Req} : TableRef Req Category :=
  mkTableRef Req Category categories
    (fun t d => mkDb t (currencies d) (subscriptions d) (credentials d)
                  (subscriptionRequests d) (auditLogs d) (users d) (counters d)
                  (rateLimits d) (nextId d)).
Definition Currencies {Req} : TableRef Req Currency :=
  mkTableRef Req Currency currencies
    (fun t d => mkDb (categories d) t (subscriptions d) (credentials d)
                  (subscriptionRequests d) (auditLogs d) (users d) (counters d)
                  (rateLimits d) (nextId d)).
Definition Subscriptions {Req} : TableRef Req Subscription :=
  mkTableRef Req Subscription subscriptions
    (fun t d => mkDb (categories d) (currencies d) t (credentials d)
                  (subscriptionRequests d) (auditLogs d) (users d) (counters d)
                  (rateLimits d) (nextId d)).
Definition Credentials {Req} : TableRef Req Credential :=
  mkTableRef Req Credential credentials
    (fun t d => mkDb (categories d) (currencies d) (subscriptions d) t
                  (subscriptionRequests d) (auditLogs d) (users d) (counters d)
                  (rateLimits d) (nextId d)).
Definition SubscriptionRequests {Req} : TableRef Req Req :=
  mkTableRef Req Req subscriptionRequests
    (fun t d => mkDb (categories d) (currencies d) (subscriptions d) (credentials d)
                  t (auditLogs d) (users d) (counters d)
                  (rateLimits d) (nextId d)).
Definition AuditLogs {Req} : TableRef Req AuditLog :=
  mkTableRef Req AuditLog auditLogs
    (fun t d => mkDb (categories d) (currencies d) (subscriptions d) (credentials d)
                  (subscriptionRequests d) t (users d) (counters d)
                  (rateLimits d) (nextId d)).
Definition Users {Req} : TableRef Req User :=
  mkTableRef Req User users
    (fun t d => mkDb (categories d) (currencies d) (subscriptions d) (credentials d)
                  (subscriptionRequests d) (auditLogs d) t (counters d)
                  (rateLimits d) (nextId d)).
Definition Counters {Req} : TableRef Req Counter :=
  mkTableRef Req Counter counters
    (fun t d => mkDb (categories d) (currencies d) (subscriptions d) (credentials d)
                  (subscriptionRequests d) (auditLogs d) (users d) t
                  (rateLimits d) (nextId d)).
Definition RateLimits {Req} : TableRef Req RateLimit :=
  mkTableRef Req RateLimit rateLimits
    (fun t d => mkDb (categories d) (currencies d) (subscriptions d) (credentials d)
                  (subscriptionRequests d) (auditLogs d) (users d) (counters d)
                  t (nextId d)).

Definition fresh_id {Req} (d : Db Req) : Db Req :=
  mkDb (categories d) (currencies d) (subscriptions d) (credentials d)
    (subscriptionRequests d) (auditLogs d) (users d) (counters d)
    (rateLimits d) (nextId d + 1).

(** Operations on one table. *)
Definition lookup {D} (t : Table D) (id : Id) : option D :=
  match find (fun r => fst r =? id) t with
  | Some r => Some (snd r)
  | None => None
  end.

Definition update_row {D} (id : Id) (f : D -> D) (t : Table D) : Table D :=
  map (fun r => if fst r =? id then (fst r, f (snd r)) else r) t.

Definition remove_row {D} (id : Id) (t : Table D) : Table D :=
  filter (fun r => negb (fst r =? id)) t.

Definition select {D} (p : D -> bool) (t : Table D) : Table D :=
  filter (fun r => p (snd r)) t.

(** [ctx.db.get(id)] *)
Definition db_get {Req D} (T : TableRef Req D) (id : Id) : M Req (option D) :=
  fun _ w => (Ok (lookup (t_get T (db w)) id), w).

(** [ctx.db.insert(table, doc)] *)
Definition db_insert {Req D} (T : TableRef Req D) (doc : D) : M Req Id :=
  fun _ w =>
    let id := nextId (db w) in
    (Ok id,
     mkWorld (fresh_id (t_set T (t_get T (db w) ++ [(id, doc)]) (db w)))
       (scheduled w) (console w) (ticks w) (draws w)).

(** [ctx.db.patch(id, fields)]; [f] sets the fields. *)
Definition db_patch {Req D} (T : TableRef Req D) (id : Id) (f : D -> D) : M Req unit :=
  fun _ w =>
    match lookup (t_get T (db w)) id with
    | Some _ =>
        (Ok tt,
         mkWorld (t_set T (update_row id f (t_get T (db w))) (db w))
           (scheduled w) (console w) (ticks w) (draws w))
    | None => (Throw MissingDocumentError, w)
    end.

(** [ctx.db.delete(id)] *)
Definition db_delete {Req D} (T : TableRef Req D) (id : Id) : M Req unit :=
  fun _ w =>
    match lookup (t_get T (db w)) id with
    | Some _ =>
        (Ok tt,
         mkWorld (t_set T (remove_row id (t_get T (db w))) (db w))
           (scheduled w) (console w) (ticks w) (draws w))
    | None => (Throw MissingDocumentError, w)
    end.

(** [ctx.db.query(table).withIndex(..., q => q.eq(field, v)).collect()] *)
Definition db_collect {Req D} (T : TableRef Req D) (p : D -> bool) : M Req (Table D) :=
  fun _ w => (Ok (select p (t_get T (db w))), w).

(** [... .unique()] *)
Definition db_unique {Req D} (T : TableRef Req D) (p : D -> bool)
  : M Req (option (Id * D)) :=
  fun _ w =>
    match select p (t_get T (db w)) with
    | [] => (Ok None, w)
    | [r] => (Ok (Some r), w)
    | _ => (Throw NotUniqueError, w)
    end.

(** [... .first()] *)
Definition db_first {Req D} (T : TableRef Req D) (p : D -> bool)
  : M Req (option (Id * D)) :=
  fun _ w => (Ok (hd_error (select p (t_get T (db w)))), w).

(** A mutation is a transaction: what a handler wrote is kept when it
    returns and dropped when it throws.  The counters of the clock and of
    the random source start at 0 in every call. *)
Definition mutation {Req A} (handler : M Req A) (env : Env) (w : World Req)
  : Result A * World Req :=
  match handler env (mkWorld (db w) (scheduled w) (console w) 0 0) with
  | (Ok a, w') => (Ok a, w')
  | (Throw e, _) => (Throw e, w)
  end.

End Convex.
Import Convex.

Declare Scope monad_scope.
Delimit Scope monad_scope with monad.
Notation "x <- m ;; k" := (bind m (fun x => k))
  (at level 61, m at next level, right associativity) : monad_scope.
Notation "' pat <- m ;; k" := (bind m (fun x => match x with pat => k end))
  (at level 61, pat pattern, m at next level, right associativity) : monad_scope.
Notation "m ;;; k" := (bind m (fun _ => k))
  (at level 61, right associativity) : monad_scope.
Open Scope monad_scope.

(** ** convex/lib/helpers.ts *)

Module Helpers.

Definition between (lo hi c : Z) : bool := (lo <=? c) && (c <=? hi).

Definition is_alpha (c : Z) : bool := between 97 122 c || between 65 90 c.
Definition is_digit (c : Z) : bool := between 48 57 c.
Definition is_alnum (c : Z) : bool := is_alpha c || is_digit c.
(** [[a-zA-Z0-9._+-]] *)
Definition is_local_char (c : Z) : bool :=
  is_alnum c || (c =? 46) || (c =? 95) || (c =? 43) || (c =? 45).
(** [[a-zA-Z0-9-]] *)
Definition is_label_char (c : Z) : bool := is_alnum c || (c =? 45).

(** [[a-zA-Z0-9](?:X*[a-zA-Z0-9])?] over the whole of [s], for a class [X]
    that holds the letters and digits. *)
Definition bracketed (X : Z -> bool) (s : jsstring) : bool :=
  match s with
  | [] => false
  | c :: _ => is_alnum c && is_alnum (last s 0) && forallb X s
  end.

(** [emailRegex.test(email)]: one '@', the local part before it, after it
    labels separated by dots and a last label of two letters or more. *)
Definition emailRegex_test (email : jsstring) : bool :=
  match split 64 email with
  | [local; domain] =>
      bracketed is_local_char local &&
      match rev (split 46 domain) with
      | tld :: label :: labels =>
          (2 <=? JsString.length tld) && forallb is_alpha tld &&
          forallb (bracketed is_label_char) (label :: labels)
      | _ => false
      end
  | _ => false
  end.

(** [/\.\./.test(s)] *)
Fixpoint consecutive_dots (s : jsstring) : bool :=
  match s with
  | c :: (d :: _) as rest => ((c =? 46) && (d =? 46)) || consecutive_dots rest
  | _ => false
  end.

Definition validateEmail (email : jsstring) : bool :=
  if (JsString.length email =? 0) || (254 <? JsString.length email) then false
  else if consecutive_dots email then false
  else emailRegex_test email.

Definition validatePositiveNumber (value : number) : bool :=
  negb (isNaN value) && JsNumber.ge value (of_Z 0).

Definition validateDateString {P : Platform} (dateString : jsstring) : bool :=
  if JsString.length dateString =? 0 then false
  else match Date_parse dateString with
       | Some _ => true
       | None => false
       end.

Definition is_hex (c : Z) : bool :=
  between 65 70 c || between 97 102 c || is_digit c.

(** [/^#([A-Fa-f0-9]{6}|[A-Fa-f0-9]{3})$/.test(color)] *)
Definition validateHexColor (color : jsstring) : bool :=
  match color with
  | c :: digits =>
      (c =? 35) && forallb is_hex digits &&
      ((JsString.length digits =? 6) || (JsString.length digits =? 3))
  | [] => false
  end.

Definition sanitizeString (str : jsstring) : jsstring :=
  if JsString.length str =? 0 then []
  else
    trim (replace_all 39 (lit "&#x27;")
            (replace_all 34 (lit "&quot;")
               (replace_all 62 (lit "&gt;")
                  (replace_all 60 (lit "&lt;") str)))).

Definition validateStringLength (value : jsstring) (fieldName : string) (min max : Z)
  : Result unit :=
  if (JsString.length value =? 0) || (JsString.length value <? min) ||
     (max <? JsString.length value)
  then Throw (JsError (fieldName ++ " must be between " ++ decimal min ++ " and " ++
                       decimal max ++ " characters"))
  else Ok tt.

Definition maxAmount : Z := 100000000.

Definition validateCost (cost : number) : Result unit :=
  if negb (validatePositiveNumber cost)
  then Throw (JsError "Cost must be a non-negative number")
  else if JsNumber.gt cost (of_Z maxAmount)
  then Throw (JsError "Cost exceeds maximum allowed value")
  else Ok tt.

Definition maxDays : Z := 365.

Definition validateNotificationDays (days : number) : Result unit :=
  if negb (validatePositiveNumber days) || JsNumber.gt days (of_Z maxDays)
  then Throw (JsError ("Notification days must be between 0 and " ++ decimal maxDays))
  else Ok tt.

(** A value that may be [undefined] is truthy when it is a string that is
    not empty. *)
Definition truthy (s : option jsstring) : bool :=
  match s with
  | Some (_ :: _) => true
  | _ => false
  end.

Definition sanitize_optional (s : option jsstring) : option jsstring :=
  match s with
  | Some (c :: rest) => Some (sanitizeString (c :: rest))
  | _ => None
  end.

Definition lengthOr0 (s : option jsstring) : Z :=
  match s with
  | Some x => JsString.length x
  | None => 0
  end.

Record SanitizedCommonFields : Type := mkCommon {
  common_name : jsstring;
  common_description : jsstring;
  common_provider : option jsstring
}.

Definition validateAndSanitizeCommonFields
    (input_name input_description : jsstring) (input_provider : option jsstring)
    (descriptionMin descriptionMax : Z) : Result SanitizedCommonFields :=
  let name := sanitizeString input_name in
  let description := sanitizeString input_description in
  let provider := sanitize_optional input_provider in
  match validateStringLength name "Subscription name" 1 200 with
  | Throw e => Throw e
  | Ok _ =>
      match
        (if 0 <? descriptionMin
         then validateStringLength description "Description" descriptionMin descriptionMax
         else if descriptionMax <? JsString.length description
         then Throw (JsError ("Description must not exceed " ++ decimal descriptionMax ++
                              " characters"))
         else Ok tt)
      with
      | Throw e => Throw e
      | Ok _ =>
          match
            (if truthy provider
             then validateStringLength (match provider with Some p => p | None => [] end)
                    "Provider" 1 200
             else Ok tt)
          with
          | Throw e => Throw e
          | Ok _ => Ok (mkCommon name description provider)
          end
      end
  end.

Definition entity_string (type : EntityType) : string :=
  match type with
  | entity_subscription => "subscription"
  | entity_request => "request"
  end.

Definition prefix (type : EntityType) : string :=
  match type with
  | entity_subscription => "SUB"
  | entity_request => "REQ"
  end.

Definition counterName (type : EntityType) (year : Z) : jsstring :=
  lit (entity_string type ++ "-" ++ decimal year).

Definition formatReference (type : EntityType) (year nextValue : Z) : jsstring :=
  lit (prefix type ++ "-" ++ decimal year ++ "-") ++ padStart0 3 (lit (decimal nextValue)).

Definition generateReferenceNumber {Req} (type : EntityType) : M Req jsstring :=
  now <- Date_now ;;
  let year := JsDate.getFullYear now in
  counter <- db_unique Counters (fun c => eqb (counter_name c) (counterName type year)) ;;
  nextValue <-
    match counter with
    | Some (id, c) =>
        let nextValue := counter_value c + 1 in
        db_patch Counters id (fun c => mkCounter (counter_name c) nextValue) ;;;
        ret nextValue
    | None =>
        db_insert Counters (mkCounter (counterName type year) 1) ;;;
        ret 1
    end ;;
  ret (formatReference type year nextValue).

End Helpers.
Import Helpers.

(** ** convex/lib/permissions.ts *)

Module Permissions.

Record AdminUser : Type := mkAdminUser {
  admin_id : Id;
  admin_email : jsstring;
  admin_name : jsstring;
  admin_role : jsstring
}.

Definition requireAdmin {P : Platform} {Req} (email : jsstring) : M Req AdminUser :=
  if JsString.length email =? 0 then throwError "Authentication required"
  else
    user <- db_unique Users (fun u => eqb (user_email u) (toLowerCase email)) ;;
    match user with
    | None => throwError "Authentication required"
    | Some (id, u) =>
        if negb (eqb (user_role u) (lit "admin"))
        then throwError "Admin access required"
        else ret (mkAdminUser id (user_email u) (user_name u) (user_role u))
    end.

End Permissions.
Import Permissions.

(** ** convex/credentials.ts *)

Module Credentials.

Definition newline : string := String (ascii_of_nat 10) EmptyString.

Definition getEncryptionKey {Req} : M Req jsstring :=
  env <- read_env ;;
  match env_ENCRYPTION_KEY env with
  | Some (c :: rest) =>
      let key := c :: rest in
      if JsString.length key <? 32
      then throwError "ENCRYPTION_KEY must be at least 32 characters"
      else ret key
  | _ =>
      throwError ("ENCRYPTION_KEY environment variable is required." ++ newline ++
                  "Set it via: npx convex env set ENCRYPTION_KEY your-secret-key-min-32-chars")
  end.

(** The [action] argument of [reveal]. *)
Inductive RevealAction : Type := reveal_viewed | reveal_copied.

Definition audit_action (a : RevealAction) : AuditAction :=
  match a with
  | reveal_viewed => viewed
  | reveal_copied => copied
  end.

Definition by_subscription (subscriptionId : Id) (c : Credential) : bool :=
  cred_subscriptionId c =? subscriptionId.

Definition reveal {P : Platform} {Req}
    (adminEmail : jsstring) (subscriptionId : Id) (action : RevealAction)
  : M Req (jsstring * jsstring) :=
  admin <- requireAdmin adminEmail ;;
  subscription <- db_get Subscriptions subscriptionId ;;
  credential <- db_unique Credentials (by_subscription subscriptionId) ;;
  match subscription with
  | None => throwError "Subscription not found"
  | Some subscription =>
      match credential with
      | None => throwError "No credentials found for this subscription"
      | Some (_, credential) =>
          now <- Date_now ;;
          performedAt <- lift (toISOString (Some now)) ;;
          db_insert AuditLogs
            (mkAuditLog subscriptionId (sub_name subscription) (audit_action action)
               (admin_email admin) performedAt) ;;;
          key <- getEncryptionKey ;;
          password <- lift (decrypt (cred_password credential) key) ;;
          ret (cred_username credential, password)
      end
  end.

Definition create {P : Platform} {Req}
    (adminEmail : jsstring) (subscriptionId : Id) (username password : jsstring)
    (notes : option jsstring) : M Req Id :=
  requireAdmin adminEmail ;;;
  let username := sanitizeString username in
  let notes := sanitize_optional notes in
  if (JsString.length username =? 0) || (JsString.length username <? 1) ||
     (200 <? JsString.length username)
  then throwError "Username must be between 1 and 200 characters"
  else if (JsString.length password =? 0) || (JsString.length password <? 1) ||
          (500 <? JsString.length password)
  then throwError "Password must be between 1 and 500 characters"
  else if truthy notes && (500 <? lengthOr0 notes)
  then throwError "Notes must not exceed 500 characters"
  else
    subscription <- db_get Subscriptions subscriptionId ;;
    existing <- db_unique Credentials (by_subscription subscriptionId) ;;
    match subscription with
    | None => throwError "Subscription not found"
    | Some _ =>
        match existing with
        | Some _ => throwError "Credentials already exist for this subscription"
        | None =>
            key <- getEncryptionKey ;;
            iv <- getRandomValues ;;
            encryptedPassword <- lift (encrypt iv password key) ;;
            db_insert Credentials
              (mkCredential subscriptionId username encryptedPassword notes)
        end
    end.

Definition update {P : Platform} {Req}
    (adminEmail : jsstring) (id : Id) (username password : jsstring)
    (notes : option jsstring) : M Req Id :=
  admin <- requireAdmin adminEmail ;;
  let username := sanitizeString username in
  let notes := sanitize_optional notes in
  if (JsString.length username =? 0) || (JsString.length username <? 1) ||
     (200 <? JsString.length username)
  then throwError "Username must be between 1 and 200 characters"
  else if (JsString.length password =? 0) || (JsString.length password <? 1) ||
          (500 <? JsString.length password)
  then throwError "Password must be between 1 and 500 characters"
  else if truthy notes && (500 <? lengthOr0 notes)
  then throwError "Notes must not exceed 500 characters"
  else
    credential <- db_get Credentials id ;;
    match credential with
    | None => throwError "Credential not found"
    | Some credential =>
        subscription <- db_get Subscriptions (cred_subscriptionId credential) ;;
        match subscription with
        | None => throwError "Associated subscription not found"
        | Some subscription =>
            now <- Date_now ;;
            performedAt <- lift (toISOString (Some now)) ;;
            db_insert AuditLogs
              (mkAuditLog (cred_subscriptionId credential) (sub_name subscription)
                 updated (admin_email admin) performedAt) ;;;
            encryptionKey <- getEncryptionKey ;;
            iv <- getRandomValues ;;
            encryptedPassword <- lift (encrypt iv password encryptionKey) ;;
            db_patch Credentials id
              (fun c => mkCredential (cred_subscriptionId c) username
                          encryptedPassword notes) ;;;
            ret id
        end
    end.

Definition remove {P : Platform} {Req} (adminEmail : jsstring) (id : Id) : M Req unit :=
  requireAdmin adminEmail ;;;
  credential <- db_get Credentials id ;;
  match credential with
  | None => throwError "Credential not found"
  | Some _ => db_delete Credentials id
  end.

End Credentials.

(** ** convex/subscriptions.ts *)

Module Subscriptions.

Record Args : Type := mkArgs {
  a_name : jsstring;
  a_description : jsstring;
  a_provider : jsstring;
  a_categoryId : Id;
  a_cost : number;
  a_currencyId : Id;
  a_billingCycle : BillingCycle;
  a_nextRenewalDate : jsstring;
  a_paymentMethod : PaymentMethod;
  a_status : SubscriptionStatus;
  a_notificationEnabled : bool;
  a_notificationDaysBefore : number
}.

(** [provider ?? ""] *)
Definition orEmpty (s : option jsstring) : jsstring :=
  match s with
  | Some x => x
  | None => []
  end.

Definition create {P : Platform} {Req} (adminEmail : jsstring) (args : Args) : M Req Id :=
  requireAdmin adminEmail ;;;
  common <- lift (validateAndSanitizeCommonFields (a_name args) (a_description args)
                    (Some (a_provider args)) 0 1000) ;;
  lift (validateCost (a_cost args)) ;;;
  if negb (validateDateString (a_nextRenewalDate args))
  then throwError "Invalid renewal date format"
  else
    lift (validateNotificationDays (a_notificationDaysBefore args)) ;;;
    category <- db_get Categories (a_categoryId args) ;;
    currency <- db_get Currencies (a_currencyId args) ;;
    match category, currency with
    | None, _ => throwError "Invalid category"
    | Some _, None => throwError "Invalid currency"
    | Some _, Some currency =>
        if negb (cur_isActive currency)
        then throwError "Selected currency is not active"
        else
          referenceNumber <- generateReferenceNumber entity_subscription ;;
          db_insert Subscriptions
            (mkSubscription referenceNumber (common_name common)
               (common_description common) (orEmpty (common_provider common))
               (a_categoryId args) (a_cost args) (a_currencyId args)
               (a_billingCycle args) (a_nextRenewalDate args) (a_paymentMethod args)
               (a_status args) (a_notificationEnabled args)
               (a_notificationDaysBefore args))
    end.

(** The patch of [update] sets [provider] to a value that is [undefined]
    when the sanitized provider is empty; the field is required by the
    schema. *)
Definition update {P : Platform} {Req} (adminEmail : jsstring) (id : Id) (data : Args)
  : M Req Id :=
  requireAdmin adminEmail ;;;
  common <- lift (validateAndSanitizeCommonFields (a_name data) (a_description data)
                    (Some (a_provider data)) 0 1000) ;;
  lift (validateCost (a_cost data)) ;;;
  if negb (validateDateString (a_nextRenewalDate data))
  then throwError "Invalid renewal date format"
  else
    lift (validateNotificationDays (a_notificationDaysBefore data)) ;;;
    existing <- db_get Subscriptions id ;;
    category <- db_get Categories (a_categoryId data) ;;
    currency <- db_get Currencies (a_currencyId data) ;;
    match existing, category, currency with
    | None, _, _ => throwError "Subscription not found"
    | Some _, None, _ => throwError "Invalid category"
    | Some _, Some _, None => throwError "Invalid currency"
    | Some _, Some _, Some _ =>
        match common_provider common with
        | None => throw SchemaValidationError
        | Some provider =>
            db_patch Subscriptions id
              (fun s => mkSubscription (sub_referenceNumber s) (common_name common)
                          (common_description common) provider
                          (a_categoryId data) (a_cost data) (a_currencyId data)
                          (a_billingCycle data) (a_nextRenewalDate data)
                          (a_paymentMethod data) (a_status data)
                          (a_notificationEnabled data)
                          (a_notificationDaysBefore data)) ;;;
            ret id
        end
    end.

Record RowResult : Type := mkRowResult {
  r_index : Z;
  r_success : bool;
  r_referenceNumber : option jsstring;
  r_error : option string
}.

Record Summary : Type := mkSummary {
  total : Z;
  succeeded : Z;
  failed : Z;
  results : list RowResult
}.

(** [err instanceof Error ? err.message : "Unknown error"]; everything
    thrown here is an [Error], the text of those of the platform is not
    fixed by the source. *)
Definition exn_message (e : exn) : string :=
  match e with
  | JsError message => message
  | InvalidCharacterError => "InvalidCharacterError"
  | RangeError => "RangeError"
  | NotUniqueError => "NotUniqueError"
  | MissingDocumentError => "MissingDocumentError"
  | TypeError => "TypeError"
  | SchemaValidationError => "SchemaValidationError"
  end.

Definition has (ids : list Id) (id : Id) : bool := existsb (Z.eqb id) ids.

(** The body of the loop of [bulkCreate] for the row [i]. *)
Definition bulkCreate_row {P : Platform} {Req}
    (validCategoryIds validCurrencyIds : list Id) (i : Z) (sub : Args)
  : M Req RowResult :=
  try_catch
    (common <- lift (validateAndSanitizeCommonFields (a_name sub) (a_description sub)
                       (Some (a_provider sub)) 0 1000) ;;
     lift (validateCost (a_cost sub)) ;;;
     (if negb (validateDateString (a_nextRenewalDate sub))
      then throwError "Invalid renewal date" else ret tt) ;;;
     lift (validateNotificationDays (a_notificationDaysBefore sub)) ;;;
     (if negb (has validCategoryIds (a_categoryId sub))
      then throwError "Invalid category" else ret tt) ;;;
     (if negb (has validCurrencyIds (a_currencyId sub))
      then throwError "Invalid or inactive currency" else ret tt) ;;;
     referenceNumber <- generateReferenceNumber entity_subscription ;;
     db_insert Subscriptions
       (mkSubscription referenceNumber (common_name common)
          (common_description common) (orEmpty (common_provider common))
          (a_categoryId sub) (a_cost sub) (a_currencyId sub)
          (a_billingCycle sub) (a_nextRenewalDate sub) (a_paymentMethod sub)
          (a_status sub) (a_notificationEnabled sub)
          (a_notificationDaysBefore sub)) ;;;
     ret (mkRowResult i true (Some referenceNumber) None))
    (fun err => ret (mkRowResult i false None (Some (exn_message err)))).

(** [for (let i = ...; i < subscriptions.length; i++)], from row [i] on. *)
Fixpoint bulkCreate_loop {P : Platform} {Req}
    (validCategoryIds validCurrencyIds : list Id) (i : Z) (subs : list Args)
    (results : list RowResult) : M Req (list RowResult) :=
  match subs with
  | [] => ret results
  | sub :: rest =>
      r <- bulkCreate_row validCategoryIds validCurrencyIds i sub ;;
      bulkCreate_loop validCategoryIds validCurrencyIds (i + 1) rest (results ++ [r])
  end.

(** [[...new Set(ids)]] *)
Definition distinct (ids : list Id) : list Id := nodup Z.eq_dec ids.

Definition count (p : RowResult -> bool) (rs : list RowResult) : Z :=
  Z.of_nat (List.length (filter p rs)).

Definition bulkCreate {P : Platform} {Req} (adminEmail : jsstring) (subs : list Args)
  : M Req Summary :=
  requireAdmin adminEmail ;;;
  if 100 <? Z.of_nat (List.length subs)
  then throwError "Maximum 100 subscriptions per bulk import"
  else
    d <- read_db ;;
    let categoryIds := distinct (map a_categoryId subs) in
    let currencyIds := distinct (map a_currencyId subs) in
    let validCategoryIds :=
      filter (fun id => match lookup (categories d) id with
                        | Some _ => true | None => false end) categoryIds in
    let validCurrencyIds :=
      filter (fun id => match lookup (currencies d) id with
                        | Some c => cur_isActive c | None => false end) currencyIds in
    results <- bulkCreate_loop validCategoryIds validCurrencyIds 0 subs [] ;;
    ret (mkSummary (Z.of_nat (List.length subs))
           (count r_success results)
           (count (fun r => negb (r_success r)) results)
           results).

Fixpoint delete_all {Req D} (T : TableRef Req D) (rows : Table D) : M Req unit :=
  match rows with
  | [] => ret tt
  | (id, _) :: rest => db_delete T id ;;; delete_all T rest
  end.

Definition remove {P : Platform} {Req} (adminEmail : jsstring) (id : Id) : M Req unit :=
  requireAdmin adminEmail ;;;
  subscription <- db_get Subscriptions id ;;
  credentials <- db_collect Credentials (fun c => cred_subscriptionId c =? id) ;;
  auditLogs <- db_collect AuditLogs (fun l => log_subscriptionId l =? id) ;;
  match subscription with
  | None => throwError "Subscription not found"
  | Some _ =>
      delete_all Credentials credentials ;;;
      delete_all AuditLogs auditLogs ;;;
      db_delete Subscriptions id
  end.

End Subscriptions.

(** The rate limiter of both versions of the submission module. *)

Module RateLimiting.

Definition RATE_LIMIT_PER_EMAIL : Z := 5.
Definition RATE_LIMIT_GLOBAL : Z := 100.
Definition RATE_LIMIT_WINDOW_MS : Z := 60 * 60 * 1000.

Definition by_key (key : jsstring) (r : RateLimit) : bool := eqb (rl_key r) key.

(** [limit && limit.windowStart > windowStart && limit.count >= ceiling] *)
Definition exceeded (limit : option (Id * RateLimit)) (windowStart ceiling : Z) : bool :=
  match limit with
  | Some (_, r) => (windowStart <? rl_windowStart r) && (ceiling <=? rl_count r)
  | None => false
  end.

(** The update of one counter: the count goes up in a running window, an
    expired window starts again, a missing record is inserted. *)
Definition updateCounter {Req} (limit : option (Id * RateLimit)) (key : jsstring)
    (now windowStart : Z) : M Req unit :=
  match limit with
  | Some (id, r) =>
      if windowStart <? rl_windowStart r
      then db_patch RateLimits id
             (fun l => mkRateLimit (rl_key l) (rl_windowStart l) (rl_count r + 1))
      else db_patch RateLimits id (fun l => mkRateLimit (rl_key l) now 1)
  | None => db_insert RateLimits (mkRateLimit key now 1) ;;; ret tt
  end.

End RateLimiting.
Import RateLimiting.

(** ** convex/subscriptionRequests.ts *)

Module SubscriptionRequests.

Record SubscriptionRequest : Type := mkRequest {
  req_referenceNumber : jsstring;
  req_name : jsstring;
  req_description : jsstring;
  req_provider : jsstring;
  req_categoryId : Id;
  req_cost : number;
  req_currencyId : Id;
  req_billingCycle : BillingCycle;
  req_requestedBy : jsstring;
  req_requesterEmail : jsstring;
  req_requesterDepartment : jsstring;
  req_justification : jsstring;
  req_status : RequestStatus;
  req_adminNotes : option jsstring;
  req_reviewedBy : option jsstring;
  req_reviewedAt : option jsstring
}.

Abbreviation Req := SubscriptionRequest (only parsing).

Record SubmitArgs : Type := mkSubmitArgs {
  s_name : jsstring;
  s_description : jsstring;
  s_provider : jsstring;
  s_categoryId : Id;
  s_cost : number;
  s_currencyId : Id;
  s_billingCycle : BillingCycle;
  s_requestedBy : jsstring;
  s_requesterEmail : jsstring;
  s_requesterDepartment : jsstring;
  s_justification : jsstring
}.

Definition submit {P : Platform} (args : SubmitArgs) : M Req (Id * jsstring) :=
  common <- lift (validateAndSanitizeCommonFields (s_name args) (s_description args)
                    (Some (s_provider args)) 10 1000) ;;
  let name := common_name common in
  let description := common_description common in
  let requestedBy := sanitizeString (s_requestedBy args) in
  let requesterEmail := trim (toLowerCase (s_requesterEmail args)) in
  let requesterDepartment := sanitizeString (s_requesterDepartment args) in
  let justification := sanitizeString (s_justification args) in
  if JsNumber.le (s_cost args) (of_Z 0)
  then throwError "Cost must be a positive number"
  else
    lift (validateCost (s_cost args)) ;;;
    lift (validateStringLength requestedBy "Name" 2 100) ;;;
    if negb (validateEmail requesterEmail)
    then throwError "Invalid email address format"
    else if 254 <? JsString.length requesterEmail
    then throwError "Email address is too long"
    else
      lift (validateStringLength requesterDepartment "Department" 2 100) ;;;
      lift (validateStringLength justification "Justification" 20 2000) ;;;
      match common_provider common with
      | None => throw TypeError
      | Some provider =>
          let totalSize :=
            JsString.length name + JsString.length description +
            JsString.length provider + JsString.length requestedBy +
            JsString.length requesterEmail + JsString.length requesterDepartment +
            JsString.length justification in
          if 5000 <? totalSize
          then throwError "Request data exceeds maximum allowed size"
          else
            now <- Date_now ;;
            let windowStart := now - RATE_LIMIT_WINDOW_MS in
            let emailKey := lit "email:" ++ requesterEmail in
            globalLimit <- db_unique RateLimits (by_key (lit "global")) ;;
            emailLimit <- db_unique RateLimits (by_key emailKey) ;;
            category <- db_get Categories (s_categoryId args) ;;
            currency <- db_get Currencies (s_currencyId args) ;;
            if exceeded globalLimit windowStart RATE_LIMIT_GLOBAL
            then throwError "Service is temporarily busy. Please try again later."
            else if exceeded emailLimit windowStart RATE_LIMIT_PER_EMAIL
            then throwError "Too many requests from this email. Please try again later."
            else
              match category, currency with
              | None, _ => throwError "Invalid category"
              | Some _, None => throwError "Invalid currency"
              | Some _, Some currency =>
                  if negb (cur_isActive currency)
                  then throwError "Selected currency is not active"
                  else
                    referenceNumber <- generateReferenceNumber entity_request ;;
                    updateCounter globalLimit (lit "global") now windowStart ;;;
                    updateCounter emailLimit emailKey now windowStart ;;;
                    id <- db_insert SubscriptionRequests
                            (mkRequest referenceNumber name description provider
                               (s_categoryId args) (s_cost args) (s_currencyId args)
                               (s_billingCycle args) requestedBy requesterEmail
                               requesterDepartment justification pending
                               None None None) ;;
                    try_catch
                      (scheduler_runAfter
                         (sendNewRequestNotification name referenceNumber requestedBy
                            requesterDepartment (s_cost args) (cur_symbol currency)))
                      (fun _ => console_error "Failed to schedule admin notification") ;;;
                    ret (id, referenceNumber)
              end
      end.

(** The [switch] of [approve] on the billing cycle of the request. *)
Definition nextRenewalDate (billingCycle : jsstring) (now : Z) : Date :=
  if eqb billingCycle (lit "monthly") then setMonth now (getMonth now + 1)
  else if eqb billingCycle (lit "quarterly") then setMonth now (getMonth now + 3)
  else if eqb billingCycle (lit "half-yearly") then setMonth now (getMonth now + 6)
  else if eqb billingCycle (lit "yearly") then setFullYear now (getFullYear now + 1)
  else setMonth now (getMonth now + 1).

Definition is_pending (s : RequestStatus) : bool :=
  match s with
  | pending => true
  | _ => false
  end.

Definition review (status : RequestStatus) (adminNotes : option jsstring)
    (reviewedBy reviewedAt : jsstring) (r : SubscriptionRequest) : SubscriptionRequest :=
  mkRequest (req_referenceNumber r) (req_name r) (req_description r) (req_provider r)
    (req_categoryId r) (req_cost r) (req_currencyId r) (req_billingCycle r)
    (req_requestedBy r) (req_requesterEmail r) (req_requesterDepartment r)
    (req_justification r) status adminNotes (Some reviewedBy) (Some reviewedAt).

Definition approve {P : Platform} (adminEmail : jsstring) (id : Id)
    (adminNotes : option jsstring) : M Req (Id * Id) :=
  admin <- requireAdmin adminEmail ;;
  let adminNotes := sanitize_optional adminNotes in
  if truthy adminNotes && (1000 <? lengthOr0 adminNotes)
  then throwError "Admin notes must not exceed 1000 characters"
  else
    request <- db_get SubscriptionRequests id ;;
    match request with
    | None => throwError "Request not found"
    | Some request =>
        if negb (is_pending (req_status request))
        then throwError "Can only approve pending requests"
        else
          subscriptionRef <- generateReferenceNumber entity_subscription ;;
          now <- Date_now ;;
          let renewal :=
            nextRenewalDate (billingCycle_string (req_billingCycle request)) now in
          renewalDate <- lift (toISODate renewal) ;;
          subscriptionId <- db_insert Subscriptions
            (mkSubscription subscriptionRef (req_name request) (req_description request)
               (req_provider request) (req_categoryId request) (req_cost request)
               (req_currencyId request) (req_billingCycle request) renewalDate
               other_method sub_active true (of_Z 7)) ;;
          reviewed <- Date_now ;;
          reviewedAt <- lift (toISOString (Some reviewed)) ;;
          db_patch SubscriptionRequests id
            (review approved adminNotes (admin_email admin) reviewedAt) ;;;
          try_catch
            (scheduler_runAfter
               (sendRequestApprovalNotification (req_name request)
                  (req_referenceNumber request) approved adminNotes
                  (req_requesterEmail request) (req_requestedBy request)))
            (fun _ => console_error "Failed to schedule approval notification") ;;;
          ret (id, subscriptionId)
    end.

Definition reject {P : Platform} (adminEmail : jsstring) (id : Id)
    (adminNotes : jsstring) : M Req Id :=
  admin <- requireAdmin adminEmail ;;
  let adminNotes := sanitizeString adminNotes in
  if (JsString.length adminNotes =? 0) || (JsString.length adminNotes <? 10) ||
     (1000 <? JsString.length adminNotes)
  then throwError "Rejection reason must be between 10 and 1000 characters"
  else
    request <- db_get SubscriptionRequests id ;;
    match request with
    | None => throwError "Request not found"
    | Some request =>
        if negb (is_pending (req_status request))
        then throwError "Can only reject pending requests"
        else
          reviewed <- Date_now ;;
          reviewedAt <- lift (toISOString (Some reviewed)) ;;
          db_patch SubscriptionRequests id
            (review rejected (Some adminNotes) (admin_email admin) reviewedAt) ;;;
          try_catch
            (scheduler_runAfter
               (sendRequestApprovalNotification (req_name request)
                  (req_referenceNumber request) rejected (Some adminNotes)
                  (req_requesterEmail request) (req_requestedBy request)))
            (fun _ => console_error "Failed to schedule rejection notification") ;;;
          ret id
    end.

Definition remove {P : Platform} (adminEmail : jsstring) (id : Id) : M Req unit :=
  requireAdmin adminEmail ;;;
  request <- db_get SubscriptionRequests id ;;
  match request with
  | None => throwError "Request not found"
  | Some _ => db_delete SubscriptionRequests id
  end.

End SubscriptionRequests.

(** ** The second version of the submission module (requester fields are
    optional) *)

Module SubscriptionRequestsOptional.

Record SubscriptionRequest : Type := mkRequest {
  req_referenceNumber : jsstring;
  req_name : jsstring;
  req_description : jsstring;
  req_provider : option jsstring;
  req_categoryId : Id;
  req_cost : number;
  req_currencyId : Id;
  req_billingCycle : BillingCycle;
  req_requestedBy : option jsstring;
  req_requesterEmail : option jsstring;
  req_requesterDepartment : option jsstring;
  req_justification : option jsstring;
  req_status : RequestStatus;
  req_adminNotes : option jsstring;
  req_reviewedBy : option jsstring;
  req_reviewedAt : option jsstring
}.

Abbreviation Req := SubscriptionRequest (only parsing).

Record SubmitArgs : Type := mkSubmitArgs {
  s_name : jsstring;
  s_description : jsstring;
  s_provider : option jsstring;
  s_categoryId : Id;
  s_cost : number;
  s_currencyId : Id;
  s_billingCycle : BillingCycle;
  s_requestedBy : option jsstring;
  s_requesterEmail : option jsstring;
  s_requesterDepartment : option jsstring;
  s_justification : option jsstring
}.

(** [x ? f(x) : undefined] *)
Definition map_truthy (f : jsstring -> jsstring) (x : option jsstring) : option jsstring :=
  match x with
  | Some (c :: rest) => Some (f (c :: rest))
  | _ => None
  end.

(** [if (x) { check(x) }] *)
Definition when_truthy (x : option jsstring) (check : jsstring -> Result unit)
  : Result unit :=
  match x with
  | Some (c :: rest) => check (c :: rest)
  | _ => Ok tt
  end.

(** [x || fallback] *)
Definition orElse (x : option jsstring) (fallback : jsstring) : jsstring :=
  match x with
  | Some (c :: rest) => c :: rest
  | _ => fallback
  end.

Definition checkEmail (requesterEmail : jsstring) : Result unit :=
  if negb (validateEmail requesterEmail)
  then Throw (JsError "Invalid email address format")
  else if 254 <? JsString.length requesterEmail
  then Throw (JsError "Email address is too long")
  else Ok tt.

Definition submit {P : Platform} (args : SubmitArgs) : M Req (Id * jsstring) :=
  common <- lift (validateAndSanitizeCommonFields (s_name args) (s_description args)
                    (s_provider args) 10 1000) ;;
  let name := common_name common in
  let description := common_description common in
  let provider := common_provider common in
  let requestedBy := map_truthy sanitizeString (s_requestedBy args) in
  let requesterEmail :=
    map_truthy (fun e => trim (toLowerCase e)) (s_requesterEmail args) in
  let requesterDepartment := map_truthy sanitizeString (s_requesterDepartment args) in
  let justification := map_truthy sanitizeString (s_justification args) in
  if JsNumber.le (s_cost args) (of_Z 0)
  then throwError "Cost must be a positive number"
  else
    lift (validateCost (s_cost args)) ;;;
    lift (when_truthy requestedBy (fun x => validateStringLength x "Name" 2 100)) ;;;
    lift (when_truthy requesterEmail checkEmail) ;;;
    lift (when_truthy requesterDepartment
            (fun x => validateStringLength x "Department" 2 100)) ;;;
    lift (when_truthy justification
            (fun x => validateStringLength x "Justification" 10 2000)) ;;;
    let totalSize :=
      JsString.length name + JsString.length description +
      lengthOr0 provider + lengthOr0 requestedBy + lengthOr0 requesterEmail +
      lengthOr0 requesterDepartment + lengthOr0 justification in
    if 5000 <? totalSize
    then throwError "Request data exceeds maximum allowed size"
    else
      now <- Date_now ;;
      let windowStart := now - RATE_LIMIT_WINDOW_MS in
      let emailKey :=
        if truthy requesterEmail
        then Some (lit "email:" ++ orElse requesterEmail [])
        else None in
      globalLimit <- db_unique RateLimits (by_key (lit "global")) ;;
      emailLimit <-
        match emailKey with
        | Some key => db_unique RateLimits (by_key key)
        | None => ret None
        end ;;
      category <- db_get Categories (s_categoryId args) ;;
      currency <- db_get Currencies (s_currencyId args) ;;
      if exceeded globalLimit windowStart RATE_LIMIT_GLOBAL
      then throwError "Service is temporarily busy. Please try again later."
      else if exceeded emailLimit windowStart RATE_LIMIT_PER_EMAIL
      then throwError "Too many requests from this email. Please try again later."
      else
        match category, currency with
        | None, _ => throwError "Invalid category"
        | Some _, None => throwError "Invalid currency"
        | Some _, Some currency =>
            if negb (cur_isActive currency)
            then throwError "Selected currency is not active"
            else
              referenceNumber <- generateReferenceNumber entity_request ;;
              updateCounter globalLimit (lit "global") now windowStart ;;;
              match emailKey with
              | Some key => updateCounter emailLimit key now windowStart
              | None => ret tt
              end ;;;
              id <- db_insert SubscriptionRequests
                      (mkRequest referenceNumber name description provider
                         (s_categoryId args) (s_cost args) (s_currencyId args)
                         (s_billingCycle args) requestedBy requesterEmail
                         requesterDepartment justification pending
                         None None None) ;;
              try_catch
                (scheduler_runAfter
                   (sendNewRequestNotification name referenceNumber
                      (orElse requestedBy (lit "Unknown"))
                      (orElse requesterDepartment (lit "Unknown"))
                      (s_cost args) (cur_symbol currency)))
                (fun _ => console_error "Failed to schedule admin notification") ;;;
              ret (id, referenceNumber)
        end.

End SubscriptionRequestsOptional.

(** ** convex/seed.ts: [clearDatabase] *)

Module Seed.

Definition clearDatabase {Req} : M Req unit :=
  d <- read_db ;; Subscriptions.delete_all AuditLogs (auditLogs d) ;;;
  d <- read_db ;; Subscriptions.delete_all Credentials (credentials d) ;;;
  d <- read_db ;; Subscriptions.delete_all SubscriptionRequests (subscriptionRequests d) ;;;
  d <- read_db ;; Subscriptions.delete_all Subscriptions (subscriptions d) ;;;
  d <- read_db ;; Subscriptions.delete_all RateLimits (rateLimits d) ;;;
  d <- read_db ;; Subscriptions.delete_all Currencies (currencies d) ;;;
  d <- read_db ;; Subscriptions.delete_all Categories (categories d) ;;;
  d <- read_db ;; Subscriptions.delete_all Users (users d) ;;;
  d <- read_db ;; Subscriptions.delete_all Counters (counters d).

End Seed.

(** ** convex/categories.ts (on the schema of convex/schema.ts) *)

Module Categories.

Abbreviation Req := SubscriptionRequests.SubscriptionRequest (only parsing).

Definition name_taken : string := "A category with this name already exists".

Definition check_fields (name description color : jsstring) : Result unit :=
  if (JsString.length name =? 0) || (JsString.length name <? 1) ||
     (100 <? JsString.length name)
  then Throw (JsError "Category name must be between 1 and 100 characters")
  else if 500 <? JsString.length description
  then Throw (JsError "Description must not exceed 500 characters")
  else if negb (validateHexColor color)
  then Throw (JsError "Invalid color format. Use hex format (e.g., #3B82F6)")
  else Ok tt.

Definition create {P : Platform} (adminEmail name description color : jsstring)
  : M Req Id :=
  requireAdmin adminEmail ;;;
  let name := sanitizeString name in
  let description := sanitizeString description in
  lift (check_fields name description color) ;;;
  existingExact <- db_first Categories (fun c => eqb (cat_name c) name) ;;
  match existingExact with
  | Some _ => throwError name_taken
  | None =>
      allCategories <- db_collect Categories (fun _ => true) ;;
      if existsb (fun r => eqb (toLowerCase (cat_name (snd r))) (toLowerCase name))
           allCategories
      then throwError name_taken
      else db_insert Categories (mkCategory name description color)
  end.

Definition update {P : Platform} (adminEmail : jsstring) (id : Id)
    (name description color : jsstring) : M Req Id :=
  requireAdmin adminEmail ;;;
  existing <- db_get Categories id ;;
  match existing with
  | None => throwError "Category not found"
  | Some _ =>
      let name := sanitizeString name in
      let description := sanitizeString description in
      lift (check_fields name description color) ;;;
      existingExact <- db_first Categories (fun c => eqb (cat_name c) name) ;;
      if match existingExact with
         | Some (id', _) => negb (id' =? id)
         | None => false
         end
      then throwError name_taken
      else
        allCategories <- db_collect Categories (fun _ => true) ;;
        if existsb (fun r => negb (fst r =? id) &&
                             eqb (toLowerCase (cat_name (snd r))) (toLowerCase name))
             allCategories
        then throwError name_taken
        else
          db_patch Categories id (fun _ => mkCategory name description color) ;;;
          ret id
  end.

Definition remove {P : Platform} (adminEmail : jsstring) (id : Id) : M Req unit :=
  requireAdmin adminEmail ;;;
  category <- db_get Categories id ;;
  match category with
  | None => throwError "Category not found"
  | Some _ =>
      subscriptions <- db_first Subscriptions (fun s => sub_categoryId s =? id) ;;
      match subscriptions with
      | Some _ => throwError "Cannot delete category that is in use by subscriptions"
      | None =>
          requests <- db_collect SubscriptionRequests (fun _ => true) ;;
          if existsb (fun r => SubscriptionRequests.req_categoryId (snd r) =? id) requests
          then throwError "Cannot delete category that is in use by subscription requests"
          else db_delete Categories id
      end
  end.

End Categories.

(** ** convex/currencies.ts *)

Module Currencies.

Abbreviation Req := SubscriptionRequests.SubscriptionRequest (only parsing).

(** [a !== b] on numbers *)
Definition number_neq (a b : number) : bool :=
  match a, b with
  | Fin x, Fin y => negb (Qeq_bool x y)
  | NegInf, NegInf | PosInf, PosInf => false
  | _, _ => true
  end.

(** The text of a string of ASCII characters. *)
Definition text (s : jsstring) : string :=
  string_of_list_ascii (map (fun c => ascii_of_N (Z.to_N c)) s).

Definition by_code (code : jsstring) (c : Currency) : bool := eqb (cur_code c) code.

Definition updateExchangeRate (code : jsstring) (exchangeRate : number)
  : M Req (bool * jsstring) :=
  currency <- db_unique Currencies (by_code code) ;;
  match currency with
  | Some (id, _) =>
      db_patch Currencies id
        (fun c => mkCurrency (cur_code c) (cur_name c) (cur_symbol c) exchangeRate
                    (cur_isActive c)) ;;;
      ret (true, code)
  | None => ret (false, code)
  end.

Definition check_name_symbol_rate (name symbol : jsstring) (exchangeRate : number)
  : Result unit :=
  if (JsString.length name =? 0) || (JsString.length name <? 1) ||
     (100 <? JsString.length name)
  then Throw (JsError "Currency name must be between 1 and 100 characters")
  else if (JsString.length symbol =? 0) || (JsString.length symbol <? 1) ||
          (5 <? JsString.length symbol)
  then Throw (JsError "Currency symbol must be between 1 and 5 characters")
  else if negb (validatePositiveNumber exchangeRate) || JsNumber.le exchangeRate (of_Z 0)
  then Throw (JsError "Exchange rate must be a positive number")
  else Ok tt.

Definition create {P : Platform} (adminEmail code name symbol : jsstring)
    (exchangeRate : number) (isActive : bool) : M Req Id :=
  requireAdmin adminEmail ;;;
  let code := trim (toUpperCase code) in
  let name := sanitizeString name in
  let symbol := sanitizeString symbol in
  if (JsString.length code =? 0) || (JsString.length code <? 2) ||
     (5 <? JsString.length code)
  then throwError "Currency code must be between 2 and 5 characters"
  else if negb (forallb (between 65 90) code)
  then throwError "Currency code must contain only letters"
  else
    lift (check_name_symbol_rate name symbol exchangeRate) ;;;
    existing <- db_unique Currencies (by_code code) ;;
    match existing with
    | Some _ => throwError ("Currency with code " ++ text code ++ " already exists")
    | None => db_insert Currencies (mkCurrency code name symbol exchangeRate isActive)
    end.

Definition update {P : Platform} (adminEmail : jsstring) (id : Id)
    (name symbol : jsstring) (exchangeRate : number) (isActive : bool) : M Req Id :=
  requireAdmin adminEmail ;;;
  existing <- db_get Currencies id ;;
  match existing with
  | None => throwError "Currency not found"
  | Some existing =>
      let name := sanitizeString name in
      let symbol := sanitizeString symbol in
      lift (check_name_symbol_rate name symbol exchangeRate) ;;;
      if eqb (cur_code existing) (lit "INR") && number_neq exchangeRate (of_Z 1)
      then throwError "Cannot modify INR exchange rate (base currency)"
      else
        db_patch Currencies id
          (fun c => mkCurrency (cur_code c) name symbol exchangeRate isActive) ;;;
        ret id
  end.

Definition toggleActive {P : Platform} (adminEmail : jsstring) (id : Id) : M Req Id :=
  requireAdmin adminEmail ;;;
  currency <- db_get Currencies id ;;
  match currency with
  | None => throwError "Currency not found"
  | Some currency =>
      if eqb (cur_code currency) (lit "INR") && cur_isActive currency
      then throwError "Cannot deactivate INR (base currency)"
      else
        db_patch Currencies id
          (fun c => mkCurrency (cur_code c) (cur_name c) (cur_symbol c)
                      (cur_exchangeRate c) (negb (cur_isActive currency))) ;;;
        ret id
  end.

Definition remove {P : Platform} (adminEmail : jsstring) (id : Id) : M Req unit :=
  requireAdmin adminEmail ;;;
  currency <- db_get Currencies id ;;
  match currency with
  | None => throwError "Currency not found"
  | Some currency =>
      if eqb (cur_code currency) (lit "INR")
      then throwError "Cannot delete INR (base currency)"
      else
        subscriptionUsingCurrency <-
          db_first Subscriptions (fun s => sub_currencyId s =? id) ;;
        match subscriptionUsingCurrency with
        | Some _ => throwError "Cannot delete currency that is in use by subscriptions"
        | None =>
            requestUsingCurrency <-
              db_first SubscriptionRequests
                (fun r => SubscriptionRequests.req_currencyId r =? id) ;;
            match requestUsingCurrency with
            | Some _ =>
                throwError "Cannot delete currency that is in use by subscription requests"
            | None => db_delete Currencies id
            end
        end
  end.

End Currencies.

(** ** convex/auth.ts *)

Module Auth.

Abbreviation Req := SubscriptionRequests.SubscriptionRequest (only parsing).

Definition login {P : Platform} (email password : jsstring) : M Req AdminUser :=
  let email := trim (toLowerCase email) in
  if negb (validateEmail email) then throwError "Invalid email or password"
  else if (JsString.length password =? 0) || (JsString.length password <? 1)
  then throwError "Invalid email or password"
  else
    user <- db_unique Users (fun u => eqb (user_email u) email) ;;
    match user with
    | None => throwError "Invalid email or password"
    | Some (id, u) =>
        if negb (bcrypt_compareSync password (user_passwordHash u))
        then throwError "Invalid email or password"
        else ret (mkAdminUser id (user_email u) (user_name u) (user_role u))
    end.

Definition createAdminInternal {P : Platform} (email name password : jsstring)
  : M Req Id :=
  let email := trim (toLowerCase email) in
  if negb (validateEmail email) then throwError "Invalid email format"
  else
    existing <- db_unique Users (fun u => eqb (user_email u) email) ;;
    match existing with
    | Some _ => throwError "User with this email already exists"
    | None =>
        let passwordHash := bcrypt_hashSync password 12 in
        db_insert Users (mkUser email (trim name) passwordHash (lit "admin"))
    end.

End Auth.

(** ** An instance of the platform for the examples: the case mapping of
    ASCII, dates of the form YYYY-MM-DD, a hash that is the password. *)

Module Sample.

Definition ascii_lower (s : jsstring) : jsstring :=
  map (fun c => if between 65 90 c then c + 32 else c) s.

Definition ascii_upper (s : jsstring) : jsstring :=
  map (fun c => if between 97 122 c then c - 32 else c) s.

Definition digit (c : Z) : Z := c - 48.

Definition parse_date (s : jsstring) : option Z :=
  match s with
  | [y1; y2; y3; y4; 45; m1; m2; 45; d1; d2] =>
      if forallb is_digit [y1; y2; y3; y4; m1; m2; d1; d2] then
        let y := digit y1 * 1000 + digit y2 * 100 + digit y3 * 10 + digit y4 in
        let m := digit m1 * 10 + digit m2 in
        let d := digit d1 * 10 + digit d2 in
        if (1 <=? m) && (m <=? 12) && (1 <=? d) && (d <=? 31)
        then Some (MakeDate (MakeDay y (m - 1) d) 0)
        else None
      else None
  | _ => None
  end.

#[local] Instance platform : Platform := {|
  toLowerCase := ascii_lower;
  toUpperCase := ascii_upper;
  Date_parse := parse_date;
  bcrypt_compareSync := fun password hash => eqb password hash;
  bcrypt_hashSync := fun password _ => password
|}.

End Sample.

(** ** Vocabulary of the statements *)

(** *** Strings, bytes and base64 *)

Definition scalar (cp : Z) : Prop :=
  0 <= cp <= 0x10FFFF /\ ~ (0xD800 <= cp <= 0xDFFF).

Definition byte (b : Z) : Prop := 0 <= b < 256.

(** The characters of the encoding without the padding. *)
Fixpoint unpadded (bytes : list Z) : list Z :=
  match bytes with
  | [] => []
  | [x] =>
      [Z.shiftr x 2; Z.shiftl (Z.land x 3) 4]
  | [x; y] =>
      [Z.shiftr x 2; Z.lor (Z.shiftl (Z.land x 3) 4) (Z.shiftr y 4);
       Z.shiftl (Z.land y 15) 2]
  | x :: y :: z :: rest =>
      Z.shiftr x 2 :: Z.lor (Z.shiftl (Z.land x 3) 4) (Z.shiftr y 4) ::
      Z.lor (Z.shiftl (Z.land y 15) 2) (Z.shiftr z 6) :: Z.land z 63 ::
      unpadded rest
  end.

Definition sextet (n : Z) : Prop := 0 <= n < 64.

Fixpoint below (n : nat) (P : Z -> bool) : bool :=
  match n with
  | O => true
  | S m => P (Z.of_nat m) && below m P
  end.

Definition char_ok (n : Z) : bool :=
  match sextet_of_char (char_of_sextet n) with
  | Some m => (m =? n) && negb (ascii_whitespace (char_of_sextet n))
              && negb (char_of_sextet n =? pad)
  | None => false
  end.

Definition k32 : jsstring := lit "0123456789abcdef0123456789abcdef".
Definition iv0 : list Z := [1; 2; 3; 4; 5; 6; 7; 8; 9; 10; 11; 12; 13; 14; 15; 16].

(** *** Handlers *)

(** Two states with the same database, the same jobs and the same console
    (the counters of the clock and of the random source may differ). *)
Definition same_store {Req} (w w' : World Req) : Prop :=
  db w' = db w /\ scheduled w' = scheduled w /\ console w' = console w.

(** A handler that never writes. *)
Definition readonly {Req A} (m : M Req A) : Prop :=
  forall env w, same_store w (snd (m env w)).

(** A handler that has written nothing when it throws. *)
Definition safe {Req A} (m : M Req A) : Prop :=
  forall env w e w', m env w = (Throw e, w') -> same_store w w'.

(** A handler that never throws. *)
Definition total {Req A} (m : M Req A) : Prop :=
  forall env w, exists a w', m env w = (Ok a, w').

(** *** Sample data *)

Module SampleData.
Import Sample.

Definition admin_email : jsstring := lit "admin@company.com".

Definition sample_db {Req} : Db Req :=
  mkDb
    [(1, mkCategory (lit "Cloud Infrastructure") (lit "Hosting") (lit "#3B82F6"))]
    [(2, mkCurrency (lit "INR") (lit "Indian Rupee") (lit "Rs") (of_Z 1) true)]
    [] [] [] []
    [(3, mkUser admin_email (lit "Admin User") (lit "hash") (lit "admin"))]
    [] [] 10.

Definition sample_world {Req} : World Req := mkWorld sample_db [] [] 0 0.

(** 2026-01-15T00:00:00.000Z *)
Definition jan15 : Z := 1768435200000.

Definition sample_env : Env :=
  mkEnv (fun _ => jan15) (fun _ => iv0) (Some k32) true.

Definition free_plan : Subscriptions.Args :=
  Subscriptions.mkArgs (lit "Figma") (lit "Design tool, free plan") (lit "Figma Inc")
    1 (of_Z 0) 2 monthly (lit "2026-03-01") other_method sub_active true (of_Z 7).

Definition request_args (cost : number) : SubscriptionRequests.SubmitArgs :=
  SubscriptionRequests.mkSubmitArgs (lit "Datadog")
    (lit "Monitoring and analytics platform") (lit "Datadog") 1 cost 2 monthly
    (lit "Mike DevOps") (lit "Mike@Company.com") (lit "Engineering")
    (lit "Infrastructure monitoring and alerting for the platform team").

End SampleData.

(** A handler that leaves the whole state as it is. *)
Definition pure {Req A} (m : M Req A) : Prop :=
  forall env w, snd (m env w) = w.

(** A handler that leaves the table [T] as it is. *)
Definition keeps {Req A D} (T : TableRef Req D) (m : M Req A) : Prop :=
  forall env w, t_get T (db (snd (m env w))) = t_get T (db w).

(** Two tables of the store that are not the same one. *)
Definition apart {Req D D'} (T : TableRef Req D) (T' : TableRef Req D') : Prop :=
  (forall x d, t_get T (t_set T' x d) = t_get T d) /\
  (forall d, t_get T (fresh_id d) = t_get T d).

(** The state after an allocation of a reference number: the table of
    counters and the next identifier are new, the clock was read once. *)
Definition allocated {Req} (c : Table Counter) (n : Id) (w : World Req) : World Req :=
  mkWorld
    (mkDb (categories (db w)) (currencies (db w)) (subscriptions (db w))
       (credentials (db w)) (subscriptionRequests (db w)) (auditLogs (db w))
       (users (db w)) c (rateLimits (db w)) n)
    (scheduled w) (console w) (S (ticks w)) (draws w).

Definition by_name (name : jsstring) (c : Counter) : bool := eqb (counter_name c) name.

(** The value of the counter of an entity type and a year, 0 when there is
    no such counter. *)
Definition counter_of {Req} (type : EntityType) (year : Z) (d : Db Req) : Z :=
  match select (by_name (counterName type year)) (counters d) with
  | (_, c) :: _ => counter_value c
  | [] => 0
  end.

(** The state after the update of a rate-limit counter. *)
Definition limited {Req} (rl : Table RateLimit) (n : Id) (w : World Req) : World Req :=
  mkWorld
    (mkDb (categories (db w)) (currencies (db w)) (subscriptions (db w))
       (credentials (db w)) (subscriptionRequests (db w)) (auditLogs (db w))
       (users (db w)) (counters (db w)) rl n)
    (scheduled w) (console w) (ticks w) (draws w).

(** The table of rate limits after the update of one counter. *)
Definition updatedLimits (limit : option (Id * RateLimit)) (key : jsstring)
    (now windowStart : Z) (n : Id) (rl : Table RateLimit) : Table RateLimit :=
  match limit with
  | Some (id, r) =>
      if windowStart <? rl_windowStart r
      then update_row id
             (fun l => mkRateLimit (rl_key l) (rl_windowStart l) (rl_count r + 1)) rl
      else update_row id (fun l => mkRateLimit (rl_key l) now 1) rl
  | None => rl ++ [(n, mkRateLimit key now 1)]
  end.

Definition nextIdAfter (limit : option (Id * RateLimit)) (n : Id) : Id :=
  match limit with
  | Some _ => n
  | None => n + 1
  end.

(** *** The operations of the backend (on the schema of convex/schema.ts) *)

Inductive Operation : Type :=
| credentials_reveal (adminEmail : jsstring) (subscriptionId : Id)
    (action : Credentials.RevealAction)
| credentials_create (adminEmail : jsstring) (subscriptionId : Id)
    (username password : jsstring) (notes : option jsstring)
| credentials_update (adminEmail : jsstring) (id : Id)
    (username password : jsstring) (notes : option jsstring)
| credentials_remove (adminEmail : jsstring) (id : Id)
| subscriptions_create (adminEmail : jsstring) (args : Subscriptions.Args)
| subscriptions_update (adminEmail : jsstring) (id : Id) (args : Subscriptions.Args)
| subscriptions_bulkCreate (adminEmail : jsstring) (subs : list Subscriptions.Args)
| subscriptions_remove (adminEmail : jsstring) (id : Id)
| requests_submit (args : SubscriptionRequests.SubmitArgs)
| requests_approve (adminEmail : jsstring) (id : Id) (adminNotes : option jsstring)
| requests_reject (adminEmail : jsstring) (id : Id) (adminNotes : jsstring)
| requests_remove (adminEmail : jsstring) (id : Id)
| categories_create (adminEmail name description color : jsstring)
| categories_update (adminEmail : jsstring) (id : Id) (name description color : jsstring)
| categories_remove (adminEmail : jsstring) (id : Id)
| currencies_updateExchangeRate (code : jsstring) (exchangeRate : number)
| currencies_create (adminEmail code name symbol : jsstring) (exchangeRate : number)
    (isActive : bool)
| currencies_update (adminEmail : jsstring) (id : Id) (name symbol : jsstring)
    (exchangeRate : number) (isActive : bool)
| currencies_toggleActive (adminEmail : jsstring) (id : Id)
| currencies_remove (adminEmail : jsstring) (id : Id)
| auth_login (email password : jsstring)
| auth_createAdminInternal (email name password : jsstring)
| seed_clearDatabase.

(** The handler of an operation, its result dropped. *)
Definition forget {Req A} (m : M Req A) : M Req unit := bind m (fun _ => ret tt).

Definition handler {P : Platform} (op : Operation) : M SubscriptionRequests.SubscriptionRequest unit :=
  match op with
  | credentials_reveal e s a => forget (Credentials.reveal e s a)
  | credentials_create e s u p n => forget (Credentials.create e s u p n)
  | credentials_update e i u p n => forget (Credentials.update e i u p n)
  | credentials_remove e i => Credentials.remove e i
  | subscriptions_create e a => forget (Subscriptions.create e a)
  | subscriptions_update e i a => forget (Subscriptions.update e i a)
  | subscriptions_bulkCreate e l => forget (Subscriptions.bulkCreate e l)
  | subscriptions_remove e i => Subscriptions.remove e i
  | requests_submit a => forget (SubscriptionRequests.submit a)
  | requests_approve e i n => forget (SubscriptionRequests.approve e i n)
  | requests_reject e i n => forget (SubscriptionRequests.reject e i n)
  | requests_remove e i => SubscriptionRequests.remove e i
  | categories_create e n d c => forget (Categories.create e n d c)
  | categories_update e i n d c => forget (Categories.update e i n d c)
  | categories_remove e i => Categories.remove e i
  | currencies_updateExchangeRate c r => forget (Currencies.updateExchangeRate c r)
  | currencies_create e c n s r a => forget (Currencies.create e c n s r a)
  | currencies_update e i n s r a => forget (Currencies.update e i n s r a)
  | currencies_toggleActive e i => forget (Currencies.toggleActive e i)
  | currencies_remove e i => Currencies.remove e i
  | auth_login e p => forget (Auth.login e p)
  | auth_createAdminInternal e n p => forget (Auth.createAdminInternal e n p)
  | seed_clearDatabase => Seed.clearDatabase
  end.

(** The state after an operation run as a mutation. *)
Definition exec {P : Platform} (op : Operation) (env : Env)
    (w : World SubscriptionRequests.SubscriptionRequest) : World SubscriptionRequests.SubscriptionRequest :=
  snd (mutation (handler op) env w).

(** The state after a sequence of operations, each with what it reads from
    outside. *)
Fixpoint exec_all {P : Platform} (ops : list (Operation * Env))
    (w : World SubscriptionRequests.SubscriptionRequest) : World SubscriptionRequests.SubscriptionRequest :=
  match ops with
  | [] => w
  | (op, env) :: rest => exec_all rest (exec op env w)
  end.

(** The status of a request, [None] when there is no such request. *)
Definition status_of (w : World SubscriptionRequests.SubscriptionRequest) (id : Id)
  : option RequestStatus :=
  option_map SubscriptionRequests.req_status (lookup (subscriptionRequests (db w)) id).

(** A request that is there stays as it is or goes. *)
Definition same_or_gone (id : Id) (w w' : World SubscriptionRequests.SubscriptionRequest) : Prop :=
  lookup (subscriptionRequests (db w')) id = None \/
  lookup (subscriptionRequests (db w')) id = lookup (subscriptionRequests (db w)) id.

(** A handler under which a request stays as it is or goes. *)
Definition shrinks {A} (id : Id) (m : M SubscriptionRequests.SubscriptionRequest A) : Prop :=
  forall env w r w', m env w = (r, w') -> same_or_gone id w w'.

Module SampleRequests.
Import Sample SampleData.

Definition reviewed_request : SubscriptionRequests.SubscriptionRequest :=
  SubscriptionRequests.mkRequest (lit "REQ-2026-003") (lit "Datadog")
    (lit "Monitoring and analytics platform") (lit "Datadog") 1 (of_Z 1500) 2 monthly
    (lit "Mike DevOps") (lit "mike@company.com") (lit "Engineering")
    (lit "Infrastructure monitoring and alerting") approved
    (Some (lit "Approved for Q1 budget")) (Some (lit "Admin User"))
    (Some (lit "2026-01-25T10:00:00Z")).

Definition pending_request : SubscriptionRequests.SubscriptionRequest :=
  SubscriptionRequests.mkRequest (lit "REQ-2026-004") (lit "Linear")
    (lit "Issue tracking for the product team") (lit "Linear") 1 (of_Z 800) 2 monthly
    (lit "Ada Product") (lit "ada@company.com") (lit "Product")
    (lit "Planning and tracking of the roadmap") pending None None None.

(** A database with an approved request (4) and a pending one (5). *)
Definition requests_db : Db SubscriptionRequests.SubscriptionRequest :=
  mkDb (categories (@sample_db unit)) (currencies (@sample_db unit)) [] []
    [(4, reviewed_request); (5, pending_request)] []
    (users (@sample_db unit)) [] [] 10.

Definition requests_world : World SubscriptionRequests.SubscriptionRequest :=
  mkWorld requests_db [] [] 0 0.

End SampleRequests.

(** *** The vault *)

(** The call starts at [start]: no read of the clock gives less. *)
Definition clock_from (start : Z) (env : Env) : Prop :=
  forall k, start <= env_clock env k.

Record RevealCall : Type := mkRevealCall {
  rc_env : Env;
  rc_adminEmail : jsstring;
  rc_subscriptionId : Id;
  rc_action : Credentials.RevealAction
}.

(** A sequence of calls of [reveal]: how many returned, and the state at
    the end. *)
Fixpoint reveal_all {P : Platform} {Req} (calls : list RevealCall) (w : World Req)
  : nat * World Req :=
  match calls with
  | [] => (O, w)
  | c :: rest =>
      match
        mutation (Credentials.reveal (rc_adminEmail c) (rc_subscriptionId c)
                    (rc_action c)) (rc_env c) w
      with
      | (Ok _, w') => let '(n, w'') := reveal_all rest w' in (S n, w'')
      | (Throw _, w') => reveal_all rest w'
      end
  end.

Module SampleVault.
Import Sample SampleData.

Definition figma : Subscription :=
  mkSubscription (lit "SUB-2026-001") (lit "Figma") (lit "Design tool") (lit "Figma Inc")
    1 (of_Z 1200) 2 monthly (lit "2026-03-01") credit_card sub_active true (of_Z 7).

Definition sealed (password : jsstring) : jsstring :=
  match encrypt iv0 password k32 with
  | Ok c => c
  | Throw _ => []
  end.

Definition viewed_entry : AuditLog :=
  mkAuditLog 20 (lit "Figma") viewed admin_email (lit "2026-01-10T09:00:00.000Z").

(** A subscription (20) with its credential (21) and one entry of the log
    (22). *)
Definition vault_db {Req} : Db Req :=
  mkDb (categories (@sample_db unit)) (currencies (@sample_db unit))
    [(20, figma)]
    [(21, mkCredential 20 (lit "design@company.com") (sealed (lit "hunter2")) None)]
    [] [(22, viewed_entry)] (users (@sample_db unit)) [] [] 30.

Definition vault_world {Req} : World Req := mkWorld vault_db [] [] 0 0.

End SampleVault.

(** The operations that delete entries of the log: the removal of a
    subscription takes the entries of the subscription with it, and
    [clearDatabase] empties every table. *)
Definition deletes_entries (op : Operation) : bool :=
  match op with
  | subscriptions_remove _ _ | seed_clearDatabase => true
  | _ => false
  end.

(** *** The calendar

    What the statements about renewal dates say in the words of the
    calendar: the days of a month, the months of a billing cycle, and the
    year, month and day of a time value. *)
Module Calendar.

Definition days_in_month (y m : Z) : Z :=
  match m with
  | 1 => if leap y then 29 else 28
  | 3 | 5 | 8 | 10 => 30
  | _ => 31
  end.

(** One period of a billing cycle, in months. *)
Definition period_months (c : BillingCycle) : Z :=
  match c with
  | monthly => 1
  | quarterly => 3
  | half_yearly => 6
  | yearly => 12
  end.

(** The day [d] of month [m] (0 = January) of year [y] is the day of [t]. *)
Definition on_day (y m d t : Z) : Prop :=
  YearFromTime t = y /\ MonthFromTime t = m /\ DateFromTime t = d.

(** The time values of the day [y]-[m]-[d] (UTC). *)
Definition day_of (y m d : Z) (t : Z) : Prop :=
  MakeDay y m d * msPerDay <= t < (MakeDay y m d + 1) * msPerDay.

End Calendar.

(** *** Successive allocations *)

(** Every read of the clock of the call falls in the year [Y]. *)
Definition in_year_of (Y : Z) (env : Env) : Prop :=
  forall k, getFullYear (env_clock env k) = Y.

(** One allocation after the other, each with the clock of its call; the
    results in order and the state at the end. *)
Fixpoint allocate_all {Req} (type : EntityType) (envs : list Env) (w : World Req)
  : list (Result jsstring) * World Req :=
  match envs with
  | [] => ([], w)
  | env :: rest =>
      let (r, w1) := generateReferenceNumber type env w in
      let (rs, w2) := allocate_all type rest w1 in
      (r :: rs, w2)
  end.

(** At most one counter has the name. *)
Definition one_counter {Req} (name : jsstring) (d : Db Req) : Prop :=
  (List.length (select (by_name name) (counters d)) <= 1)%nat.

(** *** A requester at the limit *)
Module SampleLimits.
Import Sample SampleData.

(** The requester of [request_args] has sent five requests in the hour
    before 2026-01-15T00:00:00Z. *)
Definition throttled_db : Db SubscriptionRequests.SubscriptionRequest :=
  mkDb (categories (@sample_db unit)) (currencies (@sample_db unit)) [] [] [] []
    (users (@sample_db unit)) []
    [(4, mkRateLimit (lit "global") (jan15 - 1800000) 5);
     (5, mkRateLimit (lit "email:mike@company.com") (jan15 - 1800000) 5)]
    10.

Definition throttled_world : World SubscriptionRequests.SubscriptionRequest :=
  mkWorld throttled_db [] [] 0 0.

(** A call at the instant [t]. *)
Definition env_at (t : Z) : Env := mkEnv (fun _ => t) (fun _ => iv0) (Some k32) true.

Definition minute : Z := 60000.

Definition call_at (t : Z) : Env * SubscriptionRequests.SubmitArgs :=
  (env_at t, request_args (of_Z 1500)).

(** Four calls in the five minutes after the first one, at [jan15]. *)
Definition next_calls : list (Env * SubscriptionRequests.SubmitArgs) :=
  [call_at (jan15 + minute); call_at (jan15 + 2 * minute);
   call_at (jan15 + 3 * minute); call_at (jan15 + 4 * minute)].

End SampleLimits.

(** *** Rows of a bulk import *)

(** No two counters have the same name. *)
Definition counters_unique {Req} (d : Db Req) : Prop :=
  forall name, one_counter name d.

Definition passes {A} (r : Result A) : bool :=
  match r with
  | Ok _ => true
  | Throw _ => false
  end.

(** The row passes the validation of a bulk import, the categories and
    the currencies of [cats] and [curs] being the valid ones. *)
Definition row_ok {P : Platform} (cats curs : list Id) (sub : Subscriptions.Args) : bool :=
  passes (validateAndSanitizeCommonFields (Subscriptions.a_name sub)
            (Subscriptions.a_description sub) (Some (Subscriptions.a_provider sub))
            0 1000) &&
  passes (validateCost (Subscriptions.a_cost sub)) &&
  validateDateString (Subscriptions.a_nextRenewalDate sub) &&
  passes (validateNotificationDays (Subscriptions.a_notificationDaysBefore sub)) &&
  Subscriptions.has cats (Subscriptions.a_categoryId sub) &&
  Subscriptions.has curs (Subscriptions.a_currencyId sub).

(** The row passes the validation on the store [d]: its fields are well
    formed, its category exists and its currency exists and is active. *)
Definition row_valid {P : Platform} {Req} (d : Db Req) (sub : Subscriptions.Args) : bool :=
  passes (validateAndSanitizeCommonFields (Subscriptions.a_name sub)
            (Subscriptions.a_description sub) (Some (Subscriptions.a_provider sub))
            0 1000) &&
  passes (validateCost (Subscriptions.a_cost sub)) &&
  validateDateString (Subscriptions.a_nextRenewalDate sub) &&
  passes (validateNotificationDays (Subscriptions.a_notificationDaysBefore sub)) &&
  match lookup (categories d) (Subscriptions.a_categoryId sub) with
  | Some _ => true
  | None => false
  end &&
  match lookup (currencies d) (Subscriptions.a_currencyId sub) with
  | Some c => cur_isActive c
  | None => false
  end.

(** The subscription of a row, under the reference number [ref]. *)
Definition row_subscription (ref : jsstring) (sub : Subscriptions.Args) : Subscription :=
  mkSubscription ref
    (sanitizeString (Subscriptions.a_name sub))
    (sanitizeString (Subscriptions.a_description sub))
    (Subscriptions.orEmpty (sanitize_optional (Some (Subscriptions.a_provider sub))))
    (Subscriptions.a_categoryId sub) (Subscriptions.a_cost sub)
    (Subscriptions.a_currencyId sub) (Subscriptions.a_billingCycle sub)
    (Subscriptions.a_nextRenewalDate sub) (Subscriptions.a_paymentMethod sub)
    (Subscriptions.a_status sub) (Subscriptions.a_notificationEnabled sub)
    (Subscriptions.a_notificationDaysBefore sub).

(** The rows inserted are those of the subscriptions [subs], in order. *)
Definition rows_of (subs : list Subscriptions.Args) (new : Table Subscription) : Prop :=
  Forall2 (fun sub x => snd x = row_subscription (sub_referenceNumber (snd x)) sub)
    subs new.

(** The result of a row: its index, and a reference number or an error. *)
Definition result_of (ok : bool) (i : Z) (r : Subscriptions.RowResult) : Prop :=
  Subscriptions.r_index r = i /\ Subscriptions.r_success r = ok /\
  if ok
  then Subscriptions.r_referenceNumber r <> None /\ Subscriptions.r_error r = None
  else Subscriptions.r_referenceNumber r = None /\ Subscriptions.r_error r <> None.

(** The rows with their indices, from [i] on. *)
Fixpoint indexed {A} (i : Z) (rows : list A) : list (Z * A) :=
  match rows with
  | [] => []
  | x :: rest => (i, x) :: indexed (i + 1) rest
  end.

(** The results of the rows, [ok] telling the rows that pass. *)
Definition results_of (ok : Subscriptions.Args -> bool) (i : Z)
    (subs : list Subscriptions.Args) (rs : list Subscriptions.RowResult) : Prop :=
  Forall2 (fun p r => result_of (ok (snd p)) (fst p) r) (indexed i subs) rs.

(** *** An import with a row that fails *)
Module SampleImport.
Import Sample SampleData.

(** A row whose category does not exist. *)
Definition orphan_plan : Subscriptions.Args :=
  Subscriptions.mkArgs (lit "Notion") (lit "Team wiki") (lit "Notion Labs")
    99 (of_Z 960) 2 yearly (lit "2026-06-01") credit_card sub_active true (of_Z 14).

Definition rows : list Subscriptions.Args := [free_plan; orphan_plan; free_plan].

End SampleImport.

(** *** The window of a requester *)
Module Limiter.
Import SubscriptionRequests.

(** The table of rate limits of a store whose next identifier is [n]: the
    identifiers are distinct and below [n], and no two records have the
    same key. *)
Definition table_ok (n : Id) (rl : Table RateLimit) : Prop :=
  NoDup (map fst rl) /\ Forall (fun x => fst x < n) rl /\
  forall key, (List.length (select (by_key key) rl) <= 1)%nat.

Definition store_ok {Req} (d : Db Req) : Prop :=
  table_ok (nextId d) (rateLimits d) /\ counters_unique d.

(** The start of the window and the count of the record of a key. *)
Definition record_of (key : jsstring) (rl : Table RateLimit) : option (Z * Z) :=
  match select (by_key key) rl with
  | (_, r) :: _ => Some (rl_windowStart r, rl_count r)
  | [] => None
  end.

(** The record of a key after an update of its counter at [now]. *)
Definition record_after (now : Z) (before : option (Z * Z)) : Z * Z :=
  match before with
  | Some (start, count) =>
      if now - RATE_LIMIT_WINDOW_MS <? start then (start, count + 1) else (now, 1)
  | None => (now, 1)
  end.

(** The record is in its window at [now] and has reached the limit. *)
Definition over (limit now : Z) (record : option (Z * Z)) : bool :=
  match record with
  | Some (start, count) => (now - RATE_LIMIT_WINDOW_MS <? start) && (limit <=? count)
  | None => false
  end.

(** The global record counts [n] at most. *)
Definition room (n : Z) (rl : Table RateLimit) : Prop :=
  match record_of (lit "global") rl with
  | Some (_, count) => count <= n
  | None => True
  end.

Definition email_key {P : Platform} (args : SubmitArgs) : jsstring :=
  lit "email:" ++ trim (toLowerCase (s_requesterEmail args)).

(** The time of a call: the first read of its clock. *)
Definition call_time (env : Env) : Z := env_clock env 0.

(** The instant [now] is in the window that started at [start]. *)
Definition in_window (start now : Z) : Prop := now - start < RATE_LIMIT_WINDOW_MS.

(** The submission passes every check of [submit] other than the rate
    limits, on a store with the categories and currencies of [d]. *)
Definition accepted {P : Platform} {Req} (args : SubmitArgs) (d : Db Req) : bool :=
  match validateAndSanitizeCommonFields (s_name args) (s_description args)
          (Some (s_provider args)) 10 1000 with
  | Throw _ => false
  | Ok common =>
      let requestedBy := sanitizeString (s_requestedBy args) in
      let requesterEmail := trim (toLowerCase (s_requesterEmail args)) in
      let requesterDepartment := sanitizeString (s_requesterDepartment args) in
      let justification := sanitizeString (s_justification args) in
      negb (JsNumber.le (s_cost args) (of_Z 0)) &&
      passes (validateCost (s_cost args)) &&
      passes (validateStringLength requestedBy "Name" 2 100) &&
      validateEmail requesterEmail &&
      negb (254 <? JsString.length requesterEmail) &&
      passes (validateStringLength requesterDepartment "Department" 2 100) &&
      passes (validateStringLength justification "Justification" 20 2000) &&
      match common_provider common with
      | None => false
      | Some provider =>
          negb (5000 <?
                JsString.length (common_name common) +
                JsString.length (common_description common) +
                JsString.length provider + JsString.length requestedBy +
                JsString.length requesterEmail +
                JsString.length requesterDepartment +
                JsString.length justification)
      end &&
      match lookup (categories d) (s_categoryId args) with
      | Some _ => true
      | None => false
      end &&
      match lookup (currencies d) (s_currencyId args) with
      | Some c => cur_isActive c
      | None => false
      end
  end.

(** A call of the mutation [submit]: its clock and its arguments. *)
Definition submit_call {P : Platform} (c : Env * SubmitArgs)
    (w : World SubscriptionRequest) : Result (Id * jsstring) * World SubscriptionRequest :=
  mutation (submit (snd c)) (fst c) w.

(** One call after the other: the results in order and the state at the
    end. *)
Fixpoint submit_all {P : Platform} (calls : list (Env * SubmitArgs))
    (w : World SubscriptionRequest)
  : list (Result (Id * jsstring)) * World SubscriptionRequest :=
  match calls with
  | [] => ([], w)
  | c :: rest =>
      let (r, w1) := submit_call c w in
      let (rs, w2) := submit_all rest w1 in
      (r :: rs, w2)
  end.

(** A call that is accepted on the store [d] and comes from the requester
    of [key]. *)
Definition from_requester {P : Platform} {Req} (key : jsstring) (d : Db Req)
    (c : Env * SubmitArgs) : Prop :=
  accepted (snd c) d = true /\ email_key (snd c) = key.

End Limiter.

(** ** Further functions of the backend *)

(** [escapeHtml(str)] of convex/lib/helpers.ts *)
Definition escapeHtml (str : jsstring) : jsstring :=
  if JsString.length str =? 0 then []
  else
    replace_all 39 (lit "&#x27;")
      (replace_all 34 (lit "&quot;")
         (replace_all 62 (lit "&gt;")
            (replace_all 60 (lit "&lt;")
               (replace_all 38 (lit "&amp;") str)))).

(** ** Vocabulary of the further properties *)

(** The characters [<] and [>], the double quote and the single quote. *)
Definition html_special (c : Z) : bool :=
  (c =? 60) || (c =? 62) || (c =? 34) || (c =? 39).

(** A string without these characters. *)
Definition html_safe (s : jsstring) : Prop := forall c, In c s -> html_special c = false.

(** The characters of an address that [validateEmail] accepts: letters,
    digits, [.], [_], [+], [-] and [@]. *)
Definition email_char (c : Z) : bool := is_local_char c || (c =? 64).

(** What [escapeHtml] writes for one character. *)
Definition entity (c : Z) : jsstring :=
  if c =? 38 then lit "&amp;"
  else if c =? 60 then lit "&lt;"
  else if c =? 62 then lit "&gt;"
  else if c =? 34 then lit "&quot;"
  else if c =? 39 then lit "&#x27;"
  else [c].

(** An environment without a usable key: the variable is not set, or is
    shorter than 32 characters. *)
Definition no_key (env : Env) : bool :=
  match env_ENCRYPTION_KEY env with
  | Some key => JsString.length key <? 32
  | None => true
  end.

(** *** More sample data *)

Module SampleStore.
Import Sample SampleData.

(** The subscription 20 without a credential. *)
Definition open_db {Req} : Db Req :=
  mkDb (categories (@sample_db unit)) (currencies (@sample_db unit))
    [(20, SampleVault.figma)] [] [] [] (users (@sample_db unit)) [] [] 30.

Definition open_world {Req} : World Req := mkWorld open_db [] [] 0 0.

Definition unset_env : Env := mkEnv (fun _ => jan15) (fun _ => iv0) None true.

End SampleStore.

(** *** Constraints on the store *)

(** No two documents of the table have the same key. *)
Definition unique_by {D K} (key : D -> K) (t : Table D) : Prop :=
  forall i c j d, In (i, c) t -> In (j, d) t -> key c = key d -> i = j.

(** Every document of the table [t] refers, by [ref], to a document that
    is in the table [target]. *)
Definition refers {D D'} (ref : D -> Id) (t : Table D) (target : Table D') : Prop :=
  forall i d, In (i, d) t -> lookup target (ref d) <> None.

(** The admin address an operation is called with; [None] for the
    operations that take none: the public submission, the internal
    mutations and the login. *)
Definition caller (op : Operation) : option jsstring :=
  match op with
  | credentials_reveal e _ _ | credentials_create e _ _ _ _
  | credentials_update e _ _ _ _ | credentials_remove e _
  | subscriptions_create e _ | subscriptions_update e _ _
  | subscriptions_bulkCreate e _ | subscriptions_remove e _
  | requests_approve e _ _ | requests_reject e _ _ | requests_remove e _
  | categories_create e _ _ _ | categories_update e _ _ _ _ | categories_remove e _
  | currencies_create e _ _ _ _ _ | currencies_update e _ _ _ _ _
  | currencies_toggleActive e _ | currencies_remove e _ => Some e
  | requests_submit _ | currencies_updateExchangeRate _ _
  | auth_login _ _ | auth_createAdminInternal _ _ _ | seed_clearDatabase => None
  end.

(** Every credential and every entry of the log belongs to a subscription
    that is in the store. *)
Definition vault_linked {Req} (d : Db Req) : Prop :=
  refers cred_subscriptionId (credentials d) (subscriptions d) /\
  refers log_subscriptionId (auditLogs d) (subscriptions d).

(** Every subscription and every request has a category and a currency
    that are in the store. *)
Definition catalogue_linked (d : Db SubscriptionRequests.SubscriptionRequest) : Prop :=
  refers sub_categoryId (subscriptions d) (categories d) /\
  refers sub_currencyId (subscriptions d) (currencies d) /\
  refers SubscriptionRequests.req_categoryId (subscriptionRequests d) (categories d) /\
  refers SubscriptionRequests.req_currencyId (subscriptionRequests d) (currencies d).

(** *** The tables an operation writes *)

Inductive TableName : Type :=
| t_categories | t_currencies | t_subscriptions | t_credentials
| t_subscriptionRequests | t_auditLogs | t_users | t_counters | t_rateLimits.

(** The tables that the handler of an operation writes to ([insert],
    [patch] or [delete]), [generateReferenceNumber] and the update of the
    rate limits included. *)
Definition writes (op : Operation) (t : TableName) : bool :=
  match op, t with
  | credentials_reveal _ _ _, t_auditLogs => true
  | credentials_create _ _ _ _ _, t_credentials => true
  | credentials_update _ _ _ _ _, (t_credentials | t_auditLogs) => true
  | credentials_remove _ _, t_credentials => true
  | subscriptions_create _ _, (t_subscriptions | t_counters) => true
  | subscriptions_update _ _ _, t_subscriptions => true
  | subscriptions_bulkCreate _ _, (t_subscriptions | t_counters) => true
  | subscriptions_remove _ _, (t_subscriptions | t_credentials | t_auditLogs) => true
  | requests_submit _, (t_subscriptionRequests | t_counters | t_rateLimits) => true
  | requests_approve _ _ _, (t_subscriptions | t_subscriptionRequests | t_counters) =>
      true
  | requests_reject _ _ _, t_subscriptionRequests => true
  | requests_remove _ _, t_subscriptionRequests => true
  | categories_create _ _ _ _, t_categories => true
  | categories_update _ _ _ _ _, t_categories => true
  | categories_remove _ _, t_categories => true
  | currencies_updateExchangeRate _ _, t_currencies => true
  | currencies_create _ _ _ _ _ _, t_currencies => true
  | currencies_update _ _ _ _ _ _, t_currencies => true
  | currencies_toggleActive _ _, t_currencies => true
  | currencies_remove _ _, t_currencies => true
  | auth_createAdminInternal _ _ _, t_users => true
  | seed_clearDatabase, _ => true
  | _, _ => false
  end.

(** The table [t] is the same in two stores. *)
Definition same_table (t : TableName)
    (d d' : Db SubscriptionRequests.SubscriptionRequest) : Prop :=
  match t with
  | t_categories => categories d' = categories d
  | t_currencies => currencies d' = currencies d
  | t_subscriptions => subscriptions d' = subscriptions d
  | t_credentials => credentials d' = credentials d
  | t_subscriptionRequests => subscriptionRequests d' = subscriptionRequests d
  | t_auditLogs => auditLogs d' = auditLogs d
  | t_users => users d' = users d
  | t_counters => counters d' = counters d
  | t_rateLimits => rateLimits d' = rateLimits d
  end.

(** *** Stored fields and the validation *)

(** A string that [sanitizeString] leaves as it is, of a length within the
    bounds. *)
Definition kept (lo hi : Z) (s : jsstring) : Prop :=
  sanitizeString s = s /\ lo <= JsString.length s <= hi.

(** Every document of the table satisfies [Q]. *)
Definition every {D} (Q : D -> Prop) (t : Table D) : Prop :=
  forall i d, In (i, d) t -> Q d.

Definition subscription_valid (s : Subscription) : Prop :=
  kept 1 200 (sub_name s) /\ kept 0 1000 (sub_description s) /\
  kept 0 200 (sub_provider s) /\
  validateCost (sub_cost s) = Ok tt /\
  validateNotificationDays (sub_notificationDaysBefore s) = Ok tt.

Definition request_valid (r : SubscriptionRequests.SubscriptionRequest) : Prop :=
  kept 1 200 (SubscriptionRequests.req_name r) /\
  kept 10 1000 (SubscriptionRequests.req_description r) /\
  kept 0 200 (SubscriptionRequests.req_provider r) /\
  validateCost (SubscriptionRequests.req_cost r) = Ok tt /\
  JsNumber.le (SubscriptionRequests.req_cost r) (of_Z 0) = false /\
  kept 2 100 (SubscriptionRequests.req_requestedBy r) /\
  validateEmail (SubscriptionRequests.req_requesterEmail r) = true /\
  kept 2 100 (SubscriptionRequests.req_requesterDepartment r) /\
  kept 20 2000 (SubscriptionRequests.req_justification r) /\
  match SubscriptionRequests.req_adminNotes r with
  | Some notes => kept 0 1000 notes
  | None => True
  end.

(** Every subscription and every request of the store passes the
    validation of the operations that write them. *)
Definition store_valid (d : Db SubscriptionRequests.SubscriptionRequest) : Prop :=
  every subscription_valid (subscriptions d) /\
  every request_valid (subscriptionRequests d).

(** ** convex/lib/permissions.ts: [getAdminOrNull] *)

Definition getAdminOrNull {P : Platform} {Req} (email : jsstring)
  : M Req (option AdminUser) :=
  if JsString.length email =? 0 then ret None
  else
    user <- db_unique Users (fun u => eqb (user_email u) (toLowerCase email)) ;;
    match user with
    | None => ret None
    | Some (id, u) =>
        if negb (eqb (user_role u) (lit "admin")) then ret None
        else ret (Some (mkAdminUser id (user_email u) (user_name u) (user_role u)))
    end.

(** ** convex/credentials.ts: the queries *)

Module CredentialQueries.

(** The text that stands for the password: eight times U+2022. *)
Definition mask : jsstring := repeat 8226 8.

(** What a query returns of a credential. *)
Record Masked : Type := mkMasked {
  m_id : Id;
  m_subscriptionId : Id;
  m_username : jsstring;
  m_password : jsstring;
  m_notes : option jsstring
}.

Definition masked (credential : Id * Credential) : Masked :=
  mkMasked (fst credential) (cred_subscriptionId (snd credential))
    (cred_username (snd credential)) mask (cred_notes (snd credential)).

(** [new Map(rows.map((r) => [r._id.toString(), r])).get(id.toString())]:
    the last of the rows with the identifier. *)
Definition map_get {D} (rows : Table D) (id : Id) : option D := lookup (rev rows) id.

Definition getBySubscription {P : Platform} {Req} (adminEmail : jsstring)
    (subscriptionId : Id) : M Req (option Masked) :=
  requireAdmin adminEmail ;;;
  credential <- db_unique Credentials (Credentials.by_subscription subscriptionId) ;;
  match credential with
  | None => ret None
  | Some credential => ret (Some (masked credential))
  end.

Definition get {P : Platform} {Req} (adminEmail : jsstring) (id : Id)
  : M Req (option (Masked * option Subscription)) :=
  requireAdmin adminEmail ;;;
  credential <- db_get Credentials id ;;
  match credential with
  | None => ret None
  | Some credential =>
      subscription <- db_get Subscriptions (cred_subscriptionId credential) ;;
      ret (Some (masked (id, credential), subscription))
  end.

Definition list {P : Platform} {Req} (adminEmail : jsstring)
  : M Req (Datatypes.list (Masked * option Subscription)) :=
  requireAdmin adminEmail ;;;
  credentials <- db_collect Credentials (fun _ => true) ;;
  subscriptions <- db_collect Subscriptions (fun _ => true) ;;
  ret (map (fun cred => (masked cred,
                         map_get subscriptions (cred_subscriptionId (snd cred))))
         credentials).

End CredentialQueries.

(** The credential with its password blanked, and the store with every
    password blanked. *)
Definition blank (c : Credential) : Credential :=
  mkCredential (cred_subscriptionId c) (cred_username c) [] (cred_notes c).

Definition blank_row (r : Id * Credential) : Id * Credential := (fst r, blank (snd r)).

Definition redact {Req} (w : World Req) : World Req :=
  mkWorld (t_set Credentials (map blank_row (credentials (db w))) (db w))
    (scheduled w) (console w) (ticks w) (draws w).

(** *** The scheduler and the results *)

(** Two environments that differ at most in the state of the scheduler. *)
Definition same_inputs (env env' : Env) : Prop :=
  env_clock env' = env_clock env /\ env_random env' = env_random env /\
  env_ENCRYPTION_KEY env' = env_ENCRYPTION_KEY env.

(** Two states that differ at most in the jobs scheduled and the lines of
    the console. *)
Definition alike {Req} (w w' : World Req) : Prop :=
  db w' = db w /\ ticks w' = ticks w /\ draws w' = draws w.

(** A handler whose result and whose writes to the database do not depend
    on the scheduler. *)
Definition steady {Req A} (m : M Req A) : Prop :=
  forall env env' w w', same_inputs env env' -> alike w w' ->
    fst (m env' w') = fst (m env w) /\ alike (snd (m env w)) (snd (m env' w')).

(** The store of the samples with a global record that has reached the
    limit, half an hour before 2026-01-15T00:00:00Z. *)
Definition busy_world : World SubscriptionRequests.SubscriptionRequest :=
  mkWorld
    (mkDb (categories (@SampleData.sample_db unit)) (currencies (@SampleData.sample_db unit))
       [] [] [] [] (users (@SampleData.sample_db unit)) []
       [(4, mkRateLimit (lit "global") (SampleData.jan15 - 1800000) 100)] 10)
    [] [] 0 0.

(** * Bit operations as arithmetic *)

Section Bits.

Lemma testbit_small (b n m : Z) :
  0 <= b < 2 ^ n -> n <= m -> Z.testbit b m = false.
Proof.
  intros Hb Hm.
  destruct (Z.eq_dec b 0) as [->|Hnz]; [apply Z.bits_0|].
  apply Z.bits_above_log2; [lia|].
  assert (Z.log2 b < n) by (apply Z.log2_lt_pow2; lia).
  lia.
Qed.

Lemma land_shiftl_small (a b n : Z) :
  0 <= n -> 0 <= b < 2 ^ n -> Z.land (Z.shiftl a n) b = 0.
Proof.
  intros Hn Hb. apply Z.bits_inj'. intros m Hm.
  rewrite Z.land_spec, Z.bits_0.
  destruct (Z.lt_ge_cases m n) as [Hlt|Hge].
  - rewrite Z.shiftl_spec_low by lia. reflexivity.
  - rewrite (testbit_small b n m) by lia. apply andb_false_r.
Qed.

Lemma lor_shiftl_add (a b n : Z) :
  0 <= n -> 0 <= b < 2 ^ n -> Z.lor (Z.shiftl a n) b = a * 2 ^ n + b.
Proof.
  intros Hn Hb.
  pose proof (Z.add_lor_land (Z.shiftl a n) b) as H.
  rewrite land_shiftl_small in H by assumption.
  rewrite Z.shiftl_mul_pow2 in * by assumption. lia.
Qed.

Lemma land_mask (a n : Z) : 0 <= n -> Z.land a (2 ^ n - 1) = a mod 2 ^ n.
Proof.
  intros Hn. rewrite <- Z.land_ones by assumption.
  f_equal. rewrite Z.ones_equiv. lia.
Qed.

Lemma lor_0x80 (x : Z) : Z.lor 0x80 (Z.land x 0x3F) = 128 + x mod 64.
Proof.
  change 0x3F with (2 ^ 6 - 1). rewrite land_mask by lia.
  change 0x80 with (Z.shiftl 2 6).
  rewrite lor_shiftl_add; [reflexivity|lia|].
  apply Z.mod_pos_bound. reflexivity.
Qed.

Lemma lor_cont (c b : Z) :
  Z.lor (Z.shiftl c 6) (Z.land b 0x3F) = c * 64 + b mod 64.
Proof.
  change 0x3F with (2 ^ 6 - 1). rewrite land_mask by lia.
  rewrite lor_shiftl_add; [reflexivity|lia|].
  apply Z.mod_pos_bound. reflexivity.
Qed.

Lemma shiftr_div (a n : Z) : 0 <= n -> Z.shiftr a n = a / 2 ^ n.
Proof. apply Z.shiftr_div_pow2. Qed.

End Bits.

Ltac bits_to_arith :=
  repeat rewrite lor_0x80 in *; repeat rewrite lor_cont in *;
  repeat match goal with
  | |- context [Z.shiftr ?a ?n] => rewrite (shiftr_div a n) by lia
  | |- context [Z.land ?a 0x1F] => change 0x1F with (2 ^ 5 - 1); rewrite (land_mask a 5) by lia
  | |- context [Z.land ?a 0xF] => change 0xF with (2 ^ 4 - 1); rewrite (land_mask a 4) by lia
  | |- context [Z.land ?a 0x7] => change 0x7 with (2 ^ 3 - 1); rewrite (land_mask a 3) by lia
  | |- context [Z.land ?a 0x3FF] => change 0x3FF with (2 ^ 10 - 1); rewrite (land_mask a 10) by lia
  | |- context [Z.land ?a 0x3F] => change 0x3F with (2 ^ 6 - 1); rewrite (land_mask a 6) by lia
  | |- context [Z.land ?a 0xFF] => change 0xFF with (2 ^ 8 - 1); rewrite (land_mask a 8) by lia
  | |- context [Z.land ?a 3] => change 3 with (2 ^ 2 - 1); rewrite (land_mask a 2) by lia
  | |- context [Z.shiftl ?a ?n] => rewrite (Z.shiftl_mul_pow2 a n) by lia
  end;
  change (2 ^ 2) with 4 in *; change (2 ^ 3) with 8 in *; change (2 ^ 4) with 16 in *;
  change (2 ^ 5) with 32 in *; change (2 ^ 6) with 64 in *; change (2 ^ 8) with 256 in *;
  change (2 ^ 10) with 1024 in *; change (2 ^ 12) with 4096 in *;
  change (2 ^ 16) with 65536 in *; change (2 ^ 18) with 262144 in *.

Ltac arith := Z.div_mod_to_equations; lia.

(** * UTF-8 *)

Lemma lead_byte_1 b : 0 <= b <= 0x7F -> lead_byte b = (decoder_init, [b]).
Proof.
  intros H. unfold lead_byte.
  destruct (Z.leb_spec 0 b); [|lia]. destruct (Z.leb_spec b 0x7F); [|lia].
  reflexivity.
Qed.

Ltac decide_leb :=
  repeat match goal with
  | |- context [?a <=? ?b] => destruct (Z.leb_spec a b); try lia
  | |- context [?a <? ?b] => destruct (Z.ltb_spec a b); try lia
  | |- context [?a =? ?b] => destruct (Z.eqb_spec a b); try lia
  end; simpl.

Lemma lead_byte_2 b :
  0xC2 <= b <= 0xDF ->
  lead_byte b = (mkDecoder (Z.land b 0x1F) 0 1 0x80 0xBF, []).
Proof. intros H. unfold lead_byte. decide_leb. reflexivity. Qed.

Lemma lead_byte_3 b :
  0xE0 <= b <= 0xEF ->
  lead_byte b =
    (mkDecoder (Z.land b 0xF) 0 2
       (if b =? 0xE0 then 0xA0 else 0x80) (if b =? 0xED then 0x9F else 0xBF), []).
Proof.
  intros H. unfold lead_byte.
  destruct (Z.leb_spec 0 b); [|lia]. destruct (Z.leb_spec b 0x7F); [lia|].
  destruct (Z.leb_spec 0xC2 b); [|lia]. destruct (Z.leb_spec b 0xDF); [lia|].
  destruct (Z.leb_spec 0xE0 b); [|lia]. destruct (Z.leb_spec b 0xEF); [|lia].
  reflexivity.
Qed.

Lemma lead_byte_4 b :
  0xF0 <= b <= 0xF4 ->
  lead_byte b =
    (mkDecoder (Z.land b 0x7) 0 3
       (if b =? 0xF0 then 0x90 else 0x80) (if b =? 0xF4 then 0x8F else 0xBF), []).
Proof.
  intros H. unfold lead_byte.
  destruct (Z.leb_spec 0 b); [|lia]. destruct (Z.leb_spec b 0x7F); [lia|].
  destruct (Z.leb_spec 0xC2 b); [|lia]. destruct (Z.leb_spec b 0xDF); [lia|].
  destruct (Z.leb_spec 0xE0 b); [|lia]. destruct (Z.leb_spec b 0xEF); [lia|].
  destruct (Z.leb_spec 0xF0 b); [|lia]. destruct (Z.leb_spec b 0xF4); [|lia].
  reflexivity.
Qed.

Lemma step_lead st b : d_needed st = 0 -> step st b = lead_byte b.
Proof. intros H. unfold step. rewrite H. reflexivity. Qed.

Lemma step_continue cp seen needed lo up b :
  needed <> 0 -> lo <= b <= up -> seen + 1 <> needed ->
  step (mkDecoder cp seen needed lo up) b =
    (mkDecoder (cp * 64 + b mod 64) (seen + 1) needed 0x80 0xBF, []).
Proof.
  intros Hn Hb Hs. unfold step; cbn [d_needed d_lower d_upper d_seen d_code_point].
  destruct (Z.eqb_spec needed 0); [lia|].
  destruct (Z.ltb_spec b lo); [lia|]. destruct (Z.ltb_spec up b); [lia|]. cbn [orb].
  destruct (Z.eqb_spec (seen + 1) needed); [lia|].
  rewrite lor_cont. reflexivity.
Qed.

Lemma step_last cp seen needed lo up b :
  needed <> 0 -> lo <= b <= up -> seen + 1 = needed ->
  step (mkDecoder cp seen needed lo up) b = (decoder_init, [cp * 64 + b mod 64]).
Proof.
  intros Hn Hb Hs. unfold step; cbn [d_needed d_lower d_upper d_seen d_code_point].
  destruct (Z.eqb_spec needed 0); [lia|].
  destruct (Z.ltb_spec b lo); [lia|]. destruct (Z.ltb_spec up b); [lia|]. cbn [orb].
  destruct (Z.eqb_spec (seen + 1) needed); [|lia].
  rewrite lor_cont. reflexivity.
Qed.

Lemma run_cons st b rest :
  run st (b :: rest) = snd (step st b) ++ run (fst (step st b)) rest.
Proof. cbn [run]. destruct (step st b). reflexivity. Qed.

Lemma run_encode cp rest :
  scalar cp ->
  run decoder_init (encode_code_point cp ++ rest) = cp :: run decoder_init rest.
Proof.
  intros [Hr Hs]. unfold encode_code_point.
  destruct (Z.leb_spec cp 0x7F).
  { cbn [app]. rewrite run_cons, step_lead, lead_byte_1 by (reflexivity || lia).
    reflexivity. }
  destruct (Z.leb_spec cp 0x7FF).
  { cbn [app]. bits_to_arith.
    rewrite run_cons, step_lead, lead_byte_2 by (reflexivity || arith).
    cbn [fst snd app].
    rewrite run_cons, step_last by (arith || cbn; arith).
    cbn [fst snd app]. f_equal. bits_to_arith. arith. }
  destruct (Z.leb_spec cp 0xFFFF).
  { cbn [app]. bits_to_arith.
    rewrite run_cons, step_lead, lead_byte_3 by (reflexivity || arith).
    cbn [fst snd app].
    rewrite run_cons, step_continue.
    2: lia.
    2: { destruct (Z.eqb_spec (cp / 4096 + 224) 224);
         destruct (Z.eqb_spec (cp / 4096 + 224) 237); arith. }
    2: lia.
    cbn [fst snd app].
    rewrite run_cons, step_last by arith.
    cbn [fst snd app]. f_equal. bits_to_arith. arith. }
  { cbn [app]. bits_to_arith.
    rewrite run_cons, step_lead, lead_byte_4 by (reflexivity || arith).
    cbn [fst snd app].
    rewrite run_cons, step_continue.
    2: lia.
    2: { destruct (Z.eqb_spec (cp / 262144 + 240) 240);
         destruct (Z.eqb_spec (cp / 262144 + 240) 244); arith. }
    2: lia.
    cbn [fst snd app].
    rewrite run_cons, step_continue by arith.
    cbn [fst snd app].
    rewrite run_cons, step_last by arith.
    cbn [fst snd app]. f_equal. bits_to_arith. arith. }
Qed.

Lemma run_encode_all cps :
  Forall scalar cps -> run decoder_init (flat_map encode_code_point cps) = cps.
Proof.
  induction 1 as [|cp cps Hcp _ IH]; [reflexivity|].
  cbn [flat_map]. rewrite run_encode by assumption. now rewrite IH.
Qed.

(** Induction over strings that follows [code_points]: a step consumes one
    or two code units. *)
Lemma string_ind2 (P : jsstring -> Prop) :
  P [] ->
  (forall c, P [c]) ->
  (forall c d s, P s -> P (d :: s) -> P (c :: d :: s)) ->
  forall s, P s.
Proof.
  intros H0 H1 H2.
  assert (forall s, P s /\ forall c, P (c :: s)) as H.
  { induction s as [|d s [IHs IHc]]; split; auto. }
  intros s. apply H.
Qed.

Lemma surrogate_pair_scalar c d :
  high_surrogate c = true -> low_surrogate d = true ->
  scalar (0x10000 + Z.shiftl (c - 0xD800) 10 + (d - 0xDC00)).
Proof.
  unfold high_surrogate, low_surrogate, scalar.
  rewrite !andb_true_iff, !Z.leb_le. intros [? ?] [? ?].
  rewrite Z.shiftl_mul_pow2 by lia. change (2 ^ 10) with 1024. lia.
Qed.

Lemma unit_scalar c :
  code_unit c = true -> high_surrogate c = false -> low_surrogate c = false ->
  scalar c.
Proof.
  unfold code_unit, high_surrogate, low_surrogate, scalar.
  rewrite andb_true_iff, !andb_false_iff, Z.leb_le, Z.ltb_lt, !Z.leb_gt. lia.
Qed.

Lemma code_points_pair c d s :
  high_surrogate c = true -> low_surrogate d = true ->
  code_points (c :: d :: s) =
    (0x10000 + Z.shiftl (c - 0xD800) 10 + (d - 0xDC00)) :: code_points s.
Proof. intros Hc Hd. cbn [code_points]. rewrite Hc, Hd. reflexivity. Qed.

Lemma code_points_unit c s :
  high_surrogate c = false -> low_surrogate c = false ->
  code_points (c :: s) = c :: code_points s.
Proof. intros Hc Hd. cbn [code_points]. rewrite Hc, Hd. reflexivity. Qed.

(** The two shapes of a well-formed string that is not empty. *)
Lemma well_formed_cases c s :
  well_formed (c :: s) = true ->
  (code_unit c = true /\ high_surrogate c = false /\ low_surrogate c = false /\
   well_formed s = true) \/
  (exists d s', s = d :: s' /\ high_surrogate c = true /\
                low_surrogate d = true /\ well_formed s' = true).
Proof.
  cbn [well_formed]. destruct (code_unit c); [|discriminate]. cbn [andb].
  destruct (high_surrogate c).
  - destruct s as [|d s']; [discriminate|].
    destruct (low_surrogate d) eqn:Hd; [|discriminate]. cbn [andb].
    intros H. right. exists d, s'. auto.
  - destruct (low_surrogate c); [discriminate|]. cbn [negb andb]. auto.
Qed.

Lemma code_points_scalar s :
  well_formed s = true -> Forall scalar (code_points s).
Proof.
  induction s as [|c|c d s IHs IHd] using string_ind2; [constructor| |];
    intros Hw; apply well_formed_cases in Hw
      as [(Hu & Hh & Hl & Hs)|(d' & s' & E & Hh & Hl & Hs)];
    try discriminate E.
  - rewrite code_points_unit by assumption. constructor; [now apply unit_scalar|constructor].
  - rewrite code_points_unit by assumption. constructor; [now apply unit_scalar|auto].
  - injection E as -> ->. rewrite code_points_pair by assumption.
    constructor; [now apply surrogate_pair_scalar|auto].
Qed.

Lemma of_code_point_unit c : code_unit c = true -> of_code_point c = [c].
Proof.
  unfold code_unit, of_code_point. intros H.
  apply andb_true_iff in H as [_ H]. rewrite H. reflexivity.
Qed.

Lemma of_code_point_pair c d :
  high_surrogate c = true -> low_surrogate d = true ->
  of_code_point (0x10000 + Z.shiftl (c - 0xD800) 10 + (d - 0xDC00)) = [c; d].
Proof.
  unfold of_code_point, high_surrogate, low_surrogate.
  rewrite !andb_true_iff, !Z.leb_le. intros [? ?] [? ?].
  rewrite Z.shiftl_mul_pow2 by lia. change (2 ^ 10) with 1024.
  destruct (Z.ltb_spec (65536 + (c - 55296) * 1024 + (d - 56320)) 65536); [lia|].
  bits_to_arith. f_equal; [arith|]. f_equal. arith.
Qed.

Lemma of_code_points_inv s :
  well_formed s = true -> of_code_points (code_points s) = s.
Proof.
  unfold of_code_points.
  induction s as [|c|c d s IHs IHd] using string_ind2; [reflexivity| |];
    intros Hw; apply well_formed_cases in Hw
      as [(Hu & Hh & Hl & Hs)|(d' & s' & E & Hh & Hl & Hs)];
    try discriminate E.
  - rewrite code_points_unit by assumption. cbn [flat_map code_points].
    rewrite of_code_point_unit by assumption. reflexivity.
  - rewrite code_points_unit by assumption. cbn [flat_map].
    rewrite of_code_point_unit, IHd by assumption. reflexivity.
  - injection E as -> ->. rewrite code_points_pair by assumption. cbn [flat_map].
    rewrite of_code_point_pair, IHs by assumption. reflexivity.
Qed.

(** The first code point is the byte order mark only if the first code unit
    is. *)
Lemma strip_bom_code_points s :
  well_formed s = true -> hd 0 s <> 0xFEFF ->
  strip_bom (code_points s) = code_points s.
Proof.
  destruct s as [|c s]; [reflexivity|]. cbn [hd]. intros Hw Hc.
  apply well_formed_cases in Hw
    as [(Hu & Hh & Hl & Hs)|(d & s' & -> & Hh & Hl & Hs)].
  - rewrite code_points_unit by assumption. cbn [strip_bom].
    destruct (Z.eqb_spec c 0xFEFF); [contradiction|reflexivity].
  - rewrite code_points_pair by assumption. cbn [strip_bom].
    unfold high_surrogate, low_surrogate in *.
    apply andb_true_iff in Hh as [Hh1 Hh2]. apply andb_true_iff in Hl as [Hl1 Hl2].
    apply Z.leb_le in Hh1, Hh2, Hl1, Hl2.
    rewrite Z.shiftl_mul_pow2 by lia. change (2 ^ 10) with 1024.
    destruct (Z.eqb_spec (65536 + (c - 55296) * 1024 + (d - 56320)) 65279); [lia|].
    reflexivity.
Qed.

(** [TextDecoder.decode] inverts [TextEncoder.encode] on well-formed strings
    that do not start with the byte order mark. *)
Lemma decode_encode s :
  well_formed s = true -> hd 0 s <> 0xFEFF ->
  TextDecoder_decode (TextEncoder_encode s) = s.
Proof.
  intros Hw Hb. unfold TextDecoder_decode, TextEncoder_encode.
  rewrite run_encode_all by now apply code_points_scalar.
  rewrite strip_bom_code_points by assumption.
  now apply of_code_points_inv.
Qed.

Lemma encode_code_point_bytes cp :
  scalar cp -> Forall byte (encode_code_point cp).
Proof.
  intros [Hr Hs]. unfold encode_code_point, byte.
  destruct (Z.leb_spec cp 0x7F); [repeat constructor; lia|].
  destruct (Z.leb_spec cp 0x7FF); [bits_to_arith; repeat constructor; arith|].
  destruct (Z.leb_spec cp 0xFFFF); bits_to_arith; repeat constructor; arith.
Qed.

Lemma TextEncoder_encode_bytes s :
  well_formed s = true -> Forall byte (TextEncoder_encode s).
Proof.
  intros Hw. unfold TextEncoder_encode.
  induction (code_points_scalar s Hw) as [|cp cps Hcp _ IH]; [constructor|].
  cbn [flat_map]. apply Forall_app. split; [now apply encode_code_point_bytes|exact IH].
Qed.

(** * The XOR mask *)

Lemma to_uint8_byte x : byte (to_uint8 x).
Proof. unfold byte, to_uint8. apply Z.mod_pos_bound. reflexivity. Qed.

Lemma xor_mask_involutive x k v :
  byte x -> to_uint8 (Z.lxor (Z.lxor (to_uint8 (Z.lxor (Z.lxor x k) v)) k) v) = x.
Proof.
  intros Hx. unfold to_uint8. change 256 with (2 ^ 8).
  rewrite <- !Z.land_ones by lia.
  apply Z.bits_inj'. intros n Hn.
  rewrite !Z.land_spec, !Z.lxor_spec, !Z.land_spec, !Z.lxor_spec.
  destruct (Z.lt_ge_cases n 8) as [Hlt|Hge].
  - rewrite Z.ones_spec_low by lia.
    destruct (Z.testbit x n), (Z.testbit k n), (Z.testbit v n); reflexivity.
  - rewrite Z.ones_spec_high by lia.
    rewrite (testbit_small x 8 n) by (assumption || lia).
    now rewrite !andb_false_r.
Qed.

Lemma xor_at_involutive keyBytes iv i x :
  byte x -> xor_at keyBytes iv i (xor_at keyBytes iv i x) = x.
Proof. intros Hx. unfold xor_at. now apply xor_mask_involutive. Qed.

Lemma xor_from_involutive keyBytes iv src :
  Forall byte src ->
  forall i, xor_from keyBytes iv i (xor_from keyBytes iv i src) = src.
Proof.
  induction 1 as [|x src Hx _ IH]; intros i; [reflexivity|].
  cbn [xor_from]. rewrite xor_at_involutive by assumption. now rewrite IH.
Qed.

Lemma xor_from_bytes keyBytes iv src i : Forall byte (xor_from keyBytes iv i src).
Proof.
  revert i. induction src as [|x src IH]; intros i; cbn [xor_from]; constructor.
  - apply to_uint8_byte.
  - apply IH.
Qed.

(** * Base64 *)

Lemma list_ind3 (A : Type) (P : list A -> Prop) :
  P [] -> (forall x, P [x]) -> (forall x y, P [x; y]) ->
  (forall x y z l, P l -> P (x :: y :: z :: l)) ->
  forall l, P l.
Proof.
  intros H0 H1 H2 H3.
  assert (forall l, P l /\ (forall x, P (x :: l)) /\ forall x y, P (x :: y :: l)) as H.
  { induction l as [|a l (IH0 & IH1 & IH2)]; repeat split; auto. }
  intros l. apply H.
Qed.

Ltac forall_inv H :=
  repeat (let H1 := fresh "H" in apply Forall_cons_iff in H as [H1 H]).

Lemma below_spec n P :
  below n P = true -> forall z, 0 <= z < Z.of_nat n -> P z = true.
Proof.
  induction n as [|m IH]; cbn [below]; intros H z Hz; [lia|].
  apply andb_true_iff in H as [H1 H2].
  destruct (Z.eq_dec z (Z.of_nat m)) as [->|Hne]; [exact H1|].
  apply IH; [exact H2|lia].
Qed.

Lemma char_of_sextet_ok n : sextet n -> char_ok n = true.
Proof. intros H. apply (below_spec 64); [vm_compute; reflexivity|exact H]. Qed.

Lemma sextet_of_char_of_sextet n :
  sextet n -> sextet_of_char (char_of_sextet n) = Some n.
Proof.
  intros H. apply char_of_sextet_ok in H. unfold char_ok in H.
  destruct (sextet_of_char (char_of_sextet n)) as [m|]; [|discriminate].
  apply andb_true_iff in H as [H _]. apply andb_true_iff in H as [H _].
  apply Z.eqb_eq in H. now subst.
Qed.

Lemma char_of_sextet_not_space n :
  sextet n -> ascii_whitespace (char_of_sextet n) = false.
Proof.
  intros H. apply char_of_sextet_ok in H. unfold char_ok in H.
  destruct (sextet_of_char (char_of_sextet n)) as [m|]; [|discriminate].
  apply andb_true_iff in H as [H _]. apply andb_true_iff in H as [_ H].
  now apply negb_true_iff in H.
Qed.

Lemma char_of_sextet_not_pad n :
  sextet n -> (char_of_sextet n =? pad) = false.
Proof.
  intros H. apply char_of_sextet_ok in H. unfold char_ok in H.
  destruct (sextet_of_char (char_of_sextet n)) as [m|]; [|discriminate].
  apply andb_true_iff in H as [_ H]. now apply negb_true_iff in H.
Qed.

Lemma unpadded_sextets bs : Forall byte bs -> Forall sextet (unpadded bs).
Proof.
  unfold byte, sextet.
  induction bs as [|x|x y|x y z l IH] using list_ind3; intros H; forall_inv H;
    cbn [unpadded]; change 15 with (2 ^ 4 - 1); change 63 with (2 ^ 6 - 1);
    change 3 with (2 ^ 2 - 1); rewrite ?land_mask, ?shiftr_div by lia;
    change (2 ^ 2) with 4; change (2 ^ 4) with 16; change (2 ^ 6) with 64.
  - constructor.
  - rewrite Z.shiftl_mul_pow2 by lia. repeat constructor; arith.
  - rewrite lor_shiftl_add by arith. rewrite Z.shiftl_mul_pow2 by lia.
    repeat constructor; arith.
  - rewrite (lor_shiftl_add (x mod 4)), (lor_shiftl_add (y mod 16)) by arith.
    repeat (constructor; [arith|]). auto.
Qed.

Lemma encode_length bs : Z.of_nat (List.length (encode bs)) mod 4 = 0.
Proof.
  induction bs as [|x|x y|x y z l IH] using list_ind3; try reflexivity.
  cbn [encode List.length]. rewrite !Nat2Z.inj_succ.
  replace (Z.succ (Z.succ (Z.succ (Z.succ (Z.of_nat (List.length (encode l))))))) with
    (Z.of_nat (List.length (encode l)) + 1 * 4) by lia.
  rewrite Z.mod_add by lia. exact IH.
Qed.

Lemma unpadded_length bs : Z.of_nat (List.length (unpadded bs)) mod 4 <> 1.
Proof.
  induction bs as [|x|x y|x y z l IH] using list_ind3; try (cbn; lia).
  cbn [unpadded List.length]. rewrite !Nat2Z.inj_succ.
  replace (Z.succ (Z.succ (Z.succ (Z.succ (Z.of_nat (List.length (unpadded l))))))) with
    (Z.of_nat (List.length (unpadded l)) + 1 * 4) by lia.
  rewrite Z.mod_add by lia. exact IH.
Qed.

Lemma strip_end_cons4 a b c d x y l :
  strip_end (a :: b :: c :: d :: x :: y :: l) =
  a :: b :: c :: d :: strip_end (x :: y :: l).
Proof. reflexivity. Qed.

Lemma encode_two x l : exists e1 e2 es, encode (x :: l) = e1 :: e2 :: es.
Proof. destruct l as [|y [|z l]]; cbn [encode]; eauto. Qed.

Lemma strip_end_encode bs :
  Forall byte bs -> strip_end (encode bs) = map char_of_sextet (unpadded bs).
Proof.
  intros Hb. pose proof (unpadded_sextets bs Hb) as Hs. clear Hb. revert Hs.
  induction bs as [|x|x y|x y z l IH] using list_ind3; cbn [unpadded]; intros Hs.
  - reflexivity.
  - cbn [encode strip_end map]. rewrite Z.eqb_refl. forall_inv Hs.
    rewrite ?char_of_sextet_not_pad by assumption. reflexivity.
  - cbn [encode strip_end map]. rewrite Z.eqb_refl. forall_inv Hs.
    rewrite ?char_of_sextet_not_pad by assumption. reflexivity.
  - forall_inv Hs. cbn [encode map]. destruct l as [|u l].
    + cbn [encode unpadded map strip_end].
      rewrite char_of_sextet_not_pad by assumption. reflexivity.
    + destruct (encode_two u l) as (e1 & e2 & es & E).
      rewrite E, strip_end_cons4, <- E, (IH Hs). reflexivity.
Qed.

Lemma encode_no_space bs :
  Forall byte bs ->
  filter (fun c => negb (ascii_whitespace c)) (encode bs) = encode bs.
Proof.
  intros Hb. pose proof (unpadded_sextets bs Hb) as Hs. clear Hb. revert Hs.
  induction bs as [|x|x y|x y z l IH] using list_ind3; cbn [unpadded]; intros Hs;
    forall_inv Hs; cbn [encode filter];
    rewrite ?char_of_sextet_not_space by assumption; cbn [negb];
    try reflexivity.
  now rewrite (IH Hs).
Qed.

Lemma sextets_chars ns :
  Forall sextet ns -> sextets (map char_of_sextet ns) = Some ns.
Proof.
  induction 1 as [|n ns Hn _ IH]; [reflexivity|].
  cbn [map sextets]. rewrite (sextet_of_char_of_sextet _ Hn), IH. reflexivity.
Qed.

(** Three bytes, four sextets and back. *)
Lemma triple_bytes x y z :
  byte x -> byte y -> byte z ->
  let a := Z.shiftr x 2 in
  let b := Z.lor (Z.shiftl (Z.land x 3) 4) (Z.shiftr y 4) in
  let c := Z.lor (Z.shiftl (Z.land y 15) 2) (Z.shiftr z 6) in
  let d := Z.land z 63 in
  let buf := Z.lor (Z.shiftl (Z.lor (Z.shiftl (Z.lor (Z.shiftl a 6) b) 6) c) 6) d in
  Z.land (Z.shiftr buf 16) 0xFF = x /\ Z.land (Z.shiftr buf 8) 0xFF = y /\
  Z.land buf 0xFF = z.
Proof.
  unfold byte. intros Hx Hy Hz. cbv zeta. change 0xFF with (2 ^ 8 - 1).
  change 15 with (2 ^ 4 - 1). change 63 with (2 ^ 6 - 1). change 3 with (2 ^ 2 - 1).
  rewrite !land_mask, !shiftr_div by lia.
  change (2 ^ 2) with 4; change (2 ^ 4) with 16; change (2 ^ 6) with 64.
  assert (Hb : Z.lor (Z.shiftl (x mod 4) 4) (y / 16) = x mod 4 * 16 + y / 16)
    by (rewrite lor_shiftl_add by arith; reflexivity).
  assert (Hc : Z.lor (Z.shiftl (y mod 16) 2) (z / 64) = y mod 16 * 4 + z / 64)
    by (rewrite lor_shiftl_add by arith; reflexivity).
  rewrite Hb, Hc.
  rewrite (lor_shiftl_add (x / 4)) by arith. change (2 ^ 6) with 64.
  rewrite (lor_shiftl_add (x / 4 * 64 + _)) by arith. change (2 ^ 6) with 64.
  rewrite (lor_shiftl_add _ (z mod 64)) by arith. change (2 ^ 6) with 64.
  change (2 ^ 16) with 65536. change (2 ^ 8) with 256.
  repeat split; arith.
Qed.

Lemma pair_bytes x y :
  byte x -> byte y ->
  let a := Z.shiftr x 2 in
  let b := Z.lor (Z.shiftl (Z.land x 3) 4) (Z.shiftr y 4) in
  let c := Z.shiftl (Z.land y 15) 2 in
  let buf := Z.shiftr (Z.lor (Z.shiftl (Z.lor (Z.shiftl a 6) b) 6) c) 2 in
  Z.land (Z.shiftr buf 8) 0xFF = x /\ Z.land buf 0xFF = y.
Proof.
  unfold byte. intros Hx Hy. cbv zeta. change 0xFF with (2 ^ 8 - 1).
  change 15 with (2 ^ 4 - 1). change 3 with (2 ^ 2 - 1).
  rewrite !land_mask by lia. rewrite (Z.shiftl_mul_pow2 (y mod 2 ^ 4)) by lia.
  rewrite !shiftr_div by lia.
  change (2 ^ 2) with 4; change (2 ^ 4) with 16; change (2 ^ 6) with 64.
  assert (Hb : Z.lor (Z.shiftl (x mod 4) 4) (y / 16) = x mod 4 * 16 + y / 16)
    by (rewrite lor_shiftl_add by arith; reflexivity).
  rewrite Hb.
  rewrite (lor_shiftl_add (x / 4)) by arith. change (2 ^ 6) with 64.
  rewrite (lor_shiftl_add (x / 4 * 64 + _)) by arith. change (2 ^ 6) with 64.
  change (2 ^ 8) with 256.
  split; arith.
Qed.

Lemma single_byte x :
  byte x ->
  let a := Z.shiftr x 2 in
  let b := Z.shiftl (Z.land x 3) 4 in
  Z.land (Z.shiftr (Z.lor (Z.shiftl a 6) b) 4) 0xFF = x.
Proof.
  unfold byte. intros Hx. cbv zeta. change 0xFF with (2 ^ 8 - 1).
  change 3 with (2 ^ 2 - 1).
  rewrite !land_mask by lia. rewrite (Z.shiftl_mul_pow2 (x mod 2 ^ 2)) by lia.
  rewrite !shiftr_div by lia.
  change (2 ^ 2) with 4; change (2 ^ 4) with 16.
  rewrite (lor_shiftl_add (x / 4)) by arith. change (2 ^ 6) with 64.
  change (2 ^ 8) with 256. arith.
Qed.

Lemma bytes_of_unpadded bs : Forall byte bs -> bytes_of_sextets (unpadded bs) = bs.
Proof.
  induction bs as [|x|x y|x y z l IH] using list_ind3; intros H; forall_inv H.
  - reflexivity.
  - cbn [unpadded bytes_of_sextets]. now rewrite single_byte.
  - cbn [unpadded bytes_of_sextets].
    destruct (pair_bytes x y) as [-> ->]; auto.
  - cbn [unpadded bytes_of_sextets].
    destruct (triple_bytes x y z) as (-> & -> & ->); auto.
    now rewrite (IH H).
Qed.

(** [atob] inverts [btoa] on byte strings. *)
Lemma atob_encode bs : Forall byte bs -> atob (encode bs) = Ok bs.
Proof.
  intros Hb. unfold atob, strip_padding.
  rewrite encode_no_space by assumption.
  rewrite encode_length. cbn [Z.eqb].
  rewrite strip_end_encode by assumption.
  rewrite length_map.
  destruct (Z.eqb_spec (Z.of_nat (List.length (unpadded bs)) mod 4) 1) as [E|_];
    [now apply unpadded_length in E|].
  rewrite sextets_chars by now apply unpadded_sextets.
  now rewrite bytes_of_unpadded.
Qed.

Lemma btoa_bytes bs : Forall byte bs -> btoa bs = Ok (encode bs).
Proof.
  intros Hb. unfold btoa.
  assert (forallb (fun c => c <=? 0xFF) bs = true) as ->; [|reflexivity].
  apply forallb_forall. intros c Hc.
  rewrite Forall_forall in Hb. specialize (Hb c Hc). unfold byte in Hb.
  apply Z.leb_le. lia.
Qed.

(** * The credential cipher *)

Lemma key_check key :
  32 <= JsString.length key ->
  (JsString.length key =? 0) || (JsString.length key <? 32) = false.
Proof.
  intros H. destruct (Z.eqb_spec (JsString.length key) 0); [lia|].
  destruct (Z.ltb_spec (JsString.length key) 32); [lia|reflexivity].
Qed.

Lemma encrypt_ok iv plaintext key :
  Forall byte iv -> 32 <= JsString.length key ->
  encrypt iv plaintext key =
    Ok (encode (iv ++ xor_from (TextEncoder_encode (slice0 32 key)) iv 0
                        (TextEncoder_encode plaintext))).
Proof.
  intros Hiv Hk. unfold encrypt. rewrite key_check by assumption.
  apply btoa_bytes. apply Forall_app. split; [assumption|apply xor_from_bytes].
Qed.

Lemma firstn_exact (A : Type) (n : nat) (a b : list A) :
  List.length a = n -> firstn n (a ++ b) = a.
Proof.
  intros <-. rewrite firstn_app, Nat.sub_diag, firstn_all, firstn_O.
  apply app_nil_r.
Qed.

Lemma skipn_exact (A : Type) (n : nat) (a b : list A) :
  List.length a = n -> skipn n (a ++ b) = b.
Proof.
  intros <-. rewrite skipn_app, Nat.sub_diag, skipn_all, skipn_O. reflexivity.
Qed.

(** C1 (amended): for every well-formed plaintext that does not start with
    U+FEFF, every key of at least 32 characters and every 16-byte initial
    vector, [encrypt] returns a ciphertext and [decrypt] of that ciphertext
    with the same key returns the plaintext. *)
Theorem decrypt_encrypt_roundtrip (iv : list Z) (plaintext key : jsstring) :
  List.length iv = 16%nat -> Forall byte iv ->
  well_formed plaintext = true -> hd 0 plaintext <> 0xFEFF ->
  32 <= JsString.length key ->
  exists c, encrypt iv plaintext key = Ok c /\ decrypt c key = Ok plaintext.
Proof.
  intros Hlen Hiv Hw Hbom Hk.
  rewrite encrypt_ok by assumption. eexists. split; [reflexivity|].
  unfold decrypt. rewrite key_check by assumption.
  rewrite atob_encode by (apply Forall_app; split; [assumption|apply xor_from_bytes]).
  rewrite firstn_exact, skipn_exact by assumption.
  rewrite xor_from_involutive by now apply TextEncoder_encode_bytes.
  now rewrite decode_encode.
Qed.

Lemma decrypt_encrypt_roundtrip_witness :
  exists c, encrypt iv0 (lit "hunter2") k32 = Ok c /\
            decrypt c k32 = Ok (lit "hunter2").
Proof.
  apply (decrypt_encrypt_roundtrip iv0 (lit "hunter2") k32).
  - reflexivity.
  - repeat constructor; unfold byte; lia.
  - reflexivity.
  - vm_compute. discriminate.
  - vm_compute. discriminate.
Defined.

(** C1 as stated fails: the plaintext made of one unpaired surrogate is a
    string, the key has 32 characters, and the round trip returns U+FFFD. *)
Lemma decrypt_encrypt_unpaired_surrogate :
  is_string [0xD800] = true /\ JsString.length k32 = 32 /\
  exists c, encrypt iv0 [0xD800] k32 = Ok c /\
            decrypt c k32 = Ok [0xFFFD] /\ [0xFFFD] <> [0xD800].
Proof.
  split; [reflexivity|]. split; [reflexivity|].
  eexists. split; [vm_compute; reflexivity|].
  split; [vm_compute; reflexivity|discriminate].
Qed.

(** A leading byte order mark is lost as well. *)
Lemma decrypt_encrypt_byte_order_mark :
  well_formed (0xFEFF :: lit "pw") = true /\
  exists c, encrypt iv0 (0xFEFF :: lit "pw") k32 = Ok c /\
            decrypt c k32 = Ok (lit "pw").
Proof.
  split; [reflexivity|]. eexists. split; vm_compute; reflexivity.
Qed.

(** * Reasoning about handlers *)

Section Handlers.
Context {Req : Type}.

Lemma bind_ok {A B} (m : M Req A) (k : A -> M Req B) env w a w' :
  m env w = (Ok a, w') -> bind m k env w = k a env w'.
Proof. intros H. unfold bind. now rewrite H. Qed.

Lemma bind_throw {A B} (m : M Req A) (k : A -> M Req B) env w e w' :
  m env w = (Throw e, w') -> bind m k env w = (Throw e, w').
Proof. intros H. unfold bind. now rewrite H. Qed.

Lemma bind_inv {A B} (m : M Req A) (k : A -> M Req B) env w r w' :
  bind m k env w = (r, w') ->
  (exists a w1, m env w = (Ok a, w1) /\ k a env w1 = (r, w')) \/
  (exists e, m env w = (Throw e, w') /\ r = Throw e).
Proof.
  unfold bind. destruct (m env w) as [[a|e] w1]; intros H.
  - left. eauto.
  - right. injection H as <- <-. eauto.
Qed.

Lemma readonly_refl (w : World Req) : same_store w w.
Proof. repeat split. Qed.

Lemma same_store_trans (w1 w2 w3 : World Req) :
  same_store w1 w2 -> same_store w2 w3 -> same_store w1 w3.
Proof.
  unfold same_store. intros (-> & -> & ->) (-> & -> & ->). repeat split.
Qed.

Lemma readonly_ret {A} (a : A) : readonly (@ret Req A a).
Proof. intros env w. apply readonly_refl. Qed.

Lemma readonly_throw {A} e : readonly (@throw Req A e).
Proof. intros env w. apply readonly_refl. Qed.

Lemma readonly_throwError {A} msg : readonly (@throwError Req A msg).
Proof. intros env w. apply readonly_refl. Qed.

Lemma readonly_lift {A} (r : Result A) : readonly (@lift Req A r).
Proof. intros env w. apply readonly_refl. Qed.

Lemma readonly_read_db : readonly (@read_db Req).
Proof. intros env w. apply readonly_refl. Qed.

Lemma readonly_read_env : readonly (@read_env Req).
Proof. intros env w. apply readonly_refl. Qed.

Lemma readonly_Date_now : readonly (@Date_now Req).
Proof. intros env w. repeat split. Qed.

Lemma readonly_getRandomValues : readonly (@getRandomValues Req).
Proof. intros env w. repeat split. Qed.

Lemma readonly_db_get {D} (T : TableRef Req D) id : readonly (db_get T id).
Proof. intros env w. apply readonly_refl. Qed.

Lemma readonly_db_collect {D} (T : TableRef Req D) p : readonly (db_collect T p).
Proof. intros env w. apply readonly_refl. Qed.

Lemma readonly_db_first {D} (T : TableRef Req D) p : readonly (db_first T p).
Proof. intros env w. apply readonly_refl. Qed.

Lemma readonly_db_unique {D} (T : TableRef Req D) p : readonly (db_unique T p).
Proof.
  intros env w. unfold db_unique.
  destruct (select p (t_get T (db w))) as [|r [|r' rs]]; apply readonly_refl.
Qed.

Lemma readonly_bind {A B} (m : M Req A) (k : A -> M Req B) :
  readonly m -> (forall a, readonly (k a)) -> readonly (bind m k).
Proof.
  intros Hm Hk env w. unfold bind. specialize (Hm env w).
  destruct (m env w) as [[a|e] w1]; cbn [snd] in *; [|exact Hm].
  eapply same_store_trans; [exact Hm|apply Hk].
Qed.

Lemma readonly_safe {A} (m : M Req A) : readonly m -> safe m.
Proof. intros H env w e w' E. specialize (H env w). now rewrite E in H. Qed.

Lemma safe_bind {A B} (m : M Req A) (k : A -> M Req B) :
  readonly m -> (forall a, safe (k a)) -> safe (bind m k).
Proof.
  intros Hm Hk env w e w' E. specialize (Hm env w).
  apply bind_inv in E as [(a & w1 & E1 & E2)|(e' & E1 & _)]; rewrite E1 in Hm;
    cbn [snd] in Hm; [|exact Hm].
  eapply same_store_trans; [exact Hm|]. eapply Hk, E2.
Qed.

Lemma safe_throw {A} e : safe (@throw Req A e).
Proof. apply readonly_safe, readonly_throw. Qed.

Lemma safe_throwError {A} msg : safe (@throwError Req A msg).
Proof. apply readonly_safe, readonly_throwError. Qed.

Lemma total_ret {A} (a : A) : total (@ret Req A a).
Proof. intros env w. unfold ret. eauto. Qed.

Lemma total_db_insert {D} (T : TableRef Req D) doc : total (db_insert T doc).
Proof. intros env w. unfold db_insert. eauto. Qed.

Lemma total_console_error line : total (@console_error Req line).
Proof. intros env w. unfold console_error. eauto. Qed.

Lemma total_bind {A B} (m : M Req A) (k : A -> M Req B) :
  total m -> (forall a, total (k a)) -> total (bind m k).
Proof.
  intros Hm Hk env w. destruct (Hm env w) as (a & w1 & E).
  rewrite (bind_ok _ _ _ _ _ _ E). apply Hk.
Qed.

Lemma total_try_catch {A} (m : M Req A) h :
  (forall e, total (h e)) -> total (try_catch m h).
Proof.
  intros Hh env w. unfold try_catch.
  destruct (m env w) as [[a|e] w1]; [eauto|apply Hh].
Qed.

Lemma total_safe {A} (m : M Req A) : total m -> safe m.
Proof. intros H env w e w' E. destruct (H env w) as (a & w1 & E'). congruence. Qed.

End Handlers.

Section ReadonlyAuth.
Context {P : Platform} {Req : Type}.

Lemma readonly_requireAdmin email : readonly (@requireAdmin P Req email).
Proof.
  unfold requireAdmin. destruct (_ =? 0); [apply readonly_throwError|].
  apply readonly_bind; [apply readonly_db_unique|].
  intros [[id u]|]; [|apply readonly_throwError].
  destruct (negb _); [apply readonly_throwError|apply readonly_ret].
Qed.

Lemma readonly_getEncryptionKey : readonly (@Credentials.getEncryptionKey Req).
Proof.
  unfold Credentials.getEncryptionKey.
  apply readonly_bind; [apply readonly_read_env|]. intros env.
  destruct (env_ENCRYPTION_KEY env) as [[|c rest]|]; try apply readonly_throwError.
  destruct (_ <? 32); [apply readonly_throwError|apply readonly_ret].
Qed.

End ReadonlyAuth.

Section Frames.
Context {Req : Type}.

Lemma pure_ret {A} (a : A) : pure (@ret Req A a).
Proof. intros env w. reflexivity. Qed.

Lemma pure_throw {A} e : pure (@throw Req A e).
Proof. intros env w. reflexivity. Qed.

Lemma pure_throwError {A} msg : pure (@throwError Req A msg).
Proof. intros env w. reflexivity. Qed.

Lemma pure_lift {A} (r : Result A) : pure (@lift Req A r).
Proof. intros env w. reflexivity. Qed.

Lemma pure_db_get {D} (T : TableRef Req D) id : pure (db_get T id).
Proof. intros env w. reflexivity. Qed.

Lemma pure_db_collect {D} (T : TableRef Req D) p : pure (db_collect T p).
Proof. intros env w. reflexivity. Qed.

Lemma pure_db_first {D} (T : TableRef Req D) p : pure (db_first T p).
Proof. intros env w. reflexivity. Qed.

Lemma pure_db_unique {D} (T : TableRef Req D) p : pure (db_unique T p).
Proof.
  intros env w. unfold db_unique.
  destruct (select p (t_get T (db w))) as [|r [|r' rs]]; reflexivity.
Qed.

Lemma pure_read_db : pure (@read_db Req).
Proof. intros env w. reflexivity. Qed.

Lemma pure_read_env : pure (@read_env Req).
Proof. intros env w. reflexivity. Qed.

Lemma pure_bind {A B} (m : M Req A) (k : A -> M Req B) :
  pure m -> (forall a, pure (k a)) -> pure (bind m k).
Proof.
  intros Hm Hk env w. unfold bind. specialize (Hm env w).
  destruct (m env w) as [[a|e] w1]; cbn [snd] in *; subst; [apply Hk|reflexivity].
Qed.

Lemma pure_inv {A} (m : M Req A) env w r w' :
  pure m -> m env w = (r, w') -> w' = w.
Proof. intros H E. specialize (H env w). rewrite E in H. exact H. Qed.

Lemma pure_readonly {A} (m : M Req A) : pure m -> readonly m.
Proof. intros H env w. rewrite H. apply readonly_refl. Qed.

Lemma pure_keeps {A D} (T : TableRef Req D) (m : M Req A) : pure m -> keeps T m.
Proof. intros H env w. now rewrite H. Qed.

Lemma readonly_keeps {A D} (T : TableRef Req D) (m : M Req A) : readonly m -> keeps T m.
Proof. intros H env w. destruct (H env w) as (-> & _). reflexivity. Qed.

Lemma keeps_bind {A B D} (T : TableRef Req D) (m : M Req A) (k : A -> M Req B) :
  keeps T m -> (forall a, keeps T (k a)) -> keeps T (bind m k).
Proof.
  intros Hm Hk env w. unfold bind. specialize (Hm env w).
  destruct (m env w) as [[a|e] w1]; cbn [snd] in *; [|exact Hm].
  now rewrite Hk.
Qed.

Lemma keeps_inv {A D} (T : TableRef Req D) (m : M Req A) env w r w' :
  keeps T m -> m env w = (r, w') -> t_get T (db w') = t_get T (db w).
Proof. intros H E. specialize (H env w). now rewrite E in H. Qed.

Lemma keeps_db_insert {D D'} (T : TableRef Req D) (T' : TableRef Req D') doc :
  apart T T' -> keeps T (db_insert T' doc).
Proof. intros [H1 H2] env w. cbn. now rewrite H2, H1. Qed.

Lemma keeps_db_patch {D D'} (T : TableRef Req D) (T' : TableRef Req D') id f :
  apart T T' -> keeps T (db_patch T' id f).
Proof.
  intros [H1 H2] env w. unfold db_patch.
  destruct (lookup _ id); cbn; [apply H1|reflexivity].
Qed.

Lemma keeps_db_delete {D D'} (T : TableRef Req D) (T' : TableRef Req D') id :
  apart T T' -> keeps T (db_delete T' id).
Proof.
  intros [H1 H2] env w. unfold db_delete.
  destruct (lookup _ id); cbn; [apply H1|reflexivity].
Qed.

Lemma keeps_console_error {D} (T : TableRef Req D) line : keeps T (console_error line).
Proof. intros env w. reflexivity. Qed.

Lemma keeps_scheduler_runAfter {D} (T : TableRef Req D) job :
  keeps T (scheduler_runAfter job).
Proof. intros env w. unfold scheduler_runAfter. destruct (env_scheduler_up env); reflexivity. Qed.

Lemma keeps_try_catch {A D} (T : TableRef Req D) (m : M Req A) h :
  keeps T m -> (forall e, keeps T (h e)) -> keeps T (try_catch m h).
Proof.
  intros Hm Hh env w. unfold try_catch. specialize (Hm env w).
  destruct (m env w) as [[a|e] w1]; cbn [snd] in *; [exact Hm|].
  now rewrite Hh.
Qed.

Lemma keeps_Date_now {D} (T : TableRef Req D) : keeps T Date_now.
Proof. intros env w. reflexivity. Qed.

Lemma keeps_getRandomValues {D} (T : TableRef Req D) : keeps T getRandomValues.
Proof. intros env w. reflexivity. Qed.

End Frames.

Section PureAuth.
Context {P : Platform} {Req : Type}.

Lemma pure_requireAdmin email : pure (@requireAdmin P Req email).
Proof.
  unfold requireAdmin. destruct (_ =? 0); [apply pure_throwError|].
  apply pure_bind; [apply pure_db_unique|].
  intros [[id u]|]; [|apply pure_throwError].
  destruct (negb _); [apply pure_throwError|apply pure_ret].
Qed.

Lemma pure_getEncryptionKey : pure (@Credentials.getEncryptionKey Req).
Proof.
  unfold Credentials.getEncryptionKey.
  apply pure_bind; [apply pure_read_env|]. intros env.
  destruct (env_ENCRYPTION_KEY env) as [[|c rest]|]; try apply pure_throwError.
  destruct (_ <? 32); [apply pure_throwError|apply pure_ret].
Qed.

End PureAuth.

(** Tables *)

Section Tables.
Context {D : Type}.

Lemma lookup_app (t : Table D) (x : Id * D) (id : Id) :
  lookup (t ++ [x]) id =
    match lookup t id with
    | Some d => Some d
    | None => if fst x =? id then Some (snd x) else None
    end.
Proof.
  unfold lookup. induction t as [|r t IH]; cbn [app find]; cbn beta.
  - destruct (fst x =? id); reflexivity.
  - destruct (fst r =? id); [reflexivity|exact IH].
Qed.

Lemma lookup_update_row (t : Table D) (id' id : Id) (f : D -> D) :
  lookup (update_row id' f t) id =
    if id =? id' then option_map f (lookup t id) else lookup t id.
Proof.
  unfold lookup, update_row. induction t as [|r t IH]; cbn [map find]; cbn beta.
  - destruct (id =? id'); reflexivity.
  - destruct (Z.eqb_spec (fst r) id') as [E|N]; cbn [fst snd].
    + destruct (Z.eqb_spec (fst r) id) as [E'|N'].
      * replace (id =? id') with true by (symmetry; apply Z.eqb_eq; congruence).
        reflexivity.
      * exact IH.
    + destruct (Z.eqb_spec (fst r) id) as [E'|N'].
      * replace (id =? id') with false by (symmetry; apply Z.eqb_neq; congruence).
        reflexivity.
      * exact IH.
Qed.

Lemma lookup_remove_row (t : Table D) (id' id : Id) :
  lookup (remove_row id' t) id = if id =? id' then None else lookup t id.
Proof.
  unfold lookup, remove_row. induction t as [|r t IH]; cbn [filter find]; cbn beta.
  - destruct (id =? id'); reflexivity.
  - destruct (Z.eqb_spec (fst r) id') as [E|N]; cbn [negb find]; cbn beta.
    + destruct (Z.eqb_spec (fst r) id) as [E'|N'].
      * replace (id =? id') with true by (symmetry; apply Z.eqb_eq; congruence).
        rewrite IH.
        replace (id =? id') with true by (symmetry; apply Z.eqb_eq; congruence).
        reflexivity.
      * exact IH.
    + destruct (Z.eqb_spec (fst r) id) as [E'|N'].
      * replace (id =? id') with false by (symmetry; apply Z.eqb_neq; congruence).
        reflexivity.
      * exact IH.
Qed.

Lemma select_in (p : D -> bool) (t : Table D) (r : Id * D) :
  In r (select p t) -> In r t /\ p (snd r) = true.
Proof. unfold select. intros H. now apply filter_In in H. Qed.

Lemma in_lookup (t : Table D) (r : Id * D) :
  In r t -> exists d, lookup t (fst r) = Some d.
Proof.
  unfold lookup. induction t as [|x t IH]; intros H; [contradiction|].
  cbn [find]; cbn beta. destruct (Z.eqb_spec (fst x) (fst r)); [eauto|].
  destruct H as [->|H]; [contradiction|]. now apply IH.
Qed.

End Tables.

(** Tactics *)

Ltac solve_apart := split; intros; reflexivity.

Section Notify.
Context {Req : Type}.

Lemma notify_inv (job : Job) (line : string) env (w : World Req) r w' :
  try_catch (scheduler_runAfter job) (fun _ => console_error line) env w = (r, w') ->
  r = Ok tt /\ db w' = db w /\ ticks w' = ticks w /\ draws w' = draws w /\
  ((env_scheduler_up env = true /\ scheduled w' = scheduled w ++ [job] /\
    console w' = console w) \/
   (env_scheduler_up env = false /\ scheduled w' = scheduled w /\
    console w' = line :: console w)).
Proof.
  unfold try_catch, scheduler_runAfter, console_error.
  destruct (env_scheduler_up env); intros H; injection H as <- <-; cbn; auto 10.
Qed.

Lemma db_patch_inv {D} (T : TableRef Req D) id f env (w : World Req) a w' :
  db_patch T id f env w = (Ok a, w') ->
  (exists d, lookup (t_get T (db w)) id = Some d) /\
  w' = mkWorld (t_set T (update_row id f (t_get T (db w))) (db w))
         (scheduled w) (console w) (ticks w) (draws w).
Proof.
  unfold db_patch. destruct (lookup _ id) as [d|]; [|discriminate].
  intros H. injection H as <- <-. eauto.
Qed.

Lemma db_delete_inv {D} (T : TableRef Req D) id env (w : World Req) a w' :
  db_delete T id env w = (Ok a, w') ->
  (exists d, lookup (t_get T (db w)) id = Some d) /\
  w' = mkWorld (t_set T (remove_row id (t_get T (db w))) (db w))
         (scheduled w) (console w) (ticks w) (draws w).
Proof.
  unfold db_delete. destruct (lookup _ id) as [d|]; [|discriminate].
  intros H. injection H as <- <-. eauto.
Qed.

End Notify.

Ltac inv_eq E :=
  first
    [ progress (unfold db_get, db_collect, db_first, read_db, read_env, Date_now,
                getRandomValues, db_insert, console_error, ret in E);
      let Hv := fresh "Hv" in
      let Hw := fresh "Hw" in
      injection E as Hv Hw; symmetry in Hw; symmetry in Hv; subst
    | unfold lift in E;
      let Hw := fresh "Hw" in
      injection E as E Hw; symmetry in Hw; subst
    | apply db_patch_inv in E as [[? ?] ?]; subst
    | apply db_delete_inv in E as [[? ?] ?]; subst
    | apply notify_inv in E as (? & ? & ? & ? & ?); subst
    | let Hw := fresh "Hw" in
      pose proof (pure_inv _ _ _ _ _ (pure_db_unique _ _) E) as Hw;
      match type of Hw with ?x = _ => subst x end
    | idtac ].

(** Inversion of a run that returned, along the binds of the handler. *)
Ltac inv_run H :=
  repeat
    (lazymatch type of H with
     | bind _ _ _ _ = (Ok _, _) =>
         let E := fresh "E" in
         apply bind_inv in H as [(? & ? & E & H)|(? & ? & ?)];
         [inv_eq E|discriminate]
     | (if ?c then _ else _) _ _ = _ => destruct c eqn:?; try discriminate H
     | (match ?x with _ => _ end) _ _ = _ => destruct x eqn:?; try discriminate H
     | ret _ _ _ = _ => unfold ret in H; injection H as ? ?; subst
     end).

Ltac inv_pure E lem :=
  let Hw := fresh "Hw" in
  pose proof (pure_inv _ _ _ _ _ lem E) as Hw;
  match type of Hw with ?x = _ => subst x end.

Ltac simpl_world :=
  cbn [db scheduled console ticks draws categories currencies subscriptions
       credentials subscriptionRequests auditLogs users counters rateLimits nextId
       t_get t_set Categories Currencies Subscriptions Credentials
       SubscriptionRequests AuditLogs Users Counters RateLimits fresh_id allocated
       fst snd] in *.

Ltac same_lookup :=
  repeat match goal with
  | H1 : lookup ?t ?i = Some ?a, H2 : lookup ?t ?i = Some ?b |- _ =>
      rewrite H1 in H2; injection H2 as <-
  end.

(** * The reference-number counter *)

Section Allocation.
Context {Req : Type}.

Lemma db_unique_inv {D} (T : TableRef Req D) p env w r w' :
  db_unique T p env w = (r, w') ->
  w' = w /\
  match select p (t_get T (db w)) with
  | [] => r = Ok None
  | [x] => r = Ok (Some x)
  | _ => r = Throw NotUniqueError
  end.
Proof.
  unfold db_unique.
  destruct (select p (t_get T (db w))) as [|x [|y rest]]; intros H;
    injection H as <- <-; auto.
Qed.

Lemma db_patch_found {D} (T : TableRef Req D) id f env (w : World Req) d :
  lookup (t_get T (db w)) id = Some d ->
  db_patch T id f env w =
    (Ok tt, mkWorld (t_set T (update_row id f (t_get T (db w))) (db w))
              (scheduled w) (console w) (ticks w) (draws w)).
Proof. intros H. unfold db_patch. now rewrite H. Qed.

Lemma select_single_lookup {D} (p : D -> bool) (t : Table D) id d rest :
  select p t = (id, d) :: rest -> exists d', lookup t id = Some d'.
Proof.
  intros H. assert (In (id, d) (select p t)) as Hin by (rewrite H; now left).
  apply select_in in Hin as [Hin _]. apply (in_lookup t (id, d) Hin).
Qed.

Lemma db_unique_none {D} (T : TableRef Req D) p env (w : World Req) :
  select p (t_get T (db w)) = [] -> db_unique T p env w = (Ok None, w).
Proof. intros H. unfold db_unique. now rewrite H. Qed.

Lemma db_unique_one {D} (T : TableRef Req D) p env (w : World Req) x :
  select p (t_get T (db w)) = [x] -> db_unique T p env w = (Ok (Some x), w).
Proof. intros H. unfold db_unique. now rewrite H. Qed.

Lemma db_unique_many {D} (T : TableRef Req D) p env (w : World Req) x y rest :
  select p (t_get T (db w)) = x :: y :: rest ->
  db_unique T p env w = (Throw NotUniqueError, w).
Proof. intros H. unfold db_unique. now rewrite H. Qed.

Lemma Date_now_eq env (w : World Req) :
  Date_now env w =
    (Ok (env_clock env (ticks w)),
     mkWorld (db w) (scheduled w) (console w) (S (ticks w)) (draws w)).
Proof. reflexivity. Qed.

(** What an allocation does. *)
Lemma generateReferenceNumber_spec (type : EntityType) env (w : World Req) :
  let year := getFullYear (env_clock env (ticks w)) in
  match select (by_name (counterName type year)) (counters (db w)) with
  | [] =>
      generateReferenceNumber type env w =
        (Ok (formatReference type year 1),
         allocated (counters (db w) ++ [(nextId (db w), mkCounter (counterName type year) 1)])
           (nextId (db w) + 1) w)
  | [(id, c)] =>
      generateReferenceNumber type env w =
        (Ok (formatReference type year (counter_value c + 1)),
         allocated (update_row id
                      (fun c' => mkCounter (counter_name c') (counter_value c + 1))
                      (counters (db w)))
           (nextId (db w)) w)
  | _ =>
      generateReferenceNumber type env w =
        (Throw NotUniqueError,
         mkWorld (db w) (scheduled w) (console w) (S (ticks w)) (draws w))
  end.
Proof.
  intros year. unfold generateReferenceNumber.
  rewrite (bind_ok _ _ _ _ _ _ (Date_now_eq env w)). fold year.
  change (fun c : Counter => eqb (counter_name c) (counterName type year))
    with (by_name (counterName type year)).
  destruct (select (by_name (counterName type year)) (counters (db w)))
    as [|[id c] [|y rest]] eqn:S.
  - erewrite bind_ok by (apply db_unique_none; exact S). reflexivity.
  - erewrite bind_ok by (apply db_unique_one; exact S).
    destruct (select_single_lookup _ _ _ _ _ S) as [d' Hd'].
    erewrite bind_ok
      by (erewrite bind_ok by (apply (db_patch_found Counters id _ env _ d'); exact Hd');
          reflexivity).
    reflexivity.
  - erewrite bind_throw by (eapply db_unique_many; exact S). reflexivity.
Qed.

Lemma generateReferenceNumber_safe (type : EntityType) :
  safe (@generateReferenceNumber Req type).
Proof.
  intros env w e w' H.
  pose proof (generateReferenceNumber_spec type env w) as S. cbv zeta in S.
  destruct (select _ _) as [|[id c] [|y rest]]; rewrite S in H; try discriminate H;
    injection H as <- <-; repeat split.
Qed.

Lemma generateReferenceNumber_ok (type : EntityType) env (w : World Req) ref w' :
  generateReferenceNumber type env w = (Ok ref, w') ->
  exists c n, w' = allocated c n w /\
    (forall id, lookup (counters (db w)) id <> None -> lookup c id <> None).
Proof.
  intros H.
  pose proof (generateReferenceNumber_spec type env w) as S. cbv zeta in S.
  destruct (select _ _) as [|[id c] [|y rest]]; rewrite S in H; try discriminate H;
    injection H as <- <-; eexists _, _; (split; [reflexivity|]); intros id' Hid'.
  - rewrite lookup_app. destruct (lookup (counters (db w)) id'); congruence.
  - rewrite lookup_update_row. destruct (id' =? id);
      destruct (lookup (counters (db w)) id'); cbn; congruence.
Qed.

Lemma keeps_generateReferenceNumber {D} (T : TableRef Req D) (type : EntityType) :
  apart T Counters -> keeps T (generateReferenceNumber type).
Proof.
  intros HA. unfold generateReferenceNumber.
  apply keeps_bind; [apply keeps_Date_now|intros now].
  apply keeps_bind; [apply pure_keeps, pure_db_unique|intros [[id c]|]].
  - apply keeps_bind; [|intros; apply pure_keeps, pure_ret].
    apply keeps_bind; [now apply keeps_db_patch|intros; apply pure_keeps, pure_ret].
  - apply keeps_bind; [|intros; apply pure_keeps, pure_ret].
    apply keeps_bind; [now apply keeps_db_insert|intros; apply pure_keeps, pure_ret].
Qed.

End Allocation.

(** * The rate-limit counters *)

Section Limits.
Context {Req : Type}.

Lemma updateCounter_inv limit key now windowStart env (w : World Req) a w' :
  updateCounter limit key now windowStart env w = (Ok a, w') ->
  w' = limited (updatedLimits limit key now windowStart (nextId (db w))
                  (rateLimits (db w)))
         (nextIdAfter limit (nextId (db w))) w.
Proof.
  unfold updateCounter, updatedLimits, nextIdAfter.
  destruct limit as [[id r]|].
  - destruct (windowStart <? rl_windowStart r); intros H;
      apply db_patch_inv in H as [_ ->]; reflexivity.
  - intros H. inv_run H. reflexivity.
Qed.

Lemma updateCounter_ok limit key now windowStart env (w : World Req) :
  (forall id r, limit = Some (id, r) -> lookup (rateLimits (db w)) id <> None) ->
  updateCounter limit key now windowStart env w =
    (Ok tt,
     limited (updatedLimits limit key now windowStart (nextId (db w))
                (rateLimits (db w)))
       (nextIdAfter limit (nextId (db w))) w).
Proof.
  intros Hl. unfold updateCounter, updatedLimits, nextIdAfter.
  destruct limit as [[id r]|].
  - specialize (Hl id r eq_refl).
    destruct (lookup (rateLimits (db w)) id) as [d|] eqn:E; [|congruence].
    destruct (windowStart <? rl_windowStart r);
      erewrite (db_patch_found RateLimits) by exact E; reflexivity.
  - reflexivity.
Qed.

Lemma updatedLimits_lookup limit key now windowStart n rl id :
  lookup rl id <> None ->
  lookup (updatedLimits limit key now windowStart n rl) id <> None.
Proof.
  intros H. unfold updatedLimits. destruct limit as [[id' r]|].
  - destruct (windowStart <? rl_windowStart r); rewrite lookup_update_row;
      destruct (id =? id'); destruct (lookup rl id); cbn; congruence.
  - rewrite lookup_app. destruct (lookup rl id); congruence.
Qed.

Lemma keeps_updateCounter {D} (T : TableRef Req D) limit key now windowStart :
  apart T RateLimits -> keeps T (updateCounter limit key now windowStart).
Proof.
  intros HA. unfold updateCounter. destruct limit as [[id r]|].
  - destruct (windowStart <? rl_windowStart r); now apply keeps_db_patch.
  - apply keeps_bind; [now apply keeps_db_insert|intros; apply pure_keeps, pure_ret].
Qed.

Lemma keeps_delete_all {D D'} (T : TableRef Req D) (T' : TableRef Req D') rows :
  apart T T' -> keeps T (Subscriptions.delete_all T' rows).
Proof.
  intros HA. induction rows as [|[id d] rows IH]; cbn [Subscriptions.delete_all].
  - apply pure_keeps, pure_ret.
  - apply keeps_bind; [now apply keeps_db_delete|intros _; exact IH].
Qed.

Lemma keeps_forget {A D} (T : TableRef Req D) (m : M Req A) :
  keeps T m -> keeps T (forget m).
Proof. intros H. apply keeps_bind; [exact H|intros; apply pure_keeps, pure_ret]. Qed.

Lemma keeps_mutation {A D} (T : TableRef Req D) (m : M Req A) env w :
  keeps T m -> t_get T (db (snd (mutation m env w))) = t_get T (db w).
Proof.
  intros H. unfold mutation.
  specialize (H env (mkWorld (db w) (scheduled w) (console w) 0 0)).
  destruct (m env _) as [[a|e] w1]; cbn [snd db] in *; [exact H|reflexivity].
Qed.

Lemma mutation_ok_inv {A} (m : M Req A) env w a w' :
  mutation m env w = (Ok a, w') ->
  m env (mkWorld (db w) (scheduled w) (console w) 0 0) = (Ok a, w').
Proof.
  unfold mutation. destruct (m env _) as [[x|e] w1]; intros H; [exact H|discriminate].
Qed.

Lemma mutation_throw_inv {A} (m : M Req A) env w e w' :
  mutation m env w = (Throw e, w') -> w' = w.
Proof.
  unfold mutation. destruct (m env _) as [[x|e'] w1]; intros H; [discriminate|].
  now injection H.
Qed.

Lemma mutation_cases {A} (m : M Req A) env w :
  (exists a w', m env (mkWorld (db w) (scheduled w) (console w) 0 0) = (Ok a, w') /\
                mutation m env w = (Ok a, w')) \/
  (exists e, mutation m env w = (Throw e, w)).
Proof.
  unfold mutation. destruct (m env _) as [[a|e] w']; [left|right]; eauto.
Qed.

Lemma forget_ok {A} (m : M Req A) env w a w' :
  forget m env w = (Ok a, w') -> exists x, m env w = (Ok x, w').
Proof.
  unfold forget. intros H.
  apply bind_inv in H as [(x & w1 & E & H)|(e & E & ?)]; [|discriminate].
  injection H as <- <-. eauto.
Qed.

End Limits.

Ltac keeps_tac :=
  repeat first
    [ apply keeps_forget
    | apply pure_keeps;
      first [ apply pure_requireAdmin | apply pure_getEncryptionKey
            | apply pure_db_unique | apply pure_db_get | apply pure_db_collect
            | apply pure_db_first | apply pure_ret | apply pure_throw
            | apply pure_throwError | apply pure_lift | apply pure_read_db
            | apply pure_read_env ]
    | apply keeps_Date_now
    | apply keeps_getRandomValues
    | apply keeps_db_insert; solve_apart
    | apply keeps_db_patch; solve_apart
    | apply keeps_db_delete; solve_apart
    | apply keeps_generateReferenceNumber; solve_apart
    | apply keeps_updateCounter; solve_apart
    | apply keeps_delete_all; solve_apart
    | apply keeps_try_catch; [|intros ?]
    | apply keeps_scheduler_runAfter
    | apply keeps_console_error
    | match goal with
      | |- keeps _ (if ?c then _ else _) => destruct c
      | |- keeps _ (match ?x with _ => _ end) => destruct x
      | |- keeps _ (bind _ _) => apply keeps_bind; [|intros ?]
      end ].

(** * What the operations leave alone *)

Create HintDb handlers.
#[export] Hint Unfold Credentials.reveal Credentials.create Credentials.update
  Credentials.remove Subscriptions.create Subscriptions.update Subscriptions.remove
  SubscriptionRequests.submit SubscriptionRequests.approve SubscriptionRequests.reject
  SubscriptionRequests.remove Categories.create Categories.update Categories.remove
  Currencies.updateExchangeRate Currencies.create Currencies.update
  Currencies.toggleActive Currencies.remove Auth.login Auth.createAdminInternal
  : handlers.

Section Keeps.
Context {P : Platform}.

Lemma keeps_bulkCreate_loop {Req D} (T : TableRef Req D) cats curs subs :
  apart T Subscriptions -> apart T Counters ->
  forall i results,
    keeps T (Subscriptions.bulkCreate_loop (P:=P) cats curs i subs results).
Proof.
  intros H1 H2. induction subs as [|sub subs IH]; intros i results;
    cbn [Subscriptions.bulkCreate_loop].
  - apply pure_keeps, pure_ret.
  - apply keeps_bind; [|intros r; apply IH].
    unfold Subscriptions.bulkCreate_row.
    apply keeps_try_catch; [|intros; apply pure_keeps, pure_ret].
    apply keeps_bind; [apply pure_keeps, pure_lift|intros common].
    apply keeps_bind; [apply pure_keeps, pure_lift|intros _].
    apply keeps_bind; [destruct (negb _); apply pure_keeps;
                       [apply pure_throwError|apply pure_ret]|intros _].
    apply keeps_bind; [apply pure_keeps, pure_lift|intros _].
    apply keeps_bind; [destruct (negb _); apply pure_keeps;
                       [apply pure_throwError|apply pure_ret]|intros _].
    apply keeps_bind; [destruct (negb _); apply pure_keeps;
                       [apply pure_throwError|apply pure_ret]|intros _].
    apply keeps_bind; [now apply keeps_generateReferenceNumber|intros ref].
    apply keeps_bind; [now apply keeps_db_insert|intros; apply pure_keeps, pure_ret].
Qed.

(** Every operation but the two kinds that are listed leaves the log alone:
    the access to a credential and its update add an entry, the removal of
    a subscription and [clearDatabase] delete entries. *)
Lemma keeps_auditLogs (op : Operation) :
  match op with
  | credentials_reveal _ _ _ | credentials_update _ _ _ _ _
  | subscriptions_remove _ _ | seed_clearDatabase => True
  | _ => keeps AuditLogs (handler op)
  end.
Proof.
  destruct op; try exact I; cbn [handler];
    try (autounfold with handlers; cbv zeta; keeps_tac; fail).
  unfold Subscriptions.bulkCreate. cbv zeta. keeps_tac.
  apply keeps_bulkCreate_loop; solve_apart.
Qed.

End Keeps.

(** * What the handlers have done when they return *)

Section Returns.
Context {P : Platform}.

Import SubscriptionRequests.

Lemma approve_ok_inv adminEmail id adminNotes env w res w' :
  approve adminEmail id adminNotes env w = (Ok res, w') ->
  exists admin r c n ref date reviewedAt,
    requireAdmin adminEmail env w = (Ok admin, w) /\
    lookup (subscriptionRequests (db w)) id = Some r /\ req_status r = pending /\
    generateReferenceNumber entity_subscription env w = (Ok ref, allocated c n w) /\
    toISODate (nextRenewalDate (billingCycle_string (req_billingCycle r))
                 (env_clock env (S (ticks w)))) = Ok date /\
    toISOString (Some (env_clock env (S (S (ticks w))))) = Ok reviewedAt /\
    res = (id, n) /\
    subscriptions (db w') =
      subscriptions (db w) ++
      [(n, mkSubscription ref (req_name r) (req_description r) (req_provider r)
             (req_categoryId r) (req_cost r) (req_currencyId r) (req_billingCycle r)
             date other_method sub_active true (of_Z 7))] /\
    subscriptionRequests (db w') =
      update_row id
        (review approved (sanitize_optional adminNotes) (admin_email admin) reviewedAt)
        (subscriptionRequests (db w)).
Proof.
  intros H. unfold approve in H.
  inv_run H.
  match goal with
  | E : requireAdmin _ _ _ = _ |- _ =>
      pose proof E as E'; inv_pure E' (pure_requireAdmin (Req:=Req) adminEmail)
  end.
  match goal with
  | E : generateReferenceNumber _ _ _ = _ |- _ =>
      destruct (generateReferenceNumber_ok _ _ _ _ _ E) as (cs & n & -> & _)
  end.
  simpl_world. same_lookup. do 7 eexists.
  match goal with H : db w' = _ |- _ => rewrite H end. simpl_world.
  repeat split; try eassumption; try reflexivity.
  match goal with
  | H : negb (is_pending (req_status ?s)) = false |- _ =>
      destruct (req_status s); (reflexivity || discriminate)
  end.
Qed.

Lemma reject_ok_inv adminEmail id adminNotes env w res w' :
  reject adminEmail id adminNotes env w = (Ok res, w') ->
  exists admin r reviewedAt,
    requireAdmin adminEmail env w = (Ok admin, w) /\
    lookup (subscriptionRequests (db w)) id = Some r /\ req_status r = pending /\
    toISOString (Some (env_clock env (ticks w))) = Ok reviewedAt /\
    res = id /\
    subscriptionRequests (db w') =
      update_row id
        (review rejected (Some (sanitizeString adminNotes)) (admin_email admin)
           reviewedAt)
        (subscriptionRequests (db w)) /\
    subscriptions (db w') = subscriptions (db w).
Proof.
  intros H. unfold reject in H.
  inv_run H.
  match goal with
  | E : requireAdmin _ _ _ = _ |- _ =>
      pose proof E as E'; inv_pure E' (pure_requireAdmin (Req:=Req) adminEmail)
  end.
  simpl_world. same_lookup. do 3 eexists.
  match goal with H : db w' = _ |- _ => rewrite H end. simpl_world.
  repeat split; try eassumption; try reflexivity.
  match goal with
  | H : negb (is_pending (req_status ?s)) = false |- _ =>
      destruct (req_status s); (reflexivity || discriminate)
  end.
Qed.

Lemma remove_ok_inv adminEmail id env w res w' :
  remove adminEmail id env w = (Ok res, w') ->
  subscriptionRequests (db w') = remove_row id (subscriptionRequests (db w)).
Proof.
  intros H. unfold remove in H.
  apply bind_inv in H as [(a & w1 & E & H)|(? & ? & ?)]; [|discriminate].
  inv_pure E (pure_requireAdmin (Req:=Req) adminEmail).
  apply bind_inv in H as [(r & w1 & E1 & H)|(? & ? & ?)]; [|discriminate].
  inv_eq E1. destruct (lookup _ id); [|discriminate H].
  apply db_delete_inv in H as [_ ->]. reflexivity.
Qed.

Lemma submit_ok_inv args env w id ref w' :
  submit args env w = (Ok (id, ref), w') ->
  exists r,
    subscriptionRequests (db w') = subscriptionRequests (db w) ++ [(id, r)] /\
    req_status r = pending /\ req_referenceNumber r = ref /\
    req_adminNotes r = None /\ req_reviewedBy r = None /\ req_reviewedAt r = None.
Proof.
  intros H. unfold submit in H.
  inv_run H.
  match goal with
  | E : generateReferenceNumber _ _ _ = _ |- _ =>
      destruct (generateReferenceNumber_ok _ _ _ _ _ E) as (cs & n & -> & _)
  end.
  repeat match goal with
  | E : updateCounter _ _ _ _ _ _ = _ |- _ => apply updateCounter_inv in E as ->
  end.
  simpl_world. eexists.
  match goal with H : db w' = _ |- _ => rewrite H end. simpl_world.
  split; [reflexivity|]. repeat split.
Qed.

End Returns.

Section NotPending.
Context {P : Platform}.
Import SubscriptionRequests.

Lemma db_get_eq {Req D} (T : TableRef Req D) id env (w : World Req) :
  db_get T id env w = (Ok (lookup (t_get T (db w)) id), w).
Proof. reflexivity. Qed.

Lemma approve_not_pending adminEmail id adminNotes env w r :
  lookup (subscriptionRequests (db w)) id = Some r -> req_status r <> pending ->
  exists e,
    approve adminEmail id adminNotes env w = (Throw e, w) /\
    (forall admin,
       requireAdmin adminEmail env w = (Ok admin, w) ->
       truthy (sanitize_optional adminNotes) &&
         (1000 <? lengthOr0 (sanitize_optional adminNotes)) = false ->
       e = JsError "Can only approve pending requests").
Proof.
  intros Hr Hs. unfold approve.
  destruct (requireAdmin (Req:=Req) adminEmail env w) as [[admin|e] w1] eqn:E;
    pose proof (pure_inv _ _ _ _ _ (pure_requireAdmin adminEmail) E) as ->.
  - rewrite (bind_ok _ _ _ _ _ _ E).
    destruct (truthy _ && _) eqn:C.
    + eexists. split; [reflexivity|]. intros admin' _ H. congruence.
    + rewrite (bind_ok _ _ _ _ _ _ (db_get_eq SubscriptionRequests id env w)).
      cbn [t_get SubscriptionRequests]. rewrite Hr.
      assert (negb (is_pending (req_status r)) = true) as ->
        by (destruct (req_status r); [congruence|reflexivity|reflexivity]).
      eexists. split; reflexivity.
  - rewrite (bind_throw _ _ _ _ _ _ E). eexists. split; [reflexivity|].
    intros admin' H. congruence.
Qed.

Lemma reject_not_pending adminEmail id adminNotes env w r :
  lookup (subscriptionRequests (db w)) id = Some r -> req_status r <> pending ->
  exists e,
    reject adminEmail id adminNotes env w = (Throw e, w) /\
    (forall admin,
       requireAdmin adminEmail env w = (Ok admin, w) ->
       (JsString.length (sanitizeString adminNotes) =? 0) ||
       (JsString.length (sanitizeString adminNotes) <? 10) ||
       (1000 <? JsString.length (sanitizeString adminNotes)) = false ->
       e = JsError "Can only reject pending requests").
Proof.
  intros Hr Hs. unfold reject.
  destruct (requireAdmin (Req:=Req) adminEmail env w) as [[admin|e] w1] eqn:E;
    pose proof (pure_inv _ _ _ _ _ (pure_requireAdmin adminEmail) E) as ->.
  - rewrite (bind_ok _ _ _ _ _ _ E).
    destruct (_ || _) eqn:C.
    + eexists. split; [reflexivity|]. intros admin' _ H. congruence.
    + rewrite (bind_ok _ _ _ _ _ _ (db_get_eq SubscriptionRequests id env w)).
      cbn [t_get SubscriptionRequests]. rewrite Hr.
      assert (negb (is_pending (req_status r)) = true) as ->
        by (destruct (req_status r); [congruence|reflexivity|reflexivity]).
      eexists. split; reflexivity.
  - rewrite (bind_throw _ _ _ _ _ _ E). eexists. split; [reflexivity|].
    intros admin' H. congruence.
Qed.

End NotPending.

(** * Authentication and the vault *)

Section Vault.
Context {P : Platform}.

Lemma eqb_eq (a b : jsstring) : eqb a b = true <-> a = b.
Proof.
  unfold eqb. destruct (list_eq_dec Z.eq_dec a b); split; congruence.
Qed.

Lemma eqb_refl (s : jsstring) : eqb s s = true.
Proof. unfold eqb. destruct (list_eq_dec Z.eq_dec s s); congruence. Qed.

Lemma eqb_neq (s s' : jsstring) : s <> s' -> eqb s s' = false.
Proof. unfold eqb. destruct (list_eq_dec Z.eq_dec s s'); congruence. Qed.

Lemma requireAdmin_ok_inv {Req} adminEmail env (w : World Req) admin w' :
  requireAdmin adminEmail env w = (Ok admin, w') ->
  w' = w /\
  exists u,
    select (fun u => eqb (user_email u) (toLowerCase adminEmail)) (users (db w)) =
      [(admin_id admin, u)] /\
    admin_email admin = toLowerCase adminEmail /\
    admin_name admin = user_name u /\ user_role u = lit "admin".
Proof.
  intros H. split; [apply (pure_inv _ _ _ _ _ (pure_requireAdmin adminEmail) H)|].
  unfold requireAdmin in H.
  destruct (JsString.length adminEmail =? 0); [discriminate H|].
  apply bind_inv in H as [(a & w1 & E & H)|(? & ? & ?)]; [|discriminate].
  apply db_unique_inv in E as [-> E]. cbn [t_get Users] in E.
  destruct a as [[id u]|]; [|discriminate H].
  destruct (negb (eqb (user_role u) (lit "admin"))) eqn:R; [discriminate H|].
  injection H as <-. cbn [admin_id admin_email admin_name].
  destruct (select _ (users (db w))) as [|x [|y rest]] eqn:S; try discriminate E.
  injection E as <-.
  assert (In (id, u) (select (fun u => eqb (user_email u) (toLowerCase adminEmail))
                        (users (db w)))) as Hin by (rewrite S; now left).
  apply select_in in Hin as [_ Hin]. cbn [snd] in Hin. apply eqb_eq in Hin.
  exists u. repeat split; auto.
  apply negb_false_iff in R. now apply eqb_eq in R.
Qed.

Import Credentials.

Lemma getEncryptionKey_ok_inv {Req} env (w : World Req) key w' :
  getEncryptionKey env w = (Ok key, w') ->
  w' = w /\ env_ENCRYPTION_KEY env = Some key /\ 32 <= JsString.length key.
Proof.
  intros H. split; [apply (pure_inv _ _ _ _ _ pure_getEncryptionKey H)|].
  unfold getEncryptionKey in H.
  apply bind_inv in H as [(env' & w1 & E & H)|(? & ? & ?)]; [|discriminate].
  inv_eq E.
  destruct (env_ENCRYPTION_KEY env) as [[|k key']|] eqn:K; try discriminate H.
  destruct (Z.ltb_spec (JsString.length (k :: key')) 32); [discriminate H|].
  injection H as <-. auto.
Qed.

Lemma reveal_ok_inv {Req} adminEmail subscriptionId action env (w : World Req) res w' :
  reveal adminEmail subscriptionId action env w = (Ok res, w') ->
  exists admin sub credId cred key,
    requireAdmin adminEmail env w = (Ok admin, w) /\
    lookup (subscriptions (db w)) subscriptionId = Some sub /\
    select (by_subscription subscriptionId) (credentials (db w)) = [(credId, cred)] /\
    env_ENCRYPTION_KEY env = Some key /\
    decrypt (cred_password cred) key = Ok (snd res) /\
    fst res = cred_username cred /\
    db w' =
      fresh_id
        (t_set AuditLogs
           (auditLogs (db w) ++
            [(nextId (db w),
              mkAuditLog subscriptionId (sub_name sub) (audit_action action)
                (admin_email admin)
                (iso_date (env_clock env (ticks w)) ++ lit "T" ++
                 iso_time (env_clock env (ticks w))))])
           (db w)).
Proof.
  intros H. unfold reveal in H.
  apply bind_inv in H as [(admin & w1 & E & H)|(? & ? & ?)]; [|discriminate].
  inv_pure E (pure_requireAdmin (Req:=Req) adminEmail).
  apply bind_inv in H as [(sub & w2 & E1 & H)|(? & ? & ?)]; [|discriminate].
  inv_eq E1.
  apply bind_inv in H as [(cred & w3 & E2 & H)|(? & ? & ?)]; [|discriminate].
  apply db_unique_inv in E2 as [-> E2]. cbn [t_get Credentials Subscriptions] in *.
  destruct (lookup (subscriptions (db w)) subscriptionId) as [sub|] eqn:Hs;
    [|discriminate H].
  destruct cred as [[credId cred]|]; [|discriminate H].
  destruct (select _ (credentials (db w))) as [|x [|y rest]] eqn:S; try discriminate E2.
  injection E2 as <-.
  inv_run H.
  match goal with
  | E : getEncryptionKey _ _ = (Ok ?k, _) |- _ =>
      apply getEncryptionKey_ok_inv in E as (-> & K & _)
  end.
  exists admin, sub, credId, cred. eexists.
  repeat split; try eassumption; try reflexivity.
Qed.

Lemma update_ok_inv {Req} adminEmail id username password notes env (w : World Req)
    res w' :
  update adminEmail id username password notes env w = (Ok res, w') ->
  exists entry,
    auditLogs (db w') = auditLogs (db w) ++ [(nextId (db w), entry)] /\
    log_action entry = updated.
Proof.
  intros H. unfold update in H.
  apply bind_inv in H as [(admin & w1 & E & H)|(? & ? & ?)]; [|discriminate].
  inv_pure E (pure_requireAdmin (Req:=Req) adminEmail).
  cbv zeta in H.
  inv_run H.
  match goal with
  | E : getEncryptionKey _ _ = _ |- _ => inv_pure E (@pure_getEncryptionKey Req)
  end.
  simpl_world. eexists. split; reflexivity.
Qed.

End Vault.

(** * Cost validation *)

Lemma validateCost_ok (cost : number) :
  validateCost cost = Ok tt <->
  exists q, cost = Fin q /\ (0 <= q)%Q /\ (q <= inject_Z 100000000)%Q.
Proof.
  unfold validateCost, validatePositiveNumber, JsNumber.gt, JsNumber.ge, of_Z, maxAmount.
  destruct cost as [| | |q]; cbn [isNaN JsNumber.le JsNumber.lt negb andb].
  - split; [discriminate|]. intros (q & E & _). discriminate.
  - split; [discriminate|]. intros (q & E & _). discriminate.
  - split; [discriminate|]. intros (q & E & _). discriminate.
  - split.
    + destruct (Qle_bool (inject_Z 0) q) eqn:H0; [|discriminate]. cbn [negb].
      destruct (Qle_bool q (inject_Z 100000000)) eqn:H1; [|discriminate].
      intros _. exists q. apply Qle_bool_iff in H0, H1. auto.
    + intros (q' & E & H0 & H1). injection E as <-.
      apply Qle_bool_iff in H0, H1.
      change (inject_Z 0) with 0%Q. rewrite H0, H1. reflexivity.
Qed.

Lemma submit_cost_not_positive {P : Platform} (args : SubscriptionRequests.SubmitArgs)
    (env : Env) (w : World SubscriptionRequests.SubscriptionRequest) :
  JsNumber.le (SubscriptionRequests.s_cost args) (of_Z 0) = true ->
  SubscriptionRequests.submit args env w =
    (Throw
       match
         validateAndSanitizeCommonFields (SubscriptionRequests.s_name args)
           (SubscriptionRequests.s_description args)
           (Some (SubscriptionRequests.s_provider args)) 10 1000
       with
       | Throw e => e
       | Ok _ => JsError "Cost must be a positive number"
       end, w).
Proof.
  intros H. unfold SubscriptionRequests.submit.
  destruct (validateAndSanitizeCommonFields _ _ _ _ _) as [common|e].
  - unfold bind at 1. cbn [lift]. rewrite H. reflexivity.
  - reflexivity.
Qed.

(** C10: the public submission throws for every cost that is at most 0;
    the validator shared by the admin operations accepts exactly the numbers
    from 0 to 100000000; [create] and [bulkCreate] accept the cost 0. *)
Theorem cost_validation_asymmetric :
  (forall (P : Platform) args env w,
     JsNumber.le (SubscriptionRequests.s_cost args) (of_Z 0) = true ->
     exists e, SubscriptionRequests.submit args env w = (Throw e, w)) /\
  (forall cost,
     validateCost cost = Ok tt <->
     exists q, cost = Fin q /\ (0 <= q)%Q /\ (q <= inject_Z 100000000)%Q) /\
  (exists id w',
     mutation (@Subscriptions.create Sample.platform SubscriptionRequests.SubscriptionRequest
                 SampleData.admin_email SampleData.free_plan)
       SampleData.sample_env SampleData.sample_world = (Ok id, w') /\
     exists s, lookup (subscriptions (db w')) id = Some s /\ sub_cost s = of_Z 0) /\
  (exists summary w',
     mutation (@Subscriptions.bulkCreate Sample.platform SubscriptionRequests.SubscriptionRequest
                 SampleData.admin_email [SampleData.free_plan])
       SampleData.sample_env SampleData.sample_world = (Ok summary, w') /\
     Subscriptions.succeeded summary = 1 /\
     map sub_cost (map snd (subscriptions (db w'))) = [of_Z 0]).
Proof.
  split; [|split; [|split]].
  - intros P args env w H. rewrite submit_cost_not_positive by assumption. eauto.
  - apply validateCost_ok.
  - eexists _, _. split; [vm_compute; reflexivity|].
    eexists. split; reflexivity.
  - eexists _, _. split; [vm_compute; reflexivity|]. split; reflexivity.
Qed.

Lemma cost_validation_asymmetric_witness :
  exists e,
    SubscriptionRequests.submit (P := Sample.platform)
      (SampleData.request_args (of_Z 0)) SampleData.sample_env
      SampleData.sample_world = (Throw e, SampleData.sample_world).
Proof.
  apply (proj1 cost_validation_asymmetric Sample.platform
           (SampleData.request_args (of_Z 0)) SampleData.sample_env
           SampleData.sample_world).
  reflexivity.
Defined.

(** * The life of a request *)

Section Lifecycle.
Context {P : Platform}.
Import SubscriptionRequests.

Lemma keeps_requests (op : Operation) :
  match op with
  | requests_submit _ | requests_approve _ _ _ | requests_reject _ _ _
  | requests_remove _ _ | seed_clearDatabase => True
  | _ => keeps SubscriptionRequests (handler op)
  end.
Proof.
  destruct op; try exact I; cbn [handler];
    try (autounfold with handlers; cbv zeta; keeps_tac; fail).
  unfold Subscriptions.bulkCreate. cbv zeta. keeps_tac.
  apply keeps_bulkCreate_loop; solve_apart.
Qed.

Lemma delete_all_requests id rows env (w : World Req) r w' :
  Subscriptions.delete_all SubscriptionRequests rows env w = (r, w') ->
  same_or_gone id w w'.
Proof.
  revert w. induction rows as [|[id' d] rows IH]; intros w H;
    cbn [Subscriptions.delete_all] in H.
  - injection H as <- <-. now right.
  - apply bind_inv in H as [(a & w1 & E & H)|(e & E & ->)].
    + apply db_delete_inv in E as [_ ->]. apply IH in H.
      unfold same_or_gone in *. simpl_world.
      rewrite lookup_remove_row in H.
      destruct H as [H|H]; [now left|]. rewrite H.
      destruct (id =? id'); [now left|now right].
    + unfold db_delete in E. destruct (lookup _ id'); [discriminate|].
      injection E as <- <-. now right.
Qed.

Lemma same_or_gone_trans id (w1 w2 w3 : World Req) :
  same_or_gone id w1 w2 -> same_or_gone id w2 w3 -> same_or_gone id w1 w3.
Proof.
  unfold same_or_gone. intros [H1|H1] [H2|H2]; rewrite ?H2, ?H1; auto.
Qed.

Lemma shrinks_bind {A B} id (m : M Req A) (k : A -> M Req B) :
  shrinks id m -> (forall a, shrinks id (k a)) -> shrinks id (bind m k).
Proof.
  intros Hm Hk env w r w' H.
  apply bind_inv in H as [(a & w1 & E & H)|(e & E & ->)].
  - eapply same_or_gone_trans; [eapply Hm, E|eapply Hk, H].
  - eapply Hm, E.
Qed.

Lemma keeps_shrinks {A} id (m : M Req A) :
  keeps SubscriptionRequests m -> shrinks id m.
Proof.
  intros H env w r w' E. right.
  pose proof (keeps_inv SubscriptionRequests _ _ _ _ _ H E) as K.
  cbn [t_get SubscriptionRequests] in K. now rewrite K.
Qed.

Lemma clearDatabase_requests id env (w : World Req) r w' :
  Seed.clearDatabase env w = (r, w') -> same_or_gone id w w'.
Proof.
  revert env w r w'. change (shrinks id (@Seed.clearDatabase Req)).
  unfold Seed.clearDatabase.
  repeat first
    [ apply shrinks_bind; [|intros ?]
    | apply keeps_shrinks, pure_keeps, pure_read_db
    | apply keeps_shrinks, keeps_delete_all; solve_apart
    | intros env w r w' H; eapply delete_all_requests; exact H ].
Qed.

Lemma exec_keeps (op : Operation) env w :
  keeps SubscriptionRequests (handler op) ->
  subscriptionRequests (db (exec op env w)) = subscriptionRequests (db w).
Proof. intros H. unfold exec. apply (keeps_mutation SubscriptionRequests _ env w H). Qed.

Lemma status_of_start (w : World Req) :
  subscriptionRequests (db (mkWorld (db w) (scheduled w) (console w) 0 0)) =
  subscriptionRequests (db w).
Proof. reflexivity. Qed.

(** One operation leaves a request that was reviewed as it is, or removes
    it. *)
Lemma reviewed_step (op : Operation) env w id s :
  status_of w id = Some s -> s <> pending ->
  status_of (exec op env w) id = Some s \/ status_of (exec op env w) id = None.
Proof.
  unfold status_of. intros Hs Hp.
  destruct (lookup (subscriptionRequests (db w)) id) as [r|] eqn:Hr; [|discriminate].
  injection Hs as Hs.
  pose proof (keeps_requests op) as K.
  destruct op;
    try (rewrite (exec_keeps _ env w K), Hr; left; cbn; congruence);
    unfold exec; cbn [handler];
    match goal with
    | |- context [mutation ?m env w] =>
        destruct (mutation_cases m env w) as [(a & w' & E & ->)|(e & ->)];
        cbn [snd]; [|rewrite Hr; left; cbn; congruence]
    end.
  - (* submit *)
    apply forget_ok in E as [[id' ref] E].
    apply submit_ok_inv in E as (r' & -> & _). simpl_world.
    rewrite lookup_app, Hr. left. cbn. congruence.
  - (* approve *)
    apply forget_ok in E as [res E].
    apply approve_ok_inv in E
      as (admin & r' & c & n & ref & date & at_ & _ & Hl & Hpend & _ & _ & _ & _ & _ & ->).
    simpl_world. rewrite lookup_update_row.
    destruct (Z.eqb_spec id id0) as [->|N].
    + rewrite Hr in Hl. injection Hl as ->. congruence.
    + rewrite Hr. left. cbn. congruence.
  - (* reject *)
    apply forget_ok in E as [res E].
    apply reject_ok_inv in E as (admin & r' & at_ & _ & Hl & Hpend & _ & _ & -> & _).
    simpl_world. rewrite lookup_update_row.
    destruct (Z.eqb_spec id id0) as [->|N].
    + rewrite Hr in Hl. injection Hl as ->. congruence.
    + rewrite Hr. left. cbn. congruence.
  - (* remove *)
    apply remove_ok_inv in E as ->. simpl_world. rewrite lookup_remove_row.
    destruct (id =? id0); [now right|]. rewrite Hr. left. cbn. congruence.
  - (* clearDatabase *)
    apply clearDatabase_requests with (id := id) in E as [E|E]; simpl_world;
      rewrite E; [now right|]. rewrite Hr. left. cbn. congruence.
Qed.

(** Through any operations a reviewed request keeps its status until it is
    removed. *)
Lemma reviewed_forever (ops : list (Operation * Env)) w id s :
  status_of w id = Some s -> s <> pending ->
  status_of (exec_all ops w) id = Some s \/
  exists ops1 ops2, ops = ops1 ++ ops2 /\ status_of (exec_all ops1 w) id = None.
Proof.
  revert w. induction ops as [|[op env] ops IH]; intros w Hs Hp; cbn [exec_all].
  - now left.
  - destruct (reviewed_step op env w id s Hs Hp) as [H|H].
    + destruct (IH _ H Hp) as [H'|(ops1 & ops2 & -> & H')]; [now left|].
      right. exists ((op, env) :: ops1), ops2. split; [reflexivity|exact H'].
    + right. exists [(op, env)], ops. split; [reflexivity|exact H].
Qed.

End Lifecycle.

(** C3: a request is created pending; [approve] and [reject] take a pending
    request to approved and to rejected; on a request that is not pending
    both throw and leave the state as it is; a request that is approved or
    rejected keeps that status under every sequence of operations, until it
    is removed. *)
Theorem request_lifecycle (P : Platform) :
  (forall args env w id ref w',
     SubscriptionRequests.submit args env w = (Ok (id, ref), w') ->
     exists r,
       subscriptionRequests (db w') = subscriptionRequests (db w) ++ [(id, r)] /\
       SubscriptionRequests.req_status r = pending) /\
  (forall adminEmail id adminNotes env w res w',
     SubscriptionRequests.approve adminEmail id adminNotes env w = (Ok res, w') ->
     status_of w id = Some pending /\ status_of w' id = Some approved) /\
  (forall adminEmail id adminNotes env w res w',
     SubscriptionRequests.reject adminEmail id adminNotes env w = (Ok res, w') ->
     status_of w id = Some pending /\ status_of w' id = Some rejected) /\
  (forall adminEmail id adminNotes env w s,
     status_of w id = Some s -> s <> pending ->
     exists e,
       SubscriptionRequests.approve adminEmail id adminNotes env w = (Throw e, w) /\
       (forall admin,
          requireAdmin adminEmail env w = (Ok admin, w) ->
          truthy (sanitize_optional adminNotes) &&
            (1000 <? lengthOr0 (sanitize_optional adminNotes)) = false ->
          e = JsError "Can only approve pending requests")) /\
  (forall adminEmail id adminNotes env w s,
     status_of w id = Some s -> s <> pending ->
     exists e,
       SubscriptionRequests.reject adminEmail id adminNotes env w = (Throw e, w) /\
       (forall admin,
          requireAdmin adminEmail env w = (Ok admin, w) ->
          (JsString.length (sanitizeString adminNotes) =? 0) ||
          (JsString.length (sanitizeString adminNotes) <? 10) ||
          (1000 <? JsString.length (sanitizeString adminNotes)) = false ->
          e = JsError "Can only reject pending requests")) /\
  (forall ops w id s,
     status_of w id = Some s -> s <> pending ->
     status_of (exec_all ops w) id = Some s \/
     exists ops1 ops2, ops = ops1 ++ ops2 /\ status_of (exec_all ops1 w) id = None).
Proof.
  split; [|split; [|split; [|split; [|split]]]].
  - intros args env w id ref w' H.
    apply submit_ok_inv in H as (r & H1 & H2 & _). eauto.
  - intros adminEmail id adminNotes env w res w' H.
    apply approve_ok_inv in H
      as (admin & r & c & n & ref & date & at_ & _ & Hl & Hp & _ & _ & _ & _ & _ & E).
    unfold status_of. split.
    + rewrite Hl. cbn [option_map]. now rewrite Hp.
    + rewrite E, lookup_update_row, Z.eqb_refl, Hl. reflexivity.
  - intros adminEmail id adminNotes env w res w' H.
    apply reject_ok_inv in H as (admin & r & at_ & _ & Hl & Hp & _ & _ & E & _).
    unfold status_of. split.
    + rewrite Hl. cbn [option_map]. now rewrite Hp.
    + rewrite E, lookup_update_row, Z.eqb_refl, Hl. reflexivity.
  - intros adminEmail id adminNotes env w s Hs Hp. unfold status_of in Hs.
    destruct (lookup (subscriptionRequests (db w)) id) as [r|] eqn:Hr; [|discriminate].
    injection Hs as Hs. apply (approve_not_pending _ _ _ _ _ r Hr). congruence.
  - intros adminEmail id adminNotes env w s Hs Hp. unfold status_of in Hs.
    destruct (lookup (subscriptionRequests (db w)) id) as [r|] eqn:Hr; [|discriminate].
    injection Hs as Hs. apply (reject_not_pending _ _ _ _ _ r Hr). congruence.
  - intros. now apply reviewed_forever.
Qed.

Lemma request_lifecycle_witness :
  (exists e,
     SubscriptionRequests.approve (P := Sample.platform) SampleData.admin_email 4 None
       SampleData.sample_env SampleRequests.requests_world
     = (Throw e, SampleRequests.requests_world) /\
     (forall admin,
        requireAdmin (P := Sample.platform) SampleData.admin_email
          SampleData.sample_env SampleRequests.requests_world
        = (Ok admin, SampleRequests.requests_world) ->
        truthy (sanitize_optional None) &&
          (1000 <? lengthOr0 (sanitize_optional None)) = false ->
        e = JsError "Can only approve pending requests")) /\
  (status_of
     (exec_all (P := Sample.platform)
        [(requests_reject SampleData.admin_email 4 (lit "Changed our mind on this"),
          SampleData.sample_env);
         (requests_approve SampleData.admin_email 4 None, SampleData.sample_env)]
        SampleRequests.requests_world) 4 = Some approved \/
   exists ops1 ops2,
     [(requests_reject SampleData.admin_email 4 (lit "Changed our mind on this"),
       SampleData.sample_env);
      (requests_approve SampleData.admin_email 4 None, SampleData.sample_env)]
     = ops1 ++ ops2 /\
     status_of (exec_all (P := Sample.platform) ops1 SampleRequests.requests_world) 4
     = None).
Proof.
  split.
  - apply (proj1 (proj2 (proj2 (proj2 (request_lifecycle Sample.platform))))
             SampleData.admin_email 4 None SampleData.sample_env
             SampleRequests.requests_world approved).
    + reflexivity.
    + discriminate.
  - apply (proj2 (proj2 (proj2 (proj2 (proj2 (request_lifecycle Sample.platform))))));
      [reflexivity|discriminate].
Defined.

(** * The access to a credential and its entry in the log *)

Section Reveal.
Context {P : Platform} {Req : Type}.
Import Credentials.

Lemma reveal_no_subscription adminEmail subscriptionId action env (w : World Req) admin :
  requireAdmin adminEmail env w = (Ok admin, w) ->
  lookup (subscriptions (db w)) subscriptionId = None ->
  (List.length (select (by_subscription subscriptionId) (credentials (db w))) <= 1)%nat ->
  reveal adminEmail subscriptionId action env w =
    (Throw (JsError "Subscription not found"), w).
Proof.
  intros Ha Hs Hc. unfold reveal.
  rewrite (bind_ok _ _ _ _ _ _ Ha).
  rewrite (bind_ok _ _ _ _ _ _ (db_get_eq Subscriptions subscriptionId env w)).
  cbn [t_get Subscriptions]. rewrite Hs.
  destruct (select (by_subscription subscriptionId) (credentials (db w)))
    as [|x [|y rest]] eqn:S.
  - erewrite bind_ok by (apply db_unique_none; exact S). reflexivity.
  - erewrite bind_ok by (apply db_unique_one; exact S). reflexivity.
  - cbn in Hc. lia.
Qed.

Lemma reveal_no_credential adminEmail subscriptionId action env (w : World Req) admin sub :
  requireAdmin adminEmail env w = (Ok admin, w) ->
  lookup (subscriptions (db w)) subscriptionId = Some sub ->
  select (by_subscription subscriptionId) (credentials (db w)) = [] ->
  reveal adminEmail subscriptionId action env w =
    (Throw (JsError "No credentials found for this subscription"), w).
Proof.
  intros Ha Hs Hc. unfold reveal.
  rewrite (bind_ok _ _ _ _ _ _ Ha).
  rewrite (bind_ok _ _ _ _ _ _ (db_get_eq Subscriptions subscriptionId env w)).
  cbn [t_get Subscriptions]. rewrite Hs.
  erewrite bind_ok by (apply db_unique_none; exact Hc). reflexivity.
Qed.

Lemma reveal_all_count (calls : list RevealCall) (w : World Req) :
  List.length (auditLogs (db (snd (reveal_all calls w)))) =
  (List.length (auditLogs (db w)) + fst (reveal_all calls w))%nat.
Proof.
  revert w. induction calls as [|c calls IH]; intros w; cbn [reveal_all].
  - cbn. lia.
  - destruct (mutation _ (rc_env c) w) as [[res|e] w1] eqn:E.
    + specialize (IH w1). destruct (reveal_all calls w1) as [n w2].
      cbn [fst snd] in *. rewrite IH.
      apply mutation_ok_inv in E. apply reveal_ok_inv in E
        as (admin & sub & credId & cred & key & _ & _ & _ & _ & _ & _ & E).
      rewrite E. simpl_world. rewrite length_app. cbn. lia.
    + apply mutation_throw_inv in E as ->. apply IH.
Qed.

End Reveal.

(** C2: a call of [reveal] that returns has inserted exactly one entry of
    the log, with the action, the identity of the admin and a timestamp
    that is not earlier than the call, and returns the username with the
    decrypted password; any sequence of calls adds as many entries as calls
    returned; a call for a missing subscription or a missing credential
    throws its error and inserts nothing. *)
Theorem reveal_audited (P : Platform) (Req : Type) :
  (forall adminEmail subscriptionId action env (w : World Req) start username password w',
     clock_from start env ->
     mutation (Credentials.reveal adminEmail subscriptionId action) env w =
       (Ok (username, password), w') ->
     exists logId admin sub credId cred key t performedAt,
       auditLogs (db w') =
         auditLogs (db w) ++
         [(logId, mkAuditLog subscriptionId (sub_name sub)
                    (Credentials.audit_action action) (admin_email admin) performedAt)] /\
       requireAdmin adminEmail env w = (Ok admin, w) /\
       admin_email admin = toLowerCase adminEmail /\
       toISOString (Some t) = Ok performedAt /\ start <= t /\
       lookup (subscriptions (db w)) subscriptionId = Some sub /\
       select (Credentials.by_subscription subscriptionId) (credentials (db w)) =
         [(credId, cred)] /\
       username = cred_username cred /\
       env_ENCRYPTION_KEY env = Some key /\
       decrypt (cred_password cred) key = Ok password) /\
  (forall calls (w : World Req),
     List.length (auditLogs (db (snd (reveal_all calls w)))) =
     (List.length (auditLogs (db w)) + fst (reveal_all calls w))%nat) /\
  (forall adminEmail subscriptionId action env (w : World Req) admin,
     requireAdmin adminEmail env w = (Ok admin, w) ->
     lookup (subscriptions (db w)) subscriptionId = None ->
     (List.length (select (Credentials.by_subscription subscriptionId)
                     (credentials (db w))) <= 1)%nat ->
     Credentials.reveal adminEmail subscriptionId action env w =
       (Throw (JsError "Subscription not found"), w)) /\
  (forall adminEmail subscriptionId action env (w : World Req) admin sub,
     requireAdmin adminEmail env w = (Ok admin, w) ->
     lookup (subscriptions (db w)) subscriptionId = Some sub ->
     select (Credentials.by_subscription subscriptionId) (credentials (db w)) = [] ->
     Credentials.reveal adminEmail subscriptionId action env w =
       (Throw (JsError "No credentials found for this subscription"), w)).
Proof.
  split; [|split; [|split]].
  - intros adminEmail subscriptionId action env w start username password w' Hc H.
    apply mutation_ok_inv in H. apply reveal_ok_inv in H
      as (admin & sub & credId & cred & key & Ha & Hs & Hcr & Hk & Hd & Hu & E).
    simpl_world.
    assert (Ha' : requireAdmin adminEmail env w = (Ok admin, w)).
    { unfold requireAdmin in *. destruct (_ =? 0); [discriminate Ha|].
      unfold bind, db_unique in *. simpl_world.
      destruct (select _ (users (db w))) as [|[id u] [|y rest]]; try discriminate Ha.
      destruct (negb _); [discriminate Ha|]. injection Ha as <-. reflexivity. }
    destruct (requireAdmin_ok_inv _ _ _ _ _ Ha') as (_ & u & _ & He & _).
    exists (nextId (db w)), admin, sub, credId, cred, key, (env_clock env 0).
    eexists. rewrite E. simpl_world.
    repeat split; try eassumption; try reflexivity; auto.
  - intros calls w. apply reveal_all_count.
  - intros. eapply reveal_no_subscription; eassumption.
  - intros. eapply reveal_no_credential; eassumption.
Qed.

Lemma reveal_hunter2 :
  fst (mutation (Credentials.reveal (P := Sample.platform) (Req := unit)
                   SampleData.admin_email 20 Credentials.reveal_copied)
         SampleData.sample_env SampleVault.vault_world) =
  Ok (lit "design@company.com", lit "hunter2").
Proof. vm_compute. reflexivity. Qed.

Lemma reveal_audited_witness :
  Credentials.reveal (P := Sample.platform) (Req := unit) SampleData.admin_email 99
    Credentials.reveal_viewed SampleData.sample_env SampleVault.vault_world =
  (Throw (JsError "Subscription not found"), SampleVault.vault_world) /\
  exists logId admin sub credId cred key t performedAt,
    auditLogs
      (db (snd (mutation (Credentials.reveal (P := Sample.platform) (Req := unit)
                            SampleData.admin_email 20 Credentials.reveal_copied)
                  SampleData.sample_env SampleVault.vault_world))) =
      auditLogs (db (@SampleVault.vault_world unit)) ++
      [(logId, mkAuditLog 20 (sub_name sub) copied (admin_email admin) performedAt)] /\
    requireAdmin (P := Sample.platform) (Req := unit) SampleData.admin_email
      SampleData.sample_env SampleVault.vault_world =
      (Ok admin, SampleVault.vault_world) /\
    admin_email admin = Sample.ascii_lower SampleData.admin_email /\
    toISOString (Some t) = Ok performedAt /\ SampleData.jan15 <= t /\
    lookup (subscriptions (db (@SampleVault.vault_world unit))) 20 = Some sub /\
    select (Credentials.by_subscription 20)
      (credentials (db (@SampleVault.vault_world unit))) = [(credId, cred)] /\
    lit "design@company.com" = cred_username cred /\
    env_ENCRYPTION_KEY SampleData.sample_env = Some key /\
    decrypt (cred_password cred) key = Ok (lit "hunter2").
Proof.
  split.
  - eapply (proj1 (proj2 (proj2 (reveal_audited Sample.platform unit)))).
    + reflexivity.
    + reflexivity.
    + cbn. lia.
  - eapply (proj1 (reveal_audited Sample.platform unit) SampleData.admin_email 20
              Credentials.reveal_copied SampleData.sample_env SampleVault.vault_world
              SampleData.jan15 (lit "design@company.com") (lit "hunter2")).
    + intros k. cbn. lia.
    + vm_compute. reflexivity.
Defined.

(** * The log of accesses *)

Section Log.
Context {P : Platform}.

Lemma exec_cases (op : Operation) env w :
  (exists w', handler op env (mkWorld (db w) (scheduled w) (console w) 0 0) = (Ok tt, w') /\
              exec op env w = w') \/
  exec op env w = w.
Proof.
  unfold exec, mutation. destruct (handler op env _) as [[[]|e] w']; [left|right]; eauto.
Qed.

End Log.

(** C8 (amended): every operation other than the removal of a subscription
    and [clearDatabase] leaves the entries of the log in place and as they
    are, and adds at most one entry after them. *)
Theorem audit_log_append_only (P : Platform) (op : Operation) (env : Env)
    (w : World SubscriptionRequests.SubscriptionRequest) :
  deletes_entries op = false ->
  exists new,
    auditLogs (db (exec op env w)) = auditLogs (db w) ++ new /\
    (List.length new <= 1)%nat.
Proof.
  intros Hop. pose proof (keeps_auditLogs op) as K.
  destruct op; try discriminate Hop;
    try (exists []; rewrite app_nil_r; split; [|cbn; lia];
         apply (keeps_mutation AuditLogs _ env w K)).
  - (* reveal *)
    destruct (exec_cases (credentials_reveal adminEmail subscriptionId action) env w)
      as [(w' & E & ->) | ->]; [|exists []; rewrite app_nil_r; split; [reflexivity|cbn; lia]].
    cbn [handler] in E. apply forget_ok in E as [res E].
    apply reveal_ok_inv in E
      as (admin & sub & credId & cred & key & _ & _ & _ & _ & _ & _ & E).
    rewrite E. simpl_world. eexists. split; [reflexivity|cbn; lia].
  - (* update *)
    destruct (exec_cases (credentials_update adminEmail id username password notes) env w)
      as [(w' & E & ->) | ->]; [|exists []; rewrite app_nil_r; split; [reflexivity|cbn; lia]].
    cbn [handler] in E. apply forget_ok in E as [res E].
    apply update_ok_inv in E as (entry & E & _).
    rewrite E. simpl_world. eexists. split; [reflexivity|cbn; lia].
Qed.

Lemma audit_log_append_only_witness :
  exists new,
    auditLogs
      (db (exec (P := Sample.platform)
             (credentials_reveal SampleData.admin_email 20 Credentials.reveal_viewed)
             SampleData.sample_env SampleVault.vault_world)) =
    auditLogs (db (@SampleVault.vault_world SubscriptionRequests.SubscriptionRequest))
      ++ new /\
    (List.length new <= 1)%nat.
Proof.
  apply (audit_log_append_only Sample.platform
           (credentials_reveal SampleData.admin_email 20 Credentials.reveal_viewed)
           SampleData.sample_env SampleVault.vault_world).
  reflexivity.
Defined.

(** C8 as stated fails: the removal of a subscription deletes the entries of
    the log that belong to it. *)
Lemma audit_log_entries_deleted :
  auditLogs (db (@SampleVault.vault_world SubscriptionRequests.SubscriptionRequest)) =
    [(22, SampleVault.viewed_entry)] /\
  auditLogs
    (db (exec (P := Sample.platform) (subscriptions_remove SampleData.admin_email 20)
           SampleData.sample_env SampleVault.vault_world)) = [] /\
  ~ (exists new,
       auditLogs
         (db (exec (P := Sample.platform) (subscriptions_remove SampleData.admin_email 20)
                SampleData.sample_env SampleVault.vault_world)) =
       auditLogs (db (@SampleVault.vault_world SubscriptionRequests.SubscriptionRequest))
         ++ new).
Proof.
  split; [reflexivity|]. split; [vm_compute; reflexivity|].
  intros [new H]. vm_compute in H. discriminate H.
Qed.

(** * Renewal dates *)

Ltac months m :=
  assert (m = 0 \/ m = 1 \/ m = 2 \/ m = 3 \/ m = 4 \/ m = 5 \/ m = 6 \/ m = 7 \/
          m = 8 \/ m = 9 \/ m = 10 \/ m = 11) as Hmonths by lia;
  repeat (destruct Hmonths as [Hmonths|Hmonths]); subst m.

Ltac month_starts :=
  repeat match goal with
  | |- context [month_start ?l ?m] =>
      let v := eval vm_compute in (month_start l m) in
      change (month_start l m) with v
  | H : context [month_start ?l ?m] |- _ =>
      let v := eval vm_compute in (month_start l m) in
      change (month_start l m) with v in H
  end.

Section CalendarFacts.
Import Calendar.

Lemma leap_cases y :
  (leap y = true /\ (y mod 4 = 0 /\ y mod 100 <> 0 \/ y mod 400 = 0)) \/
  (leap y = false /\ (y mod 4 <> 0 \/ y mod 100 = 0) /\ y mod 400 <> 0).
Proof.
  unfold leap.
  destruct (Z.eqb_spec (y mod 4) 0), (Z.eqb_spec (y mod 100) 0),
    (Z.eqb_spec (y mod 400) 0); cbn; lia.
Qed.

Lemma DayFromYear_succ y : DayFromYear (y + 1) = DayFromYear y + DaysInYear y.
Proof.
  unfold DaysInYear. destruct (leap_cases y) as [[-> H]|[-> H]];
    unfold DayFromYear; Z.div_mod_to_equations; lia.
Qed.

Lemma DaysInYear_pos y : 365 <= DaysInYear y <= 366.
Proof. unfold DaysInYear. destruct (leap y); lia. Qed.

Lemma DayFromYear_mono y y' : y <= y' -> DayFromYear y <= DayFromYear y'.
Proof.
  intros H. unfold DayFromYear. Z.div_mod_to_equations. lia.
Qed.

Lemma in_year_unique y y' day :
  in_year y day = true -> in_year y' day = true -> y = y'.
Proof.
  unfold in_year. intros H H'.
  apply andb_prop in H as [H1 H2]. apply andb_prop in H' as [H1' H2'].
  apply Z.leb_le in H1, H1'. apply Z.ltb_lt in H2, H2'.
  destruct (Z.lt_trichotomy y y') as [L|[E|L]]; [|exact E|].
  - pose proof (DayFromYear_mono (y + 1) y'). lia.
  - pose proof (DayFromYear_mono (y' + 1) y). lia.
Qed.

Lemma year_estimate y day :
  in_year y day = true ->
  y - 1 <= 1970 + (400 * day) / 146097 <= y + 1.
Proof.
  unfold in_year. intros H. apply andb_prop in H as [H1 H2].
  apply Z.leb_le in H1. apply Z.ltb_lt in H2.
  rewrite DayFromYear_succ in H2. pose proof (DaysInYear_pos y).
  unfold DayFromYear in *. Z.div_mod_to_equations. lia.
Qed.

Lemma YearFromDay_spec y day : in_year y day = true -> YearFromDay day = y.
Proof.
  intros H. pose proof (year_estimate y day H) as E. unfold YearFromDay.
  set (e := 1970 + 400 * day / 146097) in *. cbv zeta.
  destruct (in_year e day) eqn:He; [exact (in_year_unique _ _ _ He H)|].
  destruct (in_year (e - 1) day) eqn:He'; [exact (in_year_unique _ _ _ He' H)|].
  assert (y = e \/ y = e - 1 \/ y = e + 1) as [-> | [-> | ->]] by lia;
    congruence.
Qed.

Lemma in_year_YearFromDay day : in_year (YearFromDay day) day = true.
Proof.
  set (e := 1970 + 400 * day / 146097).
  assert (B : DayFromYear (e - 1) <= day < DayFromYear (e + 2)).
  { unfold e, DayFromYear. Z.div_mod_to_equations. lia. }
  assert (exists y, in_year y day = true) as [y Hy].
  { unfold in_year.
    destruct (Z_lt_le_dec day (DayFromYear e)) as [L|L].
    - exists (e - 1). replace (e - 1 + 1) with e by lia.
      apply andb_true_intro. split; [apply Z.leb_le|apply Z.ltb_lt]; lia.
    - destruct (Z_lt_le_dec day (DayFromYear (e + 1))) as [L'|L'].
      + exists e. apply andb_true_intro. split; [apply Z.leb_le|apply Z.ltb_lt]; lia.
      + exists (e + 1). replace (e + 1 + 1) with (e + 2) by lia.
        apply andb_true_intro. split; [apply Z.leb_le|apply Z.ltb_lt]; lia. }
  rewrite (YearFromDay_spec y day Hy). exact Hy.
Qed.

Lemma TimeWithinDay_range t : 0 <= TimeWithinDay t < msPerDay.
Proof. unfold TimeWithinDay, msPerDay. apply Z.mod_pos_bound. lia. Qed.

Lemma Day_MakeDate day tod : 0 <= tod < msPerDay -> Day (MakeDate day tod) = day.
Proof.
  unfold Day, MakeDate, msPerDay. intros H. Z.div_mod_to_equations. lia.
Qed.

Lemma TimeWithinDay_MakeDate day tod :
  0 <= tod < msPerDay -> TimeWithinDay (MakeDate day tod) = tod.
Proof.
  unfold TimeWithinDay, MakeDate, msPerDay. intros H. Z.div_mod_to_equations. lia.
Qed.

Lemma MakeDate_Day t : MakeDate (Day t) (TimeWithinDay t) = t.
Proof.
  unfold MakeDate, Day, TimeWithinDay, msPerDay. Z.div_mod_to_equations. lia.
Qed.

Lemma DayWithinYear_range t : 0 <= DayWithinYear t < DaysInYear (YearFromTime t).
Proof.
  unfold DayWithinYear, YearFromTime.
  pose proof (in_year_YearFromDay (Day t)) as H. unfold in_year in H.
  apply andb_prop in H as [H1 H2]. apply Z.leb_le in H1. apply Z.ltb_lt in H2.
  rewrite DayFromYear_succ in H2. lia.
Qed.

(** The month and the day of the month of a time value, and the day
    within the year they stand for. *)
Lemma month_date_spec t :
  let lp := if leap (YearFromTime t) then 1 else 0 in
  0 <= MonthFromTime t < 12 /\
  1 <= DateFromTime t <= days_in_month (YearFromTime t) (MonthFromTime t) /\
  DayWithinYear t = month_start lp (MonthFromTime t) + DateFromTime t - 1.
Proof.
  pose proof (DayWithinYear_range t) as R. unfold DaysInYear in R.
  unfold days_in_month, DateFromTime, MonthFromTime, InLeapYear. cbv zeta.
  destruct (leap (YearFromTime t));
    repeat match goal with
    | |- context [?a <? ?b] => destruct (Z.ltb_spec a b)
    end; cbv [month_start days_in_month]; lia.
Qed.

Lemma MakeDay_month y m d :
  0 <= m < 12 ->
  MakeDay y m d = DayFromYear y + month_start (if leap y then 1 else 0) m + d - 1.
Proof.
  intros H. unfold MakeDay. cbv zeta.
  rewrite (Z.div_small m 12), (Z.mod_small m 12), Z.add_0_r by lia. reflexivity.
Qed.

Lemma MakeDay_carry y m d : MakeDay y m d = MakeDay (y + m / 12) (m mod 12) d.
Proof.
  unfold MakeDay. cbv zeta.
  rewrite Z.mod_mod by lia.
  rewrite (Z.div_small (m mod 12) 12), Z.add_0_r by (apply Z.mod_pos_bound; lia).
  reflexivity.
Qed.

(** A day of a month that exists is the day that [MakeDay] makes. *)
Lemma on_day_MakeDay y m d t :
  0 <= m < 12 -> 1 <= d <= days_in_month y m ->
  Day t = MakeDay y m d -> on_day y m d t.
Proof.
  intros Hm Hd Ht. rewrite MakeDay_month in Ht by exact Hm.
  assert (Y : YearFromTime t = y).
  { unfold YearFromTime. apply YearFromDay_spec. unfold in_year.
    rewrite DayFromYear_succ, Ht. unfold DaysInYear.
    unfold days_in_month in Hd.
    apply andb_true_intro. split; [apply Z.leb_le|apply Z.ltb_lt];
      destruct (leap y); months m; cbv [month_start] in *; lia. }
  assert (W : DayWithinYear t = month_start (if leap y then 1 else 0) m + d - 1).
  { unfold DayWithinYear. rewrite Y, Ht. lia. }
  unfold on_day. split; [exact Y|].
  unfold DateFromTime, MonthFromTime, InLeapYear. rewrite Y, W.
  unfold days_in_month in Hd.
  destruct (leap y); months m; cbv [month_start] in *;
    repeat match goal with
    | |- context [?a <? ?b] => destruct (Z.ltb_spec a b); try lia
    end; cbv [month_start]; split; lia.
Qed.

(** [k] months after the day of [t], when the month reached has the day. *)
Lemma on_day_months_later t k t' :
  let y := YearFromTime t + (MonthFromTime t + k) / 12 in
  let m := (MonthFromTime t + k) mod 12 in
  DateFromTime t <= days_in_month y m ->
  Day t' = MakeDay (YearFromTime t) (MonthFromTime t + k) (DateFromTime t) ->
  on_day y m (DateFromTime t) t'.
Proof.
  intros y m Hd Ht. pose proof (month_date_spec t) as (_ & D & _).
  apply on_day_MakeDay.
  - apply Z.mod_pos_bound. lia.
  - lia.
  - rewrite Ht. apply MakeDay_carry.
Qed.

End CalendarFacts.

Section IsoFormat.

Lemma split_plain sep a b :
  Forall (fun c => c <> sep) a -> split sep (a ++ sep :: b) = a :: split sep b.
Proof.
  induction 1 as [|x a Hx _ IH]; cbn.
  - rewrite Z.eqb_refl. reflexivity.
  - destruct (Z.eqb_spec x sep); [contradiction|]. rewrite IH. reflexivity.
Qed.

Lemma uint_plain u :
  Forall (fun c => c <> 84) (lit (NilEmpty.string_of_uint u)).
Proof.
  induction u; cbn; constructor; try exact IHu; discriminate.
Qed.

Lemma decimal_plain n : Forall (fun c => c <> 84) (lit (decimal n)).
Proof.
  unfold decimal, NilZero.string_of_int, NilZero.string_of_uint.
  destruct (Z.to_int n) as [u|u].
  - destruct u; try apply uint_plain. cbn. constructor; [discriminate|constructor].
  - change (Forall (fun c => c <> 84)
              (45 :: lit match u with
                         | Decimal.Nil => "0"
                         | _ => NilEmpty.string_of_uint u
                         end)).
    constructor; [discriminate|].
    destruct u; try apply uint_plain. cbn. constructor; [discriminate|constructor].
Qed.

Lemma digits_plain w n : Forall (fun c => c <> 84) (digits w n).
Proof.
  unfold digits, padStart0. apply Forall_app. split; [|apply decimal_plain].
  apply Forall_forall. intros x Hx. apply repeat_spec in Hx. subst x. discriminate.
Qed.

Lemma iso_date_plain t : Forall (fun c => c <> 84) (iso_date t).
Proof.
  unfold iso_date, iso_year.
  repeat match goal with
  | |- context [if ?b then _ else _] => destruct b
  | |- Forall _ (_ ++ _) => apply Forall_app; split
  | |- Forall _ (digits _ _) => apply digits_plain
  | |- Forall _ (lit _) => cbn; repeat constructor; discriminate
  end.
Qed.

Lemma toISODate_Some t : toISODate (Some t) = Ok (iso_date t).
Proof.
  unfold toISODate, toISOString.
  change (lit "T" ++ iso_time t) with (84 :: iso_time t).
  rewrite split_plain by apply iso_date_plain. reflexivity.
Qed.

Lemma iso_date_Day t t' : Day t = Day t' -> iso_date t = iso_date t'.
Proof.
  intros H.
  unfold iso_date, DateFromTime, MonthFromTime, InLeapYear, DayWithinYear, YearFromTime.
  rewrite H. reflexivity.
Qed.

End IsoFormat.

Section RenewalDate.
Import SubscriptionRequests.
Import Calendar.

(** The [switch] on a billing cycle of the schema: the months of the
    cycle are added to the month of the date. *)
Lemma nextRenewalDate_cycle c now :
  nextRenewalDate (billingCycle_string c) now =
  TimeClip
    (MakeDate
       (MakeDay (YearFromTime now) (MonthFromTime now + period_months c)
          (DateFromTime now))
       (TimeWithinDay now)).
Proof.
  unfold nextRenewalDate.
  destruct c; cbn [billingCycle_string period_months];
    repeat match goal with
    | |- context [eqb (lit ?a) (lit ?b)] =>
        let v := eval vm_compute in (eqb (lit a) (lit b)) in
        change (eqb (lit a) (lit b)) with v
    end; cbv iota; try reflexivity.
  unfold setFullYear, getFullYear. f_equal. f_equal.
  pose proof (month_date_spec now) as (M & _ & _).
  rewrite (MakeDay_carry (YearFromTime now) (MonthFromTime now + 12)).
  replace ((MonthFromTime now + 12) / 12) with 1 by (Z.div_mod_to_equations; lia).
  replace ((MonthFromTime now + 12) mod 12) with (MonthFromTime now)
    by (Z.div_mod_to_equations; lia).
  reflexivity.
Qed.

(** The [default] of the [switch]. *)
Lemma nextRenewalDate_default s now :
  s <> lit "monthly" -> s <> lit "quarterly" -> s <> lit "half-yearly" ->
  s <> lit "yearly" ->
  nextRenewalDate s now = setMonth now (getMonth now + 1).
Proof.
  intros H1 H2 H3 H4. unfold nextRenewalDate.
  rewrite !eqb_neq by assumption. reflexivity.
Qed.

Lemma nextRenewalDate_monthly now :
  nextRenewalDate (lit "monthly") now = setMonth now (getMonth now + 1).
Proof.
  unfold nextRenewalDate.
  assert (E : eqb (lit "monthly") (lit "monthly") = true) by (vm_compute; reflexivity).
  rewrite E. reflexivity.
Qed.

(** The renewal date is between 28 and 367 days after the date. *)
Lemma MakeDay_months_later c t :
  Day t + 28 <=
    MakeDay (YearFromTime t) (MonthFromTime t + period_months c) (DateFromTime t)
    <= Day t + 367.
Proof.
  pose proof (month_date_spec t) as (M & D & W). cbv zeta in W.
  unfold DayWithinYear in W.
  rewrite MakeDay_carry.
  set (y := YearFromTime t) in *. set (m := MonthFromTime t) in *.
  set (d := DateFromTime t) in *. clearbody y m d.
  assert (C : (m + period_months c < 12 /\ (m + period_months c) / 12 = 0 /\
               (m + period_months c) mod 12 = m + period_months c) \/
              (12 <= m + period_months c /\ (m + period_months c) / 12 = 1 /\
               (m + period_months c) mod 12 = m + period_months c - 12)).
  { destruct c; cbn [period_months]; Z.div_mod_to_equations; lia. }
  assert (K : 1 <= period_months c <= 12) by (destruct c; cbn; lia).
  destruct C as [(C1 & -> & ->)|(C1 & -> & ->)].
  - rewrite Z.add_0_r, MakeDay_month by lia.
    clear D. destruct (leap y), c; cbn [period_months] in *; months m;
      month_starts; cbn in C1; lia.
  - rewrite MakeDay_month by lia.
    rewrite DayFromYear_succ. unfold DaysInYear. clear D.
    destruct (leap y), (leap (y + 1)), c; cbn [period_months] in *; months m;
      month_starts; cbn in C1; lia.
Qed.

Lemma MakeDate_later day now :
  MakeDate day (TimeWithinDay now) = now + (day - Day now) * msPerDay.
Proof.
  pose proof (MakeDate_Day now) as E.
  rewrite <- E at 2. unfold MakeDate. ring.
Qed.

Lemma not_clipped now x :
  Z.abs now + 368 * msPerDay <= 8640000000000000 ->
  0 <= x <= 367 ->
  Z.abs (now + x * msPerDay) <= 8640000000000000.
Proof.
  intros B X.
  pose proof (Z.abs_triangle now (x * msPerDay)) as A.
  rewrite (Z.abs_eq (x * msPerDay)) in A by (unfold msPerDay; lia).
  revert B A. generalize (Z.abs now), (Z.abs (now + x * msPerDay)).
  unfold msPerDay. intros. lia.
Qed.

Lemma nextRenewalDate_Some c now :
  Z.abs now + 368 * msPerDay <= 8640000000000000 ->
  exists t, nextRenewalDate (billingCycle_string c) now = Some t.
Proof.
  intros B. rewrite nextRenewalDate_cycle. unfold TimeClip.
  pose proof (MakeDay_months_later c now) as L.
  rewrite MakeDate_later.
  rewrite (proj2 (Z.leb_le _ _)); [eauto|].
  apply not_clipped; [exact B|lia].
Qed.

(** Every instant of 2026-01-15 gives 2026-02-15 for a monthly cycle. *)
Lemma monthly_from_jan15 now :
  day_of 2026 0 15 now ->
  toISODate (nextRenewalDate (lit "monthly") now) = Ok (lit "2026-02-15").
Proof.
  unfold day_of. intros H.
  assert (D : Day now = 20468).
  { assert (E : MakeDay 2026 0 15 = 20468) by (vm_compute; reflexivity).
    rewrite E in H. clear E. unfold Day, msPerDay in *.
    Z.div_mod_to_equations. lia. }
  change (lit "monthly") with (billingCycle_string monthly).
  rewrite nextRenewalDate_cycle. cbn [period_months].
  unfold DateFromTime, MonthFromTime, InLeapYear, DayWithinYear, YearFromTime.
  rewrite D.
  match goal with
  | |- context [MakeDay ?y ?m ?d] =>
      assert (E : MakeDay y m d = 20499) by (vm_compute; reflexivity);
      rewrite E; clear E
  end.
  pose proof (TimeWithinDay_range now) as R.
  unfold TimeClip.
  rewrite Z.abs_eq by (clear - R; unfold MakeDate, msPerDay in *; lia).
  rewrite (proj2 (Z.leb_le _ _)) by (clear - R; unfold MakeDate, msPerDay in *; lia).
  rewrite toISODate_Some.
  rewrite (iso_date_Day _ (MakeDate 20499 0))
    by (rewrite !Day_MakeDate by (unfold msPerDay in *; lia); reflexivity).
  vm_compute. reflexivity.
Qed.

End RenewalDate.

Section Approval.
Context {P : Platform}.
Import SubscriptionRequests Calendar.

(** The approval of a pending request goes through. *)
Lemma approve_pending_ok adminEmail id adminNotes env w admin r ref w1 :
  requireAdmin adminEmail env w = (Ok admin, w) ->
  lengthOr0 (sanitize_optional adminNotes) <= 1000 ->
  lookup (subscriptionRequests (db w)) id = Some r -> req_status r = pending ->
  generateReferenceNumber entity_subscription env w = (Ok ref, w1) ->
  Z.abs (env_clock env (S (ticks w))) + 368 * msPerDay <= 8640000000000000 ->
  exists n w', approve adminEmail id adminNotes env w = (Ok (id, n), w').
Proof.
  intros Ha Hn Hr Hs Hg Hc. unfold approve.
  rewrite (bind_ok _ _ _ _ _ _ Ha). cbv zeta.
  replace (1000 <? lengthOr0 (sanitize_optional adminNotes)) with false
    by (symmetry; apply Z.ltb_ge; exact Hn).
  rewrite andb_false_r.
  rewrite (bind_ok _ _ _ _ _ _ (db_get_eq SubscriptionRequests id env w)).
  cbn [t_get SubscriptionRequests]. rewrite Hr, Hs. cbn [is_pending negb].
  destruct (generateReferenceNumber_ok _ _ _ _ _ Hg) as (c & n & -> & _).
  rewrite (bind_ok _ _ _ _ _ _ Hg).
  rewrite (bind_ok _ _ _ _ _ _ (Date_now_eq env _)).
  cbn [ticks allocated].
  destruct (nextRenewalDate_Some (req_billingCycle r) _ Hc) as [t Ht].
  rewrite Ht, toISODate_Some.
  erewrite bind_ok by reflexivity.
  erewrite bind_ok by reflexivity.
  erewrite bind_ok by reflexivity.
  erewrite bind_ok by reflexivity.
  erewrite bind_ok
    by (eapply (db_patch_found SubscriptionRequests); cbn; exact Hr).
  unfold try_catch, scheduler_runAfter, console_error, bind, ret.
  destruct (env_scheduler_up env); eexists _, _; reflexivity.
Qed.

Lemma TimeClip_Some x t : TimeClip x = Some t -> t = x.
Proof.
  unfold TimeClip. destruct (Z.abs x <=? 8640000000000000); congruence.
Qed.

Lemma nextRenewalDate_on_day c now t :
  nextRenewalDate (billingCycle_string c) now = Some t ->
  let y := YearFromTime now + (MonthFromTime now + period_months c) / 12 in
  let m := (MonthFromTime now + period_months c) mod 12 in
  DateFromTime now <= days_in_month y m ->
  on_day y m (DateFromTime now) t /\ TimeWithinDay t = TimeWithinDay now.
Proof.
  intros H y m Hd. rewrite nextRenewalDate_cycle in H.
  apply TimeClip_Some in H. subst t.
  pose proof (TimeWithinDay_range now) as R. split.
  - apply on_day_months_later; [exact Hd|]. apply Day_MakeDate, R.
  - apply TimeWithinDay_MakeDate, R.
Qed.

Lemma approve_subscription adminEmail id adminNotes env w res w' :
  approve adminEmail id adminNotes env w = (Ok res, w') ->
  exists r ref t n,
    lookup (subscriptionRequests (db w)) id = Some r /\
    req_status r = pending /\
    nextRenewalDate (billingCycle_string (req_billingCycle r))
      (env_clock env (S (ticks w))) = Some t /\
    res = (id, n) /\
    subscriptions (db w') =
      subscriptions (db w) ++
      [(n, mkSubscription ref (req_name r) (req_description r) (req_provider r)
             (req_categoryId r) (req_cost r) (req_currencyId r) (req_billingCycle r)
             (iso_date t) other_method sub_active true (of_Z 7))].
Proof.
  intros H.
  apply approve_ok_inv in H
    as (admin & r & c & n & ref & date & reviewedAt &
        _ & Hr & Hs & _ & Hd & _ & Hres & Hsub & _).
  destruct (nextRenewalDate _ _) as [t|] eqn:Ht; [|discriminate Hd].
  rewrite toISODate_Some in Hd. injection Hd as <-.
  exists r, ref, t, n. auto.
Qed.

End Approval.


(** The pending request of the sample, approved on 2026-01-15. *)
Lemma approve_linear_request :
  mutation
    (SubscriptionRequests.approve (P := Sample.platform) SampleData.admin_email 5 None)
    SampleData.sample_env SampleRequests.requests_world =
  (Ok (5, 11),
   snd (SubscriptionRequests.approve (P := Sample.platform) SampleData.admin_email 5 None
          SampleData.sample_env SampleRequests.requests_world)) /\
  subscriptions
    (db (snd (SubscriptionRequests.approve (P := Sample.platform)
                SampleData.admin_email 5 None
                SampleData.sample_env SampleRequests.requests_world))) =
  [(11, mkSubscription (lit "SUB-2026-001") (lit "Linear")
          (lit "Issue tracking for the product team") (lit "Linear") 1 (of_Z 800) 2
          monthly (lit "2026-02-15") other_method sub_active true (of_Z 7))].
Proof. split; vm_compute; reflexivity. Qed.


(** A day that the month reached does not have runs over into the month
    after it: a monthly request approved on 2026-01-31 is renewed on
    2026-03-03. *)
Lemma monthly_from_jan31 :
  toISODate (SubscriptionRequests.nextRenewalDate (lit "monthly") 1769817600000) =
  Ok (lit "2026-03-03").
Proof. vm_compute. reflexivity. Qed.

(** * Reference numbers *)

Section Numbers.
Context {Req : Type}.

Lemma select_app {D} (p : D -> bool) (t : Table D) (x : Id * D) :
  select p (t ++ [x]) = select p t ++ (if p (snd x) then [x] else []).
Proof. unfold select. rewrite filter_app. reflexivity. Qed.

Lemma select_update_row {D} (p : D -> bool) (id : Id) (f : D -> D) (t : Table D) :
  (forall d, p (f d) = p d) ->
  select p (update_row id f t) = update_row id f (select p t).
Proof.
  intros Hf. unfold select, update_row.
  induction t as [|[i d] t IH]; cbn; [reflexivity|].
  destruct (i =? id) eqn:E; cbn; rewrite ?Hf; destruct (p d); cbn;
    rewrite ?E, IH; reflexivity.
Qed.

(** One allocation: the number after the value of the counter. *)
Lemma allocation_step (type : EntityType) env (w : World Req) :
  let Y := getFullYear (env_clock env (ticks w)) in
  one_counter (counterName type Y) (db w) ->
  exists w',
    generateReferenceNumber type env w =
      (Ok (formatReference type Y (counter_of type Y (db w) + 1)), w') /\
    counter_of type Y (db w') = counter_of type Y (db w) + 1 /\
    List.length (select (by_name (counterName type Y)) (counters (db w'))) = 1%nat /\
    ticks w' = S (ticks w).
Proof.
  intros Y H. unfold one_counter in H.
  pose proof (generateReferenceNumber_spec type env w) as S. cbv zeta in S. fold Y in S.
  unfold counter_of.
  destruct (select (by_name (counterName type Y)) (counters (db w)))
    as [|[id c] [|y rest]] eqn:E; [| |cbn in H; lia]; rewrite S;
    eexists; (split; [reflexivity|]); cbn [db allocated counters].
  - rewrite select_app, E. unfold by_name at 1 2. cbn [snd counter_name].
    rewrite eqb_refl. cbn. auto.
  - rewrite select_update_row by reflexivity. rewrite E.
    cbn. rewrite Z.eqb_refl. cbn. auto.
Qed.

Lemma allocate_all_spec (type : EntityType) (Y : Z) (envs : list Env) (w : World Req) :
  Forall (in_year_of Y) envs ->
  one_counter (counterName type Y) (db w) ->
  fst (allocate_all type envs w) =
    map (fun k => Ok (formatReference type Y (counter_of type Y (db w) + Z.of_nat k)))
      (seq 1 (List.length envs)) /\
  counter_of type Y (db (snd (allocate_all type envs w))) =
    counter_of type Y (db w) + Z.of_nat (List.length envs) /\
  one_counter (counterName type Y) (db (snd (allocate_all type envs w))).
Proof.
  intros Hy. revert w. induction Hy as [|env envs He _ IH]; intros w H.
  - cbn. split; [reflexivity|]. split; [lia|exact H].
  - pose proof (allocation_step type env w) as S. cbv zeta in S.
    rewrite (He (ticks w)) in S.
    destruct (S H) as (w1 & E & Hc & Hl & _).
    assert (H1 : one_counter (counterName type Y) (db w1))
      by (unfold one_counter; rewrite Hl; lia).
    destruct (IH w1 H1) as (IH1 & IH2 & IH3).
    cbn [allocate_all]. rewrite E.
    destruct (allocate_all type envs w1) as [rs w2]. cbn [fst snd] in *.
    split; [|split; [|exact IH3]].
    + cbn [List.length seq map]. change (Z.of_nat 1) with 1. f_equal.
      rewrite IH1, <- (seq_shift (List.length envs) 1), map_map. apply map_ext. intros k.
      do 2 f_equal. rewrite Hc. lia.
    + rewrite IH2, Hc. cbn [List.length]. lia.
Qed.

Lemma lit_app (a b : string) : lit (a ++ b) = lit a ++ lit b.
Proof.
  unfold lit. induction a as [|c a IH]; cbn; [reflexivity|].
  f_equal. exact IH.
Qed.

Lemma formatReference_parts (type : EntityType) (Y n : Z) :
  formatReference type Y n =
    lit (prefix type) ++ lit "-" ++ lit (decimal Y) ++ lit "-" ++
    padStart0 3 (lit (decimal n)).
Proof.
  unfold formatReference. rewrite !lit_app, <- !app_assoc. reflexivity.
Qed.

Lemma padStart0_spec (width : nat) (s : jsstring) :
  padStart0 width s = repeat 48 (width - List.length s) ++ s /\
  List.length (padStart0 width s) = Nat.max width (List.length s).
Proof.
  unfold padStart0. split; [reflexivity|].
  rewrite length_app, repeat_length. lia.
Qed.

End Numbers.



(** * A submission that throws *)

(** Inversion of a run that threw, along the binds of the handler: one
    goal for each place where it can throw. *)
Ltac inv_throw H :=
  repeat
    (lazymatch type of H with
     | bind _ _ _ _ = (Throw _, _) =>
         let E := fresh "E" in
         apply bind_inv in H as [(? & ? & E & H)|(? & H & ?)];
         [lazymatch type of E with
          | (match ?x with _ => _ end) _ _ = _ => destruct x eqn:?; inv_eq E
          | _ => inv_eq E
          end|]
     | (if ?c then _ else _) _ _ = _ => destruct c eqn:?
     | (match ?x with _ => _ end) _ _ = _ => destruct x eqn:?
     end).

Section Throws.
Context {Req : Type}.

Lemma db_unique_found {D} (T : TableRef Req D) p env (w : World Req) id d w1 :
  db_unique T p env w = (Ok (Some (id, d)), w1) ->
  lookup (t_get T (db w)) id <> None.
Proof.
  intros H. apply db_unique_inv in H as [_ H].
  destruct (select p (t_get T (db w))) as [|[i x] [|y rest]] eqn:S; try discriminate H.
  injection H as <- <-.
  destruct (select_single_lookup _ _ _ _ _ S) as [d' ->]. discriminate.
Qed.

Lemma updateCounter_returns limit key now windowStart env (w : World Req) e w' :
  (forall id r, limit = Some (id, r) -> lookup (rateLimits (db w)) id <> None) ->
  updateCounter limit key now windowStart env w <> (Throw e, w').
Proof.
  intros H. rewrite (updateCounter_ok _ _ _ _ _ _ H). discriminate.
Qed.

Lemma db_insert_returns {D} (T : TableRef Req D) doc env (w : World Req) e w' :
  db_insert T doc env w <> (Throw e, w').
Proof. unfold db_insert. discriminate. Qed.

Lemma notify_returns (job : Job) (line : string) env (w : World Req) e w' :
  try_catch (scheduler_runAfter job) (fun _ => console_error line) env w <> (Throw e, w').
Proof.
  intros H. apply notify_inv in H as [H _]. discriminate H.
Qed.

Lemma same_store_tick (w : World Req) n :
  same_store w (mkWorld (db w) (scheduled w) (console w) n (draws w)).
Proof. repeat split. Qed.

End Throws.

(** After a successful allocation and the updates of the counters so
    far, a rate-limit record that was found is still there. *)
Ltac still_found :=
  repeat match goal with
  | E : generateReferenceNumber _ _ _ = (Ok _, _) |- _ =>
      apply generateReferenceNumber_ok in E as (? & ? & -> & _)
  | E : updateCounter _ _ _ _ _ _ = (Ok _, _) |- _ =>
      apply updateCounter_inv in E as ->
  | E : ret _ _ _ = (Ok _, _) |- _ => unfold ret in E; injection E as _ <-
  end;
  cbn [db rateLimits limited allocated nextId];
  repeat apply updatedLimits_lookup;
  match goal with
  | E : db_unique RateLimits _ _ _ = (Ok (Some (?id, _)), _) |- lookup _ ?id <> None =>
      apply db_unique_found in E; exact E
  end.

Ltac no_throw H :=
  first
    [ solve [unfold throwError, throw, lift in H; injection H as _ <-; repeat split]
    | discriminate H
    | exfalso; exact (notify_returns _ _ _ _ _ _ H)
    | exfalso; exact (db_insert_returns _ _ _ _ _ _ H)
    | exfalso; revert H; apply updateCounter_returns;
      let Hl := fresh "Hl" in
      intros ? ? Hl; first [discriminate Hl|subst; still_found]
    | apply generateReferenceNumber_safe in H;
      eapply same_store_trans; [apply same_store_tick|exact H]
    | apply (pure_inv _ _ _ _ _ (pure_db_unique _ _)) in H; subst; repeat split ].

Section Submit.
Context {P : Platform}.

Lemma submit_safe args : safe (SubscriptionRequests.submit args).
Proof.
  intros env w e w' H. unfold SubscriptionRequests.submit in H.
  inv_throw H; no_throw H.
Qed.

Lemma submit_optional_safe args : safe (SubscriptionRequestsOptional.submit args).
Proof.
  intros env w e w' H. unfold SubscriptionRequestsOptional.submit in H.
  inv_throw H; no_throw H.
Qed.

End Submit.



(** * The bulk import *)

Section Bulk.
Context {P : Platform} {Req : Type}.
Import Subscriptions.

Lemma common_fields_ok name description provider dmin dmax common :
  validateAndSanitizeCommonFields name description provider dmin dmax = Ok common ->
  common = mkCommon (sanitizeString name) (sanitizeString description)
             (sanitize_optional provider).
Proof.
  unfold validateAndSanitizeCommonFields. cbv zeta.
  destruct (validateStringLength _ "Subscription name" 1 200); [|discriminate].
  destruct (if 0 <? dmin then _ else _); [|discriminate].
  destruct (if truthy _ then _ else _); [|discriminate].
  intros H. injection H as <-. reflexivity.
Qed.

(** An allocation on a store without two counters of one name. *)
Lemma allocation_unique (type : EntityType) env (w : World Req) :
  counters_unique (db w) ->
  exists ref c n,
    generateReferenceNumber type env w = (Ok ref, allocated c n w) /\
    (forall name, (List.length (select (by_name name) c) <= 1)%nat).
Proof.
  intros U.
  pose proof (generateReferenceNumber_spec type env w) as S. cbv zeta in S.
  set (name := counterName type (getFullYear (env_clock env (ticks w)))) in *.
  pose proof (U name) as Un. unfold one_counter in Un.
  destruct (select (by_name name) (counters (db w))) as [|[id c] [|y rest]] eqn:E;
    [| |cbn in Un; lia]; rewrite S; do 3 eexists; (split; [reflexivity|]);
    intros name'.
  - rewrite select_app, length_app. cbn [snd]. unfold by_name at 2.
    cbn [counter_name]. pose proof (U name') as Un'. unfold one_counter in Un'.
    destruct (eqb name name') eqn:N; cbn [List.length]; [|lia].
    apply eqb_eq in N. subst name'. rewrite E. cbn. lia.
  - rewrite select_update_row by reflexivity. unfold update_row.
    rewrite length_map. apply U.
Qed.

Ltac row_failed :=
  cbv beta iota; unfold throwError, throw, ret; cbv beta iota;
  eexists _, _; split; [reflexivity|];
  split; [cbn; repeat split; discriminate|];
  split; [assumption|];
  split; [reflexivity|]; split; [reflexivity|]; split; [reflexivity|];
  split; [reflexivity|];
  exists []; split; [symmetry; apply app_nil_r|constructor].

(** One row of the import. *)
Lemma bulkCreate_row_spec cats curs i sub env (w : World Req) :
  counters_unique (db w) ->
  exists r w',
    bulkCreate_row cats curs i sub env w = (Ok r, w') /\
    result_of (row_ok cats curs sub) i r /\
    counters_unique (db w') /\
    categories (db w') = categories (db w) /\
    currencies (db w') = currencies (db w) /\
    scheduled w' = scheduled w /\ console w' = console w /\
    exists new,
      subscriptions (db w') = subscriptions (db w) ++ new /\
      rows_of (if row_ok cats curs sub then [sub] else []) new.
Proof.
  intros U. unfold bulkCreate_row, row_ok, try_catch, bind, lift.
  destruct (validateAndSanitizeCommonFields _ _ _ _ _) as [common|e] eqn:V1;
    cbn [passes andb]; [|row_failed].
  destruct (validateCost _) as [u|e]; cbn [passes andb]; [|row_failed].
  destruct (validateDateString _); cbn [negb andb]; [|row_failed].
  unfold ret at 1. cbv beta iota.
  destruct (validateNotificationDays _) as [u'|e]; cbn [passes andb]; [|row_failed].
  destruct (has cats _); cbn [negb andb]; [|row_failed].
  unfold ret at 1. cbv beta iota.
  destruct (has curs _); cbn [negb andb]; [|row_failed].
  unfold ret at 1. cbv beta iota.
  destruct (allocation_unique entity_subscription env w U) as (ref & c & n & G & Uc).
  rewrite G. unfold db_insert, ret. cbv beta iota zeta.
  eexists _, _. split; [reflexivity|].
  split; [cbn; repeat split; discriminate|].
  split; [exact Uc|].
  split; [reflexivity|]. split; [reflexivity|]. split; [reflexivity|].
  split; [reflexivity|].
  eexists. split; [reflexivity|].
  constructor; [|constructor]. cbn [snd sub_referenceNumber].
  rewrite (common_fields_ok _ _ _ _ _ _ V1). reflexivity.
Qed.

(** A row has a result, whatever happens to it. *)
Lemma bulkCreate_row_total cats curs i sub env (w : World Req) :
  exists r w', bulkCreate_row cats curs i sub env w = (Ok r, w') /\ r_index r = i.
Proof.
  unfold bulkCreate_row, try_catch.
  match goal with
  | |- context [match ?m env w with _ => _ end] => destruct (m env w) as [[r|e] w1] eqn:E
  end.
  - exists r, w1. split; [reflexivity|]. inv_run E. reflexivity.
  - unfold ret. eexists _, _. split; reflexivity.
Qed.

Lemma bulkCreate_loop_total cats curs subs :
  forall i acc env (w : World Req),
  exists rs w',
    bulkCreate_loop cats curs i subs acc env w = (Ok (acc ++ rs), w') /\
    map r_index rs = map fst (indexed i subs).
Proof.
  induction subs as [|sub subs IH]; intros i acc env w; cbn [bulkCreate_loop indexed].
  - exists [], w. rewrite app_nil_r. split; reflexivity.
  - destruct (bulkCreate_row_total cats curs i sub env w) as (r & w1 & E & Hi).
    rewrite (bind_ok _ _ _ _ _ _ E).
    destruct (IH (i + 1) (acc ++ [r]) env w1) as (rs & w2 & E2 & Hrs).
    exists (r :: rs), w2. rewrite E2, <- app_assoc. split; [reflexivity|].
    cbn [map fst]. now rewrite Hi, Hrs.
Qed.

Lemma bulkCreate_loop_spec cats curs ok subs :
  (forall sub, In sub subs -> row_ok cats curs sub = ok sub) ->
  forall i acc env (w : World Req),
  counters_unique (db w) ->
  exists rs w',
    bulkCreate_loop cats curs i subs acc env w = (Ok (acc ++ rs), w') /\
    results_of ok i subs rs /\
    counters_unique (db w') /\
    categories (db w') = categories (db w) /\
    currencies (db w') = currencies (db w) /\
    scheduled w' = scheduled w /\ console w' = console w /\
    exists new,
      subscriptions (db w') = subscriptions (db w) ++ new /\
      rows_of (filter ok subs) new.
Proof.
  unfold results_of.
  induction subs as [|sub subs IH]; intros Hok i acc env w U;
    cbn [bulkCreate_loop indexed filter].
  - exists [], w. rewrite app_nil_r. split; [reflexivity|].
    split; [constructor|]. split; [exact U|]. do 4 (split; [reflexivity|]).
    exists []. split; [symmetry; apply app_nil_r|constructor].
  - destruct (bulkCreate_row_spec cats curs i sub env w U)
      as (r & w1 & E & Hr & U1 & Hc1 & Hu1 & Hs1 & Ho1 & new1 & Hn1 & Hrows1).
    rewrite (Hok sub (or_introl eq_refl)) in Hr, Hrows1.
    rewrite (bind_ok _ _ _ _ _ _ E).
    destruct (IH (fun s H => Hok s (or_intror H)) (i + 1) (acc ++ [r]) env w1 U1)
      as (rs & w2 & E2 & Hrs & U2 & Hc2 & Hu2 & Hs2 & Ho2 & new2 & Hn2 & Hrows2).
    exists (r :: rs), w2. rewrite E2, <- app_assoc. split; [reflexivity|].
    split; [constructor; [exact Hr|exact Hrs]|].
    split; [exact U2|].
    split; [congruence|]. split; [congruence|]. split; [congruence|].
    split; [congruence|].
    exists (new1 ++ new2). split; [rewrite Hn2, Hn1, app_assoc; reflexivity|].
    unfold rows_of in *. destruct (ok sub).
    + inversion Hrows1 as [|? x ? l Hx Hl]; subst. inversion Hl; subst.
      cbn [app]. constructor; assumption.
    + inversion Hrows1; subst. exact Hrows2.
Qed.

Lemma has_valid (f : Id -> bool) (ids : list Id) (id : Id) :
  In id ids -> has (filter f (distinct ids)) id = f id.
Proof.
  intros Hin. unfold has, distinct. destruct (f id) eqn:F.
  - apply existsb_exists. exists id. split; [|apply Z.eqb_refl].
    apply filter_In. split; [apply nodup_In; exact Hin|exact F].
  - destruct (existsb _ _) eqn:X; [|reflexivity].
    apply existsb_exists in X as (x & Hx & Ex). apply Z.eqb_eq in Ex. subst x.
    apply filter_In in Hx as [_ Hx]. congruence.
Qed.

Lemma row_ok_valid (d : Db Req) (subs : list Args) (sub : Args) :
  In sub subs ->
  row_ok
    (filter (fun id => match lookup (categories d) id with
                       | Some _ => true | None => false end)
       (distinct (map a_categoryId subs)))
    (filter (fun id => match lookup (currencies d) id with
                       | Some c => cur_isActive c | None => false end)
       (distinct (map a_currencyId subs)))
    sub = row_valid d sub.
Proof.
  intros Hin. unfold row_ok, row_valid.
  rewrite (has_valid _ (map a_categoryId subs)) by (apply in_map; exact Hin).
  rewrite (has_valid _ (map a_currencyId subs)) by (apply in_map; exact Hin).
  reflexivity.
Qed.

Lemma count_split (p : RowResult -> bool) (rs : list RowResult) :
  count p rs + count (fun r => negb (p r)) rs = Z.of_nat (List.length rs).
Proof. unfold count. rewrite <- (filter_length p rs). lia. Qed.

Lemma results_of_succeeded ok i subs rs :
  results_of ok i subs rs -> count r_success rs = Z.of_nat (List.length (filter ok subs)).
Proof.
  unfold results_of, count. revert i rs.
  induction subs as [|sub subs IH]; intros i rs H; cbn [indexed] in H;
    inversion H as [|p r ps rs' Hr Hrs]; subst; [reflexivity|].
  cbn [filter]. destruct Hr as (_ & -> & _). cbn [snd].
  specialize (IH _ _ Hrs). destruct (ok sub); cbn [List.length]; lia.
Qed.

Lemma results_of_length ok i subs rs :
  results_of ok i subs rs -> List.length rs = List.length subs.
Proof.
  unfold results_of. revert i rs.
  induction subs as [|sub subs IH]; intros i rs H; cbn [indexed] in H;
    inversion H; subst; [reflexivity|].
  cbn [List.length]. f_equal. eapply IH. eassumption.
Qed.

Lemma bulkCreate_too_many adminEmail subs env (w : World Req) :
  100 < Z.of_nat (List.length subs) ->
  exists e,
    bulkCreate adminEmail subs env w = (Throw e, w) /\
    (forall admin, requireAdmin adminEmail env w = (Ok admin, w) ->
       e = JsError "Maximum 100 subscriptions per bulk import").
Proof.
  intros H. unfold bulkCreate.
  destruct (requireAdmin (Req := Req) adminEmail env w) as [[admin|e] w1] eqn:E;
    pose proof (pure_inv _ _ _ _ _ (pure_requireAdmin adminEmail) E) as ->.
  - rewrite (bind_ok _ _ _ _ _ _ E).
    apply Z.ltb_lt in H. rewrite H. eexists. split; [reflexivity|]. reflexivity.
  - rewrite (bind_throw _ _ _ _ _ _ E). eexists. split; [reflexivity|].
    intros admin H'. discriminate H'.
Qed.

Lemma bulkCreate_summary adminEmail subs env (w : World Req) admin :
  Z.of_nat (List.length subs) <= 100 ->
  requireAdmin adminEmail env w = (Ok admin, w) ->
  exists summary w',
    bulkCreate adminEmail subs env w = (Ok summary, w') /\
    total summary = Z.of_nat (List.length subs) /\
    succeeded summary + failed summary = total summary /\
    List.length (results summary) = List.length subs /\
    map r_index (results summary) = map fst (indexed 0 subs).
Proof.
  intros H Ha. unfold bulkCreate.
  rewrite (bind_ok _ _ _ _ _ _ Ha).
  apply Z.ltb_ge in H. rewrite H.
  erewrite bind_ok by reflexivity. cbv zeta.
  match goal with
  | |- context [bulkCreate_loop ?cats ?curs 0 subs []] =>
      destruct (bulkCreate_loop_total cats curs subs 0 [] env w) as (rs & w' & E & Hi)
  end.
  cbn [app] in E. rewrite (bind_ok _ _ _ _ _ _ E). unfold ret.
  eexists _, _. split; [reflexivity|]. cbn [total succeeded failed results].
  assert (L : List.length rs = List.length subs).
  { rewrite <- (length_map r_index), Hi, length_map.
    clear. generalize 0. induction subs; intros z; cbn; [reflexivity|].
    f_equal. apply IHsubs. }
  split; [reflexivity|]. split; [rewrite count_split, L; reflexivity|].
  split; [exact L|exact Hi].
Qed.

Lemma bulkCreate_valid_rows adminEmail subs env (w : World Req) admin :
  Z.of_nat (List.length subs) <= 100 ->
  requireAdmin adminEmail env w = (Ok admin, w) ->
  counters_unique (db w) ->
  exists summary w',
    bulkCreate adminEmail subs env w = (Ok summary, w') /\
    results_of (row_valid (db w)) 0 subs (results summary) /\
    succeeded summary = Z.of_nat (List.length (filter (row_valid (db w)) subs)) /\
    exists new,
      subscriptions (db w') = subscriptions (db w) ++ new /\
      rows_of (filter (row_valid (db w)) subs) new.
Proof.
  intros H Ha U. unfold bulkCreate.
  rewrite (bind_ok _ _ _ _ _ _ Ha).
  apply Z.ltb_ge in H. rewrite H.
  erewrite bind_ok by reflexivity. cbv zeta.
  match goal with
  | |- context [bulkCreate_loop ?cats ?curs 0 subs []] =>
      destruct (bulkCreate_loop_spec cats curs (row_valid (db w)) subs
                  (row_ok_valid (db w) subs) 0 [] env w U)
        as (rs & w' & E & Hrs & _ & _ & _ & _ & _ & new & Hn & Hrows)
  end.
  cbn [app] in E. rewrite (bind_ok _ _ _ _ _ _ E). unfold ret.
  eexists _, _. split; [reflexivity|]. cbn [total succeeded failed results].
  split; [exact Hrs|]. split; [exact (results_of_succeeded _ _ _ _ Hrs)|].
  exists new. split; assumption.
Qed.

End Bulk.

(** C9: a bulk import of more than 100 rows throws and writes nothing.
    An import of at most 100 rows by an administrator returns a summary:
    [total] is the number of rows, [succeeded + failed = total], and there
    is one result for each row, in order, with the index of the row.  When
    no two counters have the same name, the rows that succeed are those
    that pass the validation on the store at the start of the call, each
    of them is inserted, in order, whatever the other rows are, and a row
    that does not pass has a result with an error and no reference
    number. *)
Theorem bulkCreate_rows (P : Platform) (Req : Type) (adminEmail : jsstring)
    (subs : list Subscriptions.Args) (env : Env) (w : World Req) :
  (100 < Z.of_nat (List.length subs) ->
   exists e,
     Subscriptions.bulkCreate adminEmail subs env w = (Throw e, w) /\
     (forall admin, requireAdmin adminEmail env w = (Ok admin, w) ->
        e = JsError "Maximum 100 subscriptions per bulk import")) /\
  (Z.of_nat (List.length subs) <= 100 ->
   forall admin,
   requireAdmin adminEmail env w = (Ok admin, w) ->
   exists summary w',
     Subscriptions.bulkCreate adminEmail subs env w = (Ok summary, w') /\
     Subscriptions.total summary = Z.of_nat (List.length subs) /\
     Subscriptions.succeeded summary + Subscriptions.failed summary =
       Subscriptions.total summary /\
     List.length (Subscriptions.results summary) = List.length subs /\
     map Subscriptions.r_index (Subscriptions.results summary) =
       map fst (indexed 0 subs)) /\
  (Z.of_nat (List.length subs) <= 100 ->
   forall admin,
   requireAdmin adminEmail env w = (Ok admin, w) ->
   counters_unique (db w) ->
   exists summary w',
     Subscriptions.bulkCreate adminEmail subs env w = (Ok summary, w') /\
     results_of (row_valid (db w)) 0 subs (Subscriptions.results summary) /\
     Subscriptions.succeeded summary =
       Z.of_nat (List.length (filter (row_valid (db w)) subs)) /\
     exists new,
       subscriptions (db w') = subscriptions (db w) ++ new /\
       rows_of (filter (row_valid (db w)) subs) new).
Proof.
  split; [|split].
  - apply bulkCreate_too_many.
  - intros H admin Ha. exact (bulkCreate_summary _ _ _ _ admin H Ha).
  - intros H admin Ha U. exact (bulkCreate_valid_rows _ _ _ _ admin H Ha U).
Qed.

(** The import of the sample: the second row fails, the first and the
    third are inserted. *)
Lemma bulkCreate_sample_rows :
  exists w',
    Subscriptions.bulkCreate (P := Sample.platform) SampleData.admin_email
      SampleImport.rows SampleData.sample_env (@SampleData.sample_world unit) =
    (Ok (Subscriptions.mkSummary 3 2 1
           [Subscriptions.mkRowResult 0 true (Some (lit "SUB-2026-001")) None;
            Subscriptions.mkRowResult 1 false None (Some "Invalid category"%string);
            Subscriptions.mkRowResult 2 true (Some (lit "SUB-2026-002")) None]),
     w') /\
    map (fun x => sub_referenceNumber (snd x)) (subscriptions (db w')) =
      [lit "SUB-2026-001"; lit "SUB-2026-002"].
Proof. eexists. split; vm_compute; reflexivity. Qed.

Lemma bulkCreate_rows_witness :
  exists summary w',
    Subscriptions.bulkCreate (P := Sample.platform) SampleData.admin_email
      SampleImport.rows SampleData.sample_env (@SampleData.sample_world unit) =
      (Ok summary, w') /\
    results_of (row_valid (P := Sample.platform) (db (@SampleData.sample_world unit))) 0
      SampleImport.rows (Subscriptions.results summary) /\
    Subscriptions.succeeded summary =
      Z.of_nat
        (List.length
           (filter (row_valid (P := Sample.platform) (db (@SampleData.sample_world unit)))
              SampleImport.rows)) /\
    exists new,
      subscriptions (db w') = subscriptions (db (@SampleData.sample_world unit)) ++ new /\
      rows_of
        (filter (row_valid (P := Sample.platform) (db (@SampleData.sample_world unit)))
           SampleImport.rows) new.
Proof.
  apply (proj2 (proj2 (bulkCreate_rows Sample.platform unit SampleData.admin_email
                         SampleImport.rows SampleData.sample_env
                         SampleData.sample_world))
           ltac:(vm_compute; discriminate)
           (mkAdminUser 3 (lit "admin@company.com") (lit "Admin User") (lit "admin"))).
  - vm_compute. reflexivity.
  - intros name. unfold one_counter. cbn. lia.
Defined.

(** * The rate limiter *)

Section LimitTable.
Import Limiter.

Lemma select_cons {D} (p : D -> bool) (x : Id * D) (t : Table D) :
  select p (x :: t) = if p (snd x) then x :: select p t else select p t.
Proof. reflexivity. Qed.

Lemma fst_update_row {D} (id : Id) (f : D -> D) (t : Table D) :
  map fst (update_row id f t) = map fst t.
Proof.
  unfold update_row. rewrite map_map. apply map_ext. intros [i d]. cbn.
  destruct (i =? id); reflexivity.
Qed.

Lemma NoDup_row {D} (t : Table D) (id : Id) (d d' : D) :
  NoDup (map fst t) -> In (id, d) t -> In (id, d') t -> d = d'.
Proof.
  induction t as [|[i x] t IH]; cbn; intros N H H'; [contradiction|].
  apply NoDup_cons_iff in N as [N1 N2].
  destruct H as [H|H], H' as [H'|H'].
  - congruence.
  - injection H as -> ->. exfalso. apply N1.
    change id with (fst (id, d')). apply in_map. exact H'.
  - injection H' as -> ->. exfalso. apply N1.
    change id with (fst (id, d)). apply in_map. exact H.
  - exact (IH N2 H H').
Qed.

(** The records of another key are not touched by the update of a record. *)
Lemma select_update_other (key key' : jsstring) (id : Id) (r : RateLimit)
    (f : RateLimit -> RateLimit) (rl : Table RateLimit) :
  NoDup (map fst rl) -> In (id, r) rl -> rl_key r = key -> key' <> key ->
  (forall l, rl_key (f l) = rl_key l) ->
  select (by_key key') (update_row id f rl) = select (by_key key') rl.
Proof.
  intros N Hin Hk Hne Hf.
  assert (H : forall x, In x rl ->
            (if fst x =? id then (fst x, f (snd x)) else x) = x \/
            (by_key key' (snd x) = false /\
             by_key key' (f (snd x)) = false)).
  { intros [i d] Hx. cbn [fst snd]. destruct (Z.eqb_spec i id) as [->|]; [right|now left].
    rewrite (NoDup_row rl id d r N Hx Hin). unfold by_key. rewrite Hf, Hk.
    split; apply eqb_neq; congruence. }
  clear N Hin. unfold select, update_row.
  induction rl as [|x rl IH]; [reflexivity|]. cbn [map filter].
  rewrite IH by (intros y Hy; apply H; now right).
  destruct (H x (or_introl eq_refl)) as [E|[E1 E2]].
  - rewrite E. reflexivity.
  - destruct (fst x =? id); cbn [snd]; rewrite ?E1, ?E2; reflexivity.
Qed.

Lemma record_of_single key id r rl :
  select (by_key key) rl = [(id, r)] ->
  record_of key rl = Some (rl_windowStart r, rl_count r).
Proof. unfold record_of. now intros ->. Qed.

Lemma select_key key rl x :
  In x (select (by_key key) rl) -> In x rl /\ rl_key (snd x) = key.
Proof.
  intros H. apply select_in in H as [H1 H2]. split; [exact H1|].
  unfold by_key in H2. now apply eqb_eq in H2.
Qed.

Lemma table_ok_mono n n' rl : n <= n' -> table_ok n rl -> table_ok n' rl.
Proof.
  intros H (N & F & K). split; [exact N|]. split; [|exact K].
  eapply Forall_impl; [|exact F]. cbn. intros x Hx. lia.
Qed.

Lemma hd_select_cases key rl (limit : option (Id * RateLimit)) :
  (forall k, (List.length (select (by_key k) rl) <= 1)%nat) ->
  limit = hd_error (select (by_key key) rl) ->
  (limit = None /\ select (by_key key) rl = []) \/
  (exists id r, limit = Some (id, r) /\ select (by_key key) rl = [(id, r)] /\
                In (id, r) rl /\ rl_key r = key).
Proof.
  intros K ->. specialize (K key).
  destruct (select (by_key key) rl) as [|[id r] [|y rest]] eqn:S; [now left| |cbn in K; lia].
  right. exists id, r. split; [reflexivity|]. split; [reflexivity|].
  apply (select_key key rl (id, r)). rewrite S. now left.
Qed.

(** The record of the key after the update of its counter. *)
Lemma updatedLimits_record key now n n0 rl limit :
  table_ok n0 rl ->
  limit = hd_error (select (by_key key) rl) ->
  record_of key (updatedLimits limit key now (now - RATE_LIMIT_WINDOW_MS) n rl) =
  Some (record_after now (record_of key rl)).
Proof.
  intros (N & F & K) Hl.
  destruct (hd_select_cases key rl limit K Hl) as [[-> S]|(id & r & -> & S & Hin & Hk)];
    unfold updatedLimits, record_of at 2; rewrite S; cbn [record_after].
  - unfold record_of. rewrite select_app, S. cbn [snd]. unfold by_key at 1.
    cbn [rl_key]. rewrite eqb_refl. reflexivity.
  - destruct (now - RATE_LIMIT_WINDOW_MS <? rl_windowStart r);
      unfold record_of; rewrite select_update_row by reflexivity; rewrite S;
      cbn; rewrite Z.eqb_refl; reflexivity.
Qed.

(** The records of the other keys after the update of a counter. *)
Lemma updatedLimits_other key key' now ws n n0 rl limit :
  table_ok n0 rl ->
  limit = hd_error (select (by_key key) rl) ->
  key' <> key ->
  select (by_key key') (updatedLimits limit key now ws n rl) = select (by_key key') rl.
Proof.
  intros (N & F & K) Hl Hne.
  destruct (hd_select_cases key rl limit K Hl) as [[-> S]|(id & r & -> & S & Hin & Hk)];
    unfold updatedLimits.
  - rewrite select_app. cbn [snd]. unfold by_key at 2. cbn [rl_key].
    rewrite eqb_neq by congruence. apply app_nil_r.
  - destruct (ws <? rl_windowStart r);
      apply (select_update_other key key' id r); auto.
Qed.

Lemma updatedLimits_ok key now ws n rl limit :
  table_ok n rl ->
  limit = hd_error (select (by_key key) rl) ->
  table_ok (nextIdAfter limit n) (updatedLimits limit key now ws n rl).
Proof.
  intros (N & F & K) Hl.
  destruct (hd_select_cases key rl limit K Hl) as [[-> S]|(id & r & -> & S & Hin & Hk)];
    unfold updatedLimits, nextIdAfter.
  - split; [|split].
    + rewrite map_app. cbn [map fst]. apply NoDup_app.
      * exact N.
      * constructor; [intros []|constructor].
      * intros i Hi [<-|[]]. apply in_map_iff in Hi as (x & Hx & Hin).
        rewrite Forall_forall in F. specialize (F x Hin). lia.
    + apply Forall_app. split.
      * eapply Forall_impl; [|exact F]. cbn. intros x Hx. lia.
      * constructor; [cbn; lia|constructor].
    + intros k. rewrite select_app, length_app. cbn [snd]. unfold by_key at 2.
      cbn [rl_key]. destruct (eqb key k) eqn:E; cbn [List.length].
      * apply eqb_eq in E. subst k. rewrite S. cbn. lia.
      * specialize (K k). lia.
  - assert (G : forall f, (forall l, rl_key (f l) = rl_key l) ->
                table_ok n (update_row id f rl)).
    { intros f Hf. split; [|split].
      - rewrite fst_update_row. exact N.
      - apply Forall_forall. intros x Hx. unfold update_row in Hx.
        apply in_map_iff in Hx as ([i d] & <- & Hin').
        rewrite Forall_forall in F. specialize (F _ Hin'). cbn [fst] in *.
        destruct (i =? id); exact F.
      - intros k. rewrite select_update_row
          by (intros d; unfold by_key; now rewrite Hf).
        unfold update_row. rewrite length_map. apply K. }
    destruct (ws <? rl_windowStart r); apply G; reflexivity.
Qed.

End LimitTable.

Section Step.
Context {P : Platform}.
Import SubscriptionRequests Limiter.

Lemma db_unique_hd {Req D} (T : TableRef Req D) p env (w : World Req) :
  (List.length (select p (t_get T (db w))) <= 1)%nat ->
  db_unique T p env w = (Ok (hd_error (select p (t_get T (db w)))), w).
Proof.
  intros H. unfold db_unique.
  destruct (select p (t_get T (db w))) as [|x [|y rest]]; [reflexivity|reflexivity|].
  cbn in H. lia.
Qed.

Lemma exceeded_over key rl now limit :
  exceeded (hd_error (select (by_key key) rl)) (now - RATE_LIMIT_WINDOW_MS) limit =
  over limit now (record_of key rl).
Proof.
  unfold exceeded, over, record_of.
  destruct (select (by_key key) rl) as [|[id r] rest]; reflexivity.
Qed.

Lemma found_lookup key (rl : Table RateLimit) id r :
  hd_error (select (by_key key) rl) = Some (id, r) -> lookup rl id <> None.
Proof.
  intros H.
  destruct (select (by_key key) rl) as [|x rest] eqn:S; [discriminate|].
  injection H as ->.
  destruct (select_single_lookup _ _ _ _ _ S) as [d' ->]. discriminate.
Qed.

Lemma passes_ok {A} (r : Result A) : passes r = true -> exists a, r = Ok a.
Proof. destruct r; [eauto|discriminate]. Qed.

Lemma allocation_next (type : EntityType) {Req} env (w : World Req) ref c n :
  generateReferenceNumber type env w = (Ok ref, allocated c n w) ->
  nextId (db w) <= n.
Proof.
  intros H.
  pose proof (generateReferenceNumber_spec type env w) as S. cbv zeta in S.
  destruct (select _ _) as [|[id x] [|y rest]]; rewrite S in H; try discriminate H;
    injection H as _ _ <-; lia.
Qed.

(** The checks of [submit] before the rate limits, on an accepted
    submission: the handler arrives at the comparison of the counters. *)
Ltac accept_checks Hacc :=
  unfold accepted in Hacc;
  let V := fresh "V" in
  destruct (validateAndSanitizeCommonFields _ _ _ _ _) as [common|] eqn:V;
    [|discriminate Hacc];
  cbv zeta in Hacc;
  repeat (let H := fresh "Hc" in apply andb_prop in Hacc as [Hacc H]).

(** The handler on an accepted submission, the global limit not being
    reached: it throws when the record of the requester is in its window
    and at the limit, and otherwise goes through and updates both
    records. *)
Lemma submit_checked args env (w : World SubscriptionRequest) :
  store_ok (db w) ->
  accepted args (db w) = true ->
  let now := env_clock env (ticks w) in
  let rl := rateLimits (db w) in
  over RATE_LIMIT_GLOBAL now (record_of (lit "global") rl) = false ->
  if over RATE_LIMIT_PER_EMAIL now (record_of (email_key args) rl)
  then
    submit args env w =
      (Throw (JsError "Too many requests from this email. Please try again later."),
       mkWorld (db w) (scheduled w) (console w) (S (ticks w)) (draws w))
  else
    exists res w',
      submit args env w = (Ok res, w') /\
      store_ok (db w') /\
      categories (db w') = categories (db w) /\
      currencies (db w') = currencies (db w) /\
      record_of (email_key args) (rateLimits (db w')) =
        Some (record_after now (record_of (email_key args) rl)) /\
      record_of (lit "global") (rateLimits (db w')) =
        Some (record_after now (record_of (lit "global") rl)).
Proof.
  intros [(N & F & K) U] Hacc now rl Hg.
  accept_checks Hacc.
  apply negb_true_iff in Hacc, Hc4.
  apply passes_ok in Hc7 as [u1 V1], Hc6 as [u2 V2], Hc3 as [u3 V3], Hc2 as [u4 V4].
  destruct (common_provider common) as [provider|] eqn:Vp; [|discriminate Hc1].
  apply negb_true_iff in Hc1.
  destruct (lookup (categories (db w)) (s_categoryId args)) as [cat|] eqn:Lc;
    [|discriminate Hc0].
  destruct (lookup (currencies (db w)) (s_currencyId args)) as [cur|] eqn:Lu;
    [|discriminate Hc].
  destruct (over RATE_LIMIT_PER_EMAIL now (record_of (email_key args) rl)) eqn:He.
  all: unfold submit.
  all: erewrite bind_ok by (unfold lift; rewrite V; reflexivity); cbv zeta.
  all: rewrite Hacc.
  all: erewrite bind_ok by (unfold lift; rewrite V1; reflexivity).
  all: erewrite bind_ok by (unfold lift; rewrite V2; reflexivity).
  all: rewrite Hc5; cbn [negb]; rewrite Hc4.
  all: erewrite bind_ok by (unfold lift; rewrite V3; reflexivity).
  all: erewrite bind_ok by (unfold lift; rewrite V4; reflexivity).
  all: rewrite Vp, Hc1.
  all: rewrite (bind_ok _ _ _ _ _ _ (Date_now_eq env w)).
  all: erewrite bind_ok by (apply db_unique_hd, K).
  all: erewrite bind_ok by (apply db_unique_hd, K).
  all: erewrite bind_ok by apply db_get_eq.
  all: erewrite bind_ok by apply db_get_eq.
  all: cbn [db t_get RateLimits Categories Currencies].
  all: rewrite Lc, Lu, Hc; cbn [negb].
  all: fold now; fold rl.
  all: change (lit "email:" ++ trim (toLowerCase (s_requesterEmail args)))
         with (email_key args).
  all: rewrite !exceeded_over, Hg, He.
  - reflexivity.
  - remember (hd_error (select (by_key (lit "global")) rl)) as g eqn:Eg.
    remember (hd_error (select (by_key (email_key args)) rl)) as e eqn:Ee.
    destruct (allocation_unique entity_request env
                (mkWorld (db w) (scheduled w) (console w) (S (ticks w)) (draws w)) U)
      as (ref & c & n & G & Uc).
    pose proof (allocation_next _ _ _ _ _ _ G) as Hn. cbn [db] in Hn.
    rewrite (bind_ok _ _ _ _ _ _ G).
    erewrite bind_ok
      by (apply updateCounter_ok; intros id r Hl; subst g;
          exact (found_lookup _ _ _ _ Hl)).
    erewrite bind_ok
      by (apply updateCounter_ok; intros id r Hl; apply updatedLimits_lookup; subst e;
          exact (found_lookup _ _ _ _ Hl)).
    erewrite bind_ok by reflexivity.
    cbn [db allocated limited nextId rateLimits].
    fold rl.
    assert (Hne : email_key args <> lit "global") by (unfold email_key; discriminate).
    assert (T0 : table_ok n rl) by (apply (table_ok_mono _ _ _ Hn); repeat split; assumption).
    pose proof (updatedLimits_ok (lit "global") now (now - RATE_LIMIT_WINDOW_MS)
                  n rl g T0 Eg) as T1.
    pose proof (updatedLimits_other (lit "global") (email_key args) now
                  (now - RATE_LIMIT_WINDOW_MS) n n rl g T0 Eg Hne) as O1.
    assert (Ee' : e = hd_error
                        (select (by_key (email_key args))
                           (updatedLimits g (lit "global") now
                              (now - RATE_LIMIT_WINDOW_MS) n rl)))
      by (rewrite O1; exact Ee).
    pose proof (updatedLimits_ok (email_key args) now (now - RATE_LIMIT_WINDOW_MS)
                  _ _ e T1 Ee') as T2.
    unfold try_catch, scheduler_runAfter, console_error, bind, ret.
    destruct (env_scheduler_up env); eexists _, _; (split; [reflexivity|]);
      cbn [db fresh_id t_set t_get SubscriptionRequests rateLimits nextId categories
           currencies counters].
    all: split; [split; [apply (table_ok_mono _ _ _ ltac:(apply Z.le_succ_diag_r) T2)
                        |exact Uc]|].
    all: split; [reflexivity|]; split; [reflexivity|].
    all: split.
    all: try (rewrite (updatedLimits_record (email_key args) now _ _ _ e T1 Ee');
              unfold record_of; rewrite O1; reflexivity).
    all: unfold record_of at 1;
      rewrite (updatedLimits_other (email_key args) (lit "global") now
                 (now - RATE_LIMIT_WINDOW_MS) _ _ _ e T1 Ee' (not_eq_sym Hne));
      apply (updatedLimits_record (lit "global") now n n rl g T0 Eg).
Qed.

Lemma accepted_ext {Req Req'} args (d : Db Req) (d' : Db Req') :
  categories d = categories d' -> currencies d = currencies d' ->
  accepted args d = accepted args d'.
Proof. intros Hc Hu. unfold accepted. rewrite Hc, Hu. reflexivity. Qed.

Lemma room_not_over n now rl :
  room n rl -> n < RATE_LIMIT_GLOBAL ->
  over RATE_LIMIT_GLOBAL now (record_of (lit "global") rl) = false.
Proof.
  unfold room, over. destruct (record_of (lit "global") rl) as [[start count]|];
    [|reflexivity].
  intros H Hn. apply andb_false_intro2. apply Z.leb_gt. lia.
Qed.

Lemma room_after n now rl rl' :
  room n rl -> 0 <= n ->
  record_of (lit "global") rl' = Some (record_after now (record_of (lit "global") rl)) ->
  room (n + 1) rl'.
Proof.
  unfold room. intros H Hn ->. unfold record_after.
  destruct (record_of (lit "global") rl) as [[start count]|]; [|lia].
  destruct (now - RATE_LIMIT_WINDOW_MS <? start); lia.
Qed.

(** One call of the mutation by the requester of [key]. *)
Lemma call_step key (d0 : Db SubscriptionRequest) (c : Env * SubmitArgs)
    (w : World SubscriptionRequest) n :
  store_ok (db w) ->
  categories (db w) = categories d0 -> currencies (db w) = currencies d0 ->
  from_requester key d0 c ->
  room n (rateLimits (db w)) -> 0 <= n < RATE_LIMIT_GLOBAL ->
  let now := call_time (fst c) in
  if over RATE_LIMIT_PER_EMAIL now (record_of key (rateLimits (db w)))
  then
    submit_call c w =
      (Throw (JsError "Too many requests from this email. Please try again later."), w)
  else
    exists res w',
      submit_call c w = (Ok res, w') /\
      store_ok (db w') /\
      categories (db w') = categories d0 /\ currencies (db w') = currencies d0 /\
      record_of key (rateLimits (db w')) =
        Some (record_after now (record_of key (rateLimits (db w)))) /\
      room (n + 1) (rateLimits (db w')).
Proof.
  intros S Hc Hu [Ha <-] R Hn now.
  rewrite (accepted_ext _ d0 (db w)) in Ha by congruence.
  pose proof (submit_checked (snd c) (fst c)
                (mkWorld (db w) (scheduled w) (console w) 0 0) S Ha
                (room_not_over n _ _ R (proj2 Hn))) as H.
  cbv zeta in H. cbn [db ticks] in H. fold (call_time (fst c)) in H. fold now in H.
  unfold submit_call, mutation.
  destruct (over RATE_LIMIT_PER_EMAIL now _).
  - rewrite H. reflexivity.
  - destruct H as (res & w' & -> & S' & Hc' & Hu' & He & Hg).
    exists res, w'. split; [reflexivity|]. split; [exact S'|].
    split; [congruence|]. split; [congruence|]. split; [exact He|].
    exact (room_after n now _ _ R (proj1 Hn) Hg).
Qed.

(** Calls in the window of the record, below the limit: each of them goes
    through and adds one to the count. *)
Lemma window_calls key (d0 : Db SubscriptionRequest) calls :
  forall (w : World SubscriptionRequest) start count n,
  store_ok (db w) ->
  categories (db w) = categories d0 -> currencies (db w) = currencies d0 ->
  record_of key (rateLimits (db w)) = Some (start, count) ->
  count + Z.of_nat (List.length calls) <= RATE_LIMIT_PER_EMAIL ->
  room n (rateLimits (db w)) -> 0 <= n ->
  n + Z.of_nat (List.length calls) <= RATE_LIMIT_GLOBAL ->
  Forall (from_requester key d0) calls ->
  Forall (fun c => in_window start (call_time (fst c))) calls ->
  exists rs w',
    submit_all calls w = (rs, w') /\
    Forall (fun r => passes r = true) rs /\
    List.length rs = List.length calls /\
    store_ok (db w') /\
    categories (db w') = categories d0 /\ currencies (db w') = currencies d0 /\
    record_of key (rateLimits (db w')) =
      Some (start, count + Z.of_nat (List.length calls)) /\
    room (n + Z.of_nat (List.length calls)) (rateLimits (db w')).
Proof.
  induction calls as [|c calls IH]; intros w start count n S Hc Hu Hr Hcount R Hn Hroom
    Hfrom Hwin; cbn [submit_all List.length].
  - exists [], w. cbn [List.length Z.of_nat]. rewrite !Z.add_0_r.
    split; [reflexivity|]. split; [constructor|]. split; [reflexivity|].
    split; [exact S|]. split; [exact Hc|]. split; [exact Hu|].
    split; [exact Hr|exact R].
  - apply Forall_cons_iff in Hfrom as [Hf Hfrom]. apply Forall_cons_iff in Hwin as [Hw Hwin].
    pose proof (call_step key d0 c w n S Hc Hu Hf R) as H.
    cbn [List.length] in Hcount, Hroom. rewrite Nat2Z.inj_succ in Hcount, Hroom.
    specialize (H ltac:(unfold RATE_LIMIT_GLOBAL in *; lia)). cbv zeta in H.
    rewrite Hr in H. unfold over, record_after in H. unfold in_window in Hw.
    replace (call_time (fst c) - RATE_LIMIT_WINDOW_MS <? start) with true in H
      by (symmetry; apply Z.ltb_lt; lia).
    replace (RATE_LIMIT_PER_EMAIL <=? count) with false in H
      by (symmetry; apply Z.leb_gt; lia).
    cbn [andb] in H. destruct H as (res & w1 & E & S1 & Hc1 & Hu1 & Hr1 & R1).
    rewrite E.
    destruct (IH w1 start (count + 1) (n + 1) S1 Hc1 Hu1 Hr1 ltac:(lia) R1 ltac:(lia)
                ltac:(lia) Hfrom Hwin)
      as (rs & w2 & E2 & Hrs & Hlen & S2 & Hc2 & Hu2 & Hr2 & R2).
    rewrite E2. exists (Ok res :: rs), w2. split; [reflexivity|].
    split; [constructor; [reflexivity|exact Hrs]|].
    split; [cbn [List.length]; congruence|].
    split; [exact S2|]. split; [exact Hc2|]. split; [exact Hu2|].
    rewrite Nat2Z.inj_succ.
    split; [rewrite Hr2; do 2 f_equal; lia|].
    replace (n + Z.succ (Z.of_nat (List.length calls)))
      with (n + 1 + Z.of_nat (List.length calls)) by lia.
    exact R2.
Qed.

Lemma Forall_prefix {A} (Q : A -> Prop) (k : nat) (l : list A) :
  Forall Q l -> Forall Q (firstn k l).
Proof.
  intros H. apply Forall_forall. intros x Hx.
  rewrite Forall_forall in H. apply H.
  rewrite <- (firstn_skipn k l). apply in_or_app. now left.
Qed.

(** The first call of a requester without a record, and calls after it in
    the window that it opens, four at most. *)
Lemma first_calls key (first : Env * SubmitArgs) calls (w : World SubscriptionRequest) :
  store_ok (db w) ->
  record_of key (rateLimits (db w)) = None ->
  room 93 (rateLimits (db w)) ->
  from_requester key (db w) first ->
  Forall (from_requester key (db w)) calls ->
  Forall (fun c => in_window (call_time (fst first)) (call_time (fst c))) calls ->
  (List.length calls <= 4)%nat ->
  exists rs w',
    submit_all (first :: calls) w = (rs, w') /\
    Forall (fun r => passes r = true) rs /\
    List.length rs = S (List.length calls) /\
    store_ok (db w') /\
    categories (db w') = categories (db w) /\
    currencies (db w') = currencies (db w) /\
    record_of key (rateLimits (db w')) =
      Some (call_time (fst first), 1 + Z.of_nat (List.length calls)) /\
    room (94 + Z.of_nat (List.length calls)) (rateLimits (db w')).
Proof.
  intros S Hnone R Hf Hfrom Hwin Hlen.
  pose proof (call_step key (db w) first w 93 S eq_refl eq_refl Hf R
                ltac:(unfold RATE_LIMIT_GLOBAL; lia)) as H.
  cbv zeta in H. rewrite Hnone in H. cbn [over record_after] in H.
  destruct H as (res & w1 & E & S1 & Hc1 & Hu1 & Hr1 & R1).
  destruct (window_calls key (db w) calls w1 (call_time (fst first)) 1 94 S1 Hc1 Hu1 Hr1
              ltac:(unfold RATE_LIMIT_PER_EMAIL; lia) R1 ltac:(lia)
              ltac:(unfold RATE_LIMIT_GLOBAL; lia) Hfrom Hwin)
    as (rs & w2 & E2 & Hrs & Hl & S2 & Hc2 & Hu2 & Hr2 & R2).
  exists (Ok res :: rs), w2. cbn [submit_all]. rewrite E, E2.
  split; [reflexivity|]. split; [constructor; [reflexivity|exact Hrs]|].
  split; [cbn [List.length]; congruence|].
  split; [exact S2|]. split; [exact Hc2|]. split; [exact Hu2|].
  split; [exact Hr2|exact R2].
Qed.

End Step.

(** C5: a requester without a record sends a first accepted submission
    and four more in the hour after it: all five go through, and after
    the first [k + 1] of them the record of the requester is the window
    opened by the first call with the count [k + 1].  A sixth submission
    in that hour throws the throttling error and leaves the state as it
    is.  A submission an hour or more after the first goes through and
    sets the record to a window that starts at its time, with count 1.
    (The store is well formed, and the global counter has room for the
    seven calls.) *)
Theorem rate_limit_window (P : Platform) (key : jsstring)
    (first : Env * SubscriptionRequests.SubmitArgs)
    (calls : list (Env * SubscriptionRequests.SubmitArgs))
    (sixth seventh : Env * SubscriptionRequests.SubmitArgs)
    (w : World SubscriptionRequests.SubscriptionRequest) :
  let start := Limiter.call_time (fst first) in
  Limiter.store_ok (db w) ->
  Limiter.record_of key (rateLimits (db w)) = None ->
  Limiter.room 93 (rateLimits (db w)) ->
  Forall (Limiter.from_requester key (db w)) (first :: calls ++ [sixth; seventh]) ->
  List.length calls = 4%nat ->
  Forall (fun c => Limiter.in_window start (Limiter.call_time (fst c)))
    (calls ++ [sixth]) ->
  RATE_LIMIT_WINDOW_MS <= Limiter.call_time (fst seventh) - start ->
  RATE_LIMIT_PER_EMAIL = 5 /\ RATE_LIMIT_WINDOW_MS = 3600000 /\
  (forall k, (k <= 4)%nat ->
     exists rs wk,
       Limiter.submit_all (first :: firstn k calls) w = (rs, wk) /\
       Forall (fun r => passes r = true) rs /\
       List.length rs = S k /\
       Limiter.record_of key (rateLimits (db wk)) = Some (start, 1 + Z.of_nat k)) /\
  exists rs w5,
    Limiter.submit_all (first :: calls) w = (rs, w5) /\
    Limiter.record_of key (rateLimits (db w5)) = Some (start, 5) /\
    Limiter.submit_call sixth w5 =
      (Throw (JsError "Too many requests from this email. Please try again later."),
       w5) /\
    exists res w7,
      Limiter.submit_call seventh w5 = (Ok res, w7) /\
      Limiter.record_of key (rateLimits (db w7)) =
        Some (Limiter.call_time (fst seventh), 1).
Proof.
  intros start S Hnone R Hfrom Hlen Hwin Hlate.
  apply Forall_cons_iff in Hfrom as [Hf Hfrom].
  apply Forall_app in Hfrom as [Hfrom Hlast].
  apply Forall_cons_iff in Hlast as [Hf6 Hlast].
  apply Forall_cons_iff in Hlast as [Hf7 _].
  apply Forall_app in Hwin as [Hwin Hwin6].
  apply Forall_cons_iff in Hwin6 as [Hw6 _].
  split; [reflexivity|]. split; [reflexivity|]. split.
  - intros k Hk.
    destruct (first_calls key first (firstn k calls) w S Hnone R Hf
                (Forall_prefix _ k _ Hfrom) (Forall_prefix _ k _ Hwin)
                ltac:(rewrite length_firstn; lia))
      as (rs & wk & E & Hrs & Hl & _ & _ & _ & Hr & _).
    rewrite firstn_length_le in Hl, Hr by lia.
    exists rs, wk. auto.
  - destruct (first_calls key first calls w S Hnone R Hf Hfrom Hwin ltac:(lia))
      as (rs & w5 & E & _ & _ & S5 & Hc5 & Hu5 & Hr5 & R5).
    rewrite Hlen in Hr5, R5. cbn in Hr5, R5.
    exists rs, w5. split; [exact E|]. split; [exact Hr5|].
    split.
    + pose proof (call_step key (db w) sixth w5 98 S5 Hc5 Hu5 Hf6 R5
                    ltac:(unfold RATE_LIMIT_GLOBAL; lia)) as H.
      cbv zeta in H. rewrite Hr5 in H. unfold Limiter.over in H.
      unfold Limiter.in_window in Hw6. fold start in H.
      replace (Limiter.call_time (fst sixth) - RATE_LIMIT_WINDOW_MS <? start)
        with true in H by (symmetry; apply Z.ltb_lt; lia).
      exact H.
    + pose proof (call_step key (db w) seventh w5 98 S5 Hc5 Hu5 Hf7 R5
                    ltac:(unfold RATE_LIMIT_GLOBAL; lia)) as H.
      cbv zeta in H. rewrite Hr5 in H. unfold Limiter.over, Limiter.record_after in H.
      fold start in H.
      replace (Limiter.call_time (fst seventh) - RATE_LIMIT_WINDOW_MS <? start)
        with false in H by (symmetry; apply Z.ltb_ge; lia).
      cbn [andb] in H. destruct H as (res & w7 & E7 & _ & _ & _ & Hr7 & _).
      exists res, w7. split; assumption.
Qed.

Lemma rate_limit_window_witness :
  exists rs w5,
    Limiter.submit_all (P := Sample.platform)
      (SampleLimits.call_at SampleData.jan15 :: SampleLimits.next_calls)
      SampleData.sample_world = (rs, w5) /\
    Limiter.record_of (lit "email:mike@company.com") (rateLimits (db w5)) =
      Some (SampleData.jan15, 5) /\
    Limiter.submit_call (P := Sample.platform)
      (SampleLimits.call_at (SampleData.jan15 + 5 * SampleLimits.minute)) w5 =
      (Throw (JsError "Too many requests from this email. Please try again later."),
       w5) /\
    exists res w7,
      Limiter.submit_call (P := Sample.platform)
        (SampleLimits.call_at (SampleData.jan15 + 60 * SampleLimits.minute)) w5 =
        (Ok res, w7) /\
      Limiter.record_of (lit "email:mike@company.com") (rateLimits (db w7)) =
        Some (SampleData.jan15 + 60 * SampleLimits.minute, 1).
Proof.
  apply (rate_limit_window Sample.platform (lit "email:mike@company.com")
           (SampleLimits.call_at SampleData.jan15) SampleLimits.next_calls
           (SampleLimits.call_at (SampleData.jan15 + 5 * SampleLimits.minute))
           (SampleLimits.call_at (SampleData.jan15 + 60 * SampleLimits.minute))
           SampleData.sample_world).
  - split; [split; [constructor|split; [constructor|intros key; cbn; lia]]|].
    intros name. unfold one_counter. cbn. lia.
  - vm_compute. reflexivity.
  - unfold Limiter.room. vm_compute. exact I.
  - repeat constructor; vm_compute; reflexivity.
  - reflexivity.
  - repeat constructor; unfold Limiter.in_window; vm_compute; reflexivity.
  - vm_compute. discriminate.
Defined.

(** * The string helpers *)

Section Trim.

Lemma trimStart_app (a : jsstring) (c : Z) :
  trimStart (a ++ [c]) =
    match trimStart a with
    | [] => if is_whitespace c then [] else [c]
    | t => t ++ [c]
    end.
Proof.
  induction a as [|x a IH]; cbn [app trimStart]; [reflexivity|].
  destruct (is_whitespace x); [exact IH|reflexivity].
Qed.

Lemma trimEnd_cons (c : Z) (s : jsstring) :
  trimEnd (c :: s) =
    match trimEnd s with
    | [] => if is_whitespace c then [] else [c]
    | t => c :: t
    end.
Proof.
  unfold trimEnd. cbn [rev]. rewrite trimStart_app.
  destruct (trimStart (rev s)) as [|x t] eqn:E; cbn [rev].
  - destruct (is_whitespace c); reflexivity.
  - rewrite rev_app_distr. cbn [rev app].
    destruct (rev t ++ [x]) eqn:E'; [now destruct (rev t)|reflexivity].
Qed.

Lemma trimStart_fix (s : jsstring) : trimStart (trimStart s) = trimStart s.
Proof.
  induction s as [|c s IH]; [reflexivity|]. cbn [trimStart].
  destruct (is_whitespace c) eqn:E; [exact IH|]. cbn [trimStart]. now rewrite E.
Qed.

Lemma trimEnd_fix (s : jsstring) : trimEnd (trimEnd s) = trimEnd s.
Proof. unfold trimEnd. now rewrite rev_involutive, trimStart_fix. Qed.

Lemma trimStart_trimEnd (s : jsstring) : trimStart (trimEnd s) = trimEnd (trimStart s).
Proof.
  induction s as [|c s IH]; [reflexivity|].
  rewrite trimEnd_cons. cbn [trimStart].
  destruct (is_whitespace c) eqn:E.
  - rewrite <- IH. destruct (trimEnd s) as [|x t]; [reflexivity|].
    cbn [trimStart]. now rewrite E.
  - rewrite trimEnd_cons.
    destruct (trimEnd s) as [|x t]; cbn [trimStart]; now rewrite E.
Qed.

Lemma trim_fix (s : jsstring) : trim (trim s) = trim s.
Proof.
  unfold trim. rewrite (trimStart_trimEnd (trimStart s)).
  now rewrite trimStart_fix, trimEnd_fix.
Qed.

Lemma trimStart_in (s : jsstring) c : In c (trimStart s) -> In c s.
Proof.
  induction s as [|x s IH]; [auto|]. cbn [trimStart].
  destruct (is_whitespace x); [right; now apply IH|auto].
Qed.

Lemma trim_in (s : jsstring) c : In c (trim s) -> In c s.
Proof.
  unfold trim, trimEnd. intros H. apply in_rev, trimStart_in in H.
  apply in_rev in H. now apply trimStart_in.
Qed.

Lemma trimStart_id (s : jsstring) :
  (forall c, In c s -> is_whitespace c = false) -> trimStart s = s.
Proof.
  destruct s as [|x s]; [reflexivity|]. intros H. cbn [trimStart].
  now rewrite (H x (or_introl eq_refl)).
Qed.

Lemma trim_id (s : jsstring) :
  (forall c, In c s -> is_whitespace c = false) -> trim s = s.
Proof.
  intros H. unfold trim, trimEnd. rewrite (trimStart_id s H).
  rewrite trimStart_id; [apply rev_involutive|].
  intros c Hc. apply H. now apply in_rev.
Qed.

End Trim.

Section Replace.

Lemma replace_all_in c by_ s x :
  In x (replace_all c by_ s) -> (x <> c /\ In x s) \/ In x by_.
Proof.
  unfold replace_all. intros H. apply in_flat_map in H as (y & Hy & H).
  destruct (Z.eqb_spec y c); [now right|].
  destruct H as [<-|[]]. now left.
Qed.

Lemma replace_all_id c by_ s : (forall x, In x s -> x <> c) -> replace_all c by_ s = s.
Proof.
  unfold replace_all. induction s as [|x s IH]; intros H; [reflexivity|].
  cbn [flat_map]. destruct (Z.eqb_spec x c) as [E|N].
  - now destruct (H x (or_introl eq_refl)).
  - cbn [app]. f_equal. apply IH. intros y Hy. apply H. now right.
Qed.

Lemma html_special_cases c :
  html_special c = false <-> c <> 60 /\ c <> 62 /\ c <> 34 /\ c <> 39.
Proof.
  unfold html_special.
  destruct (Z.eqb_spec c 60), (Z.eqb_spec c 62), (Z.eqb_spec c 34),
    (Z.eqb_spec c 39); cbn; split; intros H; try discriminate; try lia; reflexivity.
Qed.

Lemma entity_safe x :
  In x (lit "&lt;") \/ In x (lit "&gt;") \/ In x (lit "&quot;") \/
  In x (lit "&#x27;") \/ In x (lit "&amp;") ->
  html_special x = false /\ x <> 38 \/ x = 38.
Proof.
  intros H. rewrite html_special_cases.
  change (lit "&lt;") with [38; 108; 116; 59] in H.
  change (lit "&gt;") with [38; 103; 116; 59] in H.
  change (lit "&quot;") with [38; 113; 117; 111; 116; 59] in H.
  change (lit "&#x27;") with [38; 35; 120; 50; 55; 59] in H.
  change (lit "&amp;") with [38; 97; 109; 112; 59] in H.
  cbn [In] in H. lia.
Qed.

Lemma replaced_safe (s : jsstring) x :
  In x (replace_all 39 (lit "&#x27;")
          (replace_all 34 (lit "&quot;")
             (replace_all 62 (lit "&gt;") (replace_all 60 (lit "&lt;") s)))) ->
  html_special x = false.
Proof.
  intros H.
  apply replace_all_in in H as [[N1 H]|H];
    [|destruct (entity_safe x) as [[? _]| ->]; auto 6].
  apply replace_all_in in H as [[N2 H]|H];
    [|destruct (entity_safe x) as [[? _]| ->]; auto 6].
  apply replace_all_in in H as [[N3 H]|H];
    [|destruct (entity_safe x) as [[? _]| ->]; auto 6].
  apply replace_all_in in H as [[N4 H]|H];
    [|destruct (entity_safe x) as [[? _]| ->]; auto 6].
  apply html_special_cases. lia.
Qed.

Lemma sanitizeString_safe (s : jsstring) : html_safe (sanitizeString s).
Proof.
  intros x H. unfold sanitizeString in H.
  destruct (JsString.length s =? 0); [contradiction|].
  apply trim_in in H. now apply replaced_safe in H.
Qed.

Lemma replaced_id (s : jsstring) :
  html_safe s ->
  replace_all 39 (lit "&#x27;")
    (replace_all 34 (lit "&quot;")
       (replace_all 62 (lit "&gt;") (replace_all 60 (lit "&lt;") s))) = s.
Proof.
  intros H.
  assert (K : forall x, In x s -> x <> 60 /\ x <> 62 /\ x <> 34 /\ x <> 39)
    by (intros x Hx; now apply html_special_cases, H).
  rewrite (replace_all_id 60) by (intros x Hx; now apply K).
  rewrite (replace_all_id 62) by (intros x Hx; now apply K).
  rewrite (replace_all_id 34) by (intros x Hx; now apply K).
  apply replace_all_id. intros x Hx. now apply K.
Qed.

Lemma sanitizeString_of_safe (s : jsstring) : html_safe s -> sanitizeString s = trim s.
Proof.
  intros H. unfold sanitizeString.
  destruct s as [|c s]; [reflexivity|].
  replace (JsString.length (c :: s) =? 0) with false
    by (symmetry; apply Z.eqb_neq; unfold JsString.length; cbn [List.length]; lia).
  now rewrite replaced_id.
Qed.

Lemma sanitizeString_trimmed (s : jsstring) : trim (sanitizeString s) = sanitizeString s.
Proof.
  unfold sanitizeString. destruct (JsString.length s =? 0); [reflexivity|].
  apply trim_fix.
Qed.

Lemma sanitizeString_fix (s : jsstring) :
  sanitizeString (sanitizeString s) = sanitizeString s.
Proof.
  rewrite sanitizeString_of_safe by apply sanitizeString_safe.
  apply sanitizeString_trimmed.
Qed.

End Replace.

(** X1: what [sanitizeString] returns holds none of the characters [<],
    [>], double quote and single quote, has no white space at its ends, and
    is left as it is by a second call. *)
Theorem sanitizeString_idempotent (s : jsstring) :
  html_safe (sanitizeString s) /\
  trim (sanitizeString s) = sanitizeString s /\
  sanitizeString (sanitizeString s) = sanitizeString s.
Proof.
  split; [apply sanitizeString_safe|]. split; [apply sanitizeString_trimmed|].
  apply sanitizeString_fix.
Qed.

(** * Addresses *)

Section Email.

Lemma split_in sep s c :
  In c s -> c = sep \/ exists piece, In piece (split sep s) /\ In c piece.
Proof.
  induction s as [|x s IH]; [contradiction|]. intros [->|H]; cbn [split].
  - destruct (Z.eqb_spec c sep) as [E|N]; [now left|right].
    destruct (split sep s) as [|piece pieces]; eexists; (split; [now left|now left]).
  - destruct (IH H) as [E|(piece & Hp & Hc)]; [now left|right].
    destruct (x =? sep); [exists piece; split; [now right|assumption]|].
    destruct (split sep s) as [|p ps]; [contradiction|].
    destruct Hp as [->|Hp].
    + exists (x :: piece). split; [now left|now right].
    + exists piece. split; [now right|assumption].
Qed.

Lemma split_count sep s :
  List.length (split sep s) = S (count_occ Z.eq_dec s sep).
Proof.
  induction s as [|x s IH]; [reflexivity|]. cbn [split count_occ].
  destruct (Z.eqb_spec x sep) as [E|N]; destruct (Z.eq_dec x sep); try contradiction.
  - cbn [List.length]. now rewrite IH.
  - destruct (split sep s) as [|p ps]; [discriminate IH|exact IH].
Qed.

Lemma bracketed_forallb X s : bracketed X s = true -> forallb X s = true.
Proof.
  unfold bracketed. destruct s as [|c s]; [reflexivity|].
  intros H. now apply andb_true_iff in H as [_ H].
Qed.

Lemma is_local_char_range c :
  is_local_char c = true ->
  43 <= c <= 46 /\ c <> 44 \/ 48 <= c <= 57 \/ 65 <= c <= 90 \/ c = 95 \/ 97 <= c <= 122.
Proof.
  unfold is_local_char, is_alnum, is_alpha, is_digit, between.
  rewrite !orb_true_iff, !andb_true_iff, !Z.leb_le, !Z.eqb_eq. lia.
Qed.

Lemma is_label_char_local c : is_label_char c = true -> is_local_char c = true.
Proof.
  unfold is_label_char, is_local_char. rewrite !orb_true_iff. tauto.
Qed.

Lemma is_alpha_local c : is_alpha c = true -> is_local_char c = true.
Proof.
  unfold is_local_char, is_alnum. rewrite !orb_true_iff. tauto.
Qed.

Lemma email_char_range c :
  email_char c = true ->
  43 <= c <= 46 /\ c <> 44 \/ 48 <= c <= 57 \/ 64 <= c <= 90 \/ c = 95 \/ 97 <= c <= 122.
Proof.
  unfold email_char. rewrite orb_true_iff, Z.eqb_eq.
  intros [H| ->]; [apply is_local_char_range in H|]; lia.
Qed.

Lemma email_char_not_special c : email_char c = true -> html_special c = false.
Proof.
  intros H. apply email_char_range in H. apply html_special_cases. lia.
Qed.

Lemma email_char_not_space c : email_char c = true -> is_whitespace c = false.
Proof.
  intros H. apply email_char_range in H.
  apply not_true_is_false. unfold is_whitespace.
  rewrite !orb_true_iff, !andb_true_iff, !Z.leb_le, !Z.eqb_eq. lia.
Qed.

Lemma emailRegex_test_chars email :
  emailRegex_test email = true ->
  forallb email_char email = true /\ count_occ Z.eq_dec email 64 = 1%nat.
Proof.
  unfold emailRegex_test. intros H.
  destruct (split 64 email) as [|local [|domain [|x rest]]] eqn:S; try discriminate H.
  apply andb_true_iff in H as [Hl H].
  destruct (rev (split 46 domain)) as [|tld [|label labels]] eqn:R; try discriminate H.
  apply andb_true_iff in H as [H Hlabels].
  apply andb_true_iff in H as [_ Htld].
  split.
  - apply forallb_forall. intros c Hc. unfold email_char.
    apply (split_in 64) in Hc as [->|(piece & Hp & Hc)]; [now rewrite orb_true_r|].
    rewrite S in Hp. apply orb_true_iff. left.
    destruct Hp as [<-|[<-|[]]].
    + apply bracketed_forallb in Hl. rewrite forallb_forall in Hl. now apply Hl.
    + apply (split_in 46) in Hc as [->|(l & Hin & Hc)]; [reflexivity|].
      apply in_rev in Hin. rewrite R in Hin. destruct Hin as [<-|Hin].
      * rewrite forallb_forall in Htld. now apply is_alpha_local, Htld.
      * rewrite forallb_forall in Hlabels. specialize (Hlabels l Hin).
        apply bracketed_forallb in Hlabels. rewrite forallb_forall in Hlabels.
        now apply is_label_char_local, Hlabels.
  - pose proof (split_count 64 email) as C. rewrite S in C. cbn [List.length] in C.
    congruence.
Qed.

End Email.

(** X2: an address that [validateEmail] accepts has between 1 and 254
    characters, all of them letters, digits or one of [.], [_], [+], [-] and
    [@], with exactly one [@]; [sanitizeString] leaves such an address as it
    is. *)
Theorem validateEmail_characters (email : jsstring) :
  validateEmail email = true ->
  1 <= JsString.length email <= 254 /\
  forallb email_char email = true /\
  count_occ Z.eq_dec email 64 = 1%nat /\
  sanitizeString email = email.
Proof.
  unfold validateEmail. intros H.
  destruct (Z.eqb_spec (JsString.length email) 0) as [|N]; [discriminate H|].
  destruct (Z.ltb_spec 254 (JsString.length email)); [discriminate H|]. cbn [orb] in H.
  destruct (consecutive_dots email); [discriminate H|].
  apply emailRegex_test_chars in H as [Hc H1].
  split; [unfold JsString.length in *; lia|]. split; [exact Hc|]. split; [exact H1|].
  rewrite forallb_forall in Hc.
  rewrite sanitizeString_of_safe by (intros c Hin; now apply email_char_not_special, Hc).
  apply trim_id. intros c Hin. now apply email_char_not_space, Hc.
Qed.

Lemma validateEmail_characters_witness :
  1 <= JsString.length (lit "mike@company.com") <= 254 /\
  forallb email_char (lit "mike@company.com") = true /\
  count_occ Z.eq_dec (lit "mike@company.com") 64 = 1%nat /\
  sanitizeString (lit "mike@company.com") = lit "mike@company.com".
Proof.
  apply (validateEmail_characters (lit "mike@company.com")). vm_compute. reflexivity.
Defined.

(** * Escaping for the templates of the notifications *)

Section Escape.

Lemma replace_all_app c by_ a b :
  replace_all c by_ (a ++ b) = replace_all c by_ a ++ replace_all c by_ b.
Proof. unfold replace_all. apply flat_map_app. Qed.

Lemma escapeHtml_flat_map (s : jsstring) : escapeHtml s = flat_map entity s.
Proof.
  unfold escapeHtml. destruct s as [|x s]; [reflexivity|].
  replace (JsString.length (x :: s) =? 0) with false
    by (symmetry; apply Z.eqb_neq; unfold JsString.length; cbn [List.length]; lia).
  change (lit "&lt;") with [38; 108; 116; 59].
  change (lit "&gt;") with [38; 103; 116; 59].
  change (lit "&quot;") with [38; 113; 117; 111; 116; 59].
  change (lit "&#x27;") with [38; 35; 120; 50; 55; 59].
  change (lit "&amp;") with [38; 97; 109; 112; 59].
  induction (x :: s) as [|c l IH]; [reflexivity|].
  change (c :: l) with ([c] ++ l). rewrite !replace_all_app.
  change (([c] ++ l)) with (c :: l). cbn [flat_map]. rewrite <- IH. f_equal.
  unfold entity, replace_all. cbn [flat_map app].
  destruct (Z.eqb_spec c 38) as [->|N1]; [reflexivity|]. cbn [flat_map app].
  destruct (Z.eqb_spec c 60) as [->|N2]; [reflexivity|]. cbn [flat_map app].
  destruct (Z.eqb_spec c 62) as [->|N3]; [reflexivity|]. cbn [flat_map app].
  destruct (Z.eqb_spec c 34) as [->|N4]; [reflexivity|]. cbn [flat_map app].
  destruct (Z.eqb_spec c 39) as [->|N5]; reflexivity.
Qed.

Lemma entity_cases c :
  (c = 38 /\ entity c = [38; 97; 109; 112; 59]) \/
  (c = 60 /\ entity c = [38; 108; 116; 59]) \/
  (c = 62 /\ entity c = [38; 103; 116; 59]) \/
  (c = 34 /\ entity c = [38; 113; 117; 111; 116; 59]) \/
  (c = 39 /\ entity c = [38; 35; 120; 50; 55; 59]) \/
  (c <> 38 /\ html_special c = false /\ entity c = [c]).
Proof.
  unfold entity.
  destruct (Z.eqb_spec c 38); [left; split; [assumption|reflexivity]|].
  destruct (Z.eqb_spec c 60); [right; left; split; [assumption|reflexivity]|].
  destruct (Z.eqb_spec c 62); [do 2 right; left; split; [assumption|reflexivity]|].
  destruct (Z.eqb_spec c 34); [do 3 right; left; split; [assumption|reflexivity]|].
  destruct (Z.eqb_spec c 39); [do 4 right; left; split; [assumption|reflexivity]|].
  do 5 right. rewrite html_special_cases. repeat split; assumption.
Qed.

Lemma flat_map_entity_injective (a b : jsstring) :
  flat_map entity a = flat_map entity b -> a = b.
Proof.
  revert b. induction a as [|x a IH]; intros [|y b] H; cbn [flat_map] in H.
  - reflexivity.
  - destruct (entity_cases y) as [[_ E]|[[_ E]|[[_ E]|[[_ E]|[[_ E]|(_ & _ & E)]]]]];
      rewrite E in H; discriminate H.
  - destruct (entity_cases x) as [[_ E]|[[_ E]|[[_ E]|[[_ E]|[[_ E]|(_ & _ & E)]]]]];
      rewrite E in H; discriminate H.
  - destruct (entity_cases x) as
      [[Hx E]|[[Hx E]|[[Hx E]|[[Hx E]|[[Hx E]|(Hx & _ & E)]]]]];
    destruct (entity_cases y) as
      [[Hy E']|[[Hy E']|[[Hy E']|[[Hy E']|[[Hy E']|(Hy & _ & E')]]]]];
    rewrite E, E' in H; cbn [app] in H;
    try discriminate H;
    try (injection H as H; f_equal; [congruence|now apply IH]);
    try (injection H as H0 H; congruence).
Qed.

Lemma escapeHtml_safe (s : jsstring) : html_safe (escapeHtml s).
Proof.
  rewrite escapeHtml_flat_map. intros c H.
  apply in_flat_map in H as (x & _ & H). apply html_special_cases.
  destruct (entity_cases x) as
    [[Hx E]|[[Hx E]|[[Hx E]|[[Hx E]|[[Hx E]|(Hx & Hs & E)]]]]];
    rewrite E in H; cbn [In] in H; try lia.
  destruct H as [<-|[]]. now apply html_special_cases.
Qed.

End Escape.

(** X3: what [escapeHtml] returns holds none of the characters [<], [>],
    double quote and single quote, and two strings with the same escaped
    text are the same string: nothing of the input is lost. *)
Theorem escapeHtml_injective (a b : jsstring) :
  html_safe (escapeHtml a) /\ (escapeHtml a = escapeHtml b -> a = b).
Proof.
  split; [apply escapeHtml_safe|]. rewrite !escapeHtml_flat_map.
  apply flat_map_entity_injective.
Qed.

(** * The ciphertexts *)

Section Ciphertexts.

Lemma encode_length_eq bs :
  Z.of_nat (List.length (encode bs)) = 4 * ((Z.of_nat (List.length bs) + 2) / 3).
Proof.
  induction bs as [|x|x y|x y z l IH] using list_ind3; try reflexivity.
  cbn [encode List.length]. rewrite !Nat2Z.inj_succ.
  replace (Z.succ (Z.succ (Z.succ (Z.of_nat (List.length l)))) + 2)
    with (Z.of_nat (List.length l) + 2 + 1 * 3) by lia.
  rewrite Z.div_add by lia. lia.
Qed.

Lemma xor_from_length keyBytes iv src i :
  List.length (xor_from keyBytes iv i src) = List.length src.
Proof.
  revert i. induction src as [|x src IH]; intros i; cbn [xor_from List.length];
    [reflexivity|]. now rewrite IH.
Qed.

Lemma encode_code_point_cons cp : exists b bs, encode_code_point cp = b :: bs.
Proof.
  unfold encode_code_point.
  destruct (cp <=? 0x7F); [eauto|]. destruct (cp <=? 0x7FF); [eauto|].
  destruct (cp <=? 0xFFFF); eauto.
Qed.

Lemma code_points_cons c s : exists cp cps, code_points (c :: s) = cp :: cps.
Proof.
  cbn [code_points]. destruct (high_surrogate c).
  - destruct s as [|d s]; [eauto|]. destruct (low_surrogate d); eauto.
  - destruct (low_surrogate c); eauto.
Qed.

Lemma TextEncoder_encode_cons c s : exists b bs, TextEncoder_encode (c :: s) = b :: bs.
Proof.
  unfold TextEncoder_encode. destruct (code_points_cons c s) as (cp & cps & ->).
  cbn [flat_map]. destruct (encode_code_point_cons cp) as (b & bs & ->).
  cbn [app]. eauto.
Qed.

End Ciphertexts.

(** X4: a ciphertext of [encrypt] has at least 24 characters, a multiple of
    four, and [isEncrypted] answers true for it exactly when the plaintext
    is not the empty string. *)
Theorem isEncrypted_ciphertext (iv : list Z) (plaintext key c : jsstring) :
  List.length iv = 16%nat -> Forall byte iv ->
  encrypt iv plaintext key = Ok c ->
  24 <= JsString.length c /\ JsString.length c mod 4 = 0 /\
  isEncrypted c = negb (JsString.length plaintext =? 0).
Proof.
  intros Hlen Hiv H.
  assert (Hk : 32 <= JsString.length key).
  { unfold encrypt in H.
    destruct (Z.eqb_spec (JsString.length key) 0); [discriminate H|].
    destruct (Z.ltb_spec (JsString.length key) 32); [discriminate H|assumption]. }
  rewrite encrypt_ok in H by assumption. injection H as <-.
  set (enc := xor_from _ iv 0 (TextEncoder_encode plaintext)).
  assert (Hn : Z.of_nat (List.length (iv ++ enc)) =
               16 + Z.of_nat (List.length (TextEncoder_encode plaintext))).
  { rewrite length_app, Hlen. unfold enc. rewrite xor_from_length. lia. }
  assert (H24 : 24 <= JsString.length (encode (iv ++ enc))).
  { unfold JsString.length. rewrite encode_length_eq, Hn.
    assert (6 <= (16 + Z.of_nat (List.length (TextEncoder_encode plaintext)) + 2) / 3)
      by (apply Z.div_le_lower_bound; lia).
    lia. }
  split; [exact H24|]. split; [apply encode_length|].
  unfold isEncrypted.
  destruct (Z.eqb_spec (JsString.length (encode (iv ++ enc))) 0); [lia|].
  destruct (Z.ltb_spec (JsString.length (encode (iv ++ enc))) 24); [lia|].
  cbn [orb].
  rewrite atob_encode
    by (apply Forall_app; split; [assumption|apply xor_from_bytes]).
  unfold JsString.length at 1. rewrite Hn.
  destruct plaintext as [|x s]; [reflexivity|].
  destruct (TextEncoder_encode_cons x s) as (b & bs & ->).
  cbn [List.length]. unfold JsString.length. cbn [List.length].
  destruct (Z.ltb_spec 16 (16 + Z.of_nat (S (List.length bs)))); [|lia].
  destruct (Z.eqb_spec (Z.of_nat (S (List.length s))) 0); [lia|reflexivity].
Qed.

Lemma isEncrypted_ciphertext_witness :
  24 <= JsString.length (SampleVault.sealed (lit "hunter2")) /\
  JsString.length (SampleVault.sealed (lit "hunter2")) mod 4 = 0 /\
  isEncrypted (SampleVault.sealed (lit "hunter2")) =
    negb (JsString.length (lit "hunter2") =? 0).
Proof.
  apply (isEncrypted_ciphertext iv0 (lit "hunter2") k32).
  - reflexivity.
  - repeat constructor; unfold byte; lia.
  - vm_compute. reflexivity.
Defined.

(** X5: only the first 32 characters of the key are used: a key of at least
    32 characters and any other one with the same first 32 characters give
    the same ciphertext, and the one decrypts what the other encrypted. *)
Theorem key_prefix_decrypts (iv : list Z) (plaintext key key' : jsstring) :
  List.length iv = 16%nat -> Forall byte iv ->
  well_formed plaintext = true -> hd 0 plaintext <> 0xFEFF ->
  32 <= JsString.length key -> 32 <= JsString.length key' ->
  slice0 32 key' = slice0 32 key ->
  exists c, encrypt iv plaintext key = Ok c /\ encrypt iv plaintext key' = Ok c /\
            decrypt c key' = Ok plaintext.
Proof.
  intros Hlen Hiv Hw Hbom Hk Hk' Hs.
  rewrite !encrypt_ok by assumption. rewrite Hs. eexists.
  split; [reflexivity|]. split; [reflexivity|].
  unfold decrypt. rewrite key_check by assumption.
  rewrite atob_encode by (apply Forall_app; split; [assumption|apply xor_from_bytes]).
  rewrite firstn_exact, skipn_exact by assumption. rewrite Hs.
  rewrite xor_from_involutive by now apply TextEncoder_encode_bytes.
  now rewrite decode_encode.
Qed.

Lemma key_prefix_decrypts_witness :
  exists c, encrypt iv0 (lit "hunter2") k32 = Ok c /\
            encrypt iv0 (lit "hunter2") (k32 ++ lit "-and-more") = Ok c /\
            decrypt c (k32 ++ lit "-and-more") = Ok (lit "hunter2").
Proof.
  apply (key_prefix_decrypts iv0 (lit "hunter2") k32 (k32 ++ lit "-and-more")).
  - reflexivity.
  - repeat constructor; unfold byte; lia.
  - reflexivity.
  - vm_compute. discriminate.
  - vm_compute. discriminate.
  - vm_compute. discriminate.
  - reflexivity.
Defined.

(** * Constraints on tables *)

Section Constraints.
Context {D : Type}.

Lemma update_row_in (id : Id) (f : D -> D) (t : Table D) (x : Id * D) :
  In x (update_row id f t) ->
  (In x t /\ fst x <> id) \/ (exists d, In (id, d) t /\ x = (id, f d)).
Proof.
  unfold update_row. intros H. apply in_map_iff in H as ([i d] & E & H).
  cbn [fst snd] in E. destruct (Z.eqb_spec i id) as [->|N]; subst x.
  - right. eauto.
  - left. auto.
Qed.

Lemma remove_row_in (id : Id) (t : Table D) (x : Id * D) :
  In x (remove_row id t) -> In x t /\ fst x <> id.
Proof.
  unfold remove_row. intros H. apply filter_In in H as [H E].
  split; [exact H|]. apply negb_true_iff, Z.eqb_neq in E. exact E.
Qed.

Lemma in_lookup_some (t : Table D) (i : Id) (d : D) :
  In (i, d) t -> lookup t i <> None.
Proof. intros H. destruct (in_lookup t (i, d) H) as [d' E]. cbn [fst] in E. congruence. Qed.

Lemma lookup_some_row (t : Table D) id d : lookup t id = Some d -> In (id, d) t.
Proof.
  unfold lookup. destruct (find _ t) as [[i x]|] eqn:F; [|discriminate].
  intros H. injection H as <-. apply find_some in F as [Hin E].
  cbn [fst] in E. apply Z.eqb_eq in E. now subst.
Qed.

Lemma select_nil_not (p : D -> bool) (t : Table D) i d :
  select p t = [] -> In (i, d) t -> p d = false.
Proof.
  intros S H. destruct (p d) eqn:E; [|reflexivity].
  assert (In (i, d) (select p t)) as K by (apply filter_In; auto).
  rewrite S in K. contradiction.
Qed.

Context {K : Type}.
Variable key : D -> K.

Lemma unique_by_nil : unique_by key (@nil (Id * D)).
Proof. intros i c j d []. Qed.

Lemma unique_by_incl (t t' : Table D) :
  (forall x, In x t' -> In x t) -> unique_by key t -> unique_by key t'.
Proof. intros H U i c j d Hi Hj. apply U; now apply H. Qed.

Lemma unique_by_app (t : Table D) (n : Id) (new : D) :
  (forall i d, In (i, d) t -> key d <> key new) ->
  unique_by key t -> unique_by key (t ++ [(n, new)]).
Proof.
  intros Hn U i c j d Hi Hj E.
  apply in_app_iff in Hi as [Hi|[Hi|[]]]; apply in_app_iff in Hj as [Hj|[Hj|[]]].
  - now apply (U i c j d).
  - injection Hj as <- <-. now destruct (Hn i c Hi).
  - injection Hi as <- <-. symmetry in E. now destruct (Hn j d Hj).
  - congruence.
Qed.

Lemma unique_by_update_row (t : Table D) (id : Id) (f : D -> D) :
  (forall d, key (f d) = key d) ->
  unique_by key t -> unique_by key (update_row id f t).
Proof.
  intros Hf U i c j d Hi Hj E.
  apply update_row_in in Hi as [[Hi Ni]|(c' & Hi & Ei)];
    apply update_row_in in Hj as [[Hj Nj]|(d' & Hj & Ej)].
  - now apply (U i c j d).
  - injection Ej as -> ->. rewrite Hf in E. now apply (U i c id d').
  - injection Ei as -> ->. rewrite Hf in E. now apply (U id c' j d).
  - congruence.
Qed.

Lemma unique_by_rename (t : Table D) (id : Id) (f : D -> D) :
  (forall j d d', In (j, d) t -> j <> id -> key d <> key (f d')) ->
  (forall d d', key (f d) = key (f d')) ->
  unique_by key t -> unique_by key (update_row id f t).
Proof.
  intros Hn Hf U i c j d Hi Hj E.
  apply update_row_in in Hi as [[Hi Ni]|(c' & Hi & Ei)];
    apply update_row_in in Hj as [[Hj Nj]|(d' & Hj & Ej)].
  - now apply (U i c j d).
  - injection Ej as -> ->. cbn [fst] in Ni. now destruct (Hn i c d' Hi Ni).
  - injection Ei as -> ->. cbn [fst] in Nj. symmetry in E.
    now destruct (Hn j d c' Hj Nj).
  - congruence.
Qed.

Lemma unique_by_remove_row (t : Table D) (id : Id) :
  unique_by key t -> unique_by key (remove_row id t).
Proof. apply unique_by_incl. intros x H. now apply remove_row_in in H. Qed.

End Constraints.

Section References.
Context {D D' : Type}.
Variable ref : D -> Id.

Lemma refers_nil (target : Table D') : refers ref [] target.
Proof. intros i d []. Qed.

Lemma refers_incl (t t' : Table D) (target target' : Table D') :
  (forall x, In x t' -> In x t) ->
  (forall i d, In (i, d) t' -> lookup target (ref d) <> None ->
               lookup target' (ref d) <> None) ->
  refers ref t target -> refers ref t' target'.
Proof. intros Hs Ht R i d H. apply (Ht i d H), (R i d), Hs, H. Qed.

Lemma refers_target (t : Table D) (target target' : Table D') :
  (forall id, lookup target id <> None -> lookup target' id <> None) ->
  refers ref t target -> refers ref t target'.
Proof. intros Ht R i d H. apply Ht, (R i d H). Qed.

Lemma refers_app (t : Table D) (n : Id) (new : D) (target : Table D') :
  lookup target (ref new) <> None ->
  refers ref t target -> refers ref (t ++ [(n, new)]) target.
Proof.
  intros Hn R i d H. apply in_app_iff in H as [H|[H|[]]]; [now apply (R i d)|].
  now injection H as <- <-.
Qed.

Lemma refers_update_row (t : Table D) (id : Id) (f : D -> D) (target : Table D') :
  (forall d, In (id, d) t -> lookup target (ref (f d)) <> None) ->
  refers ref t target -> refers ref (update_row id f t) target.
Proof.
  intros Hf R i d H. apply update_row_in in H as [[H _]|(d' & H & E)].
  - now apply (R i d).
  - injection E as -> ->. now apply Hf.
Qed.

End References.

Section Domains.
Context {D : Type}.

Lemma lookup_app_some (t : Table D) (x : Id * D) id :
  lookup t id <> None -> lookup (t ++ [x]) id <> None.
Proof. intros H. rewrite lookup_app. destruct (lookup t id); congruence. Qed.

Lemma lookup_update_row_some (t : Table D) id' (f : D -> D) id :
  lookup t id <> None -> lookup (update_row id' f t) id <> None.
Proof.
  intros H. rewrite lookup_update_row.
  destruct (id =? id'); destruct (lookup t id); cbn; congruence.
Qed.

Lemma lookup_remove_row_some (t : Table D) id' id :
  id <> id' -> lookup t id <> None -> lookup (remove_row id' t) id <> None.
Proof.
  intros N H. rewrite lookup_remove_row.
  destruct (Z.eqb_spec id id'); congruence.
Qed.

End Domains.

(** * Deletion of several documents *)

Section DeleteAll.
Context {Req : Type}.

Lemma delete_all_ok {D} (T : TableRef Req D) rows env (w : World Req) a w' :
  (forall x d, t_get T (t_set T x d) = x) ->
  Subscriptions.delete_all T rows env w = (Ok a, w') ->
  forall x, In x (t_get T (db w')) ->
            In x (t_get T (db w)) /\ ~ In (fst x) (map fst rows).
Proof.
  intros Law. revert w. induction rows as [|[id d] rows IH]; intros w H x Hx;
    cbn [Subscriptions.delete_all] in H.
  - injection H as <- <-. auto.
  - apply bind_inv in H as [(u & w1 & E & H)|(e & E & ?)]; [|discriminate].
    apply db_delete_inv in E as [_ ->].
    destruct (IH _ H x Hx) as [Hin Hn]. cbn [db] in Hin. rewrite Law in Hin.
    apply remove_row_in in Hin as [Hin N].
    split; [exact Hin|]. cbn [map fst]. intros [E|E]; [congruence|contradiction].
Qed.

Lemma delete_all_clears {D} (T : TableRef Req D) env (w : World Req) a w' :
  (forall x d, t_get T (t_set T x d) = x) ->
  Subscriptions.delete_all T (t_get T (db w)) env w = (Ok a, w') ->
  t_get T (db w') = [].
Proof.
  intros Law H. destruct (t_get T (db w')) as [|x t] eqn:E; [reflexivity|].
  destruct (delete_all_ok T _ env w a w' Law H x) as [Hin Hn];
    [rewrite E; now left|].
  destruct Hn. now apply in_map.
Qed.

End DeleteAll.

Ltac cleared :=
  lazymatch goal with
  | |- t_get ?T (db ?w2) = [] =>
      match goal with
      | E : Subscriptions.delete_all ?T' ?rows ?env ?w1 = (Ok _, w2) |- _ =>
          first
            [ apply (delete_all_clears T' env w1 _ w2 (fun _ _ => eq_refl) E)
            | rewrite (keeps_inv T _ _ _ _ _
                         (keeps_delete_all T T' rows ltac:(solve_apart)) E);
              cleared ]
      end
  end.

Section Clear.
Context {Req : Type}.

(** [clearDatabase] leaves every table empty. *)
Lemma clearDatabase_ok env (w : World Req) a w' :
  Seed.clearDatabase env w = (Ok a, w') ->
  categories (db w') = [] /\ currencies (db w') = [] /\ subscriptions (db w') = [] /\
  credentials (db w') = [] /\ subscriptionRequests (db w') = [] /\
  auditLogs (db w') = [] /\ users (db w') = [] /\ counters (db w') = [] /\
  rateLimits (db w') = [].
Proof.
  intros H. unfold Seed.clearDatabase in H.
  repeat (apply bind_inv in H as [(? & ? & ? & H)|(? & ? & ?)]; [|discriminate]).
  repeat match goal with
  | E : read_db _ _ = _ |- _ => unfold read_db in E; injection E as <- <-
  end.
  change (t_get Categories (db w') = [] /\ t_get Currencies (db w') = [] /\
          t_get Subscriptions (db w') = [] /\ t_get Credentials (db w') = [] /\
          t_get SubscriptionRequests (db w') = [] /\ t_get AuditLogs (db w') = [] /\
          t_get Users (db w') = [] /\ t_get Counters (db w') = [] /\
          t_get RateLimits (db w') = []).
  repeat split; cleared.
Qed.

End Clear.

(** * Every operation, every sequence of operations *)

Section Sequences.
Context {P : Platform}.

Lemma exec_all_inv (Q : World SubscriptionRequests.SubscriptionRequest -> Prop) :
  (forall op env w, Q w -> Q (exec op env w)) ->
  forall ops w, Q w -> Q (exec_all ops w).
Proof.
  intros Step. induction ops as [|[op env] ops IH]; intros w H; cbn [exec_all];
    [exact H|]. apply IH, Step, H.
Qed.

Lemma exec_db_inv (Q : Db SubscriptionRequests.SubscriptionRequest -> Prop)
    (op : Operation) env w :
  Q (db w) ->
  (forall w', handler op env (mkWorld (db w) (scheduled w) (console w) 0 0) =
                (Ok tt, w') -> Q (db w')) ->
  Q (db (exec op env w)).
Proof.
  intros H Step. destruct (exec_cases op env w) as [(w' & E & ->)| ->]; auto.
Qed.

End Sequences.

(** * What the other handlers have done when they return *)

Ltac inv_admin H adminEmail :=
  let E := fresh "E" in
  let admin := fresh "admin" in
  let w1 := fresh "w" in
  apply bind_inv in H as [(admin & w1 & E & H)|(? & ? & ?)]; [|discriminate];
  let E' := fresh "Ha" in
  pose proof E as E';
  let Hw := fresh "Hw" in
  pose proof (pure_inv _ _ _ _ _ (pure_requireAdmin adminEmail) E) as Hw;
  match type of Hw with ?x = _ => subst x end; clear E.

Section MoreReturns.
Context {P : Platform} {Req : Type}.

Lemma filter_filter {A} (f g : A -> bool) (l : list A) :
  filter f (filter g l) = filter (fun x => g x && f x) l.
Proof.
  induction l as [|x l IH]; [reflexivity|]. cbn [filter].
  destruct (g x); cbn [filter andb]; [destruct (f x)|]; now rewrite IH.
Qed.

Lemma delete_all_filter {D} (T : TableRef Req D) rows env (w : World Req) a w' :
  (forall x d, t_get T (t_set T x d) = x) ->
  Subscriptions.delete_all T rows env w = (Ok a, w') ->
  t_get T (db w') =
    filter (fun r => negb (existsb (Z.eqb (fst r)) (map fst rows))) (t_get T (db w)).
Proof.
  intros Law. revert w. induction rows as [|[id d] rows IH]; intros w H;
    cbn [Subscriptions.delete_all] in H.
  - injection H as <- <-. cbn [map existsb negb].
    induction (t_get T (db w)) as [|x l IHl]; [reflexivity|]. cbn [filter]. now f_equal.
  - apply bind_inv in H as [(u & w1 & E & H)|(e & E & ?)]; [|discriminate].
    apply db_delete_inv in E as [_ ->]. rewrite (IH _ H). cbn [db]. rewrite Law.
    unfold remove_row. rewrite filter_filter. apply filter_ext. intros r.
    cbn [map fst existsb]. now rewrite negb_orb.
Qed.

Lemma credentials_remove_ok_inv adminEmail id env (w : World Req) a w' :
  Credentials.remove adminEmail id env w = (Ok a, w') ->
  exists cred,
    lookup (credentials (db w)) id = Some cred /\
    db w' = t_set Credentials (remove_row id (credentials (db w))) (db w).
Proof.
  intros H. unfold Credentials.remove in H.
  inv_admin H adminEmail. inv_run H.
  apply db_delete_inv in H as [_ ->]. eauto.
Qed.

Import Subscriptions.

Lemma subscriptions_create_ok_inv adminEmail args env (w : World Req) id w' :
  create adminEmail args env w = (Ok id, w') ->
  exists admin common cat cur ref c n,
    requireAdmin adminEmail env w = (Ok admin, w) /\
    validateAndSanitizeCommonFields (a_name args) (a_description args)
      (Some (a_provider args)) 0 1000 = Ok common /\
    validateCost (a_cost args) = Ok tt /\
    validateDateString (a_nextRenewalDate args) = true /\
    validateNotificationDays (a_notificationDaysBefore args) = Ok tt /\
    lookup (categories (db w)) (a_categoryId args) = Some cat /\
    lookup (currencies (db w)) (a_currencyId args) = Some cur /\
    cur_isActive cur = true /\
    generateReferenceNumber entity_subscription env w = (Ok ref, allocated c n w) /\
    id = n /\
    db w' =
      fresh_id
        (t_set Subscriptions
           (subscriptions (db w) ++
            [(n, mkSubscription ref (common_name common) (common_description common)
                   (orEmpty (common_provider common)) (a_categoryId args) (a_cost args)
                   (a_currencyId args) (a_billingCycle args) (a_nextRenewalDate args)
                   (a_paymentMethod args) (a_status args) (a_notificationEnabled args)
                   (a_notificationDaysBefore args))])
           (db (allocated c n w))).
Proof.
  intros H. unfold create in H.
  inv_admin H adminEmail. inv_run H.
  match goal with
  | E : generateReferenceNumber _ _ _ = _ |- _ =>
      destruct (generateReferenceNumber_ok _ _ _ _ _ E) as (cs & n & -> & _)
  end.
  unfold db_insert in H. injection H as <- <-. simpl_world.
  repeat match goal with u : unit |- _ => destruct u end.
  do 7 eexists. repeat split; try eassumption; try reflexivity.
  - match goal with H : negb _ = false |- validateDateString _ = true =>
      now apply negb_false_iff in H end.
  - match goal with H : negb (cur_isActive _) = false |- _ =>
      now apply negb_false_iff in H end.
Qed.

Lemma subscriptions_update_ok_inv adminEmail id data env (w : World Req) res w' :
  update adminEmail id data env w = (Ok res, w') ->
  exists admin common existing cat cur provider,
    requireAdmin adminEmail env w = (Ok admin, w) /\
    validateAndSanitizeCommonFields (a_name data) (a_description data)
      (Some (a_provider data)) 0 1000 = Ok common /\
    common_provider common = Some provider /\
    validateCost (a_cost data) = Ok tt /\
    validateDateString (a_nextRenewalDate data) = true /\
    validateNotificationDays (a_notificationDaysBefore data) = Ok tt /\
    lookup (subscriptions (db w)) id = Some existing /\
    lookup (categories (db w)) (a_categoryId data) = Some cat /\
    lookup (currencies (db w)) (a_currencyId data) = Some cur /\
    res = id /\
    db w' =
      t_set Subscriptions
        (update_row id
           (fun s => mkSubscription (sub_referenceNumber s) (common_name common)
                       (common_description common) provider
                       (a_categoryId data) (a_cost data) (a_currencyId data)
                       (a_billingCycle data) (a_nextRenewalDate data)
                       (a_paymentMethod data) (a_status data)
                       (a_notificationEnabled data) (a_notificationDaysBefore data))
           (subscriptions (db w)))
        (db w).
Proof.
  intros H. unfold update in H.
  inv_admin H adminEmail. inv_run H. simpl_world.
  repeat match goal with u : unit |- _ => destruct u end.
  do 6 eexists. repeat split; try eassumption; try reflexivity.
  match goal with H : negb _ = false |- validateDateString _ = true =>
    now apply negb_false_iff in H end.
Qed.

Lemma subscriptions_remove_ok_inv adminEmail id env (w : World Req) a w' :
  remove adminEmail id env w = (Ok a, w') ->
  exists s,
    lookup (subscriptions (db w)) id = Some s /\
    subscriptions (db w') = remove_row id (subscriptions (db w)) /\
    credentials (db w') =
      filter (fun r => negb (existsb (Z.eqb (fst r))
                               (map fst (select (fun c => cred_subscriptionId c =? id)
                                           (credentials (db w))))))
        (credentials (db w)) /\
    auditLogs (db w') =
      filter (fun r => negb (existsb (Z.eqb (fst r))
                               (map fst (select (fun l => log_subscriptionId l =? id)
                                           (auditLogs (db w))))))
        (auditLogs (db w)) /\
    categories (db w') = categories (db w) /\
    currencies (db w') = currencies (db w) /\
    subscriptionRequests (db w') = subscriptionRequests (db w) /\
    users (db w') = users (db w) /\ counters (db w') = counters (db w) /\
    rateLimits (db w') = rateLimits (db w).
Proof.
  intros H. unfold remove in H.
  inv_admin H adminEmail. inv_run H.
  apply db_delete_inv in H as [_ ->]. simpl_world.
  match goal with
  | E1 : delete_all Credentials _ _ w = (Ok _, ?w1),
    E2 : delete_all AuditLogs _ _ ?w1 = (Ok _, ?w2) |- _ =>
      pose proof (delete_all_filter Credentials _ _ _ _ _ (fun _ _ => eq_refl) E1) as F1;
      pose proof (delete_all_filter AuditLogs _ _ _ _ _ (fun _ _ => eq_refl) E2) as F2;
      pose proof (fun D (T : TableRef Req D) A =>
                    keeps_inv T _ _ _ _ _ (keeps_delete_all T Credentials _ A) E1) as K1;
      pose proof (fun D (T : TableRef Req D) A =>
                    keeps_inv T _ _ _ _ _ (keeps_delete_all T AuditLogs _ A) E2) as K2
  end.
  pose proof (K1 _ Subscriptions ltac:(solve_apart)).
  pose proof (K2 _ Subscriptions ltac:(solve_apart)).
  pose proof (K2 _ Credentials ltac:(solve_apart)).
  pose proof (K1 _ AuditLogs ltac:(solve_apart)).
  pose proof (K1 _ Categories ltac:(solve_apart)).
  pose proof (K2 _ Categories ltac:(solve_apart)).
  pose proof (K1 _ Currencies ltac:(solve_apart)).
  pose proof (K2 _ Currencies ltac:(solve_apart)).
  pose proof (K1 _ SubscriptionRequests ltac:(solve_apart)).
  pose proof (K2 _ SubscriptionRequests ltac:(solve_apart)).
  pose proof (K1 _ Users ltac:(solve_apart)).
  pose proof (K2 _ Users ltac:(solve_apart)).
  pose proof (K1 _ Counters ltac:(solve_apart)).
  pose proof (K2 _ Counters ltac:(solve_apart)).
  pose proof (K1 _ RateLimits ltac:(solve_apart)).
  pose proof (K2 _ RateLimits ltac:(solve_apart)).
  clear K1 K2. simpl_world.
  eexists. split; [reflexivity|]. repeat split; congruence.
Qed.

(** One row of a bulk import: nothing is written, or a counter moves and
    one subscription is added. *)
Lemma bulkCreate_row_cases cats curs i sub env (w : World Req) r w' :
  bulkCreate_row cats curs i sub env w = (r, w') ->
  db w' = db w \/
  exists common ref c n,
    validateAndSanitizeCommonFields (a_name sub) (a_description sub)
      (Some (a_provider sub)) 0 1000 = Ok common /\
    validateCost (a_cost sub) = Ok tt /\
    validateNotificationDays (a_notificationDaysBefore sub) = Ok tt /\
    has cats (a_categoryId sub) = true /\ has curs (a_currencyId sub) = true /\
    generateReferenceNumber entity_subscription env w = (Ok ref, allocated c n w) /\
    db w' =
      fresh_id
        (t_set Subscriptions
           (subscriptions (db w) ++
            [(n, mkSubscription ref (common_name common) (common_description common)
                   (orEmpty (common_provider common)) (a_categoryId sub) (a_cost sub)
                   (a_currencyId sub) (a_billingCycle sub) (a_nextRenewalDate sub)
                   (a_paymentMethod sub) (a_status sub) (a_notificationEnabled sub)
                   (a_notificationDaysBefore sub))])
           (db (allocated c n w))).
Proof.
  unfold bulkCreate_row, try_catch, bind, lift.
  destruct (validateAndSanitizeCommonFields _ _ _ _ _) as [common|e] eqn:V1;
    [|intros H; injection H as <- <-; now left].
  destruct (validateCost _) as [[]|e] eqn:V2;
    [|intros H; injection H as <- <-; now left].
  destruct (validateDateString _); cbn [negb];
    [|intros H; injection H as <- <-; now left].
  unfold ret at 1. cbv beta iota.
  destruct (validateNotificationDays _) as [[]|e] eqn:V3;
    [|intros H; injection H as <- <-; now left].
  destruct (has cats _) eqn:V4; cbn [negb];
    [|intros H; injection H as <- <-; now left].
  unfold ret at 1. cbv beta iota.
  destruct (has curs _) eqn:V5; cbn [negb];
    [|intros H; injection H as <- <-; now left].
  unfold ret at 1. cbv beta iota.
  destruct (generateReferenceNumber entity_subscription env w) as [[ref|e] w1] eqn:G.
  - destruct (generateReferenceNumber_ok _ _ _ _ _ G) as (c & n & -> & _).
    unfold db_insert, ret. cbv beta iota zeta. intros H. injection H as <- <-.
    right. exists common, ref, c, n. repeat split; assumption.
  - pose proof (generateReferenceNumber_safe entity_subscription env w e w1 G)
      as (Hd & _).
    unfold ret. intros H. injection H as <- <-. now left.
Qed.

(** What holds of the store before a bulk import and is kept by every row
    holds after it. *)
Lemma bulkCreate_loop_inv (Q : Db Req -> Prop) cats curs subs :
  (forall i sub env w r w',
     In sub subs -> Q (db w) ->
     bulkCreate_row cats curs i sub env w = (r, w') -> Q (db w')) ->
  forall i acc env (w : World Req) r w',
    Q (db w) -> bulkCreate_loop cats curs i subs acc env w = (r, w') -> Q (db w').
Proof.
  induction subs as [|sub subs IH]; intros Step i acc env w r w' HQ H;
    cbn [bulkCreate_loop] in H.
  - injection H as <- <-. exact HQ.
  - apply bind_inv in H as [(x & w1 & E & H)|(e & E & ?)].
    + eapply (IH (fun i s env w r w' Hin => Step i s env w r w' (or_intror Hin)));
        [|exact H].
      eapply Step; [now left|exact HQ|exact E].
    + eapply Step; [now left|exact HQ|exact E].
Qed.

Lemma bulkCreate_ok_inv (Q : Db Req -> Prop) adminEmail subs env (w : World Req) r w' :
  bulkCreate adminEmail subs env w = (Ok r, w') ->
  Q (db w) ->
  (forall cats curs i sub env w r w',
     (forall id, has cats id = true -> lookup (categories (db w)) id <> None) ->
     (forall id, has curs id = true -> lookup (currencies (db w)) id <> None) ->
     Q (db w) -> bulkCreate_row cats curs i sub env w = (r, w') ->
     Q (db w') /\ categories (db w') = categories (db w) /\
     currencies (db w') = currencies (db w)) ->
  Q (db w').
Proof.
  intros H HQ Step. unfold bulkCreate in H.
  inv_admin H adminEmail.
  destruct (100 <? _); [discriminate H|].
  apply bind_inv in H as [(d & w1 & E & H)|(? & ? & ?)]; [|discriminate].
  unfold read_db in E. injection E as <- <-. cbv zeta in H.
  apply bind_inv in H as [(rs & w1 & E & H)|(? & ? & ?)]; [|discriminate].
  unfold ret in H. injection H as <- <-.
  match type of E with
  | bulkCreate_loop ?cats ?curs _ _ _ _ _ = _ =>
      pose (Q' := fun d : Db Req =>
                    Q d /\
                    (forall id, has cats id = true -> lookup (categories d) id <> None) /\
                    (forall id, has curs id = true -> lookup (currencies d) id <> None));
      refine (proj1 (bulkCreate_loop_inv Q' cats curs subs _ _ _ _ _ _ _ _ E))
  end.
  - intros i sub env0 w0 r0 w0' _ (H1 & H2 & H3) E0.
    destruct (Step _ _ i sub env0 w0 r0 w0' H2 H3 H1 E0) as (K1 & K2 & K3).
    split; [exact K1|]. rewrite K2, K3. auto.
  - split; [exact HQ|]. split; intros id Hid; unfold has in Hid;
      apply existsb_exists in Hid as (x & Hx & E'); apply Z.eqb_eq in E'; subst x;
      apply filter_In in Hx as [_ Hx].
    + destruct (lookup (categories (db w)) id); [discriminate|discriminate Hx].
    + destruct (lookup (currencies (db w)) id); [discriminate|discriminate Hx].
Qed.

End MoreReturns.

Section ReferenceData.
Context {P : Platform}.

Lemma existsb_all_false {D} (f : Id * D -> bool) (t : Table D) :
  existsb f (select (fun _ => true) t) = false -> forall x, In x t -> f x = false.
Proof.
  intros H x Hin. apply not_true_iff_false. intros E.
  rewrite <- not_true_iff_false in H. apply H.
  apply existsb_exists. exists x. split; [apply filter_In; auto|exact E].
Qed.

Lemma first_none {D} (p : D -> bool) (t : Table D) :
  hd_error (select p t) = None -> forall x, In x t -> p (snd x) = false.
Proof.
  intros H x Hin. apply not_true_iff_false. intros E.
  assert (In x (select p t)) as K by (apply filter_In; auto).
  destruct (select p t); [contradiction|discriminate H].
Qed.

Ltac all_false :=
  repeat match goal with
  | H : existsb _ _ = false |- _ =>
      let K := fresh "K" in pose proof (existsb_all_false _ _ H) as K; clear H
  | H : hd_error _ = None |- _ =>
      let K := fresh "K" in pose proof (first_none _ _ H) as K; clear H
  end.

Lemma categories_create_ok_inv adminEmail name description color env
    (w : World SubscriptionRequests.SubscriptionRequest) id w' :
  Categories.create adminEmail name description color env w = (Ok id, w') ->
  Categories.check_fields (sanitizeString name) (sanitizeString description) color =
    Ok tt /\
  (forall x, In x (categories (db w)) ->
             toLowerCase (cat_name (snd x)) <> toLowerCase (sanitizeString name)) /\
  id = nextId (db w) /\
  db w' =
    fresh_id
      (t_set Categories
         (categories (db w) ++
          [(nextId (db w),
            mkCategory (sanitizeString name) (sanitizeString description) color)])
         (db w)).
Proof.
  intros H. unfold Categories.create in H.
  inv_admin H adminEmail. cbv zeta in H. inv_run H.
  unfold db_insert in H. injection H as <- <-. simpl_world.
  repeat match goal with u : unit |- _ => destruct u end.
  split; [assumption|]. split; [|split; reflexivity].
  match goal with
  | H : existsb _ _ = false |- _ =>
      intros x Hin Hlow; apply (existsb_all_false _ _ H) in Hin;
      apply eqb_eq in Hlow; congruence
  end.
Qed.

Lemma categories_update_ok_inv adminEmail id name description color env
    (w : World SubscriptionRequests.SubscriptionRequest) res w' :
  Categories.update adminEmail id name description color env w = (Ok res, w') ->
  Categories.check_fields (sanitizeString name) (sanitizeString description) color =
    Ok tt /\
  lookup (categories (db w)) id <> None /\
  (forall x, In x (categories (db w)) -> fst x <> id ->
             toLowerCase (cat_name (snd x)) <> toLowerCase (sanitizeString name)) /\
  res = id /\
  db w' =
    t_set Categories
      (update_row id
         (fun _ => mkCategory (sanitizeString name) (sanitizeString description) color)
         (categories (db w)))
      (db w).
Proof.
  intros H. unfold Categories.update in H.
  inv_admin H adminEmail. cbv zeta in H. inv_run H; simpl_world;
    repeat match goal with u : unit |- _ => destruct u end;
    (split; [assumption|]); (split; [congruence|]);
    (split; [|split; reflexivity]);
    match goal with
    | H : existsb _ _ = false |- _ =>
        intros x Hin N Hlow; apply (existsb_all_false _ _ H) in Hin;
        apply eqb_eq in Hlow; rewrite Hlow in Hin;
        apply Z.eqb_neq in N; rewrite N in Hin; discriminate Hin
    end.
Qed.

Lemma categories_remove_ok_inv adminEmail id env
    (w : World SubscriptionRequests.SubscriptionRequest) a w' :
  Categories.remove adminEmail id env w = (Ok a, w') ->
  (forall x, In x (subscriptions (db w)) -> sub_categoryId (snd x) <> id) /\
  (forall x, In x (subscriptionRequests (db w)) ->
             SubscriptionRequests.req_categoryId (snd x) <> id) /\
  db w' = t_set Categories (remove_row id (categories (db w))) (db w).
Proof.
  intros H. unfold Categories.remove in H.
  inv_admin H adminEmail. inv_run H.
  apply db_delete_inv in H as [_ ->]. simpl_world. all_false.
  split; [|split; [|reflexivity]]; intros x Hin Hid;
    match goal with
    | H : forall x, In x _ -> _ = false |- _ =>
        apply H in Hin; cbv beta in Hin; apply Z.eqb_neq in Hin; contradiction
    end.
Qed.

Lemma currencies_updateExchangeRate_ok_inv code exchangeRate env (w : World SubscriptionRequests.SubscriptionRequest) res w' :
  Currencies.updateExchangeRate code exchangeRate env w = (Ok res, w') ->
  db w' = db w \/
  exists id,
    db w' =
      t_set Currencies
        (update_row id
           (fun c => mkCurrency (cur_code c) (cur_name c) (cur_symbol c) exchangeRate
                       (cur_isActive c))
           (currencies (db w)))
        (db w).
Proof.
  intros H. unfold Currencies.updateExchangeRate in H.
  inv_run H; simpl_world; [right; eauto|now left].
Qed.

Lemma currencies_create_ok_inv adminEmail code name symbol exchangeRate isActive env
    (w : World SubscriptionRequests.SubscriptionRequest) id w' :
  Currencies.create adminEmail code name symbol exchangeRate isActive env w =
    (Ok id, w') ->
  2 <= JsString.length (trim (toUpperCase code)) <= 5 /\
  forallb (between 65 90) (trim (toUpperCase code)) = true /\
  Currencies.check_name_symbol_rate (sanitizeString name) (sanitizeString symbol)
    exchangeRate = Ok tt /\
  select (Currencies.by_code (trim (toUpperCase code))) (currencies (db w)) = [] /\
  id = nextId (db w) /\
  db w' =
    fresh_id
      (t_set Currencies
         (currencies (db w) ++
          [(nextId (db w),
            mkCurrency (trim (toUpperCase code)) (sanitizeString name)
              (sanitizeString symbol) exchangeRate isActive)])
         (db w)).
Proof.
  intros H. unfold Currencies.create in H.
  inv_admin H adminEmail. cbv zeta in H.
  destruct (_ || _) eqn:C1 in H; [discriminate H|].
  destruct (negb _) eqn:C2 in H; [discriminate H|].
  inv_run H.
  unfold db_insert in H. injection H as <- <-. simpl_world.
  repeat match goal with u : unit |- _ => destruct u end.
  apply orb_false_iff in C1 as [C1 C1']. apply orb_false_iff in C1 as [C1 C1''].
  apply Z.ltb_ge in C1', C1''. apply negb_false_iff in C2.
  split; [lia|]. split; [assumption|]. split; [assumption|].
  split; [|split; reflexivity].
  match goal with
  | E : db_unique _ _ _ _ = (Ok None, _) |- _ =>
      apply db_unique_inv in E as [_ E]; cbn [t_get Currencies] in E;
      destruct (select _ (currencies (db w))) as [|? [|? ?]]; congruence
  end.
Qed.

Lemma currencies_update_ok_inv adminEmail id name symbol exchangeRate isActive env
    (w : World SubscriptionRequests.SubscriptionRequest) res w' :
  Currencies.update adminEmail id name symbol exchangeRate isActive env w =
    (Ok res, w') ->
  exists existing,
    lookup (currencies (db w)) id = Some existing /\
    Currencies.check_name_symbol_rate (sanitizeString name) (sanitizeString symbol)
      exchangeRate = Ok tt /\
    eqb (cur_code existing) (lit "INR") &&
      Currencies.number_neq exchangeRate (of_Z 1) = false /\
    res = id /\
    db w' =
      t_set Currencies
        (update_row id
           (fun c => mkCurrency (cur_code c) (sanitizeString name)
                       (sanitizeString symbol) exchangeRate isActive)
           (currencies (db w)))
        (db w).
Proof.
  intros H. unfold Currencies.update in H.
  inv_admin H adminEmail. cbv zeta in H. inv_run H. simpl_world.
  repeat match goal with u : unit |- _ => destruct u end.
  eexists. repeat split; try eassumption; reflexivity.
Qed.

Lemma currencies_toggleActive_ok_inv adminEmail id env (w : World SubscriptionRequests.SubscriptionRequest) res w' :
  Currencies.toggleActive adminEmail id env w = (Ok res, w') ->
  exists currency,
    lookup (currencies (db w)) id = Some currency /\
    eqb (cur_code currency) (lit "INR") && cur_isActive currency = false /\
    res = id /\
    db w' =
      t_set Currencies
        (update_row id
           (fun c => mkCurrency (cur_code c) (cur_name c) (cur_symbol c)
                       (cur_exchangeRate c) (negb (cur_isActive currency)))
           (currencies (db w)))
        (db w).
Proof.
  intros H. unfold Currencies.toggleActive in H.
  inv_admin H adminEmail. inv_run H. simpl_world.
  eexists. repeat split; try eassumption; reflexivity.
Qed.

Lemma currencies_remove_ok_inv adminEmail id env
    (w : World SubscriptionRequests.SubscriptionRequest) a w' :
  Currencies.remove adminEmail id env w = (Ok a, w') ->
  exists currency,
    lookup (currencies (db w)) id = Some currency /\
    cur_code currency <> lit "INR" /\
    (forall x, In x (subscriptions (db w)) -> sub_currencyId (snd x) <> id) /\
    (forall x, In x (subscriptionRequests (db w)) ->
               SubscriptionRequests.req_currencyId (snd x) <> id) /\
    db w' = t_set Currencies (remove_row id (currencies (db w))) (db w).
Proof.
  intros H. unfold Currencies.remove in H.
  inv_admin H adminEmail. inv_run H.
  apply db_delete_inv in H as [_ ->]. simpl_world. all_false.
  eexists. split; [reflexivity|].
  split; [intros Hc; match goal with H : eqb _ _ = false |- _ =>
                       rewrite Hc, eqb_refl in H; discriminate H end|].
  split; [|split; [|reflexivity]]; intros x Hin Hid;
    match goal with
    | H : forall x, In x ?t -> _ = false, Hin : In _ ?t |- _ =>
        apply H in Hin; cbv beta in Hin; apply Z.eqb_neq in Hin; contradiction
    end.
Qed.

Lemma createAdminInternal_ok_inv email name password env (w : World SubscriptionRequests.SubscriptionRequest) id w' :
  Auth.createAdminInternal email name password env w = (Ok id, w') ->
  validateEmail (trim (toLowerCase email)) = true /\
  select (fun u => eqb (user_email u) (trim (toLowerCase email))) (users (db w)) = [] /\
  id = nextId (db w) /\
  db w' =
    fresh_id
      (t_set Users
         (users (db w) ++
          [(nextId (db w),
            mkUser (trim (toLowerCase email)) (trim name) (bcrypt_hashSync password 12)
              (lit "admin"))])
         (db w)).
Proof.
  intros H. unfold Auth.createAdminInternal in H. cbv zeta in H.
  destruct (negb _) eqn:V in H; [discriminate H|]. apply negb_false_iff in V.
  inv_run H.
  unfold db_insert in H. injection H as <- <-. simpl_world.
  split; [assumption|]. split; [|split; reflexivity].
  match goal with
  | E : db_unique _ _ _ _ = (Ok None, _) |- _ =>
      apply db_unique_inv in E as [_ E]; cbn [t_get Users] in E;
      destruct (select _ (users (db w))) as [|? [|? ?]]; congruence
  end.
Qed.

End ReferenceData.

Section Submission.
Context {P : Platform}.
Import SubscriptionRequests.

Lemma db_unique_select {Req D} (T : TableRef Req D) p env (w : World Req) r w' :
  db_unique T p env w = (Ok r, w') ->
  match r with
  | None => select p (t_get T (db w)) = []
  | Some x => select p (t_get T (db w)) = [x]
  end.
Proof.
  intros H. apply db_unique_inv in H as [_ H].
  destruct (select p (t_get T (db w))) as [|x [|y rest]]; try discriminate H;
    injection H as ->; reflexivity.
Qed.

Lemma submit_ok_full args env (w : World SubscriptionRequest) id ref w' :
  submit args env w = (Ok (id, ref), w') ->
  exists common provider cat cur globalLimit emailLimit c n,
    validateAndSanitizeCommonFields (s_name args) (s_description args)
      (Some (s_provider args)) 10 1000 = Ok common /\
    common_provider common = Some provider /\
    JsNumber.le (s_cost args) (of_Z 0) = false /\
    validateCost (s_cost args) = Ok tt /\
    validateStringLength (sanitizeString (s_requestedBy args)) "Name" 2 100 = Ok tt /\
    validateEmail (trim (toLowerCase (s_requesterEmail args))) = true /\
    validateStringLength (sanitizeString (s_requesterDepartment args))
      "Department" 2 100 = Ok tt /\
    validateStringLength (sanitizeString (s_justification args))
      "Justification" 20 2000 = Ok tt /\
    lookup (categories (db w)) (s_categoryId args) = Some cat /\
    lookup (currencies (db w)) (s_currencyId args) = Some cur /\
    cur_isActive cur = true /\
    match globalLimit with
    | None => select (by_key (lit "global")) (rateLimits (db w)) = []
    | Some x => select (by_key (lit "global")) (rateLimits (db w)) = [x]
    end /\
    match emailLimit with
    | None =>
        select (by_key (lit "email:" ++ trim (toLowerCase (s_requesterEmail args))))
          (rateLimits (db w)) = []
    | Some x =>
        select (by_key (lit "email:" ++ trim (toLowerCase (s_requesterEmail args))))
          (rateLimits (db w)) = [x]
    end /\
    generateReferenceNumber entity_request env
      (mkWorld (db w) (scheduled w) (console w) (S (ticks w)) (draws w)) =
      (Ok ref, allocated c n
                 (mkWorld (db w) (scheduled w) (console w) (S (ticks w)) (draws w))) /\
    subscriptionRequests (db w') =
      subscriptionRequests (db w) ++
      [(id, mkRequest ref (common_name common) (common_description common) provider
              (s_categoryId args) (s_cost args) (s_currencyId args)
              (s_billingCycle args) (sanitizeString (s_requestedBy args))
              (trim (toLowerCase (s_requesterEmail args)))
              (sanitizeString (s_requesterDepartment args))
              (sanitizeString (s_justification args)) pending None None None)] /\
    counters (db w') = c /\
    rateLimits (db w') =
      updatedLimits emailLimit
        (lit "email:" ++ trim (toLowerCase (s_requesterEmail args)))
        (env_clock env (ticks w)) (env_clock env (ticks w) - RATE_LIMIT_WINDOW_MS)
        (nextIdAfter globalLimit n)
        (updatedLimits globalLimit (lit "global") (env_clock env (ticks w))
           (env_clock env (ticks w) - RATE_LIMIT_WINDOW_MS) n (rateLimits (db w))) /\
    categories (db w') = categories (db w) /\
    currencies (db w') = currencies (db w) /\
    subscriptions (db w') = subscriptions (db w) /\
    credentials (db w') = credentials (db w) /\
    auditLogs (db w') = auditLogs (db w) /\
    users (db w') = users (db w).
Proof.
  intros H. unfold submit in H.
  inv_run H;
  match goal with
  | E : generateReferenceNumber _ _ _ = _ |- _ =>
      pose proof E as G;
      destruct (generateReferenceNumber_ok _ _ _ _ _ E) as (cs & n & -> & _)
  end;
  repeat match goal with
  | E : updateCounter _ _ _ _ _ _ = _ |- _ => apply updateCounter_inv in E as ->
  end;
  repeat match goal with
  | E : db_unique _ _ _ _ = _ |- _ => apply db_unique_select in E
  end;
  repeat match goal with u : unit |- _ => destruct u end;
  simpl_world;
  match goal with H : db w' = _ |- _ => rewrite H end; simpl_world;
  match goal with H : negb (validateEmail _) = false |- _ =>
    apply negb_false_iff in H end;
  match goal with H : negb (cur_isActive _) = false |- _ =>
    apply negb_false_iff in H end;
  do 8 eexists; repeat split; try eassumption; try reflexivity.
Qed.

End Submission.

Section Approval.
Context {P : Platform}.
Import SubscriptionRequests.

Lemma approve_ok_db adminEmail id adminNotes env (w : World SubscriptionRequest)
    res w' :
  approve adminEmail id adminNotes env w = (Ok res, w') ->
  exists admin r c n ref date reviewedAt,
    lookup (subscriptionRequests (db w)) id = Some r /\
    generateReferenceNumber entity_subscription env w = (Ok ref, allocated c n w) /\
    db w' =
      t_set SubscriptionRequests
        (update_row id
           (review approved (sanitize_optional adminNotes) (admin_email admin)
              reviewedAt)
           (subscriptionRequests (db w)))
        (fresh_id
           (t_set Subscriptions
              (subscriptions (db w) ++
               [(n, mkSubscription ref (req_name r) (req_description r)
                      (req_provider r) (req_categoryId r) (req_cost r)
                      (req_currencyId r) (req_billingCycle r) date other_method
                      sub_active true (of_Z 7))])
              (db (allocated c n w)))).
Proof.
  intros H. unfold approve in H.
  inv_admin H adminEmail.
  inv_run H;
  match goal with
  | E : generateReferenceNumber _ _ _ = _ |- _ =>
      pose proof E as G;
      destruct (generateReferenceNumber_ok _ _ _ _ _ E) as (cs & n & -> & _)
  end;
  simpl_world; same_lookup;
  match goal with H : db w' = _ |- _ => rewrite H end; simpl_world;
  do 7 eexists; repeat split; try eassumption; try reflexivity.
Qed.

End Approval.

Section Counters.
Context {Req : Type}.

(** An allocation keeps the names of the counters distinct. *)
Lemma allocation_unique_by (type : EntityType) env (w : World Req) ref c n :
  generateReferenceNumber type env w = (Ok ref, allocated c n w) ->
  unique_by counter_name (counters (db w)) -> unique_by counter_name c.
Proof.
  intros H U.
  pose proof (generateReferenceNumber_spec type env w) as S. cbv zeta in S.
  destruct (select _ (counters (db w))) as [|[id c0] [|y rest]] eqn:E;
    rewrite S in H; try discriminate H; injection H as _ <- _.
  - apply unique_by_app; [|exact U]. intros i d Hin K.
    pose proof (select_nil_not _ _ i d E Hin) as N. unfold by_name in N.
    rewrite K in N. cbn [counter_name] in N. rewrite eqb_refl in N. discriminate N.
  - apply unique_by_update_row; [reflexivity|exact U].
Qed.

Lemma updatedLimits_in limit key now ws n (rl : Table RateLimit) x :
  In x (updatedLimits limit key now ws n rl) ->
  rl_key (snd x) = key \/ exists y, In y rl /\ rl_key (snd y) = rl_key (snd x).
Proof.
  unfold updatedLimits. destruct limit as [[id r]|].
  - destruct (ws <? rl_windowStart r); intros H;
      apply update_row_in in H as [[H _]|(d & H & ->)]; right;
      eexists; (split; [exact H|reflexivity]).
  - intros H. apply in_app_iff in H as [H|[<-|[]]]; [right; eauto|now left].
Qed.

Lemma updatedLimits_unique limit key now ws n (rl : Table RateLimit) :
  (limit = None -> forall x, In x rl -> rl_key (snd x) <> key) ->
  unique_by rl_key rl -> unique_by rl_key (updatedLimits limit key now ws n rl).
Proof.
  intros Hn U. unfold updatedLimits. destruct limit as [[id r]|].
  - destruct (ws <? rl_windowStart r); apply unique_by_update_row;
      (reflexivity || exact U).
  - apply unique_by_app; [|exact U]. intros i d Hin.
    apply (Hn eq_refl (i, d) Hin).
Qed.

End Counters.

(** * The tables an operation leaves alone *)

Ltac keeps_op :=
  cbn [handler];
  first [ solve [autounfold with handlers; cbv zeta; keeps_tac]
        | solve [unfold Subscriptions.bulkCreate; cbv zeta; keeps_tac;
                 apply keeps_bulkCreate_loop; solve_apart] ].

Section Footprints.
Context {P : Platform}.

Lemma keeps_users (op : Operation) :
  match op with
  | auth_createAdminInternal _ _ _ | seed_clearDatabase => True
  | _ => keeps Users (handler op)
  end.
Proof. destruct op; try exact I; keeps_op. Qed.

Lemma keeps_credentials (op : Operation) :
  match op with
  | credentials_create _ _ _ _ _ | credentials_update _ _ _ _ _
  | credentials_remove _ _ | subscriptions_remove _ _ | seed_clearDatabase => True
  | _ => keeps Credentials (handler op)
  end.
Proof. destruct op; try exact I; keeps_op. Qed.

Lemma keeps_categories (op : Operation) :
  match op with
  | categories_create _ _ _ _ | categories_update _ _ _ _ _
  | categories_remove _ _ | seed_clearDatabase => True
  | _ => keeps Categories (handler op)
  end.
Proof. destruct op; try exact I; keeps_op. Qed.

Lemma keeps_currencies (op : Operation) :
  match op with
  | currencies_updateExchangeRate _ _ | currencies_create _ _ _ _ _ _
  | currencies_update _ _ _ _ _ _ | currencies_toggleActive _ _
  | currencies_remove _ _ | seed_clearDatabase => True
  | _ => keeps Currencies (handler op)
  end.
Proof. destruct op; try exact I; keeps_op. Qed.

Lemma keeps_subscriptions (op : Operation) :
  match op with
  | subscriptions_create _ _ | subscriptions_update _ _ _
  | subscriptions_bulkCreate _ _ | subscriptions_remove _ _
  | requests_approve _ _ _ | seed_clearDatabase => True
  | _ => keeps Subscriptions (handler op)
  end.
Proof. destruct op; try exact I; keeps_op. Qed.

Lemma keeps_the_requests (op : Operation) :
  match op with
  | requests_submit _ | requests_approve _ _ _ | requests_reject _ _ _
  | requests_remove _ _ | seed_clearDatabase => True
  | _ => keeps SubscriptionRequests (handler op)
  end.
Proof. destruct op; try exact I; keeps_op. Qed.

Lemma keeps_the_log (op : Operation) :
  match op with
  | credentials_reveal _ _ _ | credentials_update _ _ _ _ _
  | subscriptions_remove _ _ | seed_clearDatabase => True
  | _ => keeps AuditLogs (handler op)
  end.
Proof. destruct op; try exact I; keeps_op. Qed.

Lemma keeps_counters (op : Operation) :
  match op with
  | subscriptions_create _ _ | subscriptions_bulkCreate _ _
  | requests_submit _ | requests_approve _ _ _ | seed_clearDatabase => True
  | _ => keeps Counters (handler op)
  end.
Proof. destruct op; try exact I; keeps_op. Qed.

Lemma keeps_rateLimits (op : Operation) :
  match op with
  | requests_submit _ | seed_clearDatabase => True
  | _ => keeps RateLimits (handler op)
  end.
Proof. destruct op; try exact I; keeps_op. Qed.

End Footprints.

(** * The vault: what is stored is what is revealed *)

Section VaultRoundTrip.
Context {P : Platform} {Req : Type}.
Import Credentials.

Lemma requireAdmin_users adminEmail env env' (w w' : World Req) :
  users (db w') = users (db w) ->
  fst (requireAdmin adminEmail env' w') = fst (requireAdmin adminEmail env w).
Proof.
  intros H. unfold requireAdmin. destruct (_ =? 0); [reflexivity|].
  unfold bind, db_unique. cbn [t_get Users]. rewrite H.
  destruct (select _ (users (db w))) as [|[id u] [|y rest]]; try reflexivity.
  destruct (negb _); reflexivity.
Qed.

Lemma requireAdmin_run adminEmail env (w : World Req) :
  requireAdmin adminEmail env w = (fst (requireAdmin adminEmail env w), w).
Proof.
  pose proof (pure_requireAdmin (Req:=Req) adminEmail env w) as H.
  destruct (requireAdmin adminEmail env w) as [r w']. cbn [fst snd] in *. now subst.
Qed.

Lemma requireAdmin_again adminEmail env env' (w w' : World Req) admin :
  requireAdmin adminEmail env w = (Ok admin, w) ->
  users (db w') = users (db w) ->
  requireAdmin adminEmail env' w' = (Ok admin, w').
Proof.
  intros H Hu. rewrite requireAdmin_run.
  rewrite (requireAdmin_users adminEmail env env' w w' Hu), H. reflexivity.
Qed.

Lemma getEncryptionKey_ok env (w : World Req) key :
  env_ENCRYPTION_KEY env = Some key -> 32 <= JsString.length key ->
  getEncryptionKey env w = (Ok key, w).
Proof.
  intros K L. unfold getEncryptionKey, bind, read_env. rewrite K.
  destruct key as [|c rest]; [cbn in L; lia|].
  destruct (Z.ltb_spec (JsString.length (c :: rest)) 32); [lia|reflexivity].
Qed.

(** A call of [reveal] with everything in place. *)
Lemma reveal_ok adminEmail subscriptionId action env (w : World Req)
    admin sub credId cred key password :
  requireAdmin adminEmail env w = (Ok admin, w) ->
  lookup (subscriptions (db w)) subscriptionId = Some sub ->
  select (by_subscription subscriptionId) (credentials (db w)) = [(credId, cred)] ->
  env_ENCRYPTION_KEY env = Some key -> 32 <= JsString.length key ->
  decrypt (cred_password cred) key = Ok password ->
  exists w', reveal adminEmail subscriptionId action env w =
               (Ok (cred_username cred, password), w').
Proof.
  intros Ha Hs Hc Hk Hl Hd. unfold reveal.
  rewrite (bind_ok _ _ _ _ _ _ Ha).
  rewrite (bind_ok _ _ _ _ _ _ (db_get_eq Subscriptions subscriptionId env w)).
  cbn [t_get Subscriptions]. rewrite Hs.
  erewrite bind_ok by (apply db_unique_one; exact Hc).
  cbv beta iota.
  rewrite (bind_ok _ _ _ _ _ _ (Date_now_eq env w)).
  unfold toISOString.
  erewrite bind_ok by reflexivity.
  erewrite bind_ok by reflexivity.
  erewrite bind_ok by (apply getEncryptionKey_ok; eassumption).
  rewrite Hd. eexists. reflexivity.
Qed.

Lemma decrypt_encrypt iv plaintext key c :
  List.length iv = 16%nat -> Forall byte iv ->
  well_formed plaintext = true -> hd 0 plaintext <> 0xFEFF ->
  encrypt iv plaintext key = Ok c -> 32 <= JsString.length key ->
  decrypt c key = Ok plaintext.
Proof.
  intros Hlen Hiv Hw Hbom H Hk.
  rewrite encrypt_ok in H by assumption. injection H as <-.
  unfold decrypt. rewrite key_check by assumption.
  rewrite atob_encode by (apply Forall_app; split; [assumption|apply xor_from_bytes]).
  rewrite firstn_exact, skipn_exact by assumption.
  rewrite xor_from_involutive by now apply TextEncoder_encode_bytes.
  now rewrite decode_encode.
Qed.

(** What [create] has done when it returns. *)
Lemma create_ok_inv adminEmail subscriptionId username password notes env
    (w : World Req) id w' :
  create adminEmail subscriptionId username password notes env w = (Ok id, w') ->
  exists admin sub key c,
    requireAdmin adminEmail env w = (Ok admin, w) /\
    1 <= JsString.length (sanitizeString username) <= 200 /\
    1 <= JsString.length password <= 500 /\
    lengthOr0 (sanitize_optional notes) <= 500 /\
    lookup (subscriptions (db w)) subscriptionId = Some sub /\
    select (by_subscription subscriptionId) (credentials (db w)) = [] /\
    env_ENCRYPTION_KEY env = Some key /\ 32 <= JsString.length key /\
    encrypt (env_random env (draws w)) password key = Ok c /\
    id = nextId (db w) /\
    w' = mkWorld
           (fresh_id
              (t_set Credentials
                 (credentials (db w) ++
                  [(nextId (db w),
                    mkCredential subscriptionId (sanitizeString username) c
                      (sanitize_optional notes))])
                 (db w)))
           (scheduled w) (console w) (ticks w) (S (draws w)).
Proof.
  intros H. unfold create in H.
  apply bind_inv in H as [(admin & w1 & E & H)|(? & ? & ?)]; [|discriminate].
  pose proof E as E'. inv_pure E' (pure_requireAdmin (Req:=Req) adminEmail).
  cbv zeta in H.
  destruct (_ || _) eqn:C1 in H; [discriminate H|].
  destruct (_ || _) eqn:C2 in H; [discriminate H|].
  destruct (_ && _) eqn:C3 in H; [discriminate H|].
  apply bind_inv in H as [(sub & w2 & E1 & H)|(? & ? & ?)]; [|discriminate].
  inv_eq E1.
  apply bind_inv in H as [(ex & w3 & E2 & H)|(? & ? & ?)]; [|discriminate].
  apply db_unique_inv in E2 as [-> E2]. cbn [t_get Credentials Subscriptions] in *.
  destruct (lookup (subscriptions (db w)) subscriptionId) as [sub|] eqn:Hs;
    [|discriminate H].
  destruct ex as [ex|]; [discriminate H|].
  destruct (select _ (credentials (db w))) as [|x [|y rest]] eqn:S; try discriminate E2.
  apply bind_inv in H as [(key & w4 & E3 & H)|(? & ? & ?)]; [|discriminate].
  apply getEncryptionKey_ok_inv in E3 as (-> & K & L).
  apply bind_inv in H as [(iv & w5 & E4 & H)|(? & ? & ?)]; [|discriminate].
  inv_eq E4.
  apply bind_inv in H as [(c & w6 & E5 & H)|(? & ? & ?)]; [|discriminate].
  unfold lift in E5. injection E5 as E5 <-.
  unfold db_insert in H. injection H as <- <-. simpl_world.
  exists admin, sub, key, c.
  apply orb_false_iff in C1 as [C1 C1']. apply orb_false_iff in C1 as [C1 C1''].
  apply orb_false_iff in C2 as [C2 C2']. apply orb_false_iff in C2 as [C2 C2''].
  apply Z.ltb_ge in C1', C1'', C2', C2''.
  repeat split; try assumption; try reflexivity; try lia.
  destruct (sanitize_optional notes) as [[|x l]|]; cbn [truthy lengthOr0] in *;
    try (unfold JsString.length; cbn [List.length]; lia).
  cbn [andb] in C3. apply Z.ltb_ge in C3. exact C3.
Qed.

End VaultRoundTrip.

(** X6: after [create] returned, [reveal] of the subscription by the same
    admin, with the same key in the environment, returns the sanitized
    username and the password as it was given (a well-formed string that
    does not start with U+FEFF; the random source gives 16 bytes). *)
Theorem create_then_reveal (P : Platform) (Req : Type)
    adminEmail subscriptionId username password notes action env env'
    (w w1 : World Req) id :
  mutation (Credentials.create adminEmail subscriptionId username password notes) env w =
    (Ok id, w1) ->
  List.length (env_random env 0) = 16%nat -> Forall byte (env_random env 0) ->
  well_formed password = true -> hd 0 password <> 0xFEFF ->
  env_ENCRYPTION_KEY env' = env_ENCRYPTION_KEY env ->
  exists w2,
    mutation (Credentials.reveal adminEmail subscriptionId action) env' w1 =
      (Ok (sanitizeString username, password), w2).
Proof.
  intros H Hlen Hiv Hw Hbom Hkey.
  apply mutation_ok_inv in H.
  apply create_ok_inv in H
    as (admin & sub & key & c & Ha & _ & _ & _ & Hs & Hc & Hk & Hl & He & _ & Hw1).
  simpl_world. unfold mutation.
  set (w1' := mkWorld (db w1) (scheduled w1) (console w1) 0 0).
  destruct (reveal_ok adminEmail subscriptionId action env' w1' admin sub
              (nextId (db w))
              (mkCredential subscriptionId (sanitizeString username) c
                 (sanitize_optional notes)) key password) as [w2 E].
  - eapply requireAdmin_again; [exact Ha|]. subst w1' w1. reflexivity.
  - subst w1' w1. exact Hs.
  - subst w1' w1. simpl_world. rewrite select_app, Hc. cbn [snd app].
    unfold Credentials.by_subscription at 1. cbn [cred_subscriptionId].
    rewrite Z.eqb_refl. reflexivity.
  - rewrite Hkey. exact Hk.
  - exact Hl.
  - cbn [cred_password]. eapply decrypt_encrypt; eassumption.
  - cbn [cred_username] in E. rewrite E. eexists. reflexivity.
Qed.

Lemma create_then_reveal_witness :
  exists w2,
    mutation (Credentials.reveal (P := Sample.platform) (Req := unit)
                SampleData.admin_email 20 Credentials.reveal_viewed)
      SampleData.sample_env
      (snd (mutation (Credentials.create (P := Sample.platform) (Req := unit)
                        SampleData.admin_email 20 (lit "design@company.com")
                        (lit "hunter2") None)
              SampleData.sample_env SampleStore.open_world)) =
      (Ok (sanitizeString (lit "design@company.com"), lit "hunter2"), w2).
Proof.
  apply (create_then_reveal Sample.platform unit SampleData.admin_email 20
           (lit "design@company.com") (lit "hunter2") None Credentials.reveal_viewed
           SampleData.sample_env SampleData.sample_env SampleStore.open_world _ 30).
  - vm_compute. reflexivity.
  - reflexivity.
  - repeat constructor; unfold byte; lia.
  - reflexivity.
  - vm_compute. discriminate.
  - reflexivity.
Defined.

Section VaultUpdate.
Context {P : Platform} {Req : Type}.
Import Credentials.

Lemma lookup_some_in {D} (t : Table D) id d : lookup t id = Some d -> In (id, d) t.
Proof.
  unfold lookup. destruct (find _ t) as [[i x]|] eqn:F; [|discriminate].
  intros H. injection H as <-. apply find_some in F as [Hin E].
  cbn [fst] in E. apply Z.eqb_eq in E. now subst.
Qed.

Lemma single_select {D} (p : D -> bool) (t : Table D) id d :
  In (id, d) t -> p d = true -> (List.length (select p t) <= 1)%nat ->
  select p t = [(id, d)].
Proof.
  intros Hin Hp Hl.
  assert (In (id, d) (select p t)) as H by (apply filter_In; auto).
  destruct (select p t) as [|x [|y rest]]; [contradiction| |cbn in Hl; lia].
  destruct H as [->|[]]. reflexivity.
Qed.

(** What [update] has done when it returns. *)
Lemma update_ok_full adminEmail id username password notes env (w : World Req) res w' :
  update adminEmail id username password notes env w = (Ok res, w') ->
  exists admin cred sub key c,
    requireAdmin adminEmail env w = (Ok admin, w) /\
    1 <= JsString.length (sanitizeString username) <= 200 /\
    1 <= JsString.length password <= 500 /\
    lookup (credentials (db w)) id = Some cred /\
    lookup (subscriptions (db w)) (cred_subscriptionId cred) = Some sub /\
    env_ENCRYPTION_KEY env = Some key /\ 32 <= JsString.length key /\
    encrypt (env_random env (draws w)) password key = Ok c /\
    res = id /\
    users (db w') = users (db w) /\
    subscriptions (db w') = subscriptions (db w) /\
    credentials (db w') =
      update_row id
        (fun c0 => mkCredential (cred_subscriptionId c0) (sanitizeString username) c
                     (sanitize_optional notes))
        (credentials (db w)) /\
    auditLogs (db w') =
      auditLogs (db w) ++
      [(nextId (db w),
        mkAuditLog (cred_subscriptionId cred) (sub_name sub) updated
          (admin_email admin)
          (iso_date (env_clock env (ticks w)) ++ lit "T" ++
           iso_time (env_clock env (ticks w))))].
Proof.
  intros H. unfold update in H.
  apply bind_inv in H as [(admin & w1 & E & H)|(? & ? & ?)]; [|discriminate].
  pose proof E as E'. inv_pure E' (pure_requireAdmin (Req:=Req) adminEmail).
  cbv zeta in H.
  destruct (_ || _) eqn:C1 in H; [discriminate H|].
  destruct (_ || _) eqn:C2 in H; [discriminate H|].
  destruct (_ && _) eqn:C3 in H; [discriminate H|].
  apply bind_inv in H as [(cred & w2 & E1 & H)|(? & ? & ?)]; [|discriminate].
  inv_eq E1. cbn [t_get Credentials] in H.
  destruct (lookup (credentials (db w)) id) as [cred|] eqn:Hc; [|discriminate H].
  apply bind_inv in H as [(sub & w2 & E1 & H)|(? & ? & ?)]; [|discriminate].
  inv_eq E1. cbn [t_get Subscriptions] in H.
  destruct (lookup (subscriptions (db w)) (cred_subscriptionId cred)) as [sub|] eqn:Hs;
    [|discriminate H].
  apply bind_inv in H as [(now & w2 & E1 & H)|(? & ? & ?)]; [|discriminate].
  inv_eq E1.
  apply bind_inv in H as [(at_ & w2 & E1 & H)|(? & ? & ?)]; [|discriminate].
  unfold lift, toISOString in E1. injection E1 as <- <-.
  apply bind_inv in H as [(lid & w2 & E1 & H)|(? & ? & ?)]; [|discriminate].
  inv_eq E1.
  apply bind_inv in H as [(key & w4 & E3 & H)|(? & ? & ?)]; [|discriminate].
  apply getEncryptionKey_ok_inv in E3 as (-> & K & L).
  apply bind_inv in H as [(iv & w5 & E4 & H)|(? & ? & ?)]; [|discriminate].
  inv_eq E4.
  apply bind_inv in H as [(c & w6 & E5 & H)|(? & ? & ?)]; [|discriminate].
  unfold lift in E5. injection E5 as E5 <-.
  apply bind_inv in H as [(u & w6 & E6 & H)|(? & ? & ?)]; [|discriminate].
  apply db_patch_inv in E6 as [_ ->]. unfold ret in H. injection H as <- <-.
  simpl_world.
  exists admin, cred, sub, key, c.
  apply orb_false_iff in C1 as [C1 C1']. apply orb_false_iff in C1 as [C1 C1''].
  apply orb_false_iff in C2 as [C2 C2']. apply orb_false_iff in C2 as [C2 C2''].
  apply Z.ltb_ge in C1', C1'', C2', C2''.
  repeat split; try assumption; try reflexivity; lia.
Qed.

End VaultUpdate.

(** X7: after [update] returned for a credential that is the only one of its
    subscription, [reveal] of that subscription returns the new sanitized
    username and the new password as it was given (same conditions on the
    password, the random source and the key as for [create]); the update
    has added one entry of the log with the action [updated]. *)
Theorem update_then_reveal (P : Platform) (Req : Type)
    adminEmail id username password notes action env env' (w w1 : World Req) cred res :
  lookup (credentials (db w)) id = Some cred ->
  (List.length (select (Credentials.by_subscription (cred_subscriptionId cred))
                  (credentials (db w))) <= 1)%nat ->
  mutation (Credentials.update adminEmail id username password notes) env w =
    (Ok res, w1) ->
  List.length (env_random env 0) = 16%nat -> Forall byte (env_random env 0) ->
  well_formed password = true -> hd 0 password <> 0xFEFF ->
  env_ENCRYPTION_KEY env' = env_ENCRYPTION_KEY env ->
  (exists entry,
     auditLogs (db w1) = auditLogs (db w) ++ [(nextId (db w), entry)] /\
     log_action entry = updated /\
     log_subscriptionId entry = cred_subscriptionId cred) /\
  exists w2,
    mutation (Credentials.reveal adminEmail (cred_subscriptionId cred) action) env' w1 =
      (Ok (sanitizeString username, password), w2).
Proof.
  intros Hcred Hone H Hlen Hiv Hw Hbom Hkey.
  apply mutation_ok_inv in H.
  apply update_ok_full in H
    as (admin & cred' & sub & key & c & Ha & _ & _ & Hc & Hs & Hk & Hl & He & _ &
        Hu & Hsubs & Hcreds & Hlogs).
  simpl_world. rewrite Hcred in Hc. injection Hc as <-.
  split; [eexists; split; [exact Hlogs|split; reflexivity]|].
  unfold mutation.
  set (w1' := mkWorld (db w1) (scheduled w1) (console w1) 0 0).
  destruct (reveal_ok adminEmail (cred_subscriptionId cred) action env' w1' admin sub id
              (mkCredential (cred_subscriptionId cred) (sanitizeString username) c
                 (sanitize_optional notes)) key password) as [w2 E].
  - eapply requireAdmin_again; [exact Ha|]. subst w1'. exact Hu.
  - subst w1'. simpl_world. rewrite Hsubs. exact Hs.
  - subst w1'. simpl_world. rewrite Hcreds.
    rewrite select_update_row by reflexivity.
    rewrite (single_select _ _ id cred); [| |unfold Credentials.by_subscription;
                                               apply Z.eqb_refl|exact Hone].
    + cbn [update_row map fst snd]. rewrite Z.eqb_refl. reflexivity.
    + now apply lookup_some_in.
  - rewrite Hkey. exact Hk.
  - exact Hl.
  - cbn [cred_password]. eapply decrypt_encrypt; eassumption.
  - cbn [cred_username] in E. rewrite E. eexists. reflexivity.
Qed.

Lemma update_then_reveal_witness :
  (exists entry,
     auditLogs
       (db (snd (mutation (Credentials.update (P := Sample.platform) (Req := unit)
                             SampleData.admin_email 21 (lit "ops@company.com")
                             (lit "correct horse") None)
                   SampleData.sample_env SampleVault.vault_world))) =
       auditLogs (db (@SampleVault.vault_world unit)) ++ [(30, entry)] /\
     log_action entry = updated /\ log_subscriptionId entry = 20) /\
  exists w2,
    mutation (Credentials.reveal (P := Sample.platform) (Req := unit)
                SampleData.admin_email 20 Credentials.reveal_copied)
      SampleData.sample_env
      (snd (mutation (Credentials.update (P := Sample.platform) (Req := unit)
                        SampleData.admin_email 21 (lit "ops@company.com")
                        (lit "correct horse") None)
              SampleData.sample_env SampleVault.vault_world)) =
      (Ok (sanitizeString (lit "ops@company.com"), lit "correct horse"), w2).
Proof.
  apply (update_then_reveal Sample.platform unit SampleData.admin_email 21
           (lit "ops@company.com") (lit "correct horse") None
           Credentials.reveal_copied SampleData.sample_env SampleData.sample_env
           SampleVault.vault_world _
           (mkCredential 20 (lit "design@company.com")
              (SampleVault.sealed (lit "hunter2")) None) 21).
  - reflexivity.
  - vm_compute. lia.
  - vm_compute. reflexivity.
  - reflexivity.
  - repeat constructor; unfold byte; lia.
  - reflexivity.
  - vm_compute. discriminate.
  - reflexivity.
Defined.

(** X8: without a usable key in the environment (the variable is not set or
    is shorter than 32 characters) no call of [create], [update] or [reveal]
    returns, and the state is left as it was: the entry that [reveal] and
    [update] add to the log before they read the key is not kept. *)
Theorem vault_closed_without_key (P : Platform) (Req : Type) env (w : World Req) :
  no_key env = true ->
  (forall adminEmail subscriptionId username password notes,
     exists e,
       mutation (Credentials.create adminEmail subscriptionId username password notes)
         env w = (Throw e, w)) /\
  (forall adminEmail id username password notes,
     exists e,
       mutation (Credentials.update adminEmail id username password notes) env w =
         (Throw e, w)) /\
  (forall adminEmail subscriptionId action,
     exists e,
       mutation (Credentials.reveal adminEmail subscriptionId action) env w =
         (Throw e, w)).
Proof.
  intros Hk.
  assert (K : forall key, env_ENCRYPTION_KEY env = Some key ->
                          32 <= JsString.length key -> False).
  { intros key E L. unfold no_key in Hk. rewrite E in Hk.
    apply Z.ltb_lt in Hk. lia. }
  split; [|split]; intros.
  - destruct (mutation_cases
                (Credentials.create adminEmail subscriptionId username password notes)
                env w) as [(a & w' & H & _)|H]; [|exact H].
    apply create_ok_inv in H as (? & ? & key & ? & _ & _ & _ & _ & _ & _ & E & L & _).
    destruct (K key E L).
  - destruct (mutation_cases
                (Credentials.update adminEmail id username password notes)
                env w) as [(a & w' & H & _)|H]; [|exact H].
    apply update_ok_full in H as (? & ? & ? & key & ? & _ & _ & _ & _ & _ & E & L & _).
    destruct (K key E L).
  - destruct (mutation_cases
                (Credentials.reveal adminEmail subscriptionId action)
                env w) as [(a & w' & H & _)|H]; [|exact H].
    unfold Credentials.reveal in H. inv_run H.
    match goal with
    | E : Credentials.getEncryptionKey _ _ = (Ok ?k, _) |- _ =>
        apply getEncryptionKey_ok_inv in E as (_ & E & L); destruct (K k E L)
    end.
Qed.

Lemma vault_closed_without_key_witness :
  (forall adminEmail subscriptionId username password notes,
     exists e,
       mutation (Credentials.create (P := Sample.platform) (Req := unit)
                   adminEmail subscriptionId username password notes)
         SampleStore.unset_env SampleVault.vault_world =
         (Throw e, SampleVault.vault_world)) /\
  (forall adminEmail id username password notes,
     exists e,
       mutation (Credentials.update (P := Sample.platform) (Req := unit)
                   adminEmail id username password notes)
         SampleStore.unset_env SampleVault.vault_world =
         (Throw e, SampleVault.vault_world)) /\
  (forall adminEmail subscriptionId action,
     exists e,
       mutation (Credentials.reveal (P := Sample.platform) (Req := unit)
                   adminEmail subscriptionId action)
         SampleStore.unset_env SampleVault.vault_world =
         (Throw e, SampleVault.vault_world)).
Proof.
  apply (vault_closed_without_key Sample.platform unit SampleStore.unset_env
           SampleVault.vault_world).
  reflexivity.
Defined.

(** * Who may call what *)

Section Authorization.
Context {P : Platform}.

(** The check of the caller comes first. *)
Lemma handler_checks_caller (op : Operation) adminEmail :
  caller op = Some adminEmail ->
  forall env w x,
    requireAdmin adminEmail env w = (Throw x, w) ->
    handler op env w = (Throw x, w).
Proof.
  intros C env w x E.
  destruct op; cbn [caller] in C; try discriminate C; injection C as ->;
    cbn [handler]; unfold forget;
    autounfold with handlers; unfold Subscriptions.bulkCreate;
    first [ rewrite (bind_throw _ _ _ _ _ _ E); reflexivity
          | erewrite bind_throw by (apply bind_throw; exact E); reflexivity ].
Qed.

End Authorization.

(** X9: an operation that takes the address of an admin checks it before
    anything else: when [requireAdmin] throws for that address the
    operation throws the same error and leaves the state as it was, so an
    operation that returns was called with an address whose lower-case form
    is the address of a user with the role admin. *)
Theorem admin_only (P : Platform) (op : Operation) (adminEmail : jsstring) env
    (w : World SubscriptionRequests.SubscriptionRequest) :
  caller op = Some adminEmail ->
  (forall x, fst (requireAdmin adminEmail env w) = Throw x ->
             mutation (handler op) env w = (Throw x, w)) /\
  (fst (mutation (handler op) env w) = Ok tt ->
   exists id u,
     In (id, u) (users (db w)) /\ user_email u = toLowerCase adminEmail /\
     user_role u = lit "admin").
Proof.
  intros C.
  assert (A : forall x, fst (requireAdmin adminEmail env w) = Throw x ->
                        mutation (handler op) env w = (Throw x, w)).
  { intros x E. unfold mutation.
    set (w0 := mkWorld (db w) (scheduled w) (console w) 0 0).
    assert (E0 : requireAdmin adminEmail env w0 = (Throw x, w0)).
    { rewrite requireAdmin_run.
      rewrite (requireAdmin_users adminEmail env env w w0 eq_refl), E. reflexivity. }
    rewrite (handler_checks_caller op adminEmail C env w0 x E0). reflexivity. }
  split; [exact A|]. intros H.
  destruct (requireAdmin adminEmail env w) as [[admin|x] w1] eqn:E.
  - apply requireAdmin_ok_inv in E as (_ & u & S & _ & _ & R).
    exists (admin_id admin), u.
    assert (In (admin_id admin, u)
              (select (fun u => eqb (user_email u) (toLowerCase adminEmail))
                 (users (db w)))) as Hin by (rewrite S; now left).
    apply select_in in Hin as [Hin Hq]. cbn [snd] in Hq. apply eqb_eq in Hq.
    auto.
  - rewrite (A x eq_refl) in H. discriminate H.
Qed.

Lemma admin_only_witness :
  (forall x,
     fst (requireAdmin (P := Sample.platform)
            (Req := SubscriptionRequests.SubscriptionRequest) SampleData.admin_email
            SampleData.sample_env SampleVault.vault_world) = Throw x ->
     mutation (handler (P := Sample.platform)
                 (credentials_remove SampleData.admin_email 21))
       SampleData.sample_env SampleVault.vault_world =
       (Throw x, SampleVault.vault_world)) /\
  (fst (mutation (handler (P := Sample.platform)
                    (credentials_remove SampleData.admin_email 21))
          SampleData.sample_env SampleVault.vault_world) = Ok tt ->
   exists id u,
     In (id, u) (users (db (@SampleVault.vault_world
                              SubscriptionRequests.SubscriptionRequest))) /\
     user_email u = Sample.ascii_lower SampleData.admin_email /\
     user_role u = lit "admin").
Proof.
  apply (admin_only Sample.platform (credentials_remove SampleData.admin_email 21)
           SampleData.admin_email SampleData.sample_env SampleVault.vault_world).
  reflexivity.
Defined.

(** * Keys that stay unique *)

(** The step of an operation that leaves the table [T] alone. *)
Ltac framed K H :=
  match goal with
  | |- context [db ?w'] =>
      match type of H with
      | _ = (_, w') =>
          let F := fresh "F" in
          pose proof (keeps_inv _ _ _ _ _ _ K H) as F;
          cbn [t_get db Categories Currencies Subscriptions Credentials
               SubscriptionRequests AuditLogs Users Counters RateLimits] in F;
          rewrite F
      end
  end.

Section UniqueKeys.
Context {P : Platform}.

Lemma users_step (op : Operation) env w :
  unique_by user_email (users (db w)) ->
  unique_by user_email (users (db (exec op env w))).
Proof.
  intros U. apply (exec_db_inv (fun d => unique_by user_email (users d))); [exact U|].
  intros w' H. cbv beta. pose proof (keeps_users op) as K.
  destruct op; try (framed K H; exact U);
    cbn [handler] in H.
  - apply forget_ok in H as [x H].
    apply createAdminInternal_ok_inv in H as (_ & S & _ & ->). simpl_world.
    apply unique_by_app; [|exact U]. intros i d Hin E.
    pose proof (select_nil_not _ _ i d S Hin) as N. cbv beta in N.
    rewrite E in N. cbn [user_email] in N. rewrite eqb_refl in N. discriminate N.
  - apply clearDatabase_ok in H as (_ & _ & _ & _ & _ & _ & -> & _).
    apply unique_by_nil.
Qed.

Lemma credentials_step (op : Operation) env w :
  unique_by cred_subscriptionId (credentials (db w)) ->
  unique_by cred_subscriptionId (credentials (db (exec op env w))).
Proof.
  intros U.
  apply (exec_db_inv (fun d => unique_by cred_subscriptionId (credentials d)));
    [exact U|].
  intros w' H. cbv beta. pose proof (keeps_credentials op) as K.
  destruct op; try (framed K H; exact U); cbn [handler] in H.
  - apply forget_ok in H as [x H].
    apply create_ok_inv in H as (? & ? & ? & ? & _ & _ & _ & _ & _ & S & _ & _ & _ & _ & ->).
    simpl_world. apply unique_by_app; [|exact U]. intros i d Hin E.
    pose proof (select_nil_not _ _ i d S Hin) as N.
    unfold Credentials.by_subscription in N. rewrite E in N.
    cbn [cred_subscriptionId] in N. rewrite Z.eqb_refl in N. discriminate N.
  - apply forget_ok in H as [x H].
    apply update_ok_full in H
      as (? & ? & ? & ? & ? & _ & _ & _ & _ & _ & _ & _ & _ & _ & _ & _ & -> & _).
    apply unique_by_update_row; [reflexivity|exact U].
  - apply credentials_remove_ok_inv in H as (? & _ & ->). simpl_world.
    now apply unique_by_remove_row.
  - apply subscriptions_remove_ok_inv in H as (? & _ & _ & -> & _).
    eapply unique_by_incl; [|exact U]. intros row Hrow. now apply filter_In in Hrow.
  - apply clearDatabase_ok in H as (_ & _ & _ & -> & _). apply unique_by_nil.
Qed.

Lemma categories_step (op : Operation) env w :
  unique_by (fun c => toLowerCase (cat_name c)) (categories (db w)) ->
  unique_by (fun c => toLowerCase (cat_name c)) (categories (db (exec op env w))).
Proof.
  intros U.
  apply (exec_db_inv
           (fun d => unique_by (fun c => toLowerCase (cat_name c)) (categories d)));
    [exact U|].
  intros w' H. cbv beta. pose proof (keeps_categories op) as K.
  destruct op; try (framed K H; exact U); cbn [handler] in H.
  - apply forget_ok in H as [x H].
    apply categories_create_ok_inv in H as (_ & N & _ & ->). simpl_world.
    apply unique_by_app; [|exact U]. intros i d Hin. apply (N (i, d) Hin).
  - apply forget_ok in H as [x H].
    apply categories_update_ok_inv in H as (_ & _ & N & _ & ->). simpl_world.
    apply unique_by_rename; [|reflexivity|exact U].
    intros j d d' Hin Hj. apply (N (j, d) Hin Hj).
  - apply categories_remove_ok_inv in H as (_ & _ & ->). simpl_world.
    now apply unique_by_remove_row.
  - apply clearDatabase_ok in H as (-> & _). apply unique_by_nil.
Qed.

Lemma currencies_step (op : Operation) env w :
  unique_by cur_code (currencies (db w)) ->
  unique_by cur_code (currencies (db (exec op env w))).
Proof.
  intros U.
  apply (exec_db_inv (fun d => unique_by cur_code (currencies d))); [exact U|].
  intros w' H. cbv beta. pose proof (keeps_currencies op) as K.
  destruct op; try (framed K H; exact U); cbn [handler] in H.
  - apply forget_ok in H as [x H].
    apply currencies_updateExchangeRate_ok_inv in H as [-> |(id & ->)]; [exact U|].
    simpl_world. apply unique_by_update_row; [reflexivity|exact U].
  - apply forget_ok in H as [x H].
    apply currencies_create_ok_inv in H as (_ & _ & _ & S & _ & ->). simpl_world.
    apply unique_by_app; [|exact U]. intros i d Hin E.
    pose proof (select_nil_not _ _ i d S Hin) as N. unfold Currencies.by_code in N.
    rewrite E in N. cbn [cur_code] in N. rewrite eqb_refl in N. discriminate N.
  - apply forget_ok in H as [x H].
    apply currencies_update_ok_inv in H as (? & _ & _ & _ & _ & ->). simpl_world.
    apply unique_by_update_row; [reflexivity|exact U].
  - apply forget_ok in H as [x H].
    apply currencies_toggleActive_ok_inv in H as (? & _ & _ & _ & ->). simpl_world.
    apply unique_by_update_row; [reflexivity|exact U].
  - apply currencies_remove_ok_inv in H as (? & _ & _ & _ & _ & ->). simpl_world.
    now apply unique_by_remove_row.
  - apply clearDatabase_ok in H as (_ & -> & _). apply unique_by_nil.
Qed.

Lemma email_key_not_global (email : jsstring) : lit "email:" ++ email <> lit "global".
Proof. discriminate. Qed.

Lemma counters_step (op : Operation) env w :
  unique_by counter_name (counters (db w)) ->
  unique_by counter_name (counters (db (exec op env w))).
Proof.
  intros U.
  apply (exec_db_inv (fun d => unique_by counter_name (counters d))); [exact U|].
  intros w' H. cbv beta. pose proof (keeps_counters op) as K.
  destruct op; try (framed K H; exact U); cbn [handler] in H.
  - apply forget_ok in H as [x H].
    apply subscriptions_create_ok_inv in H
      as (? & ? & ? & ? & ? & ? & ? & _ & _ & _ & _ & _ & _ & _ & _ & G & _ & ->).
    simpl_world. now apply (allocation_unique_by _ _ _ _ _ _ G).
  - apply forget_ok in H as [x H].
    apply (bulkCreate_ok_inv (fun d => unique_by counter_name (counters d))) in H;
      [exact H|exact U|].
    intros cats curs i sub env0 w0 r w0' _ _ U0 E.
    apply bulkCreate_row_cases in E
      as [-> |(? & ? & ? & ? & _ & _ & _ & _ & _ & G & ->)]; [auto|].
    simpl_world. split; [|split; reflexivity].
    now apply (allocation_unique_by _ _ _ _ _ _ G).
  - apply forget_ok in H as [[id ref] H].
    apply submit_ok_full in H
      as (? & ? & ? & ? & ? & ? & ? & ? & _ & _ & _ & _ & _ & _ & _ & _ & _ & _ & _ &
          _ & _ & G & _ & -> & _).
    now apply (allocation_unique_by _ _ _ _ _ _ G).
  - apply forget_ok in H as [x H].
    apply approve_ok_db in H as (? & ? & ? & ? & ? & ? & ? & _ & G & ->).
    simpl_world. now apply (allocation_unique_by _ _ _ _ _ _ G).
  - apply clearDatabase_ok in H as (_ & _ & _ & _ & _ & _ & _ & -> & _).
    apply unique_by_nil.
Qed.

Lemma rateLimits_step (op : Operation) env w :
  unique_by rl_key (rateLimits (db w)) ->
  unique_by rl_key (rateLimits (db (exec op env w))).
Proof.
  intros U.
  apply (exec_db_inv (fun d => unique_by rl_key (rateLimits d))); [exact U|].
  intros w' H. cbv beta. pose proof (keeps_rateLimits op) as K.
  destruct op; try (framed K H; exact U); cbn [handler] in H.
  - apply forget_ok in H as [[id ref] H].
    apply submit_ok_full in H
      as (? & ? & ? & ? & globalLimit & emailLimit & ? & ? & _ & _ & _ & _ & _ & _ &
          _ & _ & _ & _ & _ & Sg & Se & _ & _ & _ & -> & _).
    apply updatedLimits_unique.
    + intros -> row Hx E.
      apply updatedLimits_in in Hx as [Hx|(y & Hy & Hk)].
      * rewrite Hx in E. symmetry in E. now apply email_key_not_global in E.
      * destruct y as [i d].
        pose proof (select_nil_not _ _ i d Se Hy) as N. unfold by_key in N.
        cbn [snd] in Hk. rewrite Hk, E, eqb_refl in N. discriminate N.
    + apply updatedLimits_unique; [|exact U].
      intros -> [i d] Hx E.
      pose proof (select_nil_not _ _ i d Sg Hx) as N. unfold by_key in N.
      cbn [snd] in E. rewrite E, eqb_refl in N. discriminate N.
  - apply clearDatabase_ok in H as (_ & _ & _ & _ & _ & _ & _ & _ & ->).
    apply unique_by_nil.
Qed.

End UniqueKeys.

Lemma unique_by_single {D K} (key : D -> K) (i : Id) (d : D) : unique_by key [(i, d)].
Proof. intros i1 c1 i2 c2 [H1|[]] [H2|[]] _. congruence. Qed.



(** X11: a subscription has at most one credential, whatever operations are
    run: [create] refuses a second one and [update] leaves the subscription
    of a credential as it is. *)
Theorem one_credential_per_subscription (P : Platform) (ops : list (Operation * Env))
    (w : World SubscriptionRequests.SubscriptionRequest) :
  unique_by cred_subscriptionId (credentials (db w)) ->
  unique_by cred_subscriptionId (credentials (db (exec_all ops w))).
Proof.
  apply (exec_all_inv (fun w => unique_by cred_subscriptionId (credentials (db w)))).
  intros op env w0. apply credentials_step.
Qed.

Lemma one_credential_per_subscription_witness :
  unique_by cred_subscriptionId
    (credentials
       (db (exec_all (P := Sample.platform)
              [(credentials_create SampleData.admin_email 20 (lit "second")
                  (lit "password") None, SampleData.sample_env);
               (credentials_update SampleData.admin_email 21 (lit "ops@company.com")
                  (lit "correct horse") None, SampleData.sample_env)]
              SampleVault.vault_world))).
Proof.
  apply (one_credential_per_subscription Sample.platform). apply unique_by_single.
Defined.

(** X12: no two categories have names that differ at most in case, whatever
    operations are run: [create] and [update] of categories compare the
    lower-case forms of the sanitized names. *)
Theorem category_names_unique (P : Platform) (ops : list (Operation * Env))
    (w : World SubscriptionRequests.SubscriptionRequest) :
  unique_by (fun c => toLowerCase (cat_name c)) (categories (db w)) ->
  unique_by (fun c => toLowerCase (cat_name c)) (categories (db (exec_all ops w))).
Proof.
  apply (exec_all_inv
           (fun w => unique_by (fun c => toLowerCase (cat_name c)) (categories (db w)))).
  intros op env w0. apply categories_step.
Qed.

Lemma category_names_unique_witness :
  unique_by (fun c => Sample.ascii_lower (cat_name c))
    (categories
       (db (exec_all (P := Sample.platform)
              [(categories_create SampleData.admin_email (lit "cloud infrastructure")
                  (lit "Again") (lit "#FFFFFF"), SampleData.sample_env);
               (categories_create SampleData.admin_email (lit "Design")
                  (lit "Tools") (lit "#FFF"), SampleData.sample_env)]
              SampleData.sample_world))).
Proof.
  apply (category_names_unique Sample.platform). apply unique_by_single.
Defined.



(** X14: the names of the counters of reference numbers and the keys of the
    rate-limit records stay distinct, whatever operations are run: a
    counter or a record is inserted only when the look-up by its name or
    key found none. *)
Theorem counter_names_unique (P : Platform) (ops : list (Operation * Env))
    (w : World SubscriptionRequests.SubscriptionRequest) :
  unique_by counter_name (counters (db w)) /\ unique_by rl_key (rateLimits (db w)) ->
  unique_by counter_name (counters (db (exec_all ops w))) /\
  unique_by rl_key (rateLimits (db (exec_all ops w))).
Proof.
  apply (exec_all_inv
           (fun w => unique_by counter_name (counters (db w)) /\
                     unique_by rl_key (rateLimits (db w)))).
  intros op env w0 [H1 H2]. split; [now apply counters_step|now apply rateLimits_step].
Qed.

Lemma counter_names_unique_witness :
  unique_by counter_name
    (counters
       (db (exec_all (P := Sample.platform)
              [(requests_submit (SampleData.request_args (of_Z 1500)),
                SampleData.sample_env);
               (requests_submit (SampleData.request_args (of_Z 1500)),
                SampleData.sample_env)]
              SampleData.sample_world))) /\
  unique_by rl_key
    (rateLimits
       (db (exec_all (P := Sample.platform)
              [(requests_submit (SampleData.request_args (of_Z 1500)),
                SampleData.sample_env);
               (requests_submit (SampleData.request_args (of_Z 1500)),
                SampleData.sample_env)]
              SampleData.sample_world))).
Proof.
  apply (counter_names_unique Sample.platform). split; apply unique_by_nil.
Defined.

(** * References that stay valid *)

Section Linked.
Context {P : Platform}.

Lemma not_collected {D} (p : D -> bool) (t : Table D) (x : Id * D) :
  In x t ->
  negb (existsb (Z.eqb (fst x)) (map fst (select p t))) = true ->
  p (snd x) = false.
Proof.
  intros Hin H. apply negb_true_iff in H. apply not_true_iff_false. intros E.
  rewrite <- not_true_iff_false in H. apply H.
  apply existsb_exists. exists (fst x). split; [|apply Z.eqb_refl].
  apply in_map, filter_In. auto.
Qed.

Lemma vault_step (op : Operation) env w :
  vault_linked (db w) -> vault_linked (db (exec op env w)).
Proof.
  intros U. apply (exec_db_inv vault_linked); [exact U|].
  intros w' H. unfold vault_linked in *. destruct U as [U1 U2].
  pose proof (keeps_credentials op) as Kc.
  pose proof (keeps_subscriptions op) as Ks.
  pose proof (keeps_the_log op) as Kl.
  destruct op;
    try (framed Kc H; framed Ks H; framed Kl H; split; assumption);
    cbn [handler] in H.
  - (* reveal *)
    apply forget_ok in H as [x H].
    apply reveal_ok_inv in H as (? & ? & ? & ? & ? & _ & Hs & _ & _ & _ & _ & ->).
    simpl_world. split; [exact U1|].
    apply refers_app; [cbn [log_subscriptionId]; congruence|exact U2].
  - (* create *)
    apply forget_ok in H as [x H].
    apply create_ok_inv in H
      as (? & ? & ? & ? & _ & _ & _ & _ & Hs & _ & _ & _ & _ & _ & ->).
    simpl_world. split; [|exact U2].
    apply refers_app; [cbn [cred_subscriptionId]; congruence|exact U1].
  - (* update *)
    apply forget_ok in H as [x H].
    apply update_ok_full in H
      as (? & ? & ? & ? & ? & _ & _ & _ & Hc & Hs & _ & _ & _ & _ & _ & -> & -> & ->).
    split.
    + apply refers_update_row; [|exact U1]. intros d Hd. cbn [cred_subscriptionId].
      apply (U1 _ _ Hd).
    + apply refers_app; [cbn [log_subscriptionId]; congruence|exact U2].
  - (* remove of a credential *)
    framed Ks H. framed Kl H.
    apply credentials_remove_ok_inv in H as (? & _ & ->). simpl_world.
    split; [|exact U2].
    eapply refers_incl; [| |exact U1]; [|auto]. intros r Hr.
    now apply remove_row_in in Hr.
  - (* create of a subscription *)
    apply forget_ok in H as [x H].
    apply subscriptions_create_ok_inv in H
      as (? & ? & ? & ? & ? & ? & ? & _ & _ & _ & _ & _ & _ & _ & _ & _ & _ & ->).
    simpl_world.
    split; (eapply refers_target; [|eassumption]); intros i; apply lookup_app_some.
  - (* update of a subscription *)
    apply forget_ok in H as [x H].
    apply subscriptions_update_ok_inv in H
      as (? & ? & ? & ? & ? & ? & _ & _ & _ & _ & _ & _ & _ & _ & _ & _ & ->).
    simpl_world.
    split; (eapply refers_target; [|eassumption]); intros i;
      apply lookup_update_row_some.
  - (* bulkCreate *)
    apply forget_ok in H as [x H].
    apply (bulkCreate_ok_inv vault_linked) in H; [exact H|split; assumption|].
    intros cats curs i sub env0 w0 r w0' _ _ [V1 V2] E.
    apply bulkCreate_row_cases in E
      as [-> |(? & ? & ? & ? & _ & _ & _ & _ & _ & _ & ->)];
      [split; [split; assumption|split; reflexivity]|].
    simpl_world. split; [|split; reflexivity].
    split; (eapply refers_target; [|eassumption]); intros j; apply lookup_app_some.
  - (* remove of a subscription *)
    apply subscriptions_remove_ok_inv in H as (? & _ & -> & -> & -> & _).
    split.
    + intros i d Hin. apply filter_In in Hin as [Hin Hn].
      pose proof (not_collected _ _ _ Hin Hn) as N. cbn [snd] in N.
      apply Z.eqb_neq in N. apply lookup_remove_row_some; [exact N|].
      apply (U1 _ _ Hin).
    + intros i d Hin. apply filter_In in Hin as [Hin Hn].
      pose proof (not_collected _ _ _ Hin Hn) as N. cbn [snd] in N.
      apply Z.eqb_neq in N. apply lookup_remove_row_some; [exact N|].
      apply (U2 _ _ Hin).
  - (* approve *)
    apply forget_ok in H as [x H].
    apply approve_ok_db in H as (? & ? & ? & ? & ? & ? & ? & _ & _ & ->).
    simpl_world.
    split; (eapply refers_target; [|eassumption]); intros i; apply lookup_app_some.
  - (* clearDatabase *)
    apply clearDatabase_ok in H as (_ & _ & _ & -> & _ & -> & _).
    split; apply refers_nil.
Qed.

End Linked.

(** X15: every credential and every entry of the log belongs to a
    subscription that is in the store, whatever operations are run: they
    are written for a subscription that was found, and the removal of a
    subscription takes them with it. *)
Theorem vault_stays_linked (P : Platform) (ops : list (Operation * Env))
    (w : World SubscriptionRequests.SubscriptionRequest) :
  vault_linked (db w) -> vault_linked (db (exec_all ops w)).
Proof.
  apply (exec_all_inv (fun w => vault_linked (db w))).
  intros op env w0. apply vault_step.
Qed.

Lemma refers_single {D D'} (ref : D -> Id) (i : Id) (d : D) (target : Table D') :
  lookup target (ref d) <> None -> refers ref [(i, d)] target.
Proof. intros H j x [E|[]]. injection E as <- <-. exact H. Qed.

Lemma vault_stays_linked_witness :
  vault_linked
    (db (exec_all (P := Sample.platform)
           [(credentials_reveal SampleData.admin_email 20 Credentials.reveal_viewed,
             SampleData.sample_env);
            (subscriptions_remove SampleData.admin_email 20, SampleData.sample_env)]
           SampleVault.vault_world)).
Proof.
  apply (vault_stays_linked Sample.platform).
  split; apply refers_single; vm_compute; discriminate.
Defined.

Section Catalogue.
Context {P : Platform}.
Import SubscriptionRequests.

Lemma some_not_none {A} (o : option A) (a : A) : o = Some a -> o <> None.
Proof. congruence. Qed.

Lemma catalogue_step (op : Operation) env w :
  catalogue_linked (db w) -> catalogue_linked (db (exec op env w)).
Proof.
  intros U. apply (exec_db_inv catalogue_linked); [exact U|].
  intros w' H. unfold catalogue_linked in *. destruct U as (U1 & U2 & U3 & U4).
  pose proof (keeps_subscriptions op) as Ks.
  pose proof (keeps_the_requests op) as Kr.
  pose proof (keeps_categories op) as Kc.
  pose proof (keeps_currencies op) as Ku.
  destruct op;
    try (framed Ks H; framed Kr H; framed Kc H; framed Ku H; repeat split; assumption);
    cbn [handler] in H.
  - (* create of a subscription *)
    apply forget_ok in H as [x H].
    apply subscriptions_create_ok_inv in H
      as (? & ? & ? & ? & ? & ? & ? & _ & _ & _ & _ & _ & Hc & Hu & _ & _ & _ & ->).
    simpl_world. apply some_not_none in Hc, Hu.
    repeat split; try assumption; now apply refers_app.
  - (* update of a subscription *)
    apply forget_ok in H as [x H].
    apply subscriptions_update_ok_inv in H
      as (? & ? & ? & ? & ? & ? & _ & _ & _ & _ & _ & _ & _ & Hc & Hu & _ & ->).
    simpl_world. apply some_not_none in Hc, Hu.
    repeat split; try assumption; now apply refers_update_row.
  - (* bulkCreate *)
    apply forget_ok in H as [x H].
    apply (bulkCreate_ok_inv catalogue_linked) in H;
      [exact H|repeat split; assumption|].
    intros cats curs i sub env0 w0 r w0' Hcats Hcurs (V1 & V2 & V3 & V4) E.
    apply bulkCreate_row_cases in E
      as [-> |(? & ? & ? & ? & _ & _ & _ & Hc & Hu & _ & ->)];
      [repeat split; assumption|].
    simpl_world. apply Hcats in Hc. apply Hcurs in Hu.
    repeat split; try assumption; now apply refers_app.
  - (* remove of a subscription *)
    apply subscriptions_remove_ok_inv in H
      as (? & _ & -> & _ & _ & -> & -> & -> & _).
    repeat split; try assumption;
      (eapply refers_incl; [| |eassumption]; [|auto]);
      intros row Hrow; now apply remove_row_in in Hrow.
  - (* submit *)
    apply forget_ok in H as [[id ref] H].
    apply submit_ok_full in H
      as (? & ? & ? & ? & ? & ? & ? & ? & _ & _ & _ & _ & _ & _ & _ & _ & Hc & Hu & _ &
          _ & _ & _ & -> & _ & _ & -> & -> & -> & _).
    apply some_not_none in Hc, Hu.
    repeat split; try assumption; now apply refers_app.
  - (* approve *)
    apply forget_ok in H as [x H].
    apply approve_ok_db in H as (? & r & ? & ? & ? & ? & ? & Hr & _ & ->).
    simpl_world. apply lookup_some_row in Hr.
    split; [apply refers_app; [apply (U3 _ _ Hr)|exact U1]|].
    split; [apply refers_app; [apply (U4 _ _ Hr)|exact U2]|].
    split; (apply refers_update_row; [|assumption]); intros d Hd;
      [apply (U3 _ _ Hd)|apply (U4 _ _ Hd)].
  - (* reject *)
    framed Kc H. framed Ku H. apply forget_ok in H as [x H].
    apply reject_ok_inv in H as (? & ? & ? & _ & _ & _ & _ & _ & -> & ->).
    repeat split; try assumption;
      (apply refers_update_row; [|assumption]); intros d Hd;
      [apply (U3 _ _ Hd)|apply (U4 _ _ Hd)].
  - (* remove of a request *)
    framed Kc H. framed Ku H. framed Ks H.
    apply remove_ok_inv in H as ->.
    repeat split; try assumption;
      (eapply refers_incl; [| |eassumption]; [|auto]);
      intros row Hrow; now apply remove_row_in in Hrow.
  - (* create of a category *)
    apply forget_ok in H as [x H].
    apply categories_create_ok_inv in H as (_ & _ & _ & ->). simpl_world.
    repeat split; try assumption;
      (eapply refers_target; [|eassumption]); intros j; apply lookup_app_some.
  - (* update of a category *)
    apply forget_ok in H as [x H].
    apply categories_update_ok_inv in H as (_ & _ & _ & _ & ->). simpl_world.
    repeat split; try assumption;
      (eapply refers_target; [|eassumption]); intros j; apply lookup_update_row_some.
  - (* remove of a category *)
    apply categories_remove_ok_inv in H as (N1 & N2 & ->). simpl_world.
    repeat split; try assumption;
      (eapply refers_incl; [| |eassumption]; [auto|]);
      intros i d Hin; apply lookup_remove_row_some;
      [apply (N1 (i, d) Hin)|apply (N2 (i, d) Hin)].
  - (* updateExchangeRate *)
    apply forget_ok in H as [x H].
    apply currencies_updateExchangeRate_ok_inv in H as [-> |(id & ->)];
      [repeat split; assumption|].
    simpl_world.
    repeat split; try assumption;
      (eapply refers_target; [|eassumption]); intros j; apply lookup_update_row_some.
  - (* create of a currency *)
    apply forget_ok in H as [x H].
    apply currencies_create_ok_inv in H as (_ & _ & _ & _ & _ & ->). simpl_world.
    repeat split; try assumption;
      (eapply refers_target; [|eassumption]); intros j; apply lookup_app_some.
  - (* update of a currency *)
    apply forget_ok in H as [x H].
    apply currencies_update_ok_inv in H as (? & _ & _ & _ & _ & ->). simpl_world.
    repeat split; try assumption;
      (eapply refers_target; [|eassumption]); intros j; apply lookup_update_row_some.
  - (* toggleActive *)
    apply forget_ok in H as [x H].
    apply currencies_toggleActive_ok_inv in H as (? & _ & _ & _ & ->). simpl_world.
    repeat split; try assumption;
      (eapply refers_target; [|eassumption]); intros j; apply lookup_update_row_some.
  - (* remove of a currency *)
    apply currencies_remove_ok_inv in H as (? & _ & _ & N1 & N2 & ->). simpl_world.
    repeat split; try assumption;
      (eapply refers_incl; [| |eassumption]; [auto|]);
      intros i d Hin; apply lookup_remove_row_some;
      [apply (N1 (i, d) Hin)|apply (N2 (i, d) Hin)].
  - (* clearDatabase *)
    apply clearDatabase_ok in H as (_ & _ & -> & _ & -> & _).
    repeat split; apply refers_nil.
Qed.

End Catalogue.

(** X16: every subscription and every request has a category and a
    currency that are in the store, whatever operations are run: they are
    written with a category and a currency that were found, and a category
    or a currency in use is not removed. *)
Theorem catalogue_stays_linked (P : Platform) (ops : list (Operation * Env))
    (w : World SubscriptionRequests.SubscriptionRequest) :
  catalogue_linked (db w) -> catalogue_linked (db (exec_all ops w)).
Proof.
  apply (exec_all_inv (fun w => catalogue_linked (db w))).
  intros op env w0. apply catalogue_step.
Qed.

Lemma catalogue_stays_linked_witness :
  catalogue_linked
    (db (exec_all (P := Sample.platform)
           [(requests_submit (SampleData.request_args (of_Z 1500)),
             SampleData.sample_env);
            (categories_remove SampleData.admin_email 1, SampleData.sample_env);
            (requests_approve SampleData.admin_email 33 None, SampleData.sample_env)]
           SampleVault.vault_world)).
Proof.
  apply (catalogue_stays_linked Sample.platform).
  split; [|split; [|split]];
    first [apply refers_single; vm_compute; discriminate|apply refers_nil].
Defined.

(** * The removal of a subscription *)

Section Cascade.
Context {D : Type}.

Lemma same_id_same_row (t : Table D) (x y : Id * D) :
  NoDup (map fst t) -> In x t -> In y t -> fst x = fst y -> x = y.
Proof.
  induction t as [|r t IH]; intros N Hx Hy E; [contradiction|].
  cbn [map] in N. inversion N as [|? ? Hn N']; subst.
  destruct Hx as [->|Hx], Hy as [->|Hy]; auto.
  - destruct Hn. rewrite E. now apply in_map.
  - destruct Hn. rewrite <- E. now apply in_map.
Qed.

Lemma collected_rows (p : D -> bool) (t : Table D) :
  NoDup (map fst t) ->
  filter (fun r => negb (existsb (Z.eqb (fst r)) (map fst (select p t)))) t =
  select (fun d => negb (p d)) t.
Proof.
  intros N. unfold select at 2. apply filter_ext_in. intros x Hx. f_equal.
  destruct (p (snd x)) eqn:E.
  - apply existsb_exists. exists (fst x). split; [|apply Z.eqb_refl].
    apply in_map, filter_In. auto.
  - apply not_true_iff_false. intros H.
    apply existsb_exists in H as (i & Hi & Ei). apply Z.eqb_eq in Ei. subst i.
    apply in_map_iff in Hi as (y & Ey & Hy). apply filter_In in Hy as [Hy Py].
    rewrite (same_id_same_row t y x N Hy Hx Ey) in Py. congruence.
Qed.

End Cascade.

(** X17: the removal of a subscription takes its credential and the
    entries of the log about it along, and nothing else: the subscription
    is gone, the credentials and the entries of the other subscriptions are
    the ones that stay (identifiers of documents being distinct), and the
    other tables are as they were. *)
Theorem remove_cascade (P : Platform) (Req : Type) adminEmail id env (w w' : World Req) :
  NoDup (map fst (credentials (db w))) -> NoDup (map fst (auditLogs (db w))) ->
  mutation (Subscriptions.remove adminEmail id) env w = (Ok tt, w') ->
  lookup (subscriptions (db w)) id <> None /\
  subscriptions (db w') = remove_row id (subscriptions (db w)) /\
  lookup (subscriptions (db w')) id = None /\
  credentials (db w') =
    select (fun c => negb (cred_subscriptionId c =? id)) (credentials (db w)) /\
  auditLogs (db w') =
    select (fun l => negb (log_subscriptionId l =? id)) (auditLogs (db w)) /\
  categories (db w') = categories (db w) /\
  currencies (db w') = currencies (db w) /\
  subscriptionRequests (db w') = subscriptionRequests (db w) /\
  users (db w') = users (db w).
Proof.
  intros N1 N2 H. apply mutation_ok_inv in H.
  apply subscriptions_remove_ok_inv in H
    as (s & Hs & Hsub & Hc & Hl & Hcat & Hcur & Hreq & Hu & _).
  simpl_world. rewrite Hsub, Hc, Hl.
  rewrite (collected_rows _ _ N1), (collected_rows _ _ N2).
  repeat split; try assumption; try congruence.
  rewrite lookup_remove_row, Z.eqb_refl. reflexivity.
Qed.

Lemma remove_cascade_witness :
  lookup (subscriptions (db (@SampleVault.vault_world unit))) 20 <> None /\
  subscriptions
    (db (snd (mutation (Subscriptions.remove (P := Sample.platform) (Req := unit)
                          SampleData.admin_email 20)
                SampleData.sample_env SampleVault.vault_world))) =
    remove_row 20 (subscriptions (db (@SampleVault.vault_world unit))) /\
  lookup
    (subscriptions
       (db (snd (mutation (Subscriptions.remove (P := Sample.platform) (Req := unit)
                             SampleData.admin_email 20)
                   SampleData.sample_env SampleVault.vault_world)))) 20 = None /\
  credentials
    (db (snd (mutation (Subscriptions.remove (P := Sample.platform) (Req := unit)
                          SampleData.admin_email 20)
                SampleData.sample_env SampleVault.vault_world))) =
    select (fun c => negb (cred_subscriptionId c =? 20))
      (credentials (db (@SampleVault.vault_world unit))) /\
  auditLogs
    (db (snd (mutation (Subscriptions.remove (P := Sample.platform) (Req := unit)
                          SampleData.admin_email 20)
                SampleData.sample_env SampleVault.vault_world))) =
    select (fun l => negb (log_subscriptionId l =? 20))
      (auditLogs (db (@SampleVault.vault_world unit))) /\
  categories
    (db (snd (mutation (Subscriptions.remove (P := Sample.platform) (Req := unit)
                          SampleData.admin_email 20)
                SampleData.sample_env SampleVault.vault_world))) =
    categories (db (@SampleVault.vault_world unit)) /\
  currencies
    (db (snd (mutation (Subscriptions.remove (P := Sample.platform) (Req := unit)
                          SampleData.admin_email 20)
                SampleData.sample_env SampleVault.vault_world))) =
    currencies (db (@SampleVault.vault_world unit)) /\
  subscriptionRequests
    (db (snd (mutation (Subscriptions.remove (P := Sample.platform) (Req := unit)
                          SampleData.admin_email 20)
                SampleData.sample_env SampleVault.vault_world))) =
    subscriptionRequests (db (@SampleVault.vault_world unit)) /\
  users
    (db (snd (mutation (Subscriptions.remove (P := Sample.platform) (Req := unit)
                          SampleData.admin_email 20)
                SampleData.sample_env SampleVault.vault_world))) =
    users (db (@SampleVault.vault_world unit)).
Proof.
  apply (remove_cascade Sample.platform unit SampleData.admin_email 20
           SampleData.sample_env SampleVault.vault_world).
  - repeat constructor; cbn; tauto.
  - repeat constructor; cbn; tauto.
  - vm_compute. reflexivity.
Defined.

(** * What an operation leaves alone *)

Section Footprint.
Context {P : Platform}.

Lemma exec_same (op : Operation) env w {D}
    (T : TableRef SubscriptionRequests.SubscriptionRequest D) :
  keeps T (handler op) -> t_get T (db (exec op env w)) = t_get T (db w).
Proof. intros K. unfold exec. apply (keeps_mutation T _ env w K). Qed.

End Footprint.



(** * The login *)

(** X19: [login] writes nothing.  When it returns, the address given, in
    lower case and trimmed, is a valid address and the address of a user
    whose hash matches the password, and that user is returned with its
    role, whatever the role is.  When it throws, the error is the same for
    a malformed address, an empty password, an unknown address and a wrong
    password; the one other error is that of two users with the address. *)
Theorem login_outcomes (P : Platform) (email password : jsstring) env
    (w : World SubscriptionRequests.SubscriptionRequest) :
  db (snd (mutation (Auth.login email password) env w)) = db w /\
  match fst (mutation (Auth.login email password) env w) with
  | Ok a =>
      validateEmail (trim (toLowerCase email)) = true /\ password <> [] /\
      exists u,
        In (admin_id a, u) (users (db w)) /\
        user_email u = trim (toLowerCase email) /\
        bcrypt_compareSync password (user_passwordHash u) = true /\
        a = mkAdminUser (admin_id a) (user_email u) (user_name u) (user_role u)
  | Throw e =>
      e = JsError "Invalid email or password" \/
      (e = NotUniqueError /\
       (2 <= List.length
               (select (fun u => eqb (user_email u) (trim (toLowerCase email)))
                  (users (db w))))%nat)
  end.
Proof.
  unfold mutation, Auth.login. cbv zeta.
  destruct (validateEmail (trim (toLowerCase email))) eqn:V; cbn [negb];
    [|split; [reflexivity|now left]].
  destruct password as [|c password];
    [split; [reflexivity|now left]|].
  replace ((JsString.length (c :: password) =? 0) ||
           (JsString.length (c :: password) <? 1)) with false.
  2:{ unfold JsString.length. cbn [List.length].
      destruct (Z.eqb_spec (Z.of_nat (S (List.length password))) 0); [lia|].
      destruct (Z.ltb_spec (Z.of_nat (S (List.length password))) 1); [lia|].
      reflexivity. }
  unfold bind, db_unique. cbn [db t_get Users].
  destruct (select _ (users (db w))) as [|[id u] [|y rest]] eqn:S.
  - split; [reflexivity|now left].
  - assert (In (id, u)
              (select (fun u => eqb (user_email u) (trim (toLowerCase email)))
                 (users (db w)))) as Hin by (rewrite S; now left).
    apply select_in in Hin as [Hin E]. cbn [snd] in E. apply eqb_eq in E.
    destruct (bcrypt_compareSync (c :: password) (user_passwordHash u)) eqn:B;
      cbn [negb]; [|split; [reflexivity|now left]].
    split; [reflexivity|]. cbn [fst].
    split; [reflexivity|]. split; [discriminate|].
    exists u. cbn [admin_id]. auto.
  - split; [reflexivity|]. right. split; [reflexivity|]. cbn [List.length]. lia.
Qed.

(** * The base currency *)

(** X20: a currency with the code INR stays in the store with its code
    under every operation but [clearDatabase]; its exchange rate stays 1
    under every operation but the internal [updateExchangeRate], and it
    stays active under every operation but [update], which sets [isActive]
    without a look at the code ([toggleActive] and [remove] refuse). *)
Theorem base_currency_protected (P : Platform) (op : Operation) env
    (w : World SubscriptionRequests.SubscriptionRequest) id c :
  lookup (currencies (db w)) id = Some c -> cur_code c = lit "INR" ->
  op <> seed_clearDatabase ->
  exists c',
    lookup (currencies (db (exec op env w))) id = Some c' /\
    cur_code c' = lit "INR" /\
    ((forall code rate, op <> currencies_updateExchangeRate code rate) ->
     Currencies.number_neq (cur_exchangeRate c) (of_Z 1) = false ->
     Currencies.number_neq (cur_exchangeRate c') (of_Z 1) = false) /\
    ((forall e i n s r a, op <> currencies_update e i n s r a) ->
     cur_isActive c = true -> cur_isActive c' = true).
Proof.
  intros Hc Hcode Hclear.
  destruct (exec_cases op env w) as [(w' & H & ->)| ->];
    [|exists c; auto].
  pose proof (keeps_currencies op) as K.
  destruct op;
    try (pose proof (keeps_inv _ _ _ _ _ _ K H) as F;
         cbn [t_get db Currencies] in F; rewrite F; exists c; auto; fail);
    cbn [handler] in H.
  - (* updateExchangeRate *)
    apply forget_ok in H as [x H].
    apply currencies_updateExchangeRate_ok_inv in H as [-> |(id' & ->)];
      [exists c; auto|].
    simpl_world. rewrite lookup_update_row, Hc.
    destruct (id =? id'); cbn [option_map]; eexists; (split; [reflexivity|]);
      cbn [cur_code cur_exchangeRate cur_isActive]; repeat split; auto;
      intros N; now destruct (N code exchangeRate).
  - (* create *)
    apply forget_ok in H as [x H].
    apply currencies_create_ok_inv in H as (_ & _ & _ & _ & _ & ->). simpl_world.
    rewrite lookup_app, Hc. exists c. auto.
  - (* update *)
    apply forget_ok in H as [x H].
    apply currencies_update_ok_inv in H as (existing & He & _ & G & _ & ->).
    simpl_world. rewrite lookup_update_row, Hc.
    destruct (Z.eqb_spec id id0) as [->|N]; cbn [option_map];
      [|exists c; auto].
    rewrite Hc in He. injection He as <-.
    rewrite Hcode, eqb_refl in G. cbn [andb] in G.
    eexists. split; [reflexivity|].
    cbn [cur_code cur_exchangeRate cur_isActive]. repeat split; auto.
    intros Hn. now destruct (Hn adminEmail id0 name symbol exchangeRate isActive).
  - (* toggleActive *)
    apply forget_ok in H as [x H].
    apply currencies_toggleActive_ok_inv in H as (currency & He & G & _ & ->).
    simpl_world. rewrite lookup_update_row, Hc.
    destruct (Z.eqb_spec id id0) as [->|N]; cbn [option_map];
      [|exists c; auto].
    rewrite Hc in He. injection He as <-.
    rewrite Hcode, eqb_refl in G. cbn [andb] in G.
    eexists. split; [reflexivity|].
    cbn [cur_code cur_exchangeRate cur_isActive]. repeat split; auto.
    intros _ Ha. congruence.
  - (* remove *)
    apply currencies_remove_ok_inv in H as (currency & He & Hn & _ & _ & ->).
    simpl_world. rewrite lookup_remove_row.
    destruct (Z.eqb_spec id id0) as [->|N]; [|exists c; auto].
    rewrite Hc in He. injection He as <-. contradiction.
  - (* clearDatabase *)
    contradiction.
Qed.

Lemma base_currency_protected_witness :
  exists c',
    lookup (currencies
              (db (exec (P := Sample.platform)
                     (currencies_toggleActive SampleData.admin_email 2)
                     SampleData.sample_env SampleData.sample_world))) 2 = Some c' /\
    cur_code c' = lit "INR" /\
    ((forall code rate,
        currencies_toggleActive SampleData.admin_email 2 <>
        currencies_updateExchangeRate code rate) ->
     Currencies.number_neq (of_Z 1) (of_Z 1) = false ->
     Currencies.number_neq (cur_exchangeRate c') (of_Z 1) = false) /\
    ((forall e i n s r a,
        currencies_toggleActive SampleData.admin_email 2 <>
        currencies_update e i n s r a) ->
     true = true -> cur_isActive c' = true).
Proof.
  apply (base_currency_protected Sample.platform
           (currencies_toggleActive SampleData.admin_email 2) SampleData.sample_env
           SampleData.sample_world 2
           (mkCurrency (lit "INR") (lit "Indian Rupee") (lit "Rs") (of_Z 1) true)).
  - reflexivity.
  - reflexivity.
  - discriminate.
Defined.

(** * What is stored has passed the validation *)

Section Every.
Context {D : Type}.
Variable Q : D -> Prop.

Lemma every_nil : every Q (@nil (Id * D)).
Proof. intros i d []. Qed.

Lemma every_app (t : Table D) (n : Id) (new : D) :
  Q new -> every Q t -> every Q (t ++ [(n, new)]).
Proof.
  intros Hn H i d Hin. apply in_app_iff in Hin as [Hin|[Hin|[]]]; [now apply (H i)|].
  now injection Hin as <- <-.
Qed.

Lemma every_update_row (t : Table D) (id : Id) (f : D -> D) :
  (forall d, In (id, d) t -> Q d -> Q (f d)) -> every Q t -> every Q (update_row id f t).
Proof.
  intros Hf H i d Hin. apply update_row_in in Hin as [[Hin _]|(d' & Hin & E)].
  - now apply (H i).
  - injection E as -> ->. apply (Hf d' Hin), (H id d' Hin).
Qed.

Lemma every_remove_row (t : Table D) (id : Id) : every Q t -> every Q (remove_row id t).
Proof. intros H i d Hin. apply remove_row_in in Hin as [Hin _]. now apply (H i). Qed.

End Every.

Section Validation.

Lemma validateStringLength_ok value field lo hi u :
  validateStringLength value field lo hi = Ok u ->
  lo <= JsString.length value <= hi /\ 1 <= JsString.length value.
Proof.
  unfold validateStringLength.
  destruct (Z.eqb_spec (JsString.length value) 0); [discriminate|].
  destruct (Z.ltb_spec (JsString.length value) lo); [discriminate|].
  destruct (Z.ltb_spec hi (JsString.length value)); [discriminate|].
  intros _. unfold JsString.length in *. lia.
Qed.

Lemma kept_sanitized lo hi s :
  lo <= JsString.length (sanitizeString s) <= hi -> kept lo hi (sanitizeString s).
Proof. intros H. split; [apply sanitizeString_fix|exact H]. Qed.

Lemma kept_weaken lo hi lo' hi' s : lo' <= lo -> hi <= hi' -> kept lo hi s -> kept lo' hi' s.
Proof. intros H1 H2 [K1 K2]. split; [exact K1|lia]. Qed.

Lemma kept_empty hi : 0 <= hi -> kept 0 hi [].
Proof. intros H. split; [reflexivity|]. cbn. lia. Qed.

Lemma length_nonneg (s : jsstring) : 0 <= JsString.length s.
Proof. unfold JsString.length. lia. Qed.

(** What [validateAndSanitizeCommonFields] returns. *)
Lemma common_fields_kept name description provider dmin dmax common :
  validateAndSanitizeCommonFields name description provider dmin dmax = Ok common ->
  kept 1 200 (common_name common) /\
  kept (if 0 <? dmin then dmin else 0) dmax (common_description common) /\
  match common_provider common with
  | Some p => kept 0 200 p
  | None => True
  end.
Proof.
  unfold validateAndSanitizeCommonFields. cbv zeta.
  destruct (validateStringLength (sanitizeString name) _ 1 200) as [u|] eqn:V1;
    [|discriminate].
  apply validateStringLength_ok in V1 as [V1 _].
  destruct (0 <? dmin) eqn:M.
  - destruct (validateStringLength (sanitizeString description) _ dmin dmax)
      as [u'|] eqn:V2; [|discriminate].
    apply validateStringLength_ok in V2 as [V2 _].
    destruct (truthy (sanitize_optional provider)) eqn:Tp.
    + destruct (validateStringLength _ _ 1 200) as [u''|] eqn:V3; [|discriminate].
      apply validateStringLength_ok in V3 as [V3 _].
      intros H. injection H as <-. cbn [common_name common_description common_provider].
      split; [now apply kept_sanitized|]. split; [now apply kept_sanitized|].
      destruct provider as [[|c rest]|]; cbn [sanitize_optional] in *; try exact I.
      apply kept_sanitized. lia.
    + intros H. injection H as <-. cbn [common_name common_description common_provider].
      split; [now apply kept_sanitized|]. split; [now apply kept_sanitized|].
      destruct provider as [[|c rest]|]; cbn [sanitize_optional truthy] in *;
        try exact I.
      destruct (sanitizeString (c :: rest)) as [|x l] eqn:S; [|discriminate Tp].
      apply kept_empty. lia.
  - destruct (Z.ltb_spec dmax (JsString.length (sanitizeString description)));
      [discriminate|].
    pose proof (length_nonneg (sanitizeString description)).
    destruct (truthy (sanitize_optional provider)) eqn:Tp.
    + destruct (validateStringLength _ _ 1 200) as [u''|] eqn:V3; [|discriminate].
      apply validateStringLength_ok in V3 as [V3 _].
      intros E. injection E as <-. cbn [common_name common_description common_provider].
      split; [now apply kept_sanitized|]. split; [apply kept_sanitized; lia|].
      destruct provider as [[|c rest]|]; cbn [sanitize_optional] in *; try exact I.
      apply kept_sanitized. lia.
    + intros E. injection E as <-. cbn [common_name common_description common_provider].
      split; [now apply kept_sanitized|]. split; [apply kept_sanitized; lia|].
      destruct provider as [[|c rest]|]; cbn [sanitize_optional truthy] in *;
        try exact I.
      destruct (sanitizeString (c :: rest)) as [|x l] eqn:S; [|discriminate Tp].
      apply kept_empty. lia.
Qed.

Lemma orEmpty_kept (p : option jsstring) :
  match p with Some x => kept 0 200 x | None => True end ->
  kept 0 200 (Subscriptions.orEmpty p).
Proof. destruct p; cbn; [auto|intros _; apply kept_empty; lia]. Qed.

Lemma optional_notes_kept (notes : option jsstring) :
  truthy (sanitize_optional notes) && (1000 <? lengthOr0 (sanitize_optional notes)) =
    false ->
  match sanitize_optional notes with
  | Some n => kept 0 1000 n
  | None => True
  end.
Proof.
  destruct notes as [[|c rest]|]; cbn [sanitize_optional]; try (intros _; exact I).
  cbn [lengthOr0]. intros H. apply kept_sanitized.
  pose proof (length_nonneg (sanitizeString (c :: rest))).
  destruct (sanitizeString (c :: rest)) as [|x l] eqn:S; [cbn; lia|].
  cbn [truthy andb] in H. apply Z.ltb_ge in H. lia.
Qed.

End Validation.

Section Valid.
Context {P : Platform}.
Import SubscriptionRequests.

Lemma approve_notes adminEmail id adminNotes env (w : World SubscriptionRequest)
    res w' :
  approve adminEmail id adminNotes env w = (Ok res, w') ->
  truthy (sanitize_optional adminNotes) &&
    (1000 <? lengthOr0 (sanitize_optional adminNotes)) = false.
Proof.
  intros H. unfold approve in H.
  apply bind_inv in H as [(admin & w1 & E & H)|(? & ? & ?)]; [|discriminate].
  cbv zeta in H. destruct (truthy _ && _); [discriminate H|reflexivity].
Qed.

Lemma reject_notes adminEmail id adminNotes env (w : World SubscriptionRequest)
    res w' :
  reject adminEmail id adminNotes env w = (Ok res, w') ->
  10 <= JsString.length (sanitizeString adminNotes) <= 1000.
Proof.
  intros H. unfold reject in H.
  apply bind_inv in H as [(admin & w1 & E & H)|(? & ? & ?)]; [|discriminate].
  cbv zeta in H.
  destruct (Z.eqb_spec (JsString.length (sanitizeString adminNotes)) 0);
    [discriminate H|].
  destruct (Z.ltb_spec (JsString.length (sanitizeString adminNotes)) 10);
    [discriminate H|].
  destruct (Z.ltb_spec 1000 (JsString.length (sanitizeString adminNotes)));
    [discriminate H|].
  lia.
Qed.

Lemma review_valid status notes by_ at_ r :
  match notes with Some n => kept 0 1000 n | None => True end ->
  request_valid r -> request_valid (review status notes by_ at_ r).
Proof.
  intros Hn (H1 & H2 & H3 & H4 & H5 & H6 & H7 & H8 & H9 & _).
  unfold request_valid, review.
  cbn [req_name req_description req_provider req_cost req_requestedBy
       req_requesterEmail req_requesterDepartment req_justification req_adminNotes].
  auto 12.
Qed.

Lemma approved_valid ref date r :
  request_valid r ->
  subscription_valid
    (mkSubscription ref (req_name r) (req_description r) (req_provider r)
       (req_categoryId r) (req_cost r) (req_currencyId r) (req_billingCycle r) date
       other_method sub_active true (of_Z 7)).
Proof.
  intros (H1 & H2 & H3 & H4 & _). unfold subscription_valid.
  cbn [sub_name sub_description sub_provider sub_cost sub_notificationDaysBefore].
  split; [exact H1|]. split; [apply (kept_weaken 10 1000); [lia|lia|exact H2]|].
  split; [exact H3|]. split; [exact H4|reflexivity].
Qed.

Lemma written_valid ref common (args : Subscriptions.Args) :
  validateAndSanitizeCommonFields (Subscriptions.a_name args)
    (Subscriptions.a_description args) (Some (Subscriptions.a_provider args)) 0 1000 =
    Ok common ->
  validateCost (Subscriptions.a_cost args) = Ok tt ->
  validateNotificationDays (Subscriptions.a_notificationDaysBefore args) = Ok tt ->
  subscription_valid
    (mkSubscription ref (common_name common) (common_description common)
       (Subscriptions.orEmpty (common_provider common))
       (Subscriptions.a_categoryId args) (Subscriptions.a_cost args)
       (Subscriptions.a_currencyId args) (Subscriptions.a_billingCycle args)
       (Subscriptions.a_nextRenewalDate args) (Subscriptions.a_paymentMethod args)
       (Subscriptions.a_status args) (Subscriptions.a_notificationEnabled args)
       (Subscriptions.a_notificationDaysBefore args)).
Proof.
  intros V C N. apply common_fields_kept in V as (K1 & K2 & K3).
  unfold subscription_valid.
  cbn [sub_name sub_description sub_provider sub_cost sub_notificationDaysBefore].
  split; [exact K1|]. split; [exact K2|]. split; [now apply orEmpty_kept|].
  split; assumption.
Qed.

Lemma store_valid_step (op : Operation) env w :
  store_valid (db w) -> store_valid (db (exec op env w)).
Proof.
  intros U. apply (exec_db_inv store_valid); [exact U|].
  intros w' H. unfold store_valid in *. destruct U as [U1 U2].
  pose proof (keeps_subscriptions op) as Ks.
  pose proof (keeps_the_requests op) as Kr.
  destruct op; try (framed Ks H; framed Kr H; split; assumption); cbn [handler] in H.
  - (* create of a subscription *)
    apply forget_ok in H as [x H].
    apply subscriptions_create_ok_inv in H
      as (? & ? & ? & ? & ? & ? & ? & _ & V & C & _ & N & _ & _ & _ & _ & _ & ->).
    simpl_world. split; [|exact U2].
    apply every_app; [|exact U1]. now apply written_valid.
  - (* update of a subscription *)
    apply forget_ok in H as [x H].
    apply subscriptions_update_ok_inv in H
      as (? & common & ? & ? & ? & provider & _ & V & Hp & C & _ & N & _ & _ & _ & _ & ->).
    simpl_world. split; [|exact U2].
    apply every_update_row; [|exact U1]. intros d _ _.
    pose proof (written_valid (sub_referenceNumber d) common args V C N) as W.
    rewrite Hp in W. exact W.
  - (* bulkCreate *)
    apply forget_ok in H as [x H].
    apply (bulkCreate_ok_inv store_valid) in H; [exact H|split; assumption|].
    intros cats curs i sub env0 w0 r w0' _ _ [V1 V2] E.
    apply bulkCreate_row_cases in E
      as [-> |(? & ? & ? & ? & V & C & N & _ & _ & _ & ->)];
      [split; [split; assumption|split; reflexivity]|].
    simpl_world. split; [|split; reflexivity].
    split; [|exact V2]. apply every_app; [|exact V1]. now apply written_valid.
  - (* remove of a subscription *)
    apply subscriptions_remove_ok_inv in H
      as (? & _ & -> & _ & _ & _ & _ & -> & _).
    split; [now apply every_remove_row|exact U2].
  - (* submit *)
    apply forget_ok in H as [[id ref] H].
    apply submit_ok_full in H
      as (common & provider & ? & ? & ? & ? & ? & ? & V & Hp & Hpos & C & Vn & Ve & Vd &
          Vj & _ & _ & _ & _ & _ & _ & -> & _ & _ & _ & _ & -> & _).
    split; [exact U1|]. apply every_app; [|exact U2].
    apply common_fields_kept in V as (K1 & K2 & K3). rewrite Hp in K3.
    apply validateStringLength_ok in Vn as [Vn _], Vd as [Vd _], Vj as [Vj _].
    unfold request_valid.
    cbn [req_name req_description req_provider req_cost req_requestedBy
         req_requesterEmail req_requesterDepartment req_justification req_adminNotes].
    repeat split; try assumption; try apply sanitizeString_fix;
      try apply K1; try apply K2; try apply K3; lia.
  - (* approve *)
    apply forget_ok in H as [x H]. pose proof (approve_notes _ _ _ _ _ _ _ H) as Hn.
    apply approve_ok_db in H as (? & r & ? & ? & ? & ? & ? & Hr & _ & ->).
    simpl_world. apply lookup_some_row in Hr.
    split.
    + apply every_app; [|exact U1]. apply approved_valid, (U2 _ _ Hr).
    + apply every_update_row; [|exact U2]. intros d _ Hd.
      apply review_valid; [|exact Hd]. now apply optional_notes_kept.
  - (* reject *)
    apply forget_ok in H as [x H]. pose proof (reject_notes _ _ _ _ _ _ _ H) as Hn.
    apply reject_ok_inv in H as (? & ? & ? & _ & _ & _ & _ & _ & -> & ->).
    split; [exact U1|].
    apply every_update_row; [|exact U2]. intros d _ Hd.
    apply review_valid; [|exact Hd]. apply kept_sanitized. lia.
  - (* remove of a request *)
    framed Ks H. apply remove_ok_inv in H as ->.
    split; [exact U1|now apply every_remove_row].
  - (* clearDatabase *)
    apply clearDatabase_ok in H as (_ & _ & -> & _ & -> & _).
    split; apply every_nil.
Qed.

End Valid.

(** X21: every stored subscription and every stored request passes the
    validation, whatever operations are run: the name, the description, the
    provider and the texts of the requester are as [sanitizeString] leaves
    them and within their bounds, the cost is between 0 and 100000000
    (above 0 for a request), the days of notification are within their
    bounds, the address of the requester is a valid one. *)
Theorem store_stays_valid (P : Platform) (ops : list (Operation * Env))
    (w : World SubscriptionRequests.SubscriptionRequest) :
  store_valid (db w) -> store_valid (db (exec_all ops w)).
Proof.
  apply (exec_all_inv (fun w => store_valid (db w))).
  intros op env w0. apply store_valid_step.
Qed.

Lemma every_single {D} (Q : D -> Prop) (i : Id) (d : D) : Q d -> every Q [(i, d)].
Proof. intros H j x [E|[]]. injection E as <- <-. exact H. Qed.

Lemma store_stays_valid_witness :
  store_valid
    (db (exec_all (P := Sample.platform)
           [(subscriptions_update SampleData.admin_email 20 SampleData.free_plan,
             SampleData.sample_env);
            (requests_submit (SampleData.request_args (of_Z 1500)),
             SampleData.sample_env);
            (requests_reject SampleData.admin_email 33
               (lit "Not in the budget of this quarter"), SampleData.sample_env)]
           SampleVault.vault_world)).
Proof.
  apply (store_stays_valid Sample.platform). split; [|apply every_nil].
  apply every_single. unfold subscription_valid, kept.
  repeat split; vm_compute; (reflexivity || discriminate).
Defined.

(** * The scheduler does not decide *)

Section Steady.
Context {Req : Type}.

Lemma alike_refl (w : World Req) : alike w w.
Proof. repeat split. Qed.

Ltac prim :=
  intros env env' w w' (C & R & K) (Hd & Ht & Hr);
  cbn [fst snd db ticks draws]; rewrite ?Hd, ?Ht, ?Hr, ?C, ?R, ?K;
  repeat split; auto.

Lemma steady_ret {A} (a : A) : steady (@ret Req A a).
Proof. unfold steady, alike, ret. prim. Qed.

Lemma steady_throw {A} e : steady (@throw Req A e).
Proof. unfold steady, alike, throw. prim. Qed.

Lemma steady_throwError {A} msg : steady (@throwError Req A msg).
Proof. apply steady_throw. Qed.

Lemma steady_lift {A} (r : Result A) : steady (@lift Req A r).
Proof. unfold steady, alike, lift. prim. Qed.

Lemma steady_read_db : steady (@read_db Req).
Proof. unfold steady, alike, read_db. prim. Qed.

Lemma steady_Date_now : steady (@Date_now Req).
Proof. unfold steady, alike, Date_now. prim. Qed.

Lemma steady_getRandomValues : steady (@getRandomValues Req).
Proof. unfold steady, alike, getRandomValues. prim. Qed.

Lemma steady_console_error line : steady (@console_error Req line).
Proof. unfold steady, alike, console_error. prim. Qed.

Lemma steady_db_get {D} (T : TableRef Req D) id : steady (db_get T id).
Proof. unfold steady, alike, db_get. prim. Qed.

Lemma steady_db_collect {D} (T : TableRef Req D) p : steady (db_collect T p).
Proof. unfold steady, alike, db_collect. prim. Qed.

Lemma steady_db_first {D} (T : TableRef Req D) p : steady (db_first T p).
Proof. unfold steady, alike, db_first. prim. Qed.

Lemma steady_db_unique {D} (T : TableRef Req D) p : steady (db_unique T p).
Proof.
  unfold steady, alike, db_unique.
  intros env env' w w' _ (Hd & Ht & Hr). rewrite Hd.
  destruct (select p (t_get T (db w))) as [|x [|y rest]]; cbn [fst snd]; auto.
Qed.

Lemma steady_db_insert {D} (T : TableRef Req D) doc : steady (db_insert T doc).
Proof. unfold steady, alike, db_insert. prim. Qed.

Lemma steady_db_patch {D} (T : TableRef Req D) id f : steady (db_patch T id f).
Proof.
  unfold steady, alike, db_patch.
  intros env env' w w' _ (Hd & Ht & Hr). rewrite Hd.
  destruct (lookup (t_get T (db w)) id); cbn [fst snd db ticks draws]; auto.
Qed.

Lemma steady_db_delete {D} (T : TableRef Req D) id : steady (db_delete T id).
Proof.
  unfold steady, alike, db_delete.
  intros env env' w w' _ (Hd & Ht & Hr). rewrite Hd.
  destruct (lookup (t_get T (db w)) id); cbn [fst snd db ticks draws]; auto.
Qed.

(** The notification in its [try] and [catch]. *)
Lemma steady_notify job line :
  steady (try_catch (@scheduler_runAfter Req job) (fun _ => console_error line)).
Proof.
  unfold steady, alike, try_catch, scheduler_runAfter, console_error.
  intros env env' w w' _ (Hd & Ht & Hr).
  destruct (env_scheduler_up env), (env_scheduler_up env');
    cbn [fst snd db ticks draws]; auto.
Qed.

Lemma steady_bind {A B} (m : M Req A) (k : A -> M Req B) :
  steady m -> (forall a, steady (k a)) -> steady (bind m k).
Proof.
  intros Hm Hk env env' w w' He Hw. destruct (Hm env env' w w' He Hw) as [E A0].
  unfold bind.
  destruct (m env w) as [[a|e] w1], (m env' w') as [[a'|e'] w1'];
    cbn [fst snd] in *; try discriminate E.
  - injection E as ->. now apply Hk.
  - injection E as ->. auto.
Qed.

Lemma steady_try_catch {A} (m : M Req A) h :
  steady m -> (forall e, steady (h e)) -> steady (try_catch m h).
Proof.
  intros Hm Hh env env' w w' He Hw. destruct (Hm env env' w w' He Hw) as [E A0].
  unfold try_catch.
  destruct (m env w) as [[a|e] w1], (m env' w') as [[a'|e'] w1'];
    cbn [fst snd] in *; try discriminate E.
  - injection E as ->. auto.
  - injection E as ->. now apply Hh.
Qed.

Lemma steady_getEncryptionKey : steady (@Credentials.getEncryptionKey Req).
Proof.
  unfold steady, Credentials.getEncryptionKey, bind, read_env.
  intros env env' w w' (_ & _ & K) Hw. rewrite K.
  destruct (env_ENCRYPTION_KEY env) as [[|c rest]|]; cbn [fst snd]; auto.
  destruct (_ <? 32); cbn [fst snd]; auto.
Qed.

Lemma steady_forget {A} (m : M Req A) : steady m -> steady (forget m).
Proof. intros H. apply steady_bind; [exact H|intros; apply steady_ret]. Qed.

End Steady.

Ltac steady_tac :=
  repeat first
    [ apply steady_forget
    | apply steady_ret | apply steady_throw | apply steady_throwError
    | apply steady_lift | apply steady_read_db | apply steady_Date_now
    | apply steady_getRandomValues | apply steady_console_error
    | apply steady_db_get | apply steady_db_collect | apply steady_db_first
    | apply steady_db_unique | apply steady_db_insert | apply steady_db_patch
    | apply steady_db_delete | apply steady_getEncryptionKey
    | apply steady_notify
    | apply steady_try_catch; [|intros ?]
    | match goal with
      | |- steady (if ?c then _ else _) => destruct c
      | |- steady (match ?x with _ => _ end) => destruct x
      | |- steady (bind _ _) => apply steady_bind; [|intros ?]
      end ].

Section SteadyHandlers.
Context {P : Platform}.

Lemma steady_requireAdmin {Req} email : steady (@requireAdmin P Req email).
Proof. unfold requireAdmin. steady_tac. Qed.

Lemma steady_generateReferenceNumber {Req} type :
  steady (@generateReferenceNumber Req type).
Proof. unfold generateReferenceNumber. steady_tac. Qed.

Lemma steady_updateCounter {Req} limit key now windowStart :
  steady (@updateCounter Req limit key now windowStart).
Proof. unfold updateCounter. steady_tac. Qed.

Lemma steady_delete_all {Req D} (T : TableRef Req D) rows :
  steady (Subscriptions.delete_all T rows).
Proof.
  induction rows as [|[id d] rows IH]; cbn [Subscriptions.delete_all].
  - apply steady_ret.
  - apply steady_bind; [apply steady_db_delete|intros _; exact IH].
Qed.

Lemma steady_bulkCreate_loop {Req} cats curs subs :
  forall i results,
    steady (@Subscriptions.bulkCreate_loop P Req cats curs i subs results).
Proof.
  induction subs as [|sub subs IH]; intros i results;
    cbn [Subscriptions.bulkCreate_loop].
  - apply steady_ret.
  - apply steady_bind; [|intros r; apply IH].
    unfold Subscriptions.bulkCreate_row.
    repeat first [ apply steady_generateReferenceNumber | progress steady_tac ].
Qed.

Lemma steady_handler (op : Operation) : steady (handler op).
Proof.
  destruct op; cbn [handler]; autounfold with handlers;
    unfold Subscriptions.bulkCreate, Seed.clearDatabase; cbv zeta;
    repeat first
      [ apply steady_requireAdmin | apply steady_generateReferenceNumber
      | apply steady_updateCounter | apply steady_delete_all
      | apply steady_bulkCreate_loop | progress steady_tac ].
Qed.

End SteadyHandlers.

(** X22: whether the scheduler takes the job of a notification does not
    decide anything else: with the same clock, random source and key, an
    operation returns the same result, or throws the same error, and leaves
    the same database, the scheduler being up or down. *)
Theorem scheduler_does_not_decide (P : Platform) (op : Operation) (env env' : Env)
    (w : World SubscriptionRequests.SubscriptionRequest) :
  same_inputs env env' ->
  fst (mutation (handler op) env' w) = fst (mutation (handler op) env w) /\
  db (exec op env' w) = db (exec op env w).
Proof.
  intros He. unfold exec, mutation.
  destruct (steady_handler op env env'
              (mkWorld (db w) (scheduled w) (console w) 0 0)
              (mkWorld (db w) (scheduled w) (console w) 0 0) He (alike_refl _))
    as [E (Hd & _)].
  destruct (handler op env _) as [[a|e] w1], (handler op env' _) as [[a'|e'] w1'];
    cbn [fst snd] in *; try discriminate E; injection E as ->; auto.
Qed.

Lemma scheduler_does_not_decide_witness :
  fst (mutation (handler (P := Sample.platform)
                   (requests_submit (SampleData.request_args (of_Z 1500))))
         (mkEnv (fun _ => SampleData.jan15) (fun _ => iv0) (Some k32) false)
         SampleData.sample_world) =
  fst (mutation (handler (P := Sample.platform)
                   (requests_submit (SampleData.request_args (of_Z 1500))))
         SampleData.sample_env SampleData.sample_world) /\
  db (exec (P := Sample.platform)
        (requests_submit (SampleData.request_args (of_Z 1500)))
        (mkEnv (fun _ => SampleData.jan15) (fun _ => iv0) (Some k32) false)
        SampleData.sample_world) =
  db (exec (P := Sample.platform)
        (requests_submit (SampleData.request_args (of_Z 1500)))
        SampleData.sample_env SampleData.sample_world).
Proof.
  apply (scheduler_does_not_decide Sample.platform
           (requests_submit (SampleData.request_args (of_Z 1500)))
           SampleData.sample_env
           (mkEnv (fun _ => SampleData.jan15) (fun _ => iv0) (Some k32) false)
           SampleData.sample_world).
  repeat split.
Defined.

(** * The queries on credentials *)

Section Queries.
Context {P : Platform} {Req : Type}.
Import CredentialQueries.

Lemma masked_blank (r : Id * Credential) : masked (blank_row r) = masked r.
Proof. reflexivity. Qed.

Lemma select_blank (p : Credential -> bool) (t : Table Credential) :
  (forall c, p (blank c) = p c) ->
  select p (map blank_row t) = map blank_row (select p t).
Proof.
  intros Hp. unfold select. induction t as [|r t IH]; [reflexivity|].
  cbn [map filter]. cbn [blank_row snd]. rewrite Hp.
  destruct (p (snd r)); cbn [map]; now rewrite IH.
Qed.

Lemma lookup_blank (t : Table Credential) (id : Id) :
  lookup (map blank_row t) id = option_map blank (lookup t id).
Proof.
  unfold lookup. induction t as [|r t IH]; [reflexivity|].
  cbn [map find]. cbn [blank_row fst snd].
  destruct (fst r =? id); [reflexivity|exact IH].
Qed.

Lemma requireAdmin_redact adminEmail env (w : World Req) :
  requireAdmin adminEmail env (redact w) =
    (fst (requireAdmin adminEmail env w), redact w).
Proof.
  rewrite requireAdmin_run. f_equal.
  apply (requireAdmin_users adminEmail env env w (redact w)). reflexivity.
Qed.

Lemma list_redact adminEmail env (w : World Req) :
  fst (list adminEmail env (redact w)) = fst (list adminEmail env w).
Proof.
  unfold list, bind. rewrite requireAdmin_redact.
  rewrite (requireAdmin_run adminEmail env w).
  destruct (fst (requireAdmin adminEmail env w)) as [admin|e]; [|reflexivity].
  unfold db_collect, ret. cbn [fst snd db redact t_get t_set Credentials Subscriptions
                                credentials subscriptions].
  f_equal. rewrite (select_blank (fun _ => true)) by reflexivity.
  rewrite map_map. apply map_ext. intros r. reflexivity.
Qed.

Lemma getBySubscription_redact adminEmail subscriptionId env (w : World Req) :
  fst (getBySubscription adminEmail subscriptionId env (redact w)) =
  fst (getBySubscription adminEmail subscriptionId env w).
Proof.
  unfold getBySubscription, bind. rewrite requireAdmin_redact.
  rewrite (requireAdmin_run adminEmail env w).
  destruct (fst (requireAdmin adminEmail env w)) as [admin|e]; [|reflexivity].
  unfold db_unique. cbn [db redact t_get t_set Credentials credentials].
  rewrite select_blank by reflexivity.
  destruct (select _ (credentials (db w))) as [|x [|y rest]]; reflexivity.
Qed.

Lemma get_redact adminEmail id env (w : World Req) :
  fst (get adminEmail id env (redact w)) = fst (get adminEmail id env w).
Proof.
  unfold get, bind. rewrite requireAdmin_redact.
  rewrite (requireAdmin_run adminEmail env w).
  destruct (fst (requireAdmin adminEmail env w)) as [admin|e]; [|reflexivity].
  unfold db_get. cbn [db redact t_get t_set Credentials Subscriptions credentials
                       subscriptions].
  rewrite lookup_blank.
  destruct (lookup (credentials (db w)) id) as [c|]; reflexivity.
Qed.

End Queries.

(** X23: the queries on credentials do not read the stored passwords: each
    of [list], [getBySubscription] and [get] returns the same on the store
    in which every password is blanked, and the password it shows is the
    mask. *)
Theorem queries_hide_passwords (P : Platform) (Req : Type) adminEmail subscriptionId id
    env (w : World Req) :
  fst (CredentialQueries.list adminEmail env (redact w)) =
    fst (CredentialQueries.list adminEmail env w) /\
  fst (CredentialQueries.getBySubscription adminEmail subscriptionId env (redact w)) =
    fst (CredentialQueries.getBySubscription adminEmail subscriptionId env w) /\
  fst (CredentialQueries.get adminEmail id env (redact w)) =
    fst (CredentialQueries.get adminEmail id env w) /\
  forall r, CredentialQueries.m_password (CredentialQueries.masked r) =
            CredentialQueries.mask.
Proof.
  split; [apply list_redact|]. split; [apply getBySubscription_redact|].
  split; [apply get_redact|reflexivity].
Qed.

(** * The two checks of the caller *)

(** X24: [getAdminOrNull] answers as [requireAdmin] does: the admin that
    [requireAdmin] returns, [null] where [requireAdmin] throws one of its
    two errors, and the error of the look-up where two users have the
    address; neither of them writes. *)
Theorem getAdminOrNull_agrees (P : Platform) (Req : Type) email env (w : World Req) :
  match requireAdmin email env w with
  | (Ok admin, w') => w' = w /\ getAdminOrNull email env w = (Ok (Some admin), w)
  | (Throw NotUniqueError, w') =>
      w' = w /\ getAdminOrNull email env w = (Throw NotUniqueError, w)
  | (Throw e, w') =>
      w' = w /\ getAdminOrNull email env w = (Ok None, w) /\
      (e = JsError "Authentication required" \/ e = JsError "Admin access required")
  end.
Proof.
  unfold requireAdmin, getAdminOrNull.
  destruct (JsString.length email =? 0);
    [unfold throwError, throw, ret; repeat split; auto|].
  unfold bind, db_unique, throwError, throw, ret.
  destruct (select _ (t_get Users (db w))) as [|[id u] [|y rest]];
    [repeat split; auto| |repeat split; auto].
  destruct (negb (eqb (user_role u) (lit "admin"))); repeat split; auto.
Qed.

(** * A new admin *)

Section NewAdmin.
Context {P : Platform}.

Lemma nonempty_check (s : jsstring) :
  s <> [] -> (JsString.length s =? 0) || (JsString.length s <? 1) = false.
Proof.
  intros H. destruct s as [|c s]; [congruence|].
  unfold JsString.length. cbn [List.length].
  destruct (Z.eqb_spec (Z.of_nat (S (List.length s))) 0); [lia|].
  destruct (Z.ltb_spec (Z.of_nat (S (List.length s))) 1); [lia|reflexivity].
Qed.

End NewAdmin.

(** X25: an admin made by [createAdminInternal] can log in and is an admin
    for [requireAdmin]: with the address and the password given, [login]
    returns the new user, and [requireAdmin] accepts the stored address
    (bcrypt accepts the hash of the password; the password is not empty; the
    stored address is its own lower-case form). *)
Theorem new_admin_logs_in (P : Platform) email name password env env'
    (w w1 : World SubscriptionRequests.SubscriptionRequest) id :
  mutation (Auth.createAdminInternal email name password) env w = (Ok id, w1) ->
  bcrypt_compareSync password (bcrypt_hashSync password 12) = true ->
  password <> [] ->
  toLowerCase (trim (toLowerCase email)) = trim (toLowerCase email) ->
  let admin := mkAdminUser id (trim (toLowerCase email)) (trim name) (lit "admin") in
  fst (mutation (Auth.login email password) env' w1) = Ok admin /\
  fst (requireAdmin (trim (toLowerCase email)) env' w1) = Ok admin.
Proof.
  intros H Hb Hp Hl admin. apply mutation_ok_inv in H.
  apply createAdminInternal_ok_inv in H as (V & S & -> & Hd). simpl_world.
  assert (Hsel : select (fun u => eqb (user_email u) (trim (toLowerCase email)))
                   (users (db w1)) =
                 [(nextId (db w),
                   mkUser (trim (toLowerCase email)) (trim name)
                     (bcrypt_hashSync password 12) (lit "admin"))]).
  { rewrite Hd. simpl_world. rewrite select_app, S. cbn [snd user_email app].
    now rewrite eqb_refl. }
  split.
  - unfold mutation, Auth.login. cbv zeta. rewrite V. cbn [negb].
    rewrite (nonempty_check password Hp).
    unfold bind, db_unique. cbn [db t_get Users]. rewrite Hsel.
    cbn [user_passwordHash user_email user_name user_role]. rewrite Hb. reflexivity.
  - unfold requireAdmin.
    assert ((JsString.length (trim (toLowerCase email)) =? 0) = false) as ->.
    { unfold validateEmail in V.
      destruct (JsString.length (trim (toLowerCase email)) =? 0);
        [discriminate V|reflexivity]. }
    unfold bind, db_unique. cbn [db t_get Users]. rewrite Hl, Hsel.
    cbn [user_role user_email user_name]. rewrite eqb_refl. reflexivity.
Qed.

Lemma new_admin_logs_in_witness :
  fst (mutation (Auth.login (P := Sample.platform) (lit "Root@Company.com")
                   (lit "secret"))
         SampleData.sample_env
         (snd (mutation (Auth.createAdminInternal (P := Sample.platform)
                           (lit "Root@Company.com") (lit " Root ") (lit "secret"))
                 SampleData.sample_env SampleData.sample_world))) =
    Ok (mkAdminUser 10 (lit "root@company.com") (lit "Root") (lit "admin")) /\
  fst (requireAdmin (P := Sample.platform) (lit "root@company.com")
         SampleData.sample_env
         (snd (mutation (Auth.createAdminInternal (P := Sample.platform)
                           (lit "Root@Company.com") (lit " Root ") (lit "secret"))
                 SampleData.sample_env SampleData.sample_world))) =
    Ok (mkAdminUser 10 (lit "root@company.com") (lit "Root") (lit "admin")).
Proof.
  apply (new_admin_logs_in Sample.platform (lit "Root@Company.com") (lit " Root ")
           (lit "secret") SampleData.sample_env SampleData.sample_env
           SampleData.sample_world _ 10).
  - vm_compute. reflexivity.
  - vm_compute. reflexivity.
  - discriminate.
  - vm_compute. reflexivity.
Defined.

(** * The limit on all submissions together *)

Ltac checks_of Hacc :=
  unfold Limiter.accepted in Hacc;
  let V := fresh "V" in
  destruct (validateAndSanitizeCommonFields _ _ _ _ _) as [common|] eqn:V;
    [|discriminate Hacc];
  cbv zeta in Hacc;
  repeat (let H := fresh "Hc" in apply andb_prop in Hacc as [Hacc H]).

Section GlobalLimit.
Context {P : Platform}.
Import SubscriptionRequests Limiter.

(** The handler on an accepted submission when the global record is in its
    window and at the limit. *)
Lemma submit_busy args env (w : World SubscriptionRequest) :
  store_ok (db w) ->
  accepted args (db w) = true ->
  over RATE_LIMIT_GLOBAL (env_clock env (ticks w))
    (record_of (lit "global") (rateLimits (db w))) = true ->
  submit args env w =
    (Throw (JsError "Service is temporarily busy. Please try again later."),
     mkWorld (db w) (scheduled w) (console w) (S (ticks w)) (draws w)).
Proof.
  intros [(N & F & K) U] Hacc Hg.
  checks_of Hacc.
  apply negb_true_iff in Hacc, Hc4.
  apply passes_ok in Hc7 as [u1 V1], Hc6 as [u2 V2], Hc3 as [u3 V3], Hc2 as [u4 V4].
  destruct (common_provider common) as [provider|] eqn:Vp; [|discriminate Hc1].
  apply negb_true_iff in Hc1.
  unfold submit.
  erewrite bind_ok by (unfold lift; rewrite V; reflexivity). cbv zeta.
  rewrite Hacc.
  erewrite bind_ok by (unfold lift; rewrite V1; reflexivity).
  erewrite bind_ok by (unfold lift; rewrite V2; reflexivity).
  rewrite Hc5; cbn [negb]; rewrite Hc4.
  erewrite bind_ok by (unfold lift; rewrite V3; reflexivity).
  erewrite bind_ok by (unfold lift; rewrite V4; reflexivity).
  rewrite Vp, Hc1.
  rewrite (bind_ok _ _ _ _ _ _ (Date_now_eq env w)).
  erewrite bind_ok by (apply db_unique_hd, K).
  erewrite bind_ok by (apply db_unique_hd, K).
  erewrite bind_ok by apply db_get_eq.
  erewrite bind_ok by apply db_get_eq.
  cbn [db t_get RateLimits Categories Currencies].
  rewrite exceeded_over, Hg. reflexivity.
Qed.

End GlobalLimit.

(** X26: the global record counts the accepted submissions of all
    requesters together: a submission that goes through adds one to its
    count (or opens a new window), and while the record is in its window
    with a count of 100 or more, every submission is refused with the
    error of a busy service, before the record of the requester is looked
    at, and the state is left as it was. *)
Theorem global_limit (P : Platform) (args : SubscriptionRequests.SubmitArgs) (env : Env)
    (w : World SubscriptionRequests.SubscriptionRequest) :
  Limiter.store_ok (db w) ->
  Limiter.accepted args (db w) = true ->
  let now := Limiter.call_time env in
  let record := Limiter.record_of (lit "global") (rateLimits (db w)) in
  RATE_LIMIT_GLOBAL = 100 /\
  (Limiter.over RATE_LIMIT_GLOBAL now record = true ->
   mutation (SubscriptionRequests.submit args) env w =
     (Throw (JsError "Service is temporarily busy. Please try again later."), w)) /\
  (Limiter.over RATE_LIMIT_GLOBAL now record = false ->
   Limiter.over RATE_LIMIT_PER_EMAIL now
     (Limiter.record_of (Limiter.email_key args) (rateLimits (db w))) = false ->
   exists res w',
     mutation (SubscriptionRequests.submit args) env w = (Ok res, w') /\
     Limiter.record_of (lit "global") (rateLimits (db w')) =
       Some (Limiter.record_after now record)).
Proof.
  intros S Ha now record. split; [reflexivity|]. split.
  - intros Hg. unfold mutation.
    rewrite (submit_busy args env (mkWorld (db w) (scheduled w) (console w) 0 0) S Ha Hg).
    reflexivity.
  - intros Hg He.
    pose proof (submit_checked args env (mkWorld (db w) (scheduled w) (console w) 0 0)
                  S Ha Hg) as H.
    cbv zeta in H. cbn [db ticks] in H. fold (Limiter.call_time env) in H.
    fold now in H. rewrite He in H.
    destruct H as (res & w' & E & _ & _ & _ & _ & Hr).
    exists res, w'. unfold mutation. rewrite E. split; [reflexivity|exact Hr].
Qed.

Lemma global_limit_witness :
  RATE_LIMIT_GLOBAL = 100 /\
  (Limiter.over RATE_LIMIT_GLOBAL (Limiter.call_time SampleData.sample_env)
     (Limiter.record_of (lit "global") (rateLimits (db busy_world))) = true ->
   mutation (SubscriptionRequests.submit (P := Sample.platform)
               (SampleData.request_args (of_Z 1500)))
     SampleData.sample_env busy_world =
     (Throw (JsError "Service is temporarily busy. Please try again later."),
      busy_world)) /\
  (Limiter.over RATE_LIMIT_GLOBAL (Limiter.call_time SampleData.sample_env)
     (Limiter.record_of (lit "global") (rateLimits (db busy_world))) = false ->
   Limiter.over RATE_LIMIT_PER_EMAIL (Limiter.call_time SampleData.sample_env)
     (Limiter.record_of
        (Limiter.email_key (P := Sample.platform) (SampleData.request_args (of_Z 1500)))
        (rateLimits (db busy_world))) = false ->
   exists res w',
     mutation (SubscriptionRequests.submit (P := Sample.platform)
                 (SampleData.request_args (of_Z 1500)))
       SampleData.sample_env busy_world = (Ok res, w') /\
     Limiter.record_of (lit "global") (rateLimits (db w')) =
       Some (Limiter.record_after (Limiter.call_time SampleData.sample_env)
               (Limiter.record_of (lit "global") (rateLimits (db busy_world))))).
Proof.
  apply (global_limit Sample.platform (SampleData.request_args (of_Z 1500))
           SampleData.sample_env busy_world).
  - split; [split; [repeat constructor; cbn; tauto
                   |split; [repeat constructor|]]|].
    + intros key. cbn. destruct (by_key _ _); cbn; lia.
    + intros name. unfold one_counter. cbn. lia.
  - vm_compute. reflexivity.
Defined.
